(* ===== verification/_CoqProject ===== *)
-Q . S2P
Prelude.v
RustStr.v
Logger.v
IpAddr.v
RustPath.v
Fs.v
Helpers.v
Transport.v
Tls.v
Signals.v
WinService.v
FsStream.v
ContentCoding.v
Http.v
HttpInstances.v
Opts.v
Settings.v
Cli.v
FsPath.v
FsMeta.v
F32.v
QualityValue.v
ErrorPage.v
Compression.v
CompressionStatic.v
ConditionalHeaders.v
ResponseBody.v
MemCache.v
DirectoryListing.v
StaticFiles.v
CacheProtocol.v
Cors.v
ControlHeaders.v
SecurityHeaders.v
Health.v
Metrics.v
MaintenanceMode.v
FallbackPage.v
VirtualHosts.v
CustomHeaders.v
BasicAuth.v
Redirects.v
Rewrites.v
HttpsRedirect.v
LogAddr.v
UnitTests.v
TestsPass.v
Handler.v
Service.v
Server.v
StartServer.v
Main.v
Testing.v
Delivery.v
Client.v
Secrets.v
