(* ===== verification/Prelude.v ===== *)
(** * static-web-server: a verification development

    A model of static-web-server (the Rust sources under [src/src]), from the
    command line to the bytes of a response and the shutdown, and the theorems
    that make it correct.  All features are taken as enabled and the platform is
    Unix ([#[cfg]] choices), but for [WinService].  Rust functions are Gallina
    functions; effects are explicit:

    - a fallible function returns [Result A E]: [Ok], [Err], or [Panic] for the
      points where Rust would panic ([unwrap], [unreachable!]), so that the
      absence of panics is a theorem;
    - the file system is an argument ([Fs.FileSystem], a record of the queries the
      program makes); the program never writes files;
    - the in-memory cache is a store passed to and returned from the functions
      that use it, and a step relation over all interleavings of requests, reads,
      evictions and changes of the files in [CacheProtocol];
    - a body read from disk is a stream that is drained by polling, with reads of
      any size;
    - a connection is polled: each operation is a function of the state and of what
      the system and the peer contribute to the poll ([Transport]);
    - what is logged while the settings are read and the server starts is written
      by a writer monad ([Logger.Logged]), whose events come with the outcome;
    - the concurrent tasks of the shutdown are a step relation ([Signals],
      [WinService]), and what they promise is proved of every maximal run;
    - strings, paths and header values are byte strings; [u64] arithmetic wraps
      where the code computes on request data ([wrap_u64]).

    ** How the program works

    [main] reads the settings and prints the version, generates files or runs the
    server.  [Settings::read] parses the command line, merges it with the
    configuration file and compiles the rules; [start_server] binds the listener,
    turns the settings into [RequestHandlerOpts] and starts the services: HTTP/1 in
    clear, or HTTP/2 over TLS and, on request, a server that redirects to it; each
    runs until [wait_for_signals] returns.  A service serves each request of a
    connection with [RequestHandler::handle]: a
    chain of checks that may answer at once (method, health, metrics, CORS, basic
    authentication, maintenance, redirects), rewriting of the request, the choice
    of the root by virtual host, the static files, and a chain of steps that
    complete the response (fallback page, CORS headers, [Vary], compression,
    [Cache-Control], security headers, custom headers).  The static-files part
    sanitises the path, looks in the cache, resolves index files, [.html] suffixes
    and precompressed variants, and answers with a redirect, a listing or a file
    (conditional and range requests included).

    ** Files and the sources they model

    - [Prelude]: results, 64-bit arithmetic, stable sorting, loops that stop at
      the first error or match, tactics and the hint database [sws].
    - [RustStr], [RustPath], [IpAddr], [F32]: what the code uses of [std]: byte
      strings, [trim], [split], UTF-8 validation and lossy decoding, number parsing,
      [std::path] on Unix, parsing and printing addresses, parsing and multiplying
      [f32].
    - [Fs], [Helpers]: the file system and [helpers.rs]; [table_fs] is an instance
      given by a list of files.  [FsStream]: [fs/stream.rs].  [FsPath]: [fs/path.rs].
      [FsMeta]: [fs/meta.rs].
    - [Http]: methods ([http_ext.rs]), status codes, requests, responses, bodies
      and the classes of the HTTP crates; [HttpInstances]: their instances.
    - [Opts]: the shared options: [handler.rs], [settings/mod.rs], [cors.rs].
    - [Logger]: the log: events, the macros of [logger.rs] and the writer monad.
      [Cli]: [settings/cli.rs].  [Settings]: [settings/mod.rs], [settings/file.rs],
      the subscriber of [logger.rs].
    - [Server]: the options [start_server] makes ([server.rs]), with the [init]
      functions of the components.  [StartServer]: the listener and the services.
      [Main]: [bin/server.rs], [settings/cli_output.rs], [run_server_on_rt].
      [Delivery], [Client], [Secrets]: theorems on the composition of all of them:
      what the server sends, what a client decodes, what the start-up log reveals.
    - [UnitTests]: the [mod tests] of the source files, test by test; [TestsPass]:
      the answers of other crates on the inputs of the tests, and that they pass.  [Testing]:
      [testing.rs].
    - [Transport], [Tls]: [transport.rs], [tls.rs].  [Service]: [service.rs].
      [Signals]: [signals.rs].  [WinService]: [winservice.rs] and the Windows part
      of [signals.rs].
    - [ContentCoding], [QualityValue]: [headers_ext/*.rs].
      [Compression]: [compression.rs].  [CompressionStatic]: [compression_static.rs].
    - [ConditionalHeaders]: [conditional_headers.rs].  [ResponseBody]: [response.rs].
    - [MemCache]: [mem_cache/*.rs].  [CacheProtocol]: the cache under concurrent
      requests, as a transition system over [StaticFiles] and [MemCache].
    - [DirectoryListing]: [directory_listing.rs].  [StaticFiles]: [static_files.rs].
    - [ErrorPage], [Cors], [ControlHeaders], [SecurityHeaders], [Health],
      [Metrics], [MaintenanceMode], [FallbackPage], [VirtualHosts],
      [CustomHeaders], [BasicAuth], [Redirects], [Rewrites], [HttpsRedirect],
      [LogAddr]: the source files of the same name.
    - [Handler]: [handler.rs], the composition of all of them.

    ** Crates

    Code outside the repository is a class whose laws are documented behaviour of
    the crate: [HttpC] (header maps, header values, URIs), [HeadersC] (typed
    headers, MIME types), [MatchC] (regular expressions, globs, multi-pattern
    replacement), [PercentC] (percent encoding), [ListingC] (dates, form decoding,
    JSON and HTML escaping), [OriginC] (origins), [BcryptC] (password hashes),
    [ConfigC] (TOML, pattern compilers), [TracingC] (log levels and
    subscriber), [CodecC] (encoders and decoders of the codings), [ClapC] (matching a
    command line: precedence of its sources, conditional requirements, conflicts),
    [TlsC] (PEM sections, handshake, encrypted stream), [TokioC] (channels), [NetC]
    (sockets), [ScmC] (the service control manager).  Those with laws have a
    concrete instance, on which the witnesses evaluate.

    ** What the theorems show

    Each theorem states its side conditions; those that matter are named here.

    - Confinement: the answer of the whole handler depends on no file outside the
      root of the host that is asked for and the configured pages, so virtual hosts
      are isolated from each other ([Handler.handle_reads_only_roots]); for a request
      of the root itself the siblings of the root with [.html] or the extension of a
      coding are read too ([StaticFiles.root_serves_html_sibling]).  A sanitised path
      is the base followed by plain names ([FsPath.sanitize_path_confined]).
    - Totality: a server that starts answers every request, whatever the files and
      the cache are by then, without error or panic but for metrics that cannot be
      encoded ([Server.started_server_total]), and starts only when well configured
      ([Server.started_configuration], [Settings.compile_advanced_spec]).
    - Transport security: with HTTP/2 no file is sent in clear and the redirect
      server answers only redirects to the configured host and bad requests
      ([StartServer.http2_never_clear], which also says when it panics); from the
      command line to the services, the security headers are on with it
      ([Main.http2_command_line_secure]); which services start, with which identity
      ([StartServer.start_server_services]); what building a TLS configuration gives
      on every branch ([Tls.build_spec]); a TLS connection is a handshake and then
      the encrypted stream, for every sequence of operations
      ([Tls.tls_stream_refines]).
    - Shutdown: a termination signal, the end of the cancellation channel or a stop
      event of the service manager makes every run of the tasks end, after the grace
      period ([Signals.signal_shuts_down], [Signals.cancel_shuts_down],
      [WinService.service_stop_shuts_down]); hang-up signals do not
      ([Signals.hangup_ignored]); one message whose sender stays alive reaches one
      of several servers only ([Signals.cancel_wakes_one]).
    - Log: the access line of a request in full, so what a client can put in it
      ([LogAddr.forwarded_in_log]); the start-up log and that line do not depend on
      the configured credentials, nor on those of a request
      ([Secrets.startup_log_hides_credentials], a relational proof over the whole
      start).
    - Access control: without the configured credentials no file is served, but to
      [OPTIONS] from the cache ([Handler.handle_auth_guard],
      [BasicAuth.basic_auth_exact], [CacheProtocol.options_on_cached_file]); CORS
      accepts exactly the allowed requests and adds headers only for them
      ([Cors.check_request_exact], [Cors.cors_post_process_spec]), for the
      configuration it is given ([Cors.cors_new_spec]).
    - End to end, without the cache: a server that [main] starts, from a command line
      and a configuration file with rewrites, virtual hosts and custom headers,
      answers a [GET] that leads to a file with the bytes of the file or of the
      range, through every step of the handler ([Delivery.started_server_delivers],
      where no coding is applied); whatever codings the client accepts, decoding the
      answer gives the file ([Client.client_gets_file]).
    - Files: a response delivers exactly the bytes of the file or range, whatever
      the read sizes ([ResponseBody.response_body_spec],
      [StaticFiles.handle_serves_file]); a single range is treated as RFC 9110
      allows but for three exceptions, which are exact
      ([ResponseBody.bytes_range_rfc]).
    - Cache: whatever the interleaving of requests, partial reads, evictions and
      changes of the files, every entry is a whole file as it once was
      ([CacheProtocol.cache_coherent]); while the files do not change, the answers
      are those without the cache ([CacheProtocol.cache_transparent], which excludes
      [OPTIONS] and static compression, where they are not).
    - Listings: which entries are listed, and how; links lead to their entries, names
      cannot inject markup, sorting is a stable sort, sizes are rounded as stated.
    - Content negotiation, error pages, redirects, rewrites, virtual hosts and the
      header steps: the behaviour of each on every branch, stated on the rules and
      headers and not through the functions that evaluate them.
    - Validation of the model: the 63 unit tests of the crate pass, given the answers
      of other crates on their inputs ([TestsPass.unit_tests_pass]); the handler of
      the integration tests is the one a server starts
      ([Testing.fixture_is_server]); the defaults of the command line
      ([Cli.cli_defaults]).

    ** Fuel and bounds

    String scanners that are not structurally recursive take the length of the
    string as fuel, and every step consumes a byte.  Draining a stream takes any
    fuel larger than the length of the data, shown to be enough in the theorems
    that mention it; so does reading a PEM file, and the loop over its sections takes
    the length of the buffer, which every section shortens.  The binary search of
    [ControlHeaders] takes the length of the list.  The steps of the shutdown tasks
    decrease a measure, so every run is finite between two external events.

    ** Not modelled

    The operating system's sockets, the scheduler of the runtime (the tasks of the
    shutdown interleave in any order), the tokenisation of the command line and the
    help output of the argument parser, the cryptography of TLS.  Of the log, the
    lines of the start-up and the access line of a request ([log_addr.rs]) are
    modelled; all other lines that are written while a request is served are not, the
    warnings and errors of [basic_auth.rs], [error_page.rs], [cors.rs],
    [static_files.rs] and others among them, and neither are those of the shutdown
    and of the Windows service.  Encoders are symbolic: an encoded body records
    the coding, the level and the original body, and [Client] interprets it with any codec.  Eviction and
    expiry of the cache crate are arbitrary removals.  [lib.rs], [error.rs] and the
    [mod.rs] files hold declarations, re-exports and aliases.  The conversion of a
    pair to a [QualityValue] is not used by the program.

    ** Plan

    Next: the end-to-end theorems with the cache, and the composition of the
    shutdown with the services (requests in flight). *)

From stdpp Require Export base tactics list strings gmap sorting pretty.
From Stdlib Require Export Ascii ZArith Lia.

Set Default Goal Selector "!".

(** ** Results

    [Result A E] is Rust's [Result<A, E>] with one more outcome, [Panic]: the
    thread panicked ([unwrap] on [None], [unreachable!()], ...).  The release
    profile of the program sets [panic = "abort"], so a panic ends the server
    and the absence of panics is a property worth proving. *)

Inductive Result (A E : Type) : Type :=
| Ok (a : A)
| Err (e : E)
| Panic.

Arguments Ok {A E} a.
Arguments Err {A E} e.
Arguments Panic {A E}.

(** [anyhow::Error]: its message. *)
Notation Error := string (only parsing).

Declare Scope sws_scope.
Delimit Scope sws_scope with sws.

(** The [?] operator: propagate the error (and the panic). *)
Definition rbind {A B E : Type} (r : Result A E) (k : A → Result B E) : Result B E :=
  match r with
  | Ok a => k a
  | Err e => Err e
  | Panic => Panic
  end.

Notation "'let?' x ':=' r 'in' k" := (rbind r (λ x, k))
  (at level 10, x binder, r at level 100, k at level 200,
   format "'[v' 'let?'  x  ':='  r  'in' '/' k ']'") : sws_scope.

(** [Option::unwrap]. *)
Definition unwrap {A E : Type} (o : option A) : Result A E :=
  match o with
  | Some a => Ok a
  | None => Panic
  end.

(** [Option::ok_or]. *)
Definition ok_or {A E : Type} (o : option A) (e : E) : Result A E :=
  match o with
  | Some a => Ok a
  | None => Err e
  end.

(** [Result::ok]. *)
Definition res_ok {A E : Type} (r : Result A E) : option A :=
  match r with
  | Ok a => Some a
  | _ => None
  end.

Definition is_ok {A E : Type} (r : Result A E) : bool :=
  match r with
  | Ok _ => true
  | _ => false
  end.

Definition is_panic {A E : Type} (r : Result A E) : bool :=
  match r with
  | Panic => true
  | _ => false
  end.

(** ** Machine-width integers

    Unsigned integers are kept in [Z] and wrapped where the source's
    arithmetic wraps (release profile: no overflow checks). *)

Definition u8_max : Z := 255.
Definition u16_max : Z := 65535.
Definition u32_max : Z := 4294967295.
Definition u64_max : Z := 18446744073709551615.

Definition wrap_u64 (z : Z) : Z := (z `mod` (u64_max + 1))%Z.

Definition is_u64 (z : Z) : Prop := (0 ≤ z ≤ u64_max)%Z.

(** ** A stable sort

    [slice::sort], [sort_by_key] and [sort_by_cached_key] are documented as
    stable; an insertion sort that inserts before the first element that is
    not smaller computes the same list as any other stable sort. *)

Section StableSort.
Context {A : Type} (leb : A → A → bool).

Fixpoint insert_sorted (x : A) (l : list A) : list A :=
  match l with
  | [] => [x]
  | y :: ys => if leb x y then x :: y :: ys else y :: insert_sorted x ys
  end.

Definition stable_sort (l : list A) : list A := foldr insert_sorted [] l.

End StableSort.

(** ** Lists: the first element that satisfies a test ([for ... if ... return]) *)

Fixpoint find_first {A : Type} (f : A → bool) (l : list A) : option A :=
  match l with
  | [] => None
  | x :: xs => if f x then Some x else find_first f xs
  end.

(** ** Lists: a loop that pushes one result per element and stops at the first
    error ([for x in l { v.push(f(x)?); }]) *)

Fixpoint try_map {A B E : Type} (f : A → Result B E) (l : list A) : Result (list B) E :=
  match l with
  | [] => Ok []
  | x :: xs => rbind (f x) (λ y, rbind (try_map f xs) (λ ys, Ok (y :: ys)))
  end.

(** ** Tactics *)

(** Case analysis on the scrutinee of the first [match] or [if] of the goal. *)
Ltac case_goal :=
  match goal with
  | |- context [match ?x with _ => _ end] =>
      lazymatch x with
      | context [match _ with _ => _ end] => fail
      | _ => destruct x eqn:?
      end
  end.

(** The same in a hypothesis. *)
Ltac case_hyp H :=
  match type of H with
  | context [match ?x with _ => _ end] =>
      lazymatch x with
      | context [match _ with _ => _ end] => fail
      | _ => destruct x eqn:?
      end
  end.

Create HintDb sws.

(** ** Lemmas on results *)

(** The loop succeeds with one result per element, or stops with the outcome of
    the first element that fails. *)
Lemma try_map_spec {A B E} (f : A → Result B E) l :
  match try_map f l with
  | Ok ys => Forall2 (λ x y, f x = Ok y) l ys
  | Err e => ∃ x, x ∈ l ∧ f x = Err e
  | Panic => ∃ x, x ∈ l ∧ f x = Panic
  end.
Proof.
  induction l as [|x l IH]; simpl; [constructor|].
  destruct (f x) eqn:Hx; simpl; [|by exists x; split; [left|]..].
  destruct (try_map f l); simpl; [by constructor| |];
    destruct IH as (y & ? & ?); exists y; (split; [by right|done]).
Qed.

Lemma rbind_Ok {A B E} (r : Result A E) (k : A → Result B E) b :
  rbind r k = Ok b ↔ ∃ a, r = Ok a ∧ k a = Ok b.
Proof. destruct r; simpl; naive_solver. Qed.

Lemma ok_or_Ok {A E} (o : option A) (e : E) a : ok_or o e = Ok a → o = Some a.
Proof. destruct o; naive_solver. Qed.

Lemma rbind_no_panic {A B E} (r : Result A E) (k : A → Result B E) :
  r ≠ Panic → (∀ a, r = Ok a → k a ≠ Panic) → rbind r k ≠ Panic.
Proof. destruct r; simpl; naive_solver. Qed.

(** ** Lemmas on the stable sort *)

Section StableSortLemmas.
Context {A : Type} (leb : A → A → bool).

Lemma insert_sorted_perm x l : insert_sorted leb x l ≡ₚ x :: l.
Proof.
  induction l as [|y ys IH]; simpl; [done|].
  destruct (leb x y); [done|]. rewrite IH. apply Permutation_swap.
Qed.

Lemma stable_sort_perm l : stable_sort leb l ≡ₚ l.
Proof.
  induction l as [|x l IH]; simpl; [done|].
  by rewrite insert_sorted_perm, IH.
Qed.

Lemma stable_sort_length l : length (stable_sort leb l) = length l.
Proof. apply Permutation_length, stable_sort_perm. Qed.

Context (leb_total : ∀ x y, leb x y = false → leb y x = true).

Lemma insert_sorted_sorted x l :
  Sorted (λ a b, leb a b = true) l →
  Sorted (λ a b, leb a b = true) (insert_sorted leb x l).
Proof.
  induction 1 as [|y ys Hs IH Hd]; simpl; [by repeat constructor|].
  destruct (leb x y) eqn:Hxy; [by repeat constructor|].
  constructor; [done|].
  destruct ys as [|z zs]; simpl; [by constructor; apply leb_total|].
  inversion Hd; subst. destruct (leb x z); constructor; auto.
Qed.

Lemma stable_sort_sorted l : Sorted (λ a b, leb a b = true) (stable_sort leb l).
Proof. induction l; simpl; [constructor|]. by apply insert_sorted_sorted. Qed.

(** Stability: the elements of one equivalence class keep their order. *)
Lemma insert_sorted_filter (P : A → bool) x l :
  (∀ y, P x = true → leb x y = false → P y = false) →
  List.filter P (insert_sorted leb x l) = List.filter P (x :: l).
Proof.
  intros HP. induction l as [|y ys IH]; simpl; [done|].
  destruct (leb x y) eqn:Hxy; simpl; [done|].
  rewrite IH. simpl. destruct (P x) eqn:HPx; [|done].
  by rewrite (HP y eq_refl Hxy).
Qed.

Lemma stable_sort_filter (P : A → bool) l :
  (∀ x y, P x = true → leb x y = false → P y = false) →
  List.filter P (stable_sort leb l) = List.filter P l.
Proof.
  intros HP. induction l as [|x l IH]; simpl; [done|].
  rewrite insert_sorted_filter by eauto. simpl. by rewrite IH.
Qed.

End StableSortLemmas.

(** ** Lemmas on [find_first] *)

Lemma find_first_Some {A} (f : A → bool) l x :
  find_first f l = Some x ↔
  ∃ l1 l2, l = l1 ++ x :: l2 ∧ f x = true ∧ Forall (λ y, f y = false) l1.
Proof.
  split.
  - induction l as [|y l IH]; simpl; [done|]. destruct (f y) eqn:Hy.
    + intros [= ->]. by exists [], l.
    + intros (l1 & l2 & -> & ? & ?)%IH. exists (y :: l1), l2. naive_solver.
  - intros (l1 & l2 & -> & Hx & Hl). induction Hl as [|y l1 Hy _ IH]; simpl.
    + by rewrite Hx.
    + by rewrite Hy.
Qed.

Lemma find_first_None {A} (f : A → bool) l :
  find_first f l = None ↔ Forall (λ y, f y = false) l.
Proof.
  induction l as [|y l IH]; simpl; [naive_solver|].
  rewrite Forall_cons. destruct (f y); naive_solver.
Qed.

(** ** Lemmas on step relations *)

(** An invariant of the steps holds along a run. *)
Lemma rtc_preserves {A} (R : relation A) (I : A → Prop) x y :
  (∀ x y, I x → R x y → I y) → rtc R x y → I x → I y.
Proof. intros HI. induction 1; eauto. Qed.

(** ** Lemmas on machine integers *)

Lemma wrap_u64_small z : is_u64 z → wrap_u64 z = z.
Proof. unfold wrap_u64, is_u64. intros. apply Z.mod_small. lia. Qed.

Lemma wrap_u64_range z : is_u64 (wrap_u64 z).
Proof.
  unfold wrap_u64, is_u64.
  pose proof (Z.mod_pos_bound z (u64_max + 1) ltac:(done)). lia.
Qed.

#[export] Hint Resolve wrap_u64_range stable_sort_perm : sws.
