(* ===== verification/RustStr.v ===== *)
(** * Rust's [str], [String] and byte slices

    A Rust string is its UTF-8 byte sequence: here a [string], whose characters
    are bytes.  The operations are the ones of the standard library that the
    program calls: [starts_with], [split], [split_once], [rsplit_once],
    [strip_prefix], [trim], [join], [parse::<u8>], the UTF-8 test behind
    [OsStr::to_str], ... with the equations the components need. *)

From S2P Require Import Prelude.

(** ** Operations *)

Definition ascii_eqb (a b : ascii) : bool := bool_decide (a = b).

Definition str_eqb (a b : string) : bool := bool_decide (a = b).

Definition is_empty (s : string) : bool :=
  match s with
  | EmptyString => true
  | _ => false
  end.

(** [s.len()] as a [u64]. *)
Definition str_len (s : string) : Z := Z.of_nat (String.length s).

(** The double quote, [U+0022]. *)
Definition dquote : string := String "034"%char EmptyString.

(** [s.strip_prefix(p)] *)
Fixpoint strip_prefix (p s : string) : option string :=
  match p, s with
  | EmptyString, _ => Some s
  | String a p', String b s' => if ascii_eqb a b then strip_prefix p' s' else None
  | String _ _, EmptyString => None
  end.

(** [s.starts_with(p)] *)
Definition starts_with (p s : string) : bool :=
  match strip_prefix p s with
  | Some _ => true
  | None => false
  end.

(** The last byte of [s]. *)
Fixpoint last_byte (s : string) : option ascii :=
  match s with
  | EmptyString => None
  | String a EmptyString => Some a
  | String _ s' => last_byte s'
  end.

(** [s.ends_with(c)] *)
Definition ends_with_char (c : ascii) (s : string) : bool :=
  match last_byte s with
  | Some a => ascii_eqb a c
  | None => false
  end.

(** [s.split(c)]: never empty. *)
Fixpoint split (c : ascii) (s : string) : list string :=
  match s with
  | EmptyString => [EmptyString]
  | String a s' =>
      if ascii_eqb a c then EmptyString :: split c s'
      else match split c s' with
           | [] => [String a EmptyString]
           | h :: t => String a h :: t
           end
  end.

(** [parts.join(sep)] *)
Fixpoint join (sep : string) (l : list string) : string :=
  match l with
  | [] => EmptyString
  | [x] => x
  | x :: xs => x +:+ sep +:+ join sep xs
  end.

(** [[a, b, ...].concat()] *)
Definition concat_str (l : list string) : string := foldr String.append EmptyString l.

(** [s.split_once(c)] *)
Fixpoint split_once (c : ascii) (s : string) : option (string * string) :=
  match s with
  | EmptyString => None
  | String a s' =>
      if ascii_eqb a c then Some (EmptyString, s')
      else match split_once c s' with
           | Some (l, r) => Some (String a l, r)
           | None => None
           end
  end.

(** [s.rsplit_once(c)] *)
Fixpoint rsplit_once (c : ascii) (s : string) : option (string * string) :=
  match s with
  | EmptyString => None
  | String a s' =>
      match rsplit_once c s' with
      | Some (l, r) => Some (String a l, r)
      | None => if ascii_eqb a c then Some (EmptyString, s') else None
      end
  end.

(** [s.trim_start_matches(c)] *)
Fixpoint trim_start_matches (c : ascii) (s : string) : string :=
  match s with
  | EmptyString => EmptyString
  | String a s' => if ascii_eqb a c then trim_start_matches c s' else s
  end.

(** [s.trim_start_matches(p)] and [s.replace(p, r)] for a non-empty string
    pattern: each step consumes a byte at least, so the length is enough fuel. *)
Fixpoint trim_start_str_fuel (p : string) (fuel : nat) (s : string) : string :=
  match fuel with
  | O => s
  | S fuel' =>
      match strip_prefix p s with
      | Some rest => trim_start_str_fuel p fuel' rest
      | None => s
      end
  end.

Definition trim_start_str (p s : string) : string := trim_start_str_fuel p (String.length s) s.

Fixpoint str_replace_fuel (p r : string) (fuel : nat) (s : string) : string :=
  match fuel, s with
  | S fuel', String a s' =>
      match strip_prefix p s with
      | Some rest => r +:+ str_replace_fuel p r fuel' rest
      | None => String a (str_replace_fuel p r fuel' s')
      end
  | _, _ => s
  end.

Definition str_replace (p r s : string) : string := str_replace_fuel p r (String.length s) s.

Definition bytes_of_nats (l : list nat) : string :=
  foldr (λ n s, String (Ascii.ascii_of_nat n) s) EmptyString l.

(** The UTF-8 encodings of the characters with the Unicode [White_Space]
    property, which [str::trim] removes. *)
Definition WHITE_SPACE : list string :=
  bytes_of_nats <$>
    [[9]; [10]; [11]; [12]; [13]; [32]; [194; 133]; [194; 160]; [225; 154; 128];
     [226; 128; 128]; [226; 128; 129]; [226; 128; 130]; [226; 128; 131];
     [226; 128; 132]; [226; 128; 133]; [226; 128; 134]; [226; 128; 135];
     [226; 128; 136]; [226; 128; 137]; [226; 128; 138]; [226; 128; 168];
     [226; 128; 169]; [226; 128; 175]; [226; 129; 159]; [227; 128; 128]].

Fixpoint strip_any (ps : list string) (s : string) : option string :=
  match ps with
  | [] => None
  | p :: ps' =>
      match strip_prefix p s with
      | Some r => Some r
      | None => strip_any ps' s
      end
  end.

Fixpoint trim_start_fuel (ws : list string) (n : nat) (s : string) : string :=
  match n with
  | O => s
  | S n' =>
      match strip_any ws s with
      | Some r => trim_start_fuel ws n' r
      | None => s
      end
  end.

(** [s.trim_start()]: every step removes at least one byte, so the length of
    [s] is enough fuel. *)
Definition trim_start (s : string) : string :=
  trim_start_fuel WHITE_SPACE (String.length s) s.

Fixpoint rev_append (s acc : string) : string :=
  match s with
  | EmptyString => acc
  | String a s' => rev_append s' (String a acc)
  end.

Definition str_rev (s : string) : string := rev_append s EmptyString.

(** [s.trim_end()]: the trailing characters, from the back. *)
Definition trim_end (s : string) : string :=
  str_rev (trim_start_fuel (str_rev <$> WHITE_SPACE) (String.length s) (str_rev s)).

(** [s.trim()] *)
Definition trim (s : string) : string := trim_end (trim_start s).

(** The first [n] bytes and what follows them. *)
Fixpoint str_take (n : nat) (s : string) : string :=
  match n, s with
  | S n', String a s' => String a (str_take n' s')
  | _, _ => EmptyString
  end.

Fixpoint str_drop (n : nat) (s : string) : string :=
  match n, s with
  | S n', String _ s' => str_drop n' s'
  | _, _ => s
  end.

(** ** UTF-8 validity ([str::from_utf8], hence [OsStr::to_str]) *)

Definition byte_in (lo hi : nat) (a : ascii) : bool :=
  (lo <=? Ascii.nat_of_ascii a)%nat && (Ascii.nat_of_ascii a <=? hi)%nat.

Definition is_cont (a : ascii) : bool := byte_in 128 191 a.

(** One character of UTF-8: its length in bytes and the bounds of its second
    byte, as the standard library's validation table gives them. *)
Definition utf8_head (a : ascii) : option (nat * (nat * nat)) :=
  let n := Ascii.nat_of_ascii a in
  if (n <=? 127)%nat then Some (1, (0, 0))%nat
  else if (194 <=? n)%nat && (n <=? 223)%nat then Some (2, (128, 191))%nat
  else if (n =? 224)%nat then Some (3, (160, 191))%nat
  else if (225 <=? n)%nat && (n <=? 236)%nat then Some (3, (128, 191))%nat
  else if (n =? 237)%nat then Some (3, (128, 159))%nat
  else if (238 <=? n)%nat && (n <=? 239)%nat then Some (3, (128, 191))%nat
  else if (n =? 240)%nat then Some (4, (144, 191))%nat
  else if (241 <=? n)%nat && (n <=? 243)%nat then Some (4, (128, 191))%nat
  else if (n =? 244)%nat then Some (4, (128, 143))%nat
  else None.

(** [pending = Some (k, (lo, hi))]: [k] continuation bytes are still missing,
    the next one between [lo] and [hi]. *)
Fixpoint utf8_run (pending : option (nat * (nat * nat))) (s : string) : bool :=
  match s, pending with
  | EmptyString, None => true
  | EmptyString, Some _ => false
  | String a s', None =>
      match utf8_head a with
      | None => false
      | Some (n, b) => utf8_run (if (n <=? 1)%nat then None else Some (n - 1, b)%nat) s'
      end
  | String a s', Some (k, (lo, hi)) =>
      byte_in lo hi a &&
      utf8_run (if (k <=? 1)%nat then None else Some (k - 1, (128, 191))%nat) s'
  end.

Definition utf8_valid (s : string) : bool := utf8_run None s.

(** [OsStr::to_str], [Path::to_str] *)
Definition to_str (s : string) : option string := if utf8_valid s then Some s else None.

(** How many of the next [k] bytes continue a character; the first one is
    bounded by [lo] and [hi]. *)
Fixpoint count_cont (k lo hi : nat) (s : string) : nat :=
  match k, s with
  | S k', String a s' => if byte_in lo hi a then S (count_cont k' 128 191 s') else 0
  | _, _ => 0
  end.

(** [U+FFFD] *)
Definition replacement : string := bytes_of_nats [239; 191; 189].

Fixpoint lossy_fuel (fuel : nat) (s : string) : string :=
  match fuel, s with
  | S fuel', String a s' =>
      match utf8_head a with
      | None => replacement +:+ lossy_fuel fuel' s'
      | Some (n, (lo, hi)) =>
          let k := count_cont (n - 1) lo hi s' in
          if (k =? n - 1)%nat
          then String a (str_take k s') +:+ lossy_fuel fuel' (str_drop k s')
          else replacement +:+ lossy_fuel fuel' (str_drop k s')
      end
  | _, _ => s
  end.

(** [String::from_utf8_lossy]: every maximal invalid sequence becomes one
    replacement character. *)
Definition from_utf8_lossy (s : string) : string := lossy_fuel (String.length s) s.

(** ** Numbers *)

(** [n.to_string()] of an unsigned integer. *)
Definition dec (z : Z) : string := pretty (Z.to_N z).

Definition digit_value (a : ascii) : option Z :=
  if byte_in 48 57 a then Some (Z.of_nat (Ascii.nat_of_ascii a) - 48)%Z else None.

Fixpoint parse_digits (max acc : Z) (s : string) : option Z :=
  match s with
  | EmptyString => Some acc
  | String a s' =>
      match digit_value a with
      | None => None
      | Some d =>
          let acc' := (acc * 10 + d)%Z in
          if (acc' <=? max)%Z then parse_digits max acc' s' else None
      end
  end.

(** [s.parse::<uN>()]: an optional [+], at least one digit, no overflow. *)
Definition parse_uint (max : Z) (s : string) : option Z :=
  match strip_prefix "+" s with
  | Some EmptyString => None
  | Some r => parse_digits max 0 r
  | None => if is_empty s then None else parse_digits max 0 s
  end.

(** ** Order: [str] compares bytewise *)

Fixpoint str_leb (a b : string) : bool :=
  match a, b with
  | EmptyString, _ => true
  | String _ _, EmptyString => false
  | String x a', String y b' =>
      let m := Ascii.nat_of_ascii x in
      let n := Ascii.nat_of_ascii y in
      if (m <? n)%nat then true else if (n <? m)%nat then false else str_leb a' b'
  end.

(** ** Lemmas *)

Lemma ascii_eqb_refl a : ascii_eqb a a = true.
Proof. by apply bool_decide_eq_true. Qed.

Lemma ascii_eqb_eq a b : ascii_eqb a b = true ↔ a = b.
Proof. apply bool_decide_eq_true. Qed.

Lemma ascii_eqb_ne a b : ascii_eqb a b = false ↔ a ≠ b.
Proof. apply bool_decide_eq_false. Qed.

Lemma str_eqb_eq a b : str_eqb a b = true ↔ a = b.
Proof. apply bool_decide_eq_true. Qed.

Lemma str_eqb_ne a b : str_eqb a b = false ↔ a ≠ b.
Proof. apply bool_decide_eq_false. Qed.

Lemma is_empty_true s : is_empty s = true ↔ s = EmptyString.
Proof. destruct s; naive_solver. Qed.

Lemma is_empty_false s : is_empty s = false ↔ s ≠ EmptyString.
Proof. destruct s; naive_solver. Qed.

Lemma append_nil_l s : EmptyString +:+ s = s.
Proof. done. Qed.

Lemma append_cons a s t : String a s +:+ t = String a (s +:+ t).
Proof. done. Qed.

Lemma append_nil_r s : s +:+ EmptyString = s.
Proof. induction s as [|a s IH]; [done|]. by rewrite append_cons, IH. Qed.

Lemma append_assoc a b c : (a +:+ b) +:+ c = a +:+ (b +:+ c).
Proof. induction a as [|x a IH]; [done|]. by rewrite !append_cons, IH. Qed.

Lemma append_length a b :
  String.length (a +:+ b) = (String.length a + String.length b)%nat.
Proof. induction a as [|x a IH]; [done|]. rewrite append_cons. simpl. by rewrite IH. Qed.

#[export] Hint Rewrite append_nil_l append_cons append_nil_r append_assoc : sws.

Ltac str_simpl := autorewrite with sws.

Lemma strip_prefix_Some p s r : strip_prefix p s = Some r ↔ s = p +:+ r.
Proof.
  revert s. induction p as [|a p IH]; intros s; simpl.
  - rewrite append_nil_l. naive_solver.
  - destruct s as [|b s]; [done|]. rewrite append_cons.
    destruct (ascii_eqb a b) eqn:Hab.
    + apply ascii_eqb_eq in Hab as ->. rewrite IH. naive_solver.
    + apply ascii_eqb_ne in Hab. naive_solver.
Qed.

Lemma starts_with_true p s : starts_with p s = true ↔ ∃ r, s = p +:+ r.
Proof.
  unfold starts_with. destruct (strip_prefix p s) eqn:E.
  - apply strip_prefix_Some in E. naive_solver.
  - split; [done|]. intros [r Hr%strip_prefix_Some]. congruence.
Qed.

Lemma last_byte_snoc s c : last_byte (s +:+ String c EmptyString) = Some c.
Proof.
  induction s as [|a s IH]; [done|]. rewrite append_cons. simpl. rewrite IH.
  by destruct s.
Qed.

Lemma last_byte_Some s c : last_byte s = Some c ↔ ∃ q, s = q +:+ String c EmptyString.
Proof.
  split; [|intros [q ->]; apply last_byte_snoc].
  induction s as [|a s IH]; [done|]. destruct s as [|b s].
  - intros [= ->]. by exists EmptyString.
  - intros H. change (last_byte (String b s) = Some c) in H.
    destruct (IH H) as [q Hq]. exists (String a q). by rewrite append_cons, <- Hq.
Qed.

Lemma ends_with_char_true c s :
  ends_with_char c s = true ↔ ∃ q, s = q +:+ String c EmptyString.
Proof.
  unfold ends_with_char. destruct (last_byte s) as [a|] eqn:E.
  - rewrite ascii_eqb_eq. split.
    + intros ->. by apply last_byte_Some.
    + intros [q ->]. rewrite last_byte_snoc in E. congruence.
  - split; [done|]. intros [q ->]. by rewrite last_byte_snoc in E.
Qed.

(** *** [split] and [join] *)

Lemma split_not_nil c s : split c s ≠ [].
Proof. destruct s as [|a s]; simpl; [done|]. repeat case_match; done. Qed.

Lemma split_cons_ne c a s :
  a ≠ c → ∃ h t, split c s = h :: t ∧ split c (String a s) = String a h :: t.
Proof.
  intros Hne. simpl. rewrite (proj2 (ascii_eqb_ne a c) Hne).
  destruct (split c s) eqn:E; [by apply split_not_nil in E|]. eauto.
Qed.

Lemma split_app_sep c s1 s2 : split c (s1 +:+ String c s2) = split c s1 ++ split c s2.
Proof.
  induction s1 as [|a s1 IH].
  - simpl. by rewrite ascii_eqb_refl.
  - rewrite append_cons. simpl. rewrite IH. destruct (ascii_eqb a c); [done|].
    destruct (split c s1) eqn:E; [by apply split_not_nil in E|]. done.
Qed.

Lemma join_cons sep x l : l ≠ [] → join sep (x :: l) = x +:+ sep +:+ join sep l.
Proof. by destruct l. Qed.

Lemma join_app sep l1 l2 :
  l1 ≠ [] → l2 ≠ [] → join sep (l1 ++ l2) = join sep l1 +:+ sep +:+ join sep l2.
Proof.
  intros H1 H2. induction l1 as [|x l1 IH]; [done|]. destruct l1 as [|y l1].
  - simpl app. by rewrite join_cons.
  - change ((x :: y :: l1) ++ l2) with (x :: ((y :: l1) ++ l2)).
    rewrite join_cons by done. rewrite IH by done.
    rewrite (join_cons _ x (y :: l1)) by done. by str_simpl.
Qed.

(** Splitting then joining gives the string back. *)
Lemma join_split c s : join (String c EmptyString) (split c s) = s.
Proof.
  induction s as [|a s IH]; [done|]. simpl.
  destruct (split c s) as [|h t] eqn:E; [by apply split_not_nil in E|].
  destruct (ascii_eqb a c) eqn:Hac.
  - apply ascii_eqb_eq in Hac as ->. rewrite join_cons by done. rewrite IH. done.
  - destruct t as [|h' t]; simpl in *; [congruence|]. by rewrite append_cons, IH.
Qed.

(** [has_char c s]: the byte [c] occurs in [s]. *)
Fixpoint has_char (c : ascii) (s : string) : bool :=
  match s with
  | EmptyString => false
  | String a s' => ascii_eqb a c || has_char c s'
  end.

Lemma has_char_app c a b : has_char c (a +:+ b) = has_char c a || has_char c b.
Proof.
  induction a as [|x a IH]; [done|]. rewrite append_cons. simpl.
  by rewrite IH, orb_assoc.
Qed.

Lemma split_no_char c s : has_char c s = false → split c s = [s].
Proof.
  induction s as [|a s IH]; [done|]. simpl.
  intros [Ha Hs]%orb_false_iff. by rewrite Ha, (IH Hs).
Qed.

Lemma split_pieces c s : Forall (λ x, has_char c x = false) (split c s).
Proof.
  induction s as [|a s IH]; simpl; [by repeat constructor|].
  destruct (ascii_eqb a c) eqn:Hac; [by constructor|].
  destruct IH as [|h t Hh Ht]; repeat (constructor; simpl; rewrite ?Hac); done.
Qed.

(** The first piece ends at the first separator. *)
Lemma split_head c s first :
  head (split c s) = Some first ↔
  has_char c first = false ∧ (s = first ∨ ∃ rest, s = first +:+ String c rest).
Proof.
  split.
  - intros Hh. pose proof (split_pieces c s) as Hp. pose proof (join_split c s) as Hj.
    destruct (split c s) as [|x [|y l]]; [done|..]; simplify_eq/=; inversion Hp; (split; [done|]); [by left|].
    right. eexists. reflexivity.
  - intros [Hc [->|[rest ->]]]; [by rewrite split_no_char|]. by rewrite split_app_sep, split_no_char.
Qed.

(** *** [split_once] and [rsplit_once] *)

Lemma split_once_Some c s l r :
  split_once c s = Some (l, r) ↔ s = l +:+ String c r ∧ has_char c l = false.
Proof.
  revert l r. induction s as [|a s IH]; intros l r; simpl.
  { split; [done|]. by intros [Hs _]; destruct l. }
  destruct (ascii_eqb a c) eqn:Hac.
  - apply ascii_eqb_eq in Hac as ->. split; [by intros [= <- <-]|].
    intros [Hs Hl]. destruct l as [|x l]; [rewrite append_nil_l in Hs; congruence|].
    rewrite append_cons in Hs. injection Hs as -> ->. simpl in Hl.
    by rewrite ascii_eqb_refl in Hl.
  - split.
    + destruct (split_once c s) as [[l' r']|] eqn:E; [|done]. intros [= <- <-].
      destruct (proj1 (IH l' r') eq_refl) as [-> Hl]. simpl. by rewrite Hac, Hl.
    + intros [Hs Hl]. destruct l as [|x l].
      * rewrite append_nil_l in Hs. injection Hs as -> ->. by rewrite ascii_eqb_refl in Hac.
      * rewrite append_cons in Hs. injection Hs as -> Hs. simpl in Hl.
        rewrite Hac in Hl. by rewrite (proj2 (IH l r) (conj Hs Hl)).
Qed.

Lemma rsplit_once_None c s : rsplit_once c s = None ↔ has_char c s = false.
Proof.
  induction s as [|a s IH]; simpl; [done|].
  destruct (rsplit_once c s) as [[l r]|]; [|destruct (ascii_eqb a c)].
  - split; [done|]. intros [_ H]%orb_false_iff. by apply IH in H.
  - by split.
  - simpl. naive_solver.
Qed.

Lemma rsplit_once_Some c s l r :
  rsplit_once c s = Some (l, r) ↔ s = l +:+ String c r ∧ has_char c r = false.
Proof.
  revert l r. induction s as [|a s IH]; intros l r; simpl.
  { split; [done|]. by intros [Hs _]; destruct l. }
  destruct (rsplit_once c s) as [[l' r']|] eqn:E.
  - destruct (proj1 (IH l' r') eq_refl) as [-> Hr]. split.
    + intros [= <- <-]. done.
    + intros [Hs Hr2]. destruct l as [|x l].
      * rewrite append_nil_l in Hs. injection Hs as -> <-.
        rewrite has_char_app in Hr2. simpl in Hr2. rewrite ascii_eqb_refl in Hr2.
        by rewrite orb_true_r in Hr2.
      * rewrite append_cons in Hs. injection Hs as -> Hs.
        assert (Some (l', r') = Some (l, r)) as [= -> ->] by (by apply IH). done.
  - apply rsplit_once_None in E. destruct (ascii_eqb a c) eqn:Hac.
    + apply ascii_eqb_eq in Hac as ->. split; [by intros [= <- <-]|].
      intros [Hs Hr]. destruct l as [|x l].
      * rewrite append_nil_l in Hs. congruence.
      * rewrite append_cons in Hs. injection Hs as -> ->.
        rewrite has_char_app in E. simpl in E. by rewrite ascii_eqb_refl, orb_true_r in E.
    + split; [done|]. intros [Hs _]. destruct l as [|x l].
      * rewrite append_nil_l in Hs. injection Hs as -> ->. by rewrite ascii_eqb_refl in Hac.
      * rewrite append_cons in Hs. injection Hs as -> ->.
        rewrite has_char_app in E. simpl in E. by rewrite ascii_eqb_refl, orb_true_r in E.
Qed.

Lemma to_str_Some s t : to_str s = Some t → t = s.
Proof. unfold to_str. case_match; congruence. Qed.

(** *** [str_take] and [str_drop] *)

Lemma str_take_drop n s : str_take n s +:+ str_drop n s = s.
Proof.
  revert s. induction n as [|n IH]; intros s; [done|]. destruct s as [|a s]; [done|].
  simpl. by rewrite append_cons, IH.
Qed.

Lemma str_take_length n s : String.length (str_take n s) = min n (String.length s).
Proof.
  revert s. induction n as [|n IH]; intros s; [done|]. destruct s as [|a s]; [done|].
  simpl. by rewrite IH.
Qed.

Lemma str_drop_length n s : String.length (str_drop n s) = (String.length s - n)%nat.
Proof.
  revert s. induction n as [|n IH]; intros s; [simpl; lia|].
  destruct s as [|a s]; [done|]. simpl. apply IH.
Qed.

Lemma str_take_all n s : (String.length s ≤ n)%nat → str_take n s = s.
Proof.
  revert s. induction n as [|n IH]; intros s; destruct s as [|a s]; simpl; try done; [lia|].
  intros. rewrite IH by lia. done.
Qed.

Lemma str_take_nil n : str_take n "" = "".
Proof. by destruct n. Qed.

(** Taking [n + m] bytes takes [n], then [m] of the rest. *)
Lemma str_take_add n m s : str_take (n + m) s = str_take n s +:+ str_take m (str_drop n s).
Proof.
  revert s. induction n as [|n IH]; intros s; [done|]. destruct s as [|a s].
  - simpl. by destruct m.
  - simpl. by rewrite append_cons, IH.
Qed.

Lemma str_length_0 s : String.length s = 0%nat → s = "".
Proof. by destruct s. Qed.

(** *** Order *)

Lemma str_leb_total a b : str_leb a b = false → str_leb b a = true.
Proof.
  revert b. induction a as [|x a IH]; intros [|y b]; simpl; try done.
  destruct (_ <? _)%nat eqn:E1; [done|].
  destruct (Ascii.nat_of_ascii y <? Ascii.nat_of_ascii x)%nat eqn:E2; [done|]. apply IH.
Qed.

Lemma str_leb_refl a : str_leb a a = true.
Proof. induction a as [|x a IH]; simpl; [done|]. by rewrite Nat.ltb_irrefl. Qed.

Lemma str_leb_antisym a b : str_leb a b = true → str_leb b a = true → a = b.
Proof.
  revert b. induction a as [|x a IH]; intros [|y b]; simpl; try done.
  destruct (Ascii.nat_of_ascii x <? Ascii.nat_of_ascii y)%nat eqn:E1;
    destruct (Ascii.nat_of_ascii y <? Ascii.nat_of_ascii x)%nat eqn:E2; try done.
  { apply Nat.ltb_lt in E1, E2. lia. }
  apply Nat.ltb_ge in E1, E2. intros Ha Hb. f_equal; [|by apply IH].
  rewrite <- (Ascii.ascii_nat_embedding x), <- (Ascii.ascii_nat_embedding y). f_equal. lia.
Qed.

Lemma str_leb_trans a b c : str_leb a b = true → str_leb b c = true → str_leb a c = true.
Proof.
  revert b c. induction a as [|x a IH]; intros [|y b] [|z c]; simpl; try done.
  repeat case_match; try done; repeat match goal with
  | H : (_ <? _)%nat = true |- _ => apply Nat.ltb_lt in H
  | H : (_ <? _)%nat = false |- _ => apply Nat.ltb_ge in H
  end; try lia. apply IH.
Qed.
