(* ===== verification/Logger.v ===== *)
(** * Logging: [logger.rs] and the macros of the [tracing] crate

    A log line is an [Event]: its level, its target (the module it comes from, or
    one of the two targets of [server_info!] and [server_warn!]) and its text.
    Code that logs is written in the monad [Logged]: the lines it has emitted,
    and its result.  The lines emitted before a failure are kept.  Which lines
    reach the terminal is decided by the filter that [logger::configure]
    installs; the filter type is that of the crate, class [TracingC]. *)

From S2P Require Import Prelude RustStr.

(** ** Events *)

(** [tracing::Level] *)
Inductive Level : Type := ERROR | WARN | INFO | DEBUG | TRACE.

#[export] Instance level_eq_dec : EqDecision Level.
Proof. solve_decision. Defined.

Definition verbosity (l : Level) : Z :=
  match l with
  | ERROR => 1
  | WARN => 2
  | INFO => 3
  | DEBUG => 4
  | TRACE => 5
  end.

Record Event : Type := {
  ev_level : Level;
  ev_target : string;
  ev_text : string
}.

#[export] Instance event_eq_dec : EqDecision Event.
Proof. solve_decision. Defined.

Definition INFO_TARGET : string := "static_web_server::info".
Definition WARN_TARGET : string := "static_web_server::warn".

(** [server_info!] and [server_warn!] *)
Definition server_info (text : string) : Event :=
  {| ev_level := INFO; ev_target := INFO_TARGET; ev_text := text |}.

Definition server_warn (text : string) : Event :=
  {| ev_level := WARN; ev_target := WARN_TARGET; ev_text := text |}.

(** [tracing::debug!] and the like: the target is the path of the module. *)
Definition tracing (level : Level) (module text : string) : Event :=
  {| ev_level := level; ev_target := "static_web_server::" +:+ module; ev_text := text |}.

(** How values are printed: [bool], and paths by [Path::display]. *)
Definition show_bool (b : bool) : string := if b then "true" else "false".

Definition show_path (p : string) : string := from_utf8_lossy p.

(** ** The monad *)

Definition Logged (A : Type) : Type := list Event * Result A Error.

Definition events {A} (m : Logged A) : list Event := m.1.
Definition outcome {A} (m : Logged A) : Result A Error := m.2.

Definition lret {A} (a : A) : Logged A := ([], Ok a).

Definition lift {A} (r : Result A Error) : Logged A := ([], r).

Definition log (e : Event) : Logged unit := ([e], Ok ()).

Definition lbind {A B} (m : Logged A) (k : A → Logged B) : Logged B :=
  match outcome m with
  | Ok a => let r := k a in (events m ++ events r, outcome r)
  | Err e => (events m, Err e)
  | Panic => (events m, Panic)
  end.

Notation "'let!' x ':=' m 'in' k" := (lbind m (λ x, k))
  (at level 10, x binder, m at level 100, k at level 200,
   format "'[v' 'let!'  x  ':='  m  'in' '/' k ']'") : sws_scope.

Notation "'emit!' e 'in' k" := (lbind (log e) (λ _, k))
  (at level 10, e at level 100, k at level 200, format "'[v' 'emit!'  e  'in' '/' k ']'") : sws_scope.

Open Scope sws_scope.

(** Log under a condition. *)
Definition log_if (b : bool) (e : Event) : Logged unit := if b then log e else lret ().

(** A loop that pushes one result per element and stops at the first error. *)
Fixpoint lmap {A B} (f : A → Logged B) (l : list A) : Logged (list B) :=
  match l with
  | [] => lret []
  | x :: l' => let! y := f x in let! ys := lmap f l' in lret (y :: ys)
  end.

(** *** Results: the log does not influence them *)

Lemma outcome_bind {A B} (m : Logged A) (k : A → Logged B) :
  outcome (lbind m k) = rbind (outcome m) (λ a, outcome (k a)).
Proof. unfold lbind. by destruct (outcome m). Qed.

Lemma outcome_step {A B} (m : Logged A) a (k : A → Logged B) :
  outcome m = Ok a → outcome (lbind m k) = outcome (k a).
Proof. intros Hm. by rewrite outcome_bind, Hm. Qed.

Lemma outcome_log_if {B} b e (k : Logged B) : outcome (let! _ := log_if b e in k) = outcome k.
Proof. by destruct b. Qed.

Lemma lbind_Ok {A B} (m : Logged A) (k : A → Logged B) b :
  outcome (lbind m k) = Ok b ↔ ∃ a, outcome m = Ok a ∧ outcome (k a) = Ok b.
Proof. rewrite outcome_bind. apply rbind_Ok. Qed.

Lemma outcome_lmap {A B} (f : A → Logged B) l : outcome (lmap f l) = try_map (λ x, outcome (f x)) l.
Proof.
  induction l as [|x l IH]; [done|]. cbn [lmap try_map]. rewrite outcome_bind.
  destruct (outcome (f x)); cbn [rbind]; [|done..]. rewrite outcome_bind, IH. by destruct (try_map _ l).
Qed.

(** Run the first steps of a computation, as far as they are known to succeed. *)
Ltac run_steps := repeat (erewrite outcome_step by reflexivity; cbv beta).
Ltac run_steps_in H := repeat (erewrite outcome_step in H by reflexivity; cbv beta in H).

(** *** Two runs

    [same_log R m1 m2]: the runs emit the same lines, fail alike (with the same
    message), and their values are related. *)

Inductive result_rel {A B} (R : A → B → Prop) : Result A Error → Result B Error → Prop :=
| rel_Ok a b : R a b → result_rel R (Ok a) (Ok b)
| rel_Err e : result_rel R (Err e) (Err e)
| rel_Panic : result_rel R Panic Panic.

Definition same_log {A B} (R : A → B → Prop) (m1 : Logged A) (m2 : Logged B) : Prop :=
  events m1 = events m2 ∧ result_rel R (outcome m1) (outcome m2).

Lemma same_log_ret {A B} (R : A → B → Prop) a b : R a b → same_log R (lret a) (lret b).
Proof. intros HR. split; [done|by constructor]. Qed.

Lemma same_log_bind {A A' B B'} (R : A → A' → Prop) (Q : B → B' → Prop) m1 m2 k1 k2 :
  same_log R m1 m2 → (∀ a a', R a a' → same_log Q (k1 a) (k2 a')) →
  same_log Q (lbind m1 k1) (lbind m2 k2).
Proof.
  intros [He Ho] Hk. unfold same_log, lbind. destruct Ho as [a b HR|e|]; cbn; [|by split; [|constructor]..].
  destruct (Hk a b HR) as [He' Ho']. by rewrite He, He'.
Qed.

(** The same computation on both sides. *)
Lemma same_log_refl {A} (m : Logged A) : same_log eq m m.
Proof. split; [done|]. destruct (outcome m); by constructor. Qed.

Lemma same_log_same {A B B'} (Q : B → B' → Prop) (m : Logged A) k1 k2 :
  (∀ a, same_log Q (k1 a) (k2 a)) → same_log Q (lbind m k1) (lbind m k2).
Proof. intros Hk. apply (same_log_bind eq); [apply same_log_refl|]. by intros a ? <-. Qed.

Lemma same_log_mono {A B} (R Q : A → B → Prop) m1 m2 :
  same_log R m1 m2 → (∀ a b, R a b → Q a b) → same_log Q m1 m2.
Proof. intros [He Ho] HRQ. split; [done|]. destruct Ho; constructor; auto. Qed.

(** ** The filter *)

(** [tracing_subscriber::filter::Targets]: a set of directives (the target and the
    most verbose level it lets through) and a default level.  The crate
    documents that the most specific directive whose target is a prefix of the
    event's decides, and the default level when there is none.  [level_parse] is
    [Level::from_str]; [try_init] fails when a subscriber is already installed. *)
Class TracingC : Type := {
  Targets : Type;
  targets_default : Targets;
  with_default : Level → Targets → Targets;
  with_target : string → Level → Targets → Targets;
  would_enable : Targets → string → Level → bool;
  directives : Targets → list (string * Level);
  default_level : Targets → option Level;
  directives_default : directives targets_default = [];
  directives_with_default : ∀ l t, directives (with_default l t) = directives t;
  directives_with_target : ∀ s l t s' l',
    (s', l') ∈ directives (with_target s l t) ↔
    (s' = s ∧ l' = l) ∨ (s' ≠ s ∧ (s', l') ∈ directives t);
  default_with_default : ∀ l t, default_level (with_default l t) = Some l;
  default_with_target : ∀ s l t, default_level (with_target s l t) = default_level t;
  would_enable_exact : ∀ t s l v,
    (s, l) ∈ directives t → would_enable t s v = (verbosity v <=? verbosity l)%Z;
  would_enable_default : ∀ t s v l,
    (∀ s' l', (s', l') ∈ directives t → starts_with s' s = false) → default_level t = Some l →
    would_enable t s v = (verbosity v <=? verbosity l)%Z;
  level_parse : string → option Level;
  subscriber_try_init : bool
}.

Section Logger.
Context `{!TracingC}.

(** The filter [logger::configure] installs. *)
Definition server_targets (level : Level) : Targets :=
  with_target WARN_TARGET WARN (with_target INFO_TARGET INFO (with_default level targets_default)).

(** [logger::configure] *)
Definition logger_configure (level : string) : Result Targets Error :=
  let? level := ok_or (level_parse level) "failed to parse log level" in
  if subscriber_try_init then Ok (server_targets level)
  else Err "a global default trace dispatcher has already been set".

(** The lines that reach the terminal. *)
Definition shown (t : Targets) (es : list Event) : list Event :=
  List.filter (λ e, would_enable t (ev_target e) (ev_level e)) es.

(** Module paths of the program other than [info] and [warn]. *)
Definition module_event (e : Event) : Prop :=
  starts_with INFO_TARGET (ev_target e) = false ∧ starts_with WARN_TARGET (ev_target e) = false.

Lemma directives_server level s l :
  (s, l) ∈ directives (server_targets level) ↔ (s, l) = (WARN_TARGET, WARN) ∨ (s, l) = (INFO_TARGET, INFO).
Proof.
  unfold server_targets. rewrite !directives_with_target, directives_with_default, directives_default.
  rewrite elem_of_nil. split; [naive_solver|]. intros [[= -> ->]|[= -> ->]]; [by left|right].
  split; [done|by left].
Qed.

(** What [--log-level] decides: the lines of [server_info!] and [server_warn!] are
    shown at every level, every other line exactly when its level is at most as
    verbose as the configured one. *)
Lemma server_event_shown level text :
  would_enable (server_targets level) (ev_target (server_info text)) (ev_level (server_info text)) = true
  ∧ would_enable (server_targets level) (ev_target (server_warn text)) (ev_level (server_warn text)) = true.
Proof.
  cbn. split.
  - by rewrite (would_enable_exact _ _ INFO) by (apply directives_server; by right).
  - by rewrite (would_enable_exact _ _ WARN) by (apply directives_server; by left).
Qed.

Lemma module_event_shown level e :
  module_event e →
  would_enable (server_targets level) (ev_target e) (ev_level e)
  = (verbosity (ev_level e) <=? verbosity level)%Z.
Proof.
  intros [Hi Hw]. apply would_enable_default.
  - intros s l [Heq|Heq]%directives_server; injection Heq as -> _; [exact Hw|exact Hi].
  - unfold server_targets. by rewrite !default_with_target, default_with_default.
Qed.

End Logger.

(** ** An instance: the longest directive that is a prefix decides *)

Fixpoint longest_directive (ds : gmap string Level) (n : nat) (s : string) : option Level :=
  match ds !! str_take n s with
  | Some l => Some l
  | None => match n with
            | O => None
            | S n' => longest_directive ds n' s
            end
  end.

Definition targets_enable (t : gmap string Level * option Level) (s : string) (v : Level) : bool :=
  match longest_directive t.1 (String.length s) s with
  | Some l => (verbosity v <=? verbosity l)%Z
  | None => match t.2 with
            | Some l => (verbosity v <=? verbosity l)%Z
            | None => false
            end
  end.

Lemma targets_enable_exact t s l v :
  (s, l) ∈ map_to_list t.1 → targets_enable t s v = (verbosity v <=? verbosity l)%Z.
Proof.
  intros Hin%elem_of_map_to_list. unfold targets_enable.
  assert (∀ n, (String.length s ≤ n)%nat → longest_directive t.1 n s = Some l) as ->; [|lia|done].
  intros n Hn. destruct n as [|n]; cbn [longest_directive]; by rewrite str_take_all, Hin.
Qed.

Lemma longest_directive_none ds n s :
  (∀ s' l', (s', l') ∈ map_to_list ds → starts_with s' s = false) → longest_directive ds n s = None.
Proof.
  intros Hno.
  assert (∀ k, ds !! str_take k s = None) as Hk.
  { intros k. destruct (ds !! str_take k s) as [l|] eqn:E; [|done].
    specialize (Hno _ l (proj2 (elem_of_map_to_list _ _ _) E)).
    rewrite (proj2 (starts_with_true _ _)) in Hno; [done|]. exists (str_drop k s). by rewrite str_take_drop. }
  induction n as [|n IH]; cbn [longest_directive]; by rewrite Hk.
Qed.

#[export] Program Instance tracing_sample : TracingC := {|
  Targets := gmap string Level * option Level;
  targets_default := (∅, None);
  with_default := λ l t, (t.1, Some l);
  with_target := λ s l t, (<[s := l]> t.1, t.2);
  would_enable := targets_enable;
  directives := λ t, map_to_list t.1;
  default_level := λ t, t.2;
  level_parse := λ s,
    if str_eqb s "error" then Some ERROR else if str_eqb s "warn" then Some WARN
    else if str_eqb s "info" then Some INFO else if str_eqb s "debug" then Some DEBUG
    else if str_eqb s "trace" then Some TRACE else None;
  subscriber_try_init := true
|}.
Next Obligation. apply map_to_list_empty. Qed.
Next Obligation. done. Qed.
Next Obligation.
  intros s l t s' l'. cbn. rewrite !elem_of_map_to_list, lookup_insert_Some. naive_solver.
Qed.
Next Obligation. done. Qed.
Next Obligation. done. Qed.
Next Obligation. intros t s l v. apply targets_enable_exact. Qed.
Next Obligation.
  intros t s v l Hno Hd. cbn in *. unfold targets_enable. by rewrite (longest_directive_none _ _ _ Hno), Hd.
Qed.
