(* ===== verification/IpAddr.v ===== *)
(** * [std::net] addresses: parsing and printing

    The program reads IP addresses from the command line, from the
    configuration ([host], [log_forwarded_for] with its trusted proxies) and
    from the [X-Forwarded-For] header, and prints them in its log.  This file
    models the standard library's parser (a cursor over the bytes that every
    failing reader puts back) and its [Display] implementations, and proves that
    printing then parsing gives the address back. *)

From S2P Require Import Prelude RustStr.

(** ** Data *)

(** An IPv4 address is its four octets; an IPv6 address its eight segments. *)
Record Ipv4Addr : Type := { oct_a : Z; oct_b : Z; oct_c : Z; oct_d : Z }.

Inductive IpAddr : Type := V4 (a : Ipv4Addr) | V6 (segments : list Z).

#[global] Instance Ipv4Addr_eq_dec : EqDecision Ipv4Addr.
Proof. solve_decision. Defined.

#[global] Instance IpAddr_eq_dec : EqDecision IpAddr.
Proof. solve_decision. Defined.

(** [SocketAddr]; the scope identifier is 0 for an IPv4 address. *)
Record SocketAddr : Type := { sa_ip : IpAddr; sa_port : Z; sa_scope_id : Z }.

Definition u8_ok (z : Z) : Prop := (0 ≤ z < 256)%Z.
Definition u16_ok (z : Z) : Prop := (0 ≤ z < 65536)%Z.

Definition ipv4_ok (a : Ipv4Addr) : Prop :=
  u8_ok (oct_a a) ∧ u8_ok (oct_b a) ∧ u8_ok (oct_c a) ∧ u8_ok (oct_d a).

Definition ip_ok (ip : IpAddr) : Prop :=
  match ip with
  | V4 a => ipv4_ok a
  | V6 segs => length segs = 8 ∧ Forall u16_ok segs
  end.

(** ** Digits *)

(** [char::to_digit] for a radix of at most 16. *)
Definition digit_value (c : ascii) : option Z :=
  let n := Z.of_nat (Ascii.nat_of_ascii c) in
  if (48 <=? n)%Z && (n <=? 57)%Z then Some (n - 48)%Z
  else if (97 <=? n)%Z && (n <=? 102)%Z then Some (n - 87)%Z
  else if (65 <=? n)%Z && (n <=? 70)%Z then Some (n - 55)%Z
  else None.

Definition to_digit (radix : Z) (c : ascii) : option Z :=
  d ← digit_value c; if (d <? radix)%Z then Some d else None.

(** The digit characters of [{}] and [{:x}]. *)
Definition digit_char (d : Z) : ascii :=
  Ascii.ascii_of_nat (Z.to_nat (if (d <? 10)%Z then d + 48 else d + 87)).

(** The digits of a number, the most significant first, without leading zeros. *)
Fixpoint to_digits (radix : Z) (fuel : nat) (n : Z) : list Z :=
  match fuel with
  | O => [n]
  | S fuel' =>
      if (n <? radix)%Z then [n]
      else to_digits radix fuel' (n / radix) ++ [(n `mod` radix)%Z]
  end.

Definition str_of_digits (ds : list Z) : string := foldr (λ d s, String (digit_char d) s) "" ds.

(** [{}] for a [u8] or a [u16], [{:x}] for a [u16]: five digits at most. *)
Definition fmt_dec (n : Z) : string := str_of_digits (to_digits 10 4 n).
Definition fmt_hex (n : Z) : string := str_of_digits (to_digits 16 3 n).

(** ** The parser *)

(** The digits a number reader consumes, and the rest of the input. *)
Fixpoint read_digits (radix : Z) (s : string) : list Z * string :=
  match s with
  | EmptyString => ([], s)
  | String c s' =>
      match to_digit radix c with
      | Some d => let (ds, rest) := read_digits radix s' in (d :: ds, rest)
      | None => ([], s)
      end
  end.

Definition of_digits (radix : Z) (ds : list Z) : Z :=
  fold_left (λ acc d, acc * radix + d)%Z ds 0%Z.

(** [Parser::read_number]: too many digits, none, a forbidden leading zero or a
    value over [max] fail. *)
Definition read_number (radix : Z) (max_digits : nat) (allow_zero_prefix : bool) (max : Z)
    (s : string) : option (Z * string) :=
  let (ds, rest) := read_digits radix s in
  let has_leading_zero := starts_with "0" s in
  if (max_digits <? length ds)%nat then None
  else if (length ds =? 0)%nat then None
  else if negb allow_zero_prefix && has_leading_zero && (1 <? length ds)%nat then None
  else if (of_digits radix ds <=? max)%Z then Some (of_digits radix ds, rest) else None.

(** [Parser::read_given_char] *)
Definition read_given_char (c : ascii) (s : string) : option string :=
  match s with
  | String a s' => if ascii_eqb a c then Some s' else None
  | EmptyString => None
  end.

(** [Parser::read_separator] *)
Definition read_separator {A} (sep : ascii) (index : nat) (inner : string → option (A * string))
    (s : string) : option (A * string) :=
  match index with
  | O => inner s
  | S _ => read_given_char sep s ≫= inner
  end.

(** One octet: decimal, at most three digits, no octal notation. *)
Definition read_octet (index : nat) (s : string) : option (Z * string) :=
  read_separator "."%char index (read_number 10 3 false u8_max) s.

(** [Parser::read_ipv4_addr] *)
Definition read_ipv4_addr (s : string) : option (Ipv4Addr * string) :=
  '(a, s1) ← read_octet 0 s;
  '(b, s2) ← read_octet 1 s1;
  '(c, s3) ← read_octet 2 s2;
  '(d, s4) ← read_octet 3 s3;
  Some ({| oct_a := a; oct_b := b; oct_c := c; oct_d := d |}, s4).

(** One group of an IPv6 address. *)
Definition read_group (index : nat) (s : string) : option (Z * string) :=
  read_separator ":"%char index (read_number 16 4 true u16_max) s.

(** The [read_groups] of [read_ipv6_addr]: [left] slots remain and [i] groups
    have been read; the result is the groups, whether the last two were an
    embedded IPv4 address (which needs two slots), and the rest. *)
Fixpoint read_groups (left i : nat) (s : string) : list Z * bool * string :=
  match left with
  | O => ([], false, s)
  | S left' =>
      match (if (0 <? left')%nat then read_separator ":"%char i read_ipv4_addr s else None) with
      | Some (v4, rest) =>
          ([(oct_a v4 * 256 + oct_b v4)%Z; (oct_c v4 * 256 + oct_d v4)%Z], true, rest)
      | None =>
          match read_group i s with
          | Some (g, rest) =>
              let '(gs, v4, rest') := read_groups left' (S i) rest in (g :: gs, v4, rest')
          | None => ([], false, s)
          end
      end
  end.

(** [Parser::read_ipv6_addr] *)
Definition read_ipv6_addr (s : string) : option (list Z * string) :=
  let '(hd, head_ipv4, rest) := read_groups 8 0 s in
  if (length hd =? 8)%nat then Some (hd, rest)
  else if (head_ipv4 : bool) then None
  else
    rest1 ← read_given_char ":"%char rest;
    rest2 ← read_given_char ":"%char rest1;
    let '(tl, _, rest3) := read_groups (8 - (length hd + 1)) 0 rest2 in
    Some (hd ++ replicate (8 - length hd - length tl) 0%Z ++ tl, rest3).

(** [Parser::read_ip_addr] *)
Definition read_ip_addr (s : string) : option (IpAddr * string) :=
  match read_ipv4_addr s with
  | Some (a, rest) => Some (V4 a, rest)
  | None => '(segs, rest) ← read_ipv6_addr s; Some (V6 segs, rest)
  end.

(** [<IpAddr as FromStr>::from_str]: the whole input is consumed. *)
Definition ip_parse (s : string) : option IpAddr :=
  '(ip, rest) ← read_ip_addr s;
  if is_empty rest then Some ip else None.

(** ** [Display] *)

Definition ipv4_display (a : Ipv4Addr) : string :=
  fmt_dec (oct_a a) +:+ "." +:+ fmt_dec (oct_b a) +:+ "." +:+ fmt_dec (oct_c a) +:+ "."
  +:+ fmt_dec (oct_d a).

(** [Ipv6Addr::to_ipv4_mapped] *)
Definition to_ipv4_mapped (segs : list Z) : option Ipv4Addr :=
  match segs with
  | [a; b; c; d; e; f; g; h] =>
      if forallb (Z.eqb 0) [a; b; c; d; e] && (f =? 65535)%Z then
        Some {| oct_a := g / 256; oct_b := g `mod` 256; oct_c := h / 256; oct_d := h `mod` 256 |}
      else None
  | _ => None
  end.

(** The first of the longest runs of zero segments: its start and its length.
    [i] is the index of the next segment, [cur] the run that ends there. *)
Fixpoint zero_span (i : nat) (cur longest : nat * nat) (segs : list Z) : nat * nat :=
  match segs with
  | [] => longest
  | g :: gs =>
      if (g =? 0)%Z then
        let cur' := ((if (cur.2 =? 0)%nat then i else cur.1), S cur.2) in
        zero_span (S i) cur' (if (longest.2 <? cur'.2)%nat then cur' else longest) gs
      else zero_span (S i) (0, 0)%nat longest gs
  end.

Definition fmt_tail (gs : list Z) : string := foldr (λ g s, ":" +:+ fmt_hex g +:+ s) "" gs.

Definition fmt_subslice (gs : list Z) : string :=
  match gs with
  | [] => ""
  | g :: gs' => fmt_hex g +:+ fmt_tail gs'
  end.

Definition ipv6_display (segs : list Z) : string :=
  match to_ipv4_mapped segs with
  | Some v4 => "::ffff:" +:+ ipv4_display v4
  | None =>
      let '(start, len) := zero_span 0 (0, 0)%nat (0, 0)%nat segs in
      if (1 <? len)%nat then
        fmt_subslice (take start segs) +:+ "::" +:+ fmt_subslice (drop (start + len) segs)
      else fmt_subslice segs
  end.

Definition ip_display (ip : IpAddr) : string :=
  match ip with
  | V4 a => ipv4_display a
  | V6 segs => ipv6_display segs
  end.

(** [SocketAddr]: the scope is printed when it is not 0. *)
Definition addr_display (addr : SocketAddr) : string :=
  match sa_ip addr with
  | V4 a => ipv4_display a +:+ ":" +:+ fmt_dec (sa_port addr)
  | V6 segs =>
      (if (sa_scope_id addr =? 0)%Z then "[" +:+ ipv6_display segs
       else "[" +:+ ipv6_display segs +:+ "%" +:+ pretty (Z.to_N (sa_scope_id addr)))
      +:+ "]:" +:+ fmt_dec (sa_port addr)
  end.

Example parse_examples :
  ip_parse "127.0.0.1" = Some (V4 {| oct_a := 127; oct_b := 0; oct_c := 0; oct_d := 1 |})
  ∧ ip_parse "010.0.0.1" = None
  ∧ ip_parse "1.2.3.256" = None
  ∧ ip_parse "::" = Some (V6 (replicate 8 0%Z))
  ∧ ip_parse "1::2:3" = Some (V6 [1; 0; 0; 0; 0; 0; 2; 3]%Z)
  ∧ ip_parse "1::2::3" = None
  ∧ ip_parse "::1.2.3.4" = Some (V6 [0; 0; 0; 0; 0; 0; 258; 772]%Z)
  ∧ ip_parse " ::1" = None ∧ ip_parse "" = None
  ∧ ip_display (V6 [8193; 3512; 0; 0; 1; 0; 0; 1]%Z) = "2001:db8::1:0:0:1"
  ∧ ip_display (V6 [0; 0; 0; 0; 0; 65535; 258; 772]%Z) = "::ffff:1.2.3.4".
Proof. by vm_compute. Qed.

(** ** Numbers *)

Section Digits.
Context (radix : Z) (Hradix : (2 ≤ radix ≤ 16)%Z).

Lemma of_digits_snoc ds d : of_digits radix (ds ++ [d]) = (of_digits radix ds * radix + d)%Z.
Proof. unfold of_digits. by rewrite fold_left_app. Qed.

Lemma div_bounds n k : (radix ≤ n < radix ^ (1 + k))%Z → (0 ≤ k)%Z →
  (1 ≤ n / radix < radix ^ k)%Z.
Proof.
  intros [??] ?. split; [apply Z.div_le_lower_bound; lia|].
  apply Z.div_lt_upper_bound; [lia|]. by rewrite <- Z.pow_succ_r, <- Z.add_1_l by lia.
Qed.

Lemma to_digits_ok fuel n :
  (0 ≤ n < radix ^ (1 + Z.of_nat fuel))%Z →
  Forall (λ d, 0 ≤ d < radix)%Z (to_digits radix fuel n) ∧ of_digits radix (to_digits radix fuel n) = n.
Proof.
  revert n. induction fuel as [|fuel IH]; intros n Hn; simpl.
  - rewrite Z.add_0_r, Z.pow_1_r in Hn. split; [apply Forall_singleton; lia|done].
  - destruct (n <? radix)%Z eqn:E.
    { apply Z.ltb_lt in E. split; [apply Forall_singleton; lia|done]. }
    apply Z.ltb_ge in E.
    replace (1 + Z.of_nat (S fuel))%Z with (1 + (1 + Z.of_nat fuel))%Z in Hn by lia.
    pose proof (div_bounds n (1 + Z.of_nat fuel) ltac:(lia) ltac:(lia)).
    destruct (IH (n / radix)%Z) as [IH1 IH2]; [lia|].
    pose proof (Z.mod_pos_bound n radix ltac:(lia)).
    rewrite Forall_app, of_digits_snoc, IH2. split; [by rewrite Forall_singleton|].
    rewrite (Z.div_mod n radix) at 3 by lia. lia.
Qed.

Lemma to_digits_length fuel n k :
  (n < radix ^ (1 + Z.of_nat k))%Z → (1 ≤ length (to_digits radix fuel n) ≤ S k)%nat.
Proof.
  revert n k. induction fuel as [|fuel IH]; intros n k Hn; simpl; [lia|].
  destruct (n <? radix)%Z eqn:E; simpl; [lia|]. apply Z.ltb_ge in E. rewrite length_app. simpl.
  destruct k as [|k]; [rewrite Z.add_0_r, Z.pow_1_r in Hn; lia|].
  replace (1 + Z.of_nat (S k))%Z with (1 + (1 + Z.of_nat k))%Z in Hn by lia.
  pose proof (div_bounds n (1 + Z.of_nat k) ltac:(lia) ltac:(lia)).
  pose proof (IH (n / radix)%Z k ltac:(lia)). lia.
Qed.

(** Only 0 is printed with a leading zero. *)
Lemma to_digits_head fuel n : (0 < n)%Z → ∃ d ds, to_digits radix fuel n = d :: ds ∧ (0 < d)%Z.
Proof.
  revert n. induction fuel as [|fuel IH]; intros n Hn; simpl; [eauto|].
  destruct (n <? radix)%Z eqn:E; [eauto|]. apply Z.ltb_ge in E.
  destruct (IH (n / radix)%Z) as (d & ds & -> & ?); [|by eexists _, _].
  apply Z.div_str_pos; lia.
Qed.

Lemma to_digit_char d : (0 ≤ d < radix)%Z → to_digit radix (digit_char d) = Some d.
Proof.
  intros Hd.
  assert (d = 0 ∨ d = 1 ∨ d = 2 ∨ d = 3 ∨ d = 4 ∨ d = 5 ∨ d = 6 ∨ d = 7 ∨ d = 8 ∨ d = 9 ∨ d = 10
    ∨ d = 11 ∨ d = 12 ∨ d = 13 ∨ d = 14 ∨ d = 15)%Z as Hcases by lia.
  unfold to_digit.
  assert (digit_value (digit_char d) = Some d) as -> by (destruct_or!; by subst d).
  simpl. by rewrite (proj2 (Z.ltb_lt _ _)) by lia.
Qed.

Lemma str_of_digits_cons d ds : str_of_digits (d :: ds) = String (digit_char d) (str_of_digits ds).
Proof. done. Qed.

(** The reader stops where the next byte is not a digit. *)
Definition no_digit (rest : string) : Prop :=
  match rest with
  | EmptyString => True
  | String c _ => to_digit radix c = None
  end.

Lemma read_digits_print ds rest :
  Forall (λ d, 0 ≤ d < radix)%Z ds → no_digit rest →
  read_digits radix (str_of_digits ds +:+ rest) = (ds, rest).
Proof.
  intros Hds Hrest. induction Hds as [|d ds Hd _ IH].
  - destruct rest; simpl; [done|]. by rewrite Hrest.
  - rewrite str_of_digits_cons, append_cons. simpl. by rewrite to_digit_char, IH.
Qed.

Lemma digit_char_0 d : (0 < d < radix)%Z → ascii_eqb "0" (digit_char d) = false.
Proof.
  intros Hd. apply ascii_eqb_ne. intros E. apply (f_equal (to_digit radix)) in E.
  rewrite to_digit_char in E by lia. unfold to_digit in E.
  change (digit_value "0") with (Some 0%Z) in E. cbn [mbind option_bind] in E.
  destruct (0 <? radix)%Z; simplify_eq. lia.
Qed.

(** A number is read back from what was printed. *)
Lemma read_number_print fuel max_digits zp max n rest :
  (0 ≤ n < radix ^ (1 + Z.of_nat fuel))%Z →
  (n < radix ^ (1 + Z.of_nat max_digits))%Z → (n ≤ max)%Z → no_digit rest →
  read_number radix (S max_digits) zp max (str_of_digits (to_digits radix fuel n) +:+ rest)
  = Some (n, rest).
Proof.
  intros Hf Hk Hmax Hrest. destruct (to_digits_ok fuel n Hf) as [Hds Hval].
  destruct (to_digits_length fuel n max_digits Hk) as [Hl1 Hl2].
  unfold read_number. rewrite read_digits_print by done. rewrite Hval.
  rewrite (proj2 (Nat.ltb_ge _ _)), (proj2 (Nat.eqb_neq _ _)), (proj2 (Z.leb_le _ _)) by lia.
  destruct (decide (n = 0)%Z) as [->|].
  - assert (length (to_digits radix fuel 0) = 1) as ->
      by (pose proof (to_digits_length fuel 0 0 ltac:(simpl; lia)); lia).
    by rewrite andb_false_r.
  - destruct (to_digits_head fuel n ltac:(lia)) as (d & ds & E & ?). rewrite E in *.
    rewrite str_of_digits_cons, append_cons. unfold starts_with. simpl.
    rewrite digit_char_0 by (inversion Hds; lia). by rewrite andb_false_r.
Qed.

(** What is left is a suffix of the input. *)
Lemma read_digits_rest s : ∃ p, s = p +:+ (read_digits radix s).2.
Proof.
  induction s as [|c s [p IH]]; simpl; [by exists ""|].
  destruct (to_digit radix c); [|by exists ""].
  destruct (read_digits radix s) as [ds r]; simpl in *. exists (String c p). by rewrite append_cons, <- IH.
Qed.

Lemma read_number_rest md zp max s n rest :
  read_number radix md zp max s = Some (n, rest) → ∃ p, s = p +:+ rest.
Proof.
  unfold read_number. destruct (read_digits_rest s) as [p Hp].
  destruct (read_digits radix s) as [ds r]; simpl in *. intros H. repeat case_hyp H; simplify_eq. eauto.
Qed.

Lemma to_digit_range c d : to_digit radix c = Some d → (0 ≤ d < radix)%Z.
Proof.
  unfold to_digit. intros (n & Hn & H)%bind_Some. destruct (n <? radix)%Z eqn:E; simplify_eq.
  apply Z.ltb_lt in E. split; [|done]. unfold digit_value in Hn.
  repeat case_hyp Hn; simplify_eq; rewrite andb_true_iff, !Z.leb_le in *; lia.
Qed.

Lemma read_digits_range s : Forall (λ d, 0 ≤ d < radix)%Z (read_digits radix s).1.
Proof.
  induction s as [|c s IH]; simpl; [constructor|]. destruct (to_digit radix c) eqn:E; [|constructor].
  destruct (read_digits radix s); simpl in *. constructor; [by eapply to_digit_range|done].
Qed.

Lemma of_digits_nonneg ds : Forall (λ d, 0 ≤ d < radix)%Z ds → (0 ≤ of_digits radix ds)%Z.
Proof.
  induction ds as [|d ds IH] using rev_ind; [done|].
  rewrite of_digits_snoc, Forall_app, Forall_singleton. intros [??]. specialize (IH H). nia.
Qed.

Lemma read_number_range md zp max s n rest :
  read_number radix md zp max s = Some (n, rest) → (0 ≤ n ≤ max)%Z.
Proof.
  unfold read_number. pose proof (of_digits_nonneg _ (read_digits_range s)) as Hn.
  destruct (read_digits radix s) as [ds r]; simpl in *. intros H. repeat case_hyp H; simplify_eq.
  rewrite Z.leb_le in *. done.
Qed.

End Digits.

(** ** IPv4 *)

Lemma u8_max_eq : u8_max = 255%Z.
Proof. done. Qed.

Lemma read_octet_first n rest :
  u8_ok n → no_digit 10 rest → read_octet 0 (fmt_dec n +:+ rest) = Some (n, rest).
Proof.
  unfold u8_ok. intros. apply read_number_print; rewrite ?u8_max_eq; first [done|simpl; lia].
Qed.

Lemma read_octet_next i n rest :
  u8_ok n → no_digit 10 rest → read_octet (S i) ("." +:+ fmt_dec n +:+ rest) = Some (n, rest).
Proof. apply read_octet_first. Qed.

Lemma read_ipv4_print a rest :
  ipv4_ok a → no_digit 10 rest → read_ipv4_addr (ipv4_display a +:+ rest) = Some (a, rest).
Proof.
  intros (Ha & Hb & Hc & Hd) Hrest. unfold read_ipv4_addr, ipv4_display. rewrite !append_assoc.
  rewrite read_octet_first by done. cbn [mbind option_bind].
  do 3 (rewrite read_octet_next by done; cbn [mbind option_bind]). by destruct a.
Qed.

Lemma read_octet_range i s n rest : read_octet i s = Some (n, rest) → u8_ok n.
Proof.
  unfold read_octet, u8_ok. destruct i; simpl.
  - intros H%read_number_range; [rewrite u8_max_eq in H; lia|lia].
  - intros (s' & _ & H)%bind_Some. apply read_number_range in H; [rewrite u8_max_eq in H; lia|lia].
Qed.

Lemma read_ipv4_ok s a rest : read_ipv4_addr s = Some (a, rest) → ipv4_ok a.
Proof.
  unfold read_ipv4_addr. intros ([? ?] & H1 & H)%bind_Some.
  apply bind_Some in H as ([? ?] & H2 & H). apply bind_Some in H as ([? ?] & H3 & H).
  apply bind_Some in H as ([? ?] & H4 & H). simplify_eq.
  unfold ipv4_ok; simpl. split_and!; by eapply read_octet_range.
Qed.

(** An IPv4 address has dots. *)
Lemma read_ipv4_no_dot s : has_char "."%char s = false → read_ipv4_addr s = None.
Proof.
  intros Hs. unfold read_ipv4_addr. destruct (read_octet 0 s) as [[n r]|] eqn:E; [|done]. simpl.
  apply read_number_rest in E as [p ->]. rewrite has_char_app in Hs.
  apply orb_false_iff in Hs as [_ Hr]. destruct r as [|c r]; [done|]. simpl in *.
  apply orb_false_iff in Hr as [-> _]. done.
Qed.

(** ** IPv6 *)

Lemma digit_char_no_dot d : (0 ≤ d < 16)%Z → ascii_eqb (digit_char d) "."%char = false.
Proof.
  intros Hd. apply ascii_eqb_ne. intros E. apply (f_equal (to_digit 16)) in E.
  by rewrite to_digit_char in E by lia.
Qed.

Lemma fmt_hex_no_dot g : u16_ok g → has_char "."%char (fmt_hex g) = false.
Proof.
  intros Hg. unfold fmt_hex. destruct (to_digits_ok 16 ltac:(lia) 3 g) as [Hds _]; [unfold u16_ok in Hg; simpl; lia|].
  induction Hds as [|d ds Hd _ IH]; [done|]. rewrite str_of_digits_cons. simpl.
  by rewrite digit_char_no_dot, IH.
Qed.

Lemma fmt_tail_no_dot gs : Forall u16_ok gs → has_char "."%char (fmt_tail gs) = false.
Proof.
  induction 1 as [|g gs Hg _ IH]; [done|]. cbn [fmt_tail foldr]. fold (fmt_tail gs).
  by rewrite !has_char_app, fmt_hex_no_dot, IH.
Qed.

Lemma fmt_tail_no_digit gs rest : no_digit 16 rest → no_digit 16 (fmt_tail gs +:+ rest).
Proof. by destruct gs. Qed.

Lemma read_group_print i g rest :
  u16_ok g → no_digit 16 rest →
  read_group i ((if (i =? 0)%nat then "" else ":") +:+ fmt_hex g +:+ rest) = Some (g, rest).
Proof.
  intros Hg Hrest. unfold u16_ok in Hg.
  assert (read_number 16 4 true u16_max (fmt_hex g +:+ rest) = Some (g, rest)) as E
    by (apply read_number_print; unfold u16_max; first [done|simpl; lia]).
  unfold read_group. destruct i; simpl; exact E.
Qed.

Lemma read_separator_ipv4_no_dot i s :
  has_char "."%char s = false → read_separator ":"%char i read_ipv4_addr s = None.
Proof.
  intros Hs. destruct i; simpl; [by apply read_ipv4_no_dot|].
  destruct s as [|c s]; simpl in *; [done|]. apply orb_false_iff in Hs as [_ Hs].
  case_match; simpl; [by apply read_ipv4_no_dot|done].
Qed.

(** Where the groups of a printed address end: the end of the text or [::]. *)
Definition groups_end (rest : string) : Prop :=
  has_char "."%char rest = false ∧ (rest = "" ∨ ∃ t, rest = "::" +:+ t).

Lemma read_groups_stop left i rest : groups_end rest → read_groups left i rest = ([], false, rest).
Proof.
  intros [Hdot Hrest]. destruct left as [|left]; [done|]. cbn [read_groups].
  rewrite read_separator_ipv4_no_dot by done.
  destruct (0 <? left)%nat; (destruct Hrest as [->|[t ->]]; by destruct i).
Qed.

Lemma read_groups_cons left i s g rest :
  read_separator ":"%char i read_ipv4_addr s = None → read_group i s = Some (g, rest) →
  read_groups (S left) i s
  = (let '(gs, v4, rest') := read_groups left (S i) rest in (g :: gs, v4, rest')).
Proof. intros H1 H2. cbn [read_groups]. rewrite H1, H2. by destruct (0 <? left)%nat. Qed.

Lemma read_groups_v4 left i s v4 rest :
  0 < left → read_separator ":"%char i read_ipv4_addr s = Some (v4, rest) →
  read_groups (S left) i s
  = ([oct_a v4 * 256 + oct_b v4; oct_c v4 * 256 + oct_d v4]%Z, true, rest).
Proof. intros H1 H2. cbn [read_groups]. by rewrite (proj2 (Nat.ltb_lt _ _) H1), H2. Qed.

Lemma read_groups_print left i gs rest :
  Forall u16_ok gs → length gs ≤ left → groups_end rest →
  read_groups left i
    (match i with O => fmt_subslice gs | S _ => fmt_tail gs end +:+ rest) = (gs, false, rest).
Proof.
  intros Hgs Hlen Hrest. revert left i Hlen. induction Hgs as [|g gs Hg Hgs IH]; intros left i Hlen.
  { destruct i; by apply read_groups_stop. }
  destruct left as [|left]; [simpl in Hlen; lia|].
  assert (no_digit 16 rest) as Hnd by (destruct Hrest as [_ [->|[t ->]]]; done).
  assert (match i with O => fmt_subslice (g :: gs) | S _ => fmt_tail (g :: gs) end +:+ rest
          = (if (i =? 0)%nat then "" else ":") +:+ fmt_hex g +:+ (fmt_tail gs +:+ rest)) as ->.
  { destruct i; cbn [fmt_subslice fmt_tail foldr Nat.eqb]; by rewrite !append_assoc. }
  rewrite (read_groups_cons left i _ g (fmt_tail gs +:+ rest)).
  - specialize (IH left (S i) ltac:(simpl in Hlen; lia)). cbn in IH. by rewrite IH.
  - apply read_separator_ipv4_no_dot.
    rewrite !has_char_app, fmt_hex_no_dot, fmt_tail_no_dot, (proj1 Hrest) by done. by destruct i.
  - by apply read_group_print, fmt_tail_no_digit.
Qed.

(** The run of zeros that is printed as [::]. *)
Definition is_zero_run (segs : list Z) (r : nat * nat) : Prop :=
  ∃ l1 l2, segs = l1 ++ replicate r.2 0%Z ++ l2 ∧ length l1 = r.1.

Lemma zero_span_run segs pre cur longest :
  (cur.2 = 0 ∨ ∃ l1, pre = l1 ++ replicate cur.2 0%Z ∧ length l1 = cur.1) →
  is_zero_run pre longest →
  is_zero_run (pre ++ segs) (zero_span (length pre) cur longest segs).
Proof.
  revert pre cur longest. induction segs as [|g gs IH]; intros pre cur longest Hcur Hlong; simpl.
  { by rewrite app_nil_r. }
  assert (∀ r, is_zero_run pre r → is_zero_run (pre ++ [g]) r) as Hmono.
  { intros r (l1 & l2 & -> & ?). exists l1, (l2 ++ [g]). split; [|done]. by rewrite <- !app_assoc. }
  rewrite cons_middle, app_assoc. replace (S (length pre)) with (length (pre ++ [g])) by (rewrite length_app; simpl; lia).
  destruct (g =? 0)%Z eqn:E; [|apply IH; eauto].
  apply Z.eqb_eq in E as ->.
  assert (∃ l1, pre ++ [0%Z] = l1 ++ replicate (S cur.2) 0%Z
                ∧ length l1 = (if (cur.2 =? 0)%nat then length pre else cur.1)) as (l1 & H1 & H2).
  { destruct Hcur as [->|(l1 & -> & Hl)]; [by exists pre|].
    exists l1. rewrite <- app_assoc, replicate_S_end. split; [done|].
    case_match eqn:Hz; [|done]. apply Nat.eqb_eq in Hz as ->. by rewrite app_nil_r. }
  apply IH; [right; by exists l1|]. 
  match goal with |- is_zero_run _ (if ?b then _ else _) => destruct b; [|by apply Hmono] end.
  exists l1, []. simpl. by rewrite app_nil_r.
Qed.

Lemma zero_span_split segs start len :
  zero_span 0 (0, 0) (0, 0) segs = (start, len) →
  segs = take start segs ++ replicate len 0%Z ++ drop (start + len) segs.
Proof.
  intros E. destruct (zero_span_run segs [] (0, 0) (0, 0)) as (l1 & l2 & H1 & H2);
    [by left|by exists [], []|].
  simpl in *. rewrite E in H1, H2. simpl in *. rewrite H1 at 1. subst start.
  rewrite H1, take_app_length, drop_app_add, drop_app_length' by by rewrite length_replicate. done.
Qed.

Lemma to_ipv4_mapped_Some segs v4 :
  Forall u16_ok segs → to_ipv4_mapped segs = Some v4 →
  segs = [0; 0; 0; 0; 0; 65535; oct_a v4 * 256 + oct_b v4; oct_c v4 * 256 + oct_d v4]%Z ∧ ipv4_ok v4.
Proof.
  intros Hs H. unfold to_ipv4_mapped in H. do 9 (destruct segs as [|? segs]; try done).
  case_match eqn:E; simplify_eq. cbn [forallb] in E.
  rewrite !andb_true_iff, !Z.eqb_eq in E. destruct_and!. subst.
  repeat match goal with H : Forall _ (_ :: _) |- _ => apply Forall_cons in H as [? H] end.
  unfold ipv4_ok, u16_ok, u8_ok in *; cbn [oct_a oct_b oct_c oct_d].
  assert (∀ z, 0 ≤ z < 65536 → 0 ≤ z / 256 < 256 ∧ 0 ≤ z `mod` 256 < 256
               ∧ z = z / 256 * 256 + z `mod` 256)%Z as Hz.
  { intros y Hy. pose proof (Z.mod_pos_bound y 256 ltac:(lia)).
    pose proof (Z.div_mod y 256 ltac:(lia)). lia. }
  split; [|split_and!; apply Hz; split; lia].
  repeat f_equal; apply Hz; split; lia.
Qed.

Lemma groups_end_nil : groups_end "".
Proof. split; [done|by left]. Qed.

Lemma fmt_subslice_no_dot gs : Forall u16_ok gs → has_char "."%char (fmt_subslice gs) = false.
Proof.
  destruct 1 as [|g gs Hg Hgs]; [done|]. simpl. by rewrite has_char_app, fmt_hex_no_dot, fmt_tail_no_dot.
Qed.

Lemma groups_end_colons gs : Forall u16_ok gs → groups_end ("::" +:+ fmt_subslice gs).
Proof. intros H. split; [|right; eauto]. by rewrite has_char_app, fmt_subslice_no_dot. Qed.

(** The three forms of a printed IPv6 address. *)
Lemma read_ipv6_full segs :
  length segs = 8 → Forall u16_ok segs → read_ipv6_addr (fmt_subslice segs) = Some (segs, "").
Proof.
  intros Hl Hs. unfold read_ipv6_addr.
  pose proof (read_groups_print 8 0 segs "" Hs ltac:(lia) groups_end_nil) as E.
  rewrite append_nil_r in E. by rewrite E, Hl.
Qed.

Lemma read_ipv6_compressed hs ts :
  length hs + length ts < 8 → Forall u16_ok hs → Forall u16_ok ts →
  read_ipv6_addr (fmt_subslice hs +:+ "::" +:+ fmt_subslice ts)
  = Some (hs ++ replicate (8 - length hs - length ts) 0%Z ++ ts, "").
Proof.
  intros Hl Hh Ht. unfold read_ipv6_addr.
  rewrite (read_groups_print 8 0 hs _ Hh ltac:(lia) (groups_end_colons ts Ht)).
  rewrite (proj2 (Nat.eqb_neq _ _)) by lia.
  pose proof (read_groups_print (8 - (length hs + 1)) 0 ts "" Ht ltac:(lia) groups_end_nil) as E.
  rewrite append_nil_r in E. 
  assert (∀ t, read_given_char ":"%char ("::" +:+ t) = Some (":" +:+ t)) as -> by done.
  cbn [mbind option_bind].
  assert (∀ t, read_given_char ":"%char (":" +:+ t) = Some t) as -> by done.
  cbn [mbind option_bind]. by rewrite E.
Qed.

Lemma read_ipv6_mapped v4 :
  ipv4_ok v4 →
  read_ipv6_addr ("::ffff:" +:+ ipv4_display v4)
  = Some ([0; 0; 0; 0; 0; 65535; oct_a v4 * 256 + oct_b v4; oct_c v4 * 256 + oct_d v4]%Z, "").
Proof.
  intros Hok. pose proof (read_ipv4_print v4 "" Hok I) as E. rewrite append_nil_r in E.
  unfold read_ipv6_addr.
  assert (read_groups 8 0 ("::ffff:" +:+ ipv4_display v4)
          = ([], false, "::ffff:" +:+ ipv4_display v4)) as -> by done.
  assert (read_groups 7 0 ("ffff:" +:+ ipv4_display v4)
          = ([65535; oct_a v4 * 256 + oct_b v4; oct_c v4 * 256 + oct_d v4]%Z, true, "")) as Ht.
  { rewrite (read_groups_cons 6 0 _ 65535 (":" +:+ ipv4_display v4)); [|done|].
    - rewrite (read_groups_v4 5 1 _ v4 ""); [done|lia|exact E].
    - by apply (read_group_print 0 65535 (":" +:+ ipv4_display v4)). }
  assert (∀ t, read_given_char ":"%char ("::" +:+ t) = Some (":" +:+ t)) as Hc by done.
  change ("::ffff:" +:+ ipv4_display v4) with ("::" +:+ ("ffff:" +:+ ipv4_display v4)).
  rewrite Hc. cbn [mbind option_bind length Nat.eqb].
  assert (∀ t, read_given_char ":"%char (":" +:+ t) = Some t) as -> by done.
  cbn [mbind option_bind Nat.sub Nat.add]. by rewrite Ht.
Qed.

Lemma read_ipv6_display segs :
  length segs = 8 → Forall u16_ok segs → read_ipv6_addr (ipv6_display segs) = Some (segs, "").
Proof.
  intros Hl Hs. unfold ipv6_display. destruct (to_ipv4_mapped segs) as [v4|] eqn:Hm.
  { apply to_ipv4_mapped_Some in Hm as [-> Hv4]; [|done]. by apply read_ipv6_mapped. }
  destruct (zero_span 0 (0, 0) (0, 0) segs) as [start len] eqn:Hz.
  destruct (1 <? len)%nat eqn:Hlen; [|by apply read_ipv6_full]. apply Nat.ltb_lt in Hlen.
  apply zero_span_split in Hz. pose proof (f_equal length Hz) as Hsum.
  rewrite !length_app, length_replicate in Hsum.
  rewrite read_ipv6_compressed; [|lia|by apply Forall_take|by apply Forall_drop].
  replace (8 - _ - _) with len by lia. by rewrite <- Hz.
Qed.

(** The text of an IPv6 address is not an IPv4 address: it starts with a colon,
    or it has no dot. *)
Lemma read_ipv4_ipv6_display segs :
  Forall u16_ok segs → read_ipv4_addr (ipv6_display segs) = None.
Proof.
  intros Hs. unfold ipv6_display. destruct (to_ipv4_mapped segs) as [v4|]; [done|].
  apply read_ipv4_no_dot. destruct (zero_span _ _ _ _) as [start len]. case_match.
  - rewrite !has_char_app, !fmt_subslice_no_dot; [done|by apply Forall_drop|by apply Forall_take].
  - by apply fmt_subslice_no_dot.
Qed.

(** ** The parser gives addresses of machine width *)

Lemma read_group_range i s g rest : read_group i s = Some (g, rest) → u16_ok g.
Proof.
  unfold read_group, u16_ok. destruct i; simpl.
  - intros H%read_number_range; [unfold u16_max in H; lia|lia].
  - intros (s' & _ & H)%bind_Some. apply read_number_range in H; [unfold u16_max in H; lia|lia].
Qed.

Lemma read_groups_ok left i s gs v4 rest :
  read_groups left i s = (gs, v4, rest) → length gs ≤ left ∧ Forall u16_ok gs.
Proof.
  revert i s gs v4 rest. induction left as [|left IH]; intros i s gs v4 rest H; cbn [read_groups] in H.
  { simplify_eq. split; [done|constructor]. }
  case_match eqn:Hv.
  - case_match. simplify_eq. destruct (0 <? left)%nat eqn:El; [|done]. apply Nat.ltb_lt in El.
    assert (ipv4_ok i0) as (? & ? & ? & ?).
    { destruct i; simpl in Hv; [|apply bind_Some in Hv as (? & _ & Hv)]; by eapply read_ipv4_ok. }
    unfold u8_ok in *. split; [simpl; lia|]. rewrite !Forall_cons. unfold u16_ok. split_and!; [lia..|constructor].
  - case_match eqn:Hg; [|simplify_eq; split; [simpl; lia|constructor]]. case_match.
    destruct (read_groups left (S i) s0) as [[gs' b] r'] eqn:E. simplify_eq.
    apply IH in E as [??]. split; [simpl; lia|]. constructor; [by eapply read_group_range|done].
Qed.

Lemma read_ipv6_ok s segs rest :
  read_ipv6_addr s = Some (segs, rest) → length segs = 8 ∧ Forall u16_ok segs.
Proof.
  unfold read_ipv6_addr. destruct (read_groups 8 0 s) as [[hd v4] r] eqn:Eh.
  apply read_groups_ok in Eh as [Hl Hh].
  destruct (length hd =? 8)%nat eqn:E8; [apply Nat.eqb_eq in E8; intros; by simplify_eq|].
  apply Nat.eqb_neq in E8. destruct v4; [done|].
  intros (r1 & _ & H)%bind_Some. apply bind_Some in H as (r2 & _ & H).
  destruct (read_groups _ 0 r2) as [[tl v] r3] eqn:Et. apply read_groups_ok in Et as [Hl2 Ht].
  simplify_eq. rewrite !length_app, length_replicate, !Forall_app. split; [lia|].
  split_and!; [done| |done]. apply Forall_replicate. unfold u16_ok. lia.
Qed.

Lemma ip_parse_ok s ip : ip_parse s = Some ip → ip_ok ip.
Proof.
  unfold ip_parse, read_ip_addr. intros ([ip' rest] & H & Hrest)%bind_Some.
  case_match; simplify_eq. destruct (read_ipv4_addr s) as [[a r]|] eqn:E4.
  - simplify_eq. by eapply read_ipv4_ok.
  - apply bind_Some in H as ([segs r] & H & ?). simplify_eq. by eapply read_ipv6_ok.
Qed.

Lemma ip_parse_display ip : ip_ok ip → ip_parse (ip_display ip) = Some ip.
Proof.
  intros Hok. unfold ip_parse, read_ip_addr. destruct ip as [a|segs]; simpl in *.
  - rewrite <- (append_nil_r (ipv4_display a)). by rewrite (read_ipv4_print a "" Hok I).
  - destruct Hok as [Hl Hs]. by rewrite read_ipv4_ipv6_display, read_ipv6_display.
Qed.

(** An address the parser accepts is printed in a form the parser reads back as
    the same address: printing is a normal form. *)
Lemma ip_parse_normal s ip : ip_parse s = Some ip → ip_parse (ip_display ip) = Some ip.
Proof. intros H. by eapply ip_parse_display, ip_parse_ok. Qed.

(** ** Theorems *)

(** Printing an address and parsing the text gives the address back, in the
    dotted, the full, the compressed and the IPv4-mapped forms, exactly for the
    addresses of machine width: four bytes, or eight segments of 16 bits. *)
Theorem ip_roundtrip ip : ip_parse (ip_display ip) = Some ip ↔ ip_ok ip.
Proof. split; [apply ip_parse_ok|apply ip_parse_display]. Qed.
