(* ===== verification/RustPath.v ===== *)
(** * Rust's [std::path] on Unix

    A [Path] is its byte string.  [components] is the standard library's
    normalising iterator (repeated separators and inner [.] are dropped, a
    leading [.] and every [..] are kept); [push], [pop], [parent], [file_name],
    [set_file_name], [join] and [starts_with] work on the text the way the
    library does.  The lemmas relate each text operation to its effect on the
    components, which is what the confinement theorems are stated with. *)

From S2P Require Import Prelude RustStr.

Definition SEP : ascii := "/"%char.

Inductive Component : Type :=
| Prefix (s : string)
| RootDir
| CurDir
| ParentDir
| Normal (s : string).

#[global] Instance Component_eq_dec : EqDecision Component.
Proof. solve_decision. Defined.

(** ** Operations *)

Definition is_absolute (p : string) : bool :=
  match p with
  | String a _ => ascii_eqb a SEP
  | EmptyString => false
  end.

Definition is_relative (p : string) : bool := negb (is_absolute p).

(** The component a piece between two separators stands for, if any. *)
Definition parse_seg (seg : string) : option Component :=
  if str_eqb seg "" || str_eqb seg "." then None
  else if str_eqb seg ".." then Some ParentDir
  else Some (Normal seg).

(** The pieces after the root separator, if there is one. *)
Definition body_segs (p : string) : list string :=
  match p with
  | String a p' => if ascii_eqb a SEP then split SEP p' else split SEP p
  | EmptyString => split SEP p
  end.

(** [p.components()] *)
Definition components (p : string) : list Component :=
  if is_absolute p then RootDir :: omap parse_seg (body_segs p)
  else match body_segs p with
       | seg :: rest =>
           if str_eqb seg "." then CurDir :: omap parse_seg rest
           else omap parse_seg (seg :: rest)
       | [] => []
       end.

(** [p.push(c)]; an absolute [c] replaces [p]. *)
Definition push (p c : string) : string :=
  if is_absolute c then c
  else if is_empty p || ends_with_char SEP p then p +:+ c
  else p +:+ "/" +:+ c.

(** [p.join(c)] *)
Definition path_join (p c : string) : string := push p c.

(** Drops the trailing pieces that are no components (the list is reversed). *)
Fixpoint drop_ign (l : list string) : list string :=
  match l with
  | [] => []
  | seg :: rest => if parse_seg seg then l else drop_ign rest
  end.

(** Removes the last component of a list of pieces and the ignorable pieces
    before it; [None] when there is no component. *)
Definition remove_last (segs : list string) : option (list string) :=
  match drop_ign (rev segs) with
  | [] => None
  | _ :: rest => Some (rev (drop_ign rest))
  end.

(** [p.parent()] *)
Definition parent (p : string) : option string :=
  if is_absolute p then
    match remove_last (body_segs p) with
    | None => None
    | Some segs => Some ("/" +:+ join "/" segs)
    end
  else match body_segs p with
       | seg :: rest =>
           if str_eqb seg "." then
             match remove_last rest with
             | None => Some ""
             | Some segs => Some (join "/" (seg :: segs))
             end
           else match remove_last (seg :: rest) with
                | None => None
                | Some segs => Some (join "/" segs)
                end
       | [] => None
       end.

(** [p.file_name()] *)
Definition file_name (p : string) : option string :=
  match last (components p) with
  | Some (Normal s) => Some s
  | _ => None
  end.

(** [p.pop()] (the Boolean result is not used by the program). *)
Definition pop (p : string) : string := default p (parent p).

(** [p.set_file_name(f)], [p.with_file_name(f)] *)
Definition set_file_name (p f : string) : string :=
  push (match file_name p with Some _ => pop p | None => p end) f.

Fixpoint list_prefix (l1 l2 : list Component) : bool :=
  match l1, l2 with
  | [], _ => true
  | x :: l1', y :: l2' => bool_decide (x = y) && list_prefix l1' l2'
  | _ :: _, [] => false
  end.

(** [p.starts_with(base)] *)
Definition path_starts_with (base p : string) : bool :=
  list_prefix (components base) (components p).

Definition is_normal (c : Component) : bool :=
  match c with
  | Normal _ => true
  | _ => false
  end.

(** [p.extension()]: what follows the last dot of the file name, unless the
    name starts with its only dot. *)
Definition extension (p : string) : option string :=
  match file_name p with
  | None => None
  | Some f =>
      match rsplit_once "."%char f with
      | Some (l, r) => if is_empty l then None else Some r
      | None => None
      end
  end.

(** ** Names: what a [Normal] component can be *)

Definition valid_name (s : string) : Prop :=
  has_char SEP s = false ∧ s ≠ "" ∧ s ≠ "." ∧ s ≠ "..".

Definition valid_comp (c : Component) : Prop :=
  match c with
  | Normal s => valid_name s
  | _ => True
  end.

(** ** Lemmas *)

Lemma parse_seg_Normal seg s : parse_seg seg = Some (Normal s) → s = seg ∧ s ≠ "" ∧ s ≠ "." ∧ s ≠ "..".
Proof.
  unfold parse_seg, str_eqb. repeat case_bool_decide; simpl; naive_solver.
Qed.

Lemma parse_seg_valid s : valid_name s → parse_seg s = Some (Normal s).
Proof.
  unfold parse_seg, str_eqb. intros (_ & ? & ? & ?).
  repeat case_bool_decide; simpl; naive_solver.
Qed.

Lemma parse_seg_cases seg c :
  parse_seg seg = Some c → c = ParentDir ∨ c = Normal seg.
Proof. unfold parse_seg. repeat case_match; naive_solver. Qed.

Lemma valid_name_not_absolute s : valid_name s → is_absolute s = false.
Proof.
  intros (Hc & _). destruct s as [|a s]; [done|]. simpl in *.
  by apply orb_false_iff in Hc as [? _].
Qed.

Lemma valid_name_split s : valid_name s → split SEP s = [s].
Proof. intros (? & _). by apply split_no_char. Qed.

Lemma body_segs_rel p : is_absolute p = false → body_segs p = split SEP p.
Proof. destruct p as [|a p]; simpl; [done|]. by intros ->. Qed.

Lemma body_segs_cons a p :
  body_segs (String a p) = if ascii_eqb a SEP then split SEP p else split SEP (String a p).
Proof. done. Qed.

Lemma body_segs_not_nil p : body_segs p ≠ [].
Proof.
  destruct p as [|a p]; [apply split_not_nil|]. rewrite body_segs_cons.
  case_match; apply split_not_nil.
Qed.

Lemma body_segs_pieces p : Forall (λ x, has_char SEP x = false) (body_segs p).
Proof.
  destruct p as [|a p]; [apply split_pieces|]. rewrite body_segs_cons.
  case_match; apply split_pieces.
Qed.

(** Every [Normal] component is a valid name. *)
Lemma components_valid p : Forall valid_comp (components p).
Proof.
  assert (∀ l, Forall (λ x, has_char SEP x = false) l → Forall valid_comp (omap parse_seg l)) as Hom.
  { intros l Hl. apply Forall_forall. intros c (x & Hx & Hc)%list_elem_of_omap.
    destruct c as [| | | |s]; try done. apply parse_seg_Normal in Hc as (-> & ? & ? & ?).
    rewrite Forall_forall in Hl. split; [by apply Hl|done]. }
  pose proof (body_segs_pieces p) as Hp. unfold components.
  destruct (is_absolute p); [by constructor; auto|].
  destruct (body_segs p) as [|seg rest]; [done|].
  destruct (str_eqb seg "."); [|by apply Hom].
  constructor; [done|]. apply Hom. by inversion Hp.
Qed.

(** *** [push] *)

Lemma omap_nil_seg l : omap parse_seg (l ++ [""]) = omap parse_seg l.
Proof. rewrite omap_app. simpl. apply app_nil_r. Qed.

Lemma body_segs_sep p c :
  p ≠ "" → body_segs (p +:+ String SEP c) = body_segs p ++ split SEP c.
Proof.
  intros Hp. destruct p as [|a p]; [done|]. rewrite append_cons, !body_segs_cons.
  destruct (ascii_eqb a SEP) eqn:E; [apply split_app_sep|].
  rewrite <- append_cons. by rewrite split_app_sep.
Qed.

Lemma body_segs_push p c :
  p ≠ "" → is_absolute c = false →
  ∃ l, body_segs (push p c) = l ++ split SEP c ∧
       ((body_segs p = l) ∨ (body_segs p = l ++ [""])) ∧ l ≠ [] ∨
       body_segs (push p c) = split SEP c ∧ body_segs p = [""] ∧ is_absolute p = true ∧ l = [].
Proof.
  intros Hp Hc. unfold push. rewrite Hc, (proj2 (is_empty_false p) Hp). simpl.
  destruct (ends_with_char SEP p) eqn:He.
  - apply ends_with_char_true in He as [q ->].
    destruct q as [|a q].
    + exists []. right. rewrite append_nil_l. split_and!; try done.
    + exists (body_segs (String a q)). left. split; [|split].
      * rewrite append_assoc. change (String SEP "" +:+ c) with (String SEP c).
        by rewrite body_segs_sep.
      * right. by rewrite body_segs_sep.
      * apply body_segs_not_nil.
  - exists (body_segs p). left. split; [|split; [by left|]].
    + change ("/" +:+ c) with (String SEP c). by rewrite body_segs_sep.
    + apply body_segs_not_nil.
Qed.

Lemma is_absolute_push p c :
  p ≠ "" → is_absolute c = false → is_absolute (push p c) = is_absolute p.
Proof.
  intros Hp Hc. unfold push. rewrite Hc, (proj2 (is_empty_false p) Hp). simpl.
  destruct p as [|a p]; [done|]. by destruct (ends_with_char SEP _).
Qed.

(** Pushing a relative path appends its components. *)
Lemma components_push_gen p c :
  p ≠ "" → is_absolute c = false →
  components (push p c) = components p ++ omap parse_seg (split SEP c).
Proof.
  intros Hp Hc. unfold components at 1 2. rewrite is_absolute_push by done.
  destruct (body_segs_push p c Hp Hc) as [l [(-> & Hb & Hl)|(-> & Hb & Ha & _)]].
  - destruct (is_absolute p).
    + rewrite omap_app. by destruct Hb as [->| ->]; rewrite ?omap_nil_seg.
    + destruct l as [|seg rest]; [done|].
      destruct Hb as [->| ->]; rewrite <- !app_comm_cons; destruct (str_eqb seg ".");
        rewrite ?app_comm_cons, ?omap_nil_seg, ?omap_app; simpl omap; rewrite ?app_nil_r; done.
  - by rewrite Ha, Hb.
Qed.

Lemma components_push_name p s :
  valid_name s → components (push p s) = components p ++ [Normal s].
Proof.
  intros Hs. pose proof (valid_name_not_absolute s Hs) as Ha.
  destruct (decide (p = "")) as [->|Hp].
  - unfold push. rewrite Ha. simpl. rewrite append_nil_l. unfold components.
    rewrite Ha, body_segs_rel, valid_name_split by done.
    destruct Hs as (? & ? & Hd & ?). rewrite (proj2 (str_eqb_ne _ _) Hd).
    simpl. by rewrite parse_seg_valid.
  - rewrite components_push_gen by done. rewrite valid_name_split by done. simpl.
    by rewrite parse_seg_valid.
Qed.

(** *** [parent] and [pop] *)

Lemma split_join segs :
  segs ≠ [] → Forall (λ x, has_char SEP x = false) segs →
  split SEP (join "/" segs) = segs.
Proof.
  intros Hne Hs. induction Hs as [|x l Hx Hl IH]; [done|].
  destruct l as [|y l]; [by apply split_no_char|].
  rewrite join_cons by done. change ("/" +:+ ?s) with (String SEP s).
  rewrite split_app_sep, (split_no_char _ x Hx), IH by done. done.
Qed.

Lemma drop_ign_suffix l : ∃ l1, l = l1 ++ drop_ign l ∧ omap parse_seg l1 = [].
Proof.
  induction l as [|x l (l1 & Hl & Ho)]; simpl; [by exists []|].
  destruct (parse_seg x) eqn:E; [by exists []|].
  exists (x :: l1). simpl. by rewrite <- Hl, E.
Qed.

Lemma omap_rev_nil (l : list string) : omap parse_seg l = [] → omap parse_seg (rev l) = [].
Proof.
  induction l as [|x l IH]; simpl; [done|]. rewrite omap_app. simpl.
  destruct (parse_seg x); [done|]. intros H. by rewrite IH.
Qed.

Lemma drop_ign_head l x r : drop_ign l = x :: r → ∃ c, parse_seg x = Some c.
Proof.
  induction l as [|y l IH]; simpl; [done|].
  destruct (parse_seg y) eqn:E; [|done]. intros [= -> _]. eauto.
Qed.

(** The pieces that stay are a prefix, and one component is lost. *)
Lemma remove_last_Some segs r :
  remove_last segs = Some r →
  ∃ c s, segs = r ++ s ∧ omap parse_seg segs = omap parse_seg r ++ [c].
Proof.
  unfold remove_last. destruct (drop_ign (rev segs)) as [|x rest] eqn:E; [done|].
  intros [= <-]. destruct (drop_ign_head _ _ _ E) as [c Hc].
  destruct (drop_ign_suffix (rev segs)) as (l1 & H1 & Ho1).
  destruct (drop_ign_suffix rest) as (l2 & H2 & Ho2).
  rewrite E in H1. apply (f_equal (@rev _)) in H1.
  rewrite rev_involutive, rev_app_distr in H1. simpl in H1.
  apply (f_equal (@rev _)) in H2. rewrite rev_app_distr in H2.
  exists c, (rev l2 ++ [x] ++ rev l1). split.
  - by rewrite app_assoc, <- H2, app_assoc.
  - rewrite H1, !omap_app. simpl. rewrite Hc, (omap_rev_nil _ Ho1), app_nil_r.
    by rewrite H2, omap_app, (omap_rev_nil _ Ho2), app_nil_r.
Qed.

Lemma remove_last_None segs : remove_last segs = None → omap parse_seg segs = [].
Proof.
  unfold remove_last. destruct (drop_ign (rev segs)) as [|x rest] eqn:E; [|done].
  intros _. destruct (drop_ign_suffix (rev segs)) as (l1 & H1 & Ho1).
  rewrite E, app_nil_r in H1. rewrite <- (rev_involutive segs), H1.
  by apply omap_rev_nil.
Qed.

Lemma components_abs_join segs :
  Forall (λ x, has_char SEP x = false) segs →
  components ("/" +:+ join "/" segs) = RootDir :: omap parse_seg segs.
Proof.
  intros Hs. change ("/" +:+ ?s) with (String SEP s).
  unfold components. simpl is_absolute. rewrite body_segs_cons, ascii_eqb_refl.
  destruct segs as [|x l]; [done|]. by rewrite split_join.
Qed.

Lemma is_absolute_join x l :
  x ≠ "" → has_char SEP x = false → is_absolute (join "/" (x :: l)) = false.
Proof.
  intros Hx Hc. destruct x as [|a x]; [done|]. simpl in Hc.
  apply orb_false_iff in Hc as [Ha _]. by destruct l; simpl.
Qed.

Lemma components_rel_join x l :
  x ≠ "" → Forall (λ x, has_char SEP x = false) (x :: l) →
  components (join "/" (x :: l)) =
  if str_eqb x "." then CurDir :: omap parse_seg l else omap parse_seg (x :: l).
Proof.
  intros Hx Hs. pose proof Hs as [Hc _]%Forall_cons. unfold components.
  rewrite is_absolute_join by done.
  by rewrite body_segs_rel, split_join by (done || by apply is_absolute_join).
Qed.

Lemma rel_head_nonempty p x l :
  is_absolute p = false → body_segs p = x :: l → remove_last (x :: l) ≠ None → x ≠ "".
Proof.
  intros Ha Hb Hr ->. rewrite body_segs_rel in Hb by done.
  destruct p as [|a p]; simpl in *; [by injection Hb as <-|].
  rewrite Ha in Hb. by destruct (split SEP p).
Qed.

(** The parent loses exactly the last component. *)
Lemma parent_Some p q : parent p = Some q → ∃ c, components p = components q ++ [c].
Proof.
  pose proof (body_segs_pieces p) as Hp. unfold parent. unfold components at 1.
  destruct (is_absolute p) eqn:Ha.
  { destruct (remove_last (body_segs p)) as [segs|] eqn:E; [|done]. intros [= <-].
    destruct (remove_last_Some _ _ E) as (c & s & Hs & Ho). exists c.
    rewrite Hs in Hp. apply Forall_app in Hp as [Hp _].
    by rewrite components_abs_join, Ho. }
  destruct (body_segs p) as [|seg rest] eqn:Hb; [done|].
  destruct (str_eqb seg ".") eqn:Hd.
  - destruct (remove_last rest) as [segs|] eqn:E; intros <-%(inj Some).
    + destruct (remove_last_Some _ _ E) as (c & s & Hs & Ho). exists c.
      apply str_eqb_eq in Hd as ->. rewrite Hs, app_comm_cons in Hp.
      apply Forall_app in Hp as [Hp _].
      by rewrite components_rel_join, Ho.
    + exists CurDir. by rewrite (remove_last_None _ E).
  - destruct (remove_last (seg :: rest)) as [segs|] eqn:E; [|done]. intros [= <-].
    destruct (remove_last_Some _ _ E) as (c & s & Hs & Ho). exists c. rewrite Ho.
    destruct segs as [|x l]; [done|]. injection Hs as <- Hs.
    assert (seg ≠ "") by (eapply rel_head_nonempty; [done..|congruence]).
    rewrite Hs, app_comm_cons in Hp. apply Forall_app in Hp as [Hp _].
    by rewrite components_rel_join, Hd.
Qed.

Lemma parent_None p : parent p = None → components p = [] ∨ components p = [RootDir].
Proof.
  unfold parent, components. destruct (is_absolute p) eqn:Ha.
  { destruct (remove_last _) eqn:E; [done|]. right. by rewrite (remove_last_None _ E). }
  destruct (body_segs p) as [|seg rest] eqn:Hb; [by left|].
  destruct (str_eqb seg "."); [by case_match|].
  destruct (remove_last _) eqn:E; [done|]. left. by rewrite (remove_last_None _ E).
Qed.

Lemma file_name_Some p f :
  file_name p = Some f →
  valid_name f ∧ components p = components (pop p) ++ [Normal f].
Proof.
  unfold file_name. intros H. destruct (last (components p)) as [[| | | |s]|] eqn:E; try done.
  injection H as ->. split.
  - pose proof (components_valid p) as Hv. rewrite Forall_forall in Hv.
    apply (Hv (Normal f)). by apply last_Some_elem_of.
  - unfold pop. destruct (parent p) as [q|] eqn:Hq; simpl.
    + destruct (parent_Some _ _ Hq) as [c Hc]. rewrite Hc, last_snoc in E.
      by injection E as ->.
    + destruct (parent_None _ Hq) as [Hc|Hc]; by rewrite Hc in E.
Qed.

(** Replacing the file name replaces the last component. *)
Lemma components_set_file_name p f g :
  file_name p = Some f → valid_name g →
  components (set_file_name p g) = components (pop p) ++ [Normal g].
Proof. intros Hf Hg. unfold set_file_name. rewrite Hf. by apply components_push_name. Qed.

Lemma file_name_push p s : valid_name s → file_name (push p s) = Some s.
Proof. intros Hs. unfold file_name. by rewrite components_push_name, last_snoc. Qed.

(** Popping what was pushed restores the components (not always the text). *)
Lemma components_pop_push p s : valid_name s → components (pop (push p s)) = components p.
Proof.
  intros Hs. destruct (file_name_Some _ _ (file_name_push p s Hs)) as [_ H].
  rewrite components_push_name in H by done. by simplify_list_eq.
Qed.

Lemma valid_name_app f e :
  valid_name f → has_char SEP e = false → (2 < String.length e)%nat → valid_name (f +:+ e).
Proof.
  intros (Hf & _) He Hlen. split; [by rewrite has_char_app, Hf, He|].
  assert (2 < String.length (f +:+ e))%nat by (rewrite append_length; lia).
  split_and!; intros Heq; rewrite Heq in *; simpl in *; lia.
Qed.

(** [list_prefix] is the prefix test. *)
Lemma list_prefix_true l1 l2 : list_prefix l1 l2 = true ↔ ∃ l, l2 = l1 ++ l.
Proof.
  revert l2. induction l1 as [|x l1 IH]; intros l2; simpl; [naive_solver|].
  destruct l2 as [|y l2]; [naive_solver|].
  rewrite andb_true_iff, bool_decide_eq_true, IH. naive_solver.
Qed.

Lemma path_starts_with_true base p :
  path_starts_with base p = true ↔ ∃ l, components p = components base ++ l.
Proof. apply list_prefix_true. Qed.

#[export] Hint Resolve components_valid valid_name_not_absolute : sws.
