(* ===== verification/Fs.v ===== *)
(** * The file system the program reads

    [std::fs] seen from the program: [FileSystem] answers the calls it makes
    ([metadata], [symlink_metadata], [File::open], [read], [read_dir],
    [canonicalize]) for every path string; nothing is assumed about the
    answers.  The answers are those of one moment: a file that changes between
    two calls of one request is outside the model.  [helpers.rs] is modelled
    here too: it is a thin layer over these calls. *)

From S2P Require Import Prelude RustStr RustPath.

Inductive FileKind : Type := KDir | KFile | KSymlink | KOther.

(** [std::fs::Metadata]: [meta_modified] is nanoseconds after the Unix epoch,
    absent where the platform has none. *)
Record Metadata : Type := {
  meta_kind : FileKind;
  meta_len : Z;
  meta_modified : option Z;
  meta_blksize : Z
}.

Definition UNIX_EPOCH : Z := 0.

Inductive ErrorKind : Type := NotFound | PermissionDenied | OtherError.

(** An open file: which offsets it can seek to and its bytes ([None]: reading
    fails, as it does on a directory). *)
Record OpenFile : Type := {
  of_seek : Z → bool;
  of_data : option string
}.

(** An entry of [read_dir]; its metadata does not follow a symbolic link. *)
Record DirEntry : Type := {
  de_name : string;
  de_path : string;
  de_metadata : Result Metadata ErrorKind
}.

Record FileSystem : Type := {
  fs_metadata : string → Result Metadata ErrorKind;
  fs_symlink_metadata : string → Result Metadata ErrorKind;
  fs_open : string → Result OpenFile ErrorKind;
  fs_read : string → Result string ErrorKind;
  fs_read_dir : string → Result (list (Result DirEntry ErrorKind)) ErrorKind;
  fs_canonicalize : string → Result string ErrorKind
}.

Definition kind_is_dir (k : FileKind) : bool :=
  match k with KDir => true | _ => false end.

Definition kind_is_file (k : FileKind) : bool :=
  match k with KFile => true | _ => false end.

Definition kind_is_symlink (k : FileKind) : bool :=
  match k with KSymlink => true | _ => false end.

(** [Path::exists], [is_dir], [is_file], [is_symlink] *)
Definition path_exists (fs : FileSystem) (p : string) : bool := is_ok (fs_metadata fs p).

Definition path_is_dir (fs : FileSystem) (p : string) : bool :=
  match fs_metadata fs p with
  | Ok m => kind_is_dir (meta_kind m)
  | _ => false
  end.

Definition path_is_file (fs : FileSystem) (p : string) : bool :=
  match fs_metadata fs p with
  | Ok m => kind_is_file (meta_kind m)
  | _ => false
  end.

Definition path_is_symlink (fs : FileSystem) (p : string) : bool :=
  match fs_symlink_metadata fs p with
  | Ok m => kind_is_symlink (meta_kind m)
  | _ => false
  end.

(** ** [helpers.rs] *)

Inductive DirpathError : Type := PathNotFound | PathNotDirectory.

Definition get_valid_dirpath (fs : FileSystem) (path : string) : Result string DirpathError :=
  if negb (path_exists fs path) then Err PathNotFound
  else if negb (path_is_dir fs path) then Err PathNotDirectory
  else Ok path.

Definition read_bytes_default (fs : FileSystem) (path : string) : string :=
  match fs_read fs path with
  | Ok s => s
  | _ => ""
  end.

Inductive ReadFileError : Type := ReadFailed (k : ErrorKind) | InvalidUtf8.

Definition read_bytes (fs : FileSystem) (path : string) : Result string ReadFileError :=
  match fs_read fs path with
  | Ok s => Ok s
  | Err k => Err (ReadFailed k)
  | Panic => Panic
  end.

Definition read_file (fs : FileSystem) (path : string) : Result string ReadFileError :=
  rbind (read_bytes fs path)
    (λ b, match to_str b with
          | Some s => Ok s
          | None => Err InvalidUtf8
          end).

(** ** A file system given by a list of nodes

    Used by the witnesses: a finite table of paths, looked up by their exact
    text; everything else is not found. *)

Record Node : Type := {
  node_path : string;
  node_meta : Metadata;
  node_link : bool;
  node_data : option string;
  node_entries : list (Result DirEntry ErrorKind)
}.

Definition node_at (t : list Node) (p : string) : option Node :=
  find_first (λ n, str_eqb (node_path n) p) t.

Definition node_answer {A : Type} (t : list Node) (f : Node → A) (p : string) : Result A ErrorKind :=
  match node_at t p with
  | Some n => Ok (f n)
  | None => Err NotFound
  end.

Definition table_fs (t : list Node) : FileSystem := {|
  fs_metadata := node_answer t node_meta;
  fs_symlink_metadata := node_answer t (λ n,
    if node_link n
    then {| meta_kind := KSymlink; meta_len := 0; meta_modified := None; meta_blksize := 4096 |}
    else node_meta n);
  fs_open := node_answer t (λ n, {| of_seek := λ _, true; of_data := node_data n |});
  fs_read := λ p,
    match node_at t p with
    | Some n => match node_data n with Some d => Ok d | None => Err OtherError end
    | None => Err NotFound
    end;
  fs_read_dir := node_answer t node_entries;
  fs_canonicalize := node_answer t node_path
|}.

Definition file_node (p data : string) (mtime : Z) : Node := {|
  node_path := p;
  node_meta := {| meta_kind := KFile; meta_len := str_len data;
                  meta_modified := Some mtime; meta_blksize := 4096 |};
  node_link := false;
  node_data := Some data;
  node_entries := []
|}.

Definition dir_node (p : string) : Node := {|
  node_path := p;
  node_meta := {| meta_kind := KDir; meta_len := 4096;
                  meta_modified := Some 1000000000%Z; meta_blksize := 4096 |};
  node_link := false;
  node_data := None;
  node_entries := []
|}.

(** The operating system answers or reports an error: no call panics. *)
Record fs_total (fs : FileSystem) : Prop := {
  total_open : ∀ p, fs_open fs p ≠ Panic;
  total_read_dir : ∀ p, fs_read_dir fs p ≠ Panic;
  total_entries : ∀ p l, fs_read_dir fs p = Ok l → Forall (λ e, e ≠ Panic) l
}.

(** Sizes are 64-bit. *)
Definition fs_sizes (fs : FileSystem) : Prop :=
  ∀ p m, fs_metadata fs p = Ok m → is_u64 (meta_len m).

(** ** Lemmas *)

Lemma path_is_dir_exists fs p : path_is_dir fs p = true → path_exists fs p = true.
Proof. unfold path_is_dir, path_exists. by destruct (fs_metadata fs p). Qed.

Lemma table_fs_total t :
  Forall (λ n, Forall (λ e, e ≠ Panic) (node_entries n)) t → fs_total (table_fs t).
Proof.
  intros Ht. split; simpl; unfold node_answer; intros p.
  - by destruct (node_at t p).
  - by destruct (node_at t p).
  - intros l. destruct (node_at t p) as [n|] eqn:E; [|done]. intros [= <-].
    unfold node_at in E. apply find_first_Some in E as (l1 & l2 & -> & _).
    rewrite Forall_forall in Ht. apply Ht. set_solver.
Qed.
