(* ===== verification/Helpers.v ===== *)
(** * Helpers: the rest of [helpers.rs]

    The name of a configuration key that was ignored ([stringify]) and, on
    Windows, a canonical path without its verbatim prefix.  The file helpers are
    in [Fs]. *)

From S2P Require Import Prelude RustStr RustPath Fs.

(** [serde_ignored::Path] *)
Inductive SerdePath : Type :=
| PathRoot
| PathSeq (parent : SerdePath) (index : nat)
| PathMap (parent : SerdePath) (key : string)
| PathSome (parent : SerdePath)
| PathNewtypeStruct (parent : SerdePath)
| PathNewtypeVariant (parent : SerdePath).

Fixpoint stringify (dst : string) (path : SerdePath) : string :=
  match path with
  | PathRoot => dst
  | PathSeq parent index =>
      let dst := stringify dst parent in
      (if is_empty dst then dst else dst +:+ ".") +:+ pretty index
  | PathMap parent key =>
      let dst := stringify dst parent in
      (if is_empty dst then dst else dst +:+ ".") +:+ key
  | PathSome parent | PathNewtypeVariant parent | PathNewtypeStruct parent => stringify dst parent
  end.

Definition VERBATIM_PREFIX : string := "\\?\".

(** [adjust_canonicalization]: a path that is not UTF-8 becomes empty. *)
Definition adjust_canonicalization (p : string) : string :=
  let p := default "" (to_str p) in
  if starts_with VERBATIM_PREFIX p then default "" (strip_prefix VERBATIM_PREFIX p) else p.

(** ** Lemmas *)

(** The keys and indexes from the root. *)
Fixpoint path_segments (path : SerdePath) : list string :=
  match path with
  | PathRoot => []
  | PathSeq parent index => path_segments parent ++ [pretty index]
  | PathMap parent key => path_segments parent ++ [key]
  | PathSome parent | PathNewtypeVariant parent | PathNewtypeStruct parent => path_segments parent
  end.

Lemma join_snoc l x : Forall (λ s, s ≠ "") l →
  join "." (l ++ [x]) = (if is_empty (join "." l) then join "." l else join "." l +:+ ".") +:+ x.
Proof.
  intros Hl. destruct l as [|y l]; [done|]. apply Forall_cons in Hl as [Hy _].
  assert (is_empty (join "." (y :: l)) = false) as ->.
  { apply is_empty_false. destruct l; [done|]. rewrite join_cons by done. by destruct y. }
  rewrite join_app by done. cbn [join]. by rewrite append_assoc.
Qed.

(** The printed key is the dotted path, when no key of the path is empty. *)
Lemma stringify_join path :
  Forall (λ s, s ≠ "") (path_segments path) → stringify "" path = join "." (path_segments path).
Proof.
  induction path as [|p IH n|p IH k|p IH|p IH|p IH]; cbn; try done.
  - intros [Hp _]%Forall_app. by rewrite IH, join_snoc.
  - intros [Hp _]%Forall_app. by rewrite IH, join_snoc.
Qed.

(** A path without the prefix is kept; with it, the rest is. *)
Lemma adjust_canonicalization_spec p r :
  utf8_valid p = true → p = VERBATIM_PREFIX +:+ r → adjust_canonicalization p = r.
Proof.
  intros Hu ->. unfold adjust_canonicalization, to_str. rewrite Hu. cbn [default from_option id].
  rewrite (proj2 (starts_with_true VERBATIM_PREFIX (VERBATIM_PREFIX +:+ r))) by eauto.
  by rewrite (proj2 (strip_prefix_Some VERBATIM_PREFIX _ r)).
Qed.
