(* ===== verification/Transport.v ===== *)
(** * Connections: [transport.rs]

    A polled operation is [Pending] or [Ready].  The trait [Transport] (with the
    [AsyncRead] and [AsyncWrite] it extends) is the class [Transport]: what a
    connection promises to the service that answers its requests.  [Cx] is what
    the operating system and the peer contribute to one poll, so that an
    operation is a function of it and of the state of the connection. *)

From S2P Require Import Prelude RustStr IpAddr Fs.

Open Scope sws_scope.

Inductive Poll (A : Type) : Type := Pending | Ready (a : A).

Arguments Pending {A}.
Arguments Ready {A} a.

(** [io::Error]: an error of the operating system, or one that wraps it with the
    file that was read. *)
Inductive IoError : Type :=
| OsError (k : ErrorKind)
| ReadingFile (path : string) (k : ErrorKind).

Definition io_kind (e : IoError) : ErrorKind :=
  match e with
  | OsError k => k
  | ReadingFile _ k => k
  end.

(** [trait Transport: AsyncRead + AsyncWrite]; a read gives the bytes it put in
    a buffer of the given size. *)
Class Transport (Cx T : Type) : Type := {
  poll_read : Cx → nat → T → Result (Poll (Result string IoError) * T) Error;
  poll_write : Cx → string → T → Result (Poll (Result nat IoError) * T) Error;
  poll_flush : Cx → T → Result (Poll (Result unit IoError) * T) Error;
  poll_shutdown : Cx → T → Result (Poll (Result unit IoError) * T) Error;
  remote_addr : T → option SocketAddr
}.

(** An operation of [AsyncRead] or [AsyncWrite] and its outcome. *)
Inductive Op : Type := Read (len : nat) | Write (buf : string) | Flush | Shutdown.

Inductive Outcome : Type :=
| OutRead (r : Poll (Result string IoError))
| OutWrite (r : Poll (Result nat IoError))
| OutFlush (r : Poll (Result unit IoError))
| OutShutdown (r : Poll (Result unit IoError)).

Section Run.
Context {Cx T : Type} `{!Transport Cx T}.

Definition poll_op (cx : Cx) (op : Op) (t : T) : Result (Outcome * T) Error :=
  match op with
  | Read len => let? r := poll_read cx len t in Ok (OutRead r.1, r.2)
  | Write buf => let? r := poll_write cx buf t in Ok (OutWrite r.1, r.2)
  | Flush => let? r := poll_flush cx t in Ok (OutFlush r.1, r.2)
  | Shutdown => let? r := poll_shutdown cx t in Ok (OutShutdown r.1, r.2)
  end.

(** A sequence of operations on one connection. *)
Fixpoint run (ops : list (Cx * Op)) (t : T) : Result (list Outcome * T) Error :=
  match ops with
  | [] => Ok ([], t)
  | (cx, op) :: ops' =>
      let? r := poll_op cx op t in
      let? rs := run ops' r.2 in
      Ok (r.1 :: rs.1, rs.2)
  end.

End Run.

(** [LiftIo<T>]: a stream as a transport without a peer address. *)
Record LiftIo (T : Type) : Type := { lift_io : T }.

Arguments lift_io {T} _.

Section LiftIo.
Context {Cx T : Type} `{!Transport Cx T}.

Definition lift_result {A} (r : Result (A * T) Error) : Result (A * LiftIo T) Error :=
  let? r := r in Ok (r.1, {| lift_io := r.2 |}).

#[global] Instance LiftIo_transport : Transport Cx (LiftIo T) := {|
  poll_read := λ cx len t, lift_result (poll_read cx len (lift_io t));
  poll_write := λ cx buf t, lift_result (poll_write cx buf (lift_io t));
  poll_flush := λ cx t, lift_result (poll_flush cx (lift_io t));
  poll_shutdown := λ cx t, lift_result (poll_shutdown cx (lift_io t));
  remote_addr := λ _, None
|}.

(** The wrapper changes nothing of the operations. *)
Lemma lift_io_run ops t :
  run ops {| lift_io := t |} = lift_result (run ops t).
Proof.
  revert t. induction ops as [|[cx op] ops IH]; intros t; [done|]. cbn [run].
  assert (poll_op cx op {| lift_io := t |} = lift_result (poll_op cx op t)) as ->.
  { unfold poll_op, lift_result. destruct op as [len|buf| |]; cbn;
      [destruct (poll_read cx len t)|destruct (poll_write cx buf t)
      |destruct (poll_flush cx t)|destruct (poll_shutdown cx t)]; done. }
  destruct (poll_op cx op t) as [[o t']|e|]; cbn; [|done..].
  rewrite IH. by destruct (run ops t') as [[os t'']|e|].
Qed.

End LiftIo.
