(* ===== verification/Tls.v ===== *)
(** * TLS: [tls.rs]

    The TLS configuration (certificate and private key from PEM data), the lazy
    file reader behind it, and the connection that handshakes on its first read
    or write and then streams.  The [rustls], [tokio-rustls] and
    [rustls-pemfile] crates are the class [TlsC]. *)

From S2P Require Import Prelude RustStr IpAddr Fs Transport.

Open Scope sws_scope.

(** ** The [rustls] crates *)

(** [rustls_pemfile::Item] *)
Inductive Item (PrivateKey : Type) : Type :=
| Pkcs1Key (k : PrivateKey)
| Pkcs8Key (k : PrivateKey)
| Sec1Key (k : PrivateKey)
| OtherItem.

Arguments Pkcs1Key {PrivateKey} k.
Arguments Pkcs8Key {PrivateKey} k.
Arguments Sec1Key {PrivateKey} k.
Arguments OtherItem {PrivateKey}.

(** [pem_read_one] reads the next section of a buffer and what follows it;
    [Some None] when there is none, [None] when the data is malformed.  A section
    takes one byte at least.  [Accept] is the
    handshake future, [Stream] the connection after the handshake. *)
Class TlsC : Type := {
  Certificate : Type;
  PrivateKey : Type;
  TlsError : Type;
  tls_error_display : TlsError → string;
  BaseConfig : Type;
  pem_certs : string → option (list Certificate);
  pem_read_one : string → option (option (Item PrivateKey * string));
  pem_read_one_shorter : ∀ b i r,
    pem_read_one b = Some (Some (i, r)) → String.length r < String.length b;
  with_single_cert : list Certificate → PrivateKey → BaseConfig + TlsError;
  Cx : Type;
  AddrStream : Type;
  addr_stream_transport :: Transport Cx AddrStream;
  addr_remote_addr : AddrStream → SocketAddr;
  addr_remote_addr_spec : ∀ s, remote_addr s = Some (addr_remote_addr s);
  Accept : Type;
  Stream : Type;
  stream_transport :: Transport Cx Stream;
  tls_accept : BaseConfig → list string → AddrStream → Accept;
  poll_accept_tls : Cx → Accept → Poll (Result Stream IoError) * Accept;
  AddrIncoming : Type;
  poll_accept_addr : Cx → AddrIncoming → Poll (option (Result AddrStream IoError)) * AddrIncoming
}.

(** ** Readers *)

(** A file that is opened by the first read; [lz_file] is what is left to read
    of the open file ([Some None]: reading it fails). *)
Record LazyFile : Type := {
  lz_path : string;
  lz_file : option (option string)
}.

(** [LazyFile::lazy_read] with a buffer of [len] bytes, of which the system
    fills at most [want] (one at least). *)
Definition lazy_read (fs : FileSystem) (want len : nat) (lf : LazyFile)
    : Result (string * LazyFile) ErrorKind :=
  let? data :=
    match lz_file lf with
    | None => let? f := fs_open fs (lz_path lf) in Ok (of_data f)
    | Some data => Ok data
    end in
  match data with
  | None => Err OtherError
  | Some data =>
      let n := Nat.min (Nat.max 1 want) len in
      Ok (str_take n data, {| lz_path := lz_path lf; lz_file := Some (Some (str_drop n data)) |})
  end.

(** [<LazyFile as Read>::read]: the kind is kept, the path is added. *)
Definition lazy_file_read (fs : FileSystem) (want len : nat) (lf : LazyFile)
    : Result (string * LazyFile) IoError :=
  match lazy_read fs want len lf with
  | Ok r => Ok r
  | Err k => Err (ReadingFile (lz_path lf) k)
  | Panic => Panic
  end.

(** [Box<dyn Read>]: [io::empty()], a cursor, a lazy file. *)
Inductive Source : Type :=
| SEmpty
| SCursor (rest : string)
| SFile (lf : LazyFile).

Definition source_read (fs : FileSystem) (want len : nat) (src : Source)
    : Result (string * Source) IoError :=
  match src with
  | SEmpty => Ok ("", SEmpty)
  | SCursor rest =>
      let n := Nat.min (Nat.max 1 want) len in Ok (str_take n rest, SCursor (str_drop n rest))
  | SFile lf => let? r := lazy_file_read fs want len lf in Ok (r.1, SFile r.2)
  end.

(** [Read::read_to_end]: read until a read gives nothing.  [bufs] are the sizes
    the standard library and the system choose; [None] is the lack of fuel. *)
Fixpoint read_to_end (fs : FileSystem) (bufs : nat → nat * nat) (fuel : nat) (src : Source)
    : option (Result string IoError) :=
  match fuel with
  | O => None
  | S fuel' =>
      match source_read fs (bufs fuel').1 (S (bufs fuel').2) src with
      | Ok (chunk, src') =>
          if is_empty chunk then Some (Ok "")
          else match read_to_end fs bufs fuel' src' with
               | Some (Ok rest) => Some (Ok (chunk +:+ rest))
               | other => other
               end
      | Err e => Some (Err e)
      | Panic => Some Panic
      end
  end.

(** What a source holds. *)
Definition source_data (fs : FileSystem) (src : Source) : Result string IoError :=
  match src with
  | SEmpty => Ok ""
  | SCursor rest => Ok rest
  | SFile lf =>
      match lz_file lf with
      | Some (Some data) => Ok data
      | Some None => Err (ReadingFile (lz_path lf) OtherError)
      | None =>
          match fs_open fs (lz_path lf) with
          | Ok f => ok_or (of_data f) (ReadingFile (lz_path lf) OtherError)
          | Err k => Err (ReadingFile (lz_path lf) k)
          | Panic => Panic
          end
      end
  end.

(** ** The configuration *)

Section Config.
Context `{Htls : !TlsC}.

Inductive TlsConfigError : Type :=
| IoErr (e : IoError)
| CertParseError
| InvalidIdentityPem
| EmptyKey
| UnknownPrivateKeyFormat
| InvalidKey (e : TlsError).

(** [Display]; an I/O error prints itself. *)
Definition tls_config_error_display (io_display : IoError → string) (e : TlsConfigError) : string :=
  match e with
  | IoErr e => io_display e
  | CertParseError => "certificate parse error"
  | InvalidIdentityPem => "identity PEM is invalid"
  | UnknownPrivateKeyFormat => "unknown private key format"
  | EmptyKey => "key contains no private key"
  | InvalidKey e => "key contains an invalid key, " +:+ tls_error_display e
  end.

Record TlsConfigBuilder : Type := { tb_cert : Source; tb_key : Source }.

Record ServerConfig : Type := { sc_base : BaseConfig; alpn_protocols : list string }.

Definition builder_new : TlsConfigBuilder := {| tb_cert := SEmpty; tb_key := SEmpty |}.

Definition key_path (path : string) (b : TlsConfigBuilder) : TlsConfigBuilder :=
  {| tb_cert := tb_cert b; tb_key := SFile {| lz_path := path; lz_file := None |} |}.

Definition key_bytes (key : string) (b : TlsConfigBuilder) : TlsConfigBuilder :=
  {| tb_cert := tb_cert b; tb_key := SCursor key |}.

Definition cert_path (path : string) (b : TlsConfigBuilder) : TlsConfigBuilder :=
  {| tb_cert := SFile {| lz_path := path; lz_file := None |}; tb_key := tb_key b |}.

Definition cert_bytes (cert : string) (b : TlsConfigBuilder) : TlsConfigBuilder :=
  {| tb_cert := SCursor cert; tb_key := tb_key b |}.

(** The loop over the sections of the key file: the last key wins, anything that
    is not a key is an error.  Every section is consumed, so the length of the
    buffer is enough fuel; [None] is the lack of it. *)
Fixpoint read_keys (fuel : nat) (key : option PrivateKey) (buf : string)
    : option (Result (option PrivateKey) TlsConfigError) :=
  match fuel with
  | O => None
  | S fuel' =>
      match pem_read_one buf with
      | Some None => Some (Ok key)
      | Some (Some (Pkcs1Key k, rest)) => read_keys fuel' (Some k) rest
      | Some (Some (Pkcs8Key k, rest)) => read_keys fuel' (Some k) rest
      | Some (Some (Sec1Key k, rest)) => read_keys fuel' (Some k) rest
      | Some (Some (OtherItem, _)) => Some (Err UnknownPrivateKeyFormat)
      | None => Some (Err InvalidIdentityPem)
      end
  end.

(** [TlsConfigBuilder::build]; [fuel] bounds the reads of each file. *)
Definition build (fs : FileSystem) (bufs : nat → nat * nat) (fuel : nat) (b : TlsConfigBuilder)
    : option (Result ServerConfig TlsConfigError) :=
  cert_data ← read_to_end fs bufs fuel (tb_cert b);
  match match cert_data with Ok d => pem_certs d | _ => None end with
  | None => Some (match cert_data with Panic => Panic | _ => Err CertParseError end)
  | Some cert =>
      key_data ← read_to_end fs bufs fuel (tb_key b);
      match key_data with
      | Panic => Some Panic
      | Err e => Some (Err (IoErr e))
      | Ok key_buf =>
          if is_empty key_buf then Some (Err EmptyKey)
          else
            keys ← read_keys (S (String.length key_buf)) None key_buf;
            Some (let? key := keys in
                  match key with
                  | None => Err EmptyKey
                  | Some k =>
                      match with_single_cert cert k with
                      | inl base => Ok {| sc_base := base; alpn_protocols := ["h2"; "http/1.1"] |}
                      | inr e => Err (InvalidKey e)
                      end
                  end)
      end
  end.

(** ** Lemmas: reading to the end *)

Lemma source_read_spec fs want len src :
  match source_read fs want (S len) src with
  | Ok (chunk, src') =>
      ∃ data, source_data fs src = Ok data ∧ source_data fs src' = Ok (str_drop (String.length chunk) data)
        ∧ chunk = str_take (String.length chunk) data ∧ (chunk = "" → data = "")
  | Err e => source_data fs src = Err e
  | Panic => source_data fs src = Panic
  end.
Proof.
  assert (∀ data, let n := Nat.min (Nat.max 1 want) (S len) in
            let k := String.length (str_take n data) in
            str_drop n data = str_drop k data ∧ str_take n data = str_take k data
            ∧ (str_take n data = "" → data = "")) as Hk.
  { intros data n k. assert (n ≠ 0) as Hn by (unfold n; lia). clearbody n. unfold k. clear k.
    split_and!.
    - revert data. induction n as [|n IH]; intros [|c data]; simpl; try done.
      destruct n; [by destruct data|]. rewrite <- IH; done.
    - symmetry. rewrite str_take_length. destruct (decide (n ≤ String.length data)).
      + by rewrite Nat.min_l.
      + rewrite Nat.min_r, !str_take_all by lia. done.
    - destruct n; [done|]. by destruct data. }
  destruct src as [|rest|[path file]]; cbn -[Nat.min Nat.max].
  - by exists "".
  - destruct (Hk rest) as (H1 & H2 & H3). exists rest. rewrite <- H1, <- H2. done.
  - unfold lazy_file_read, lazy_read. cbn -[Nat.min Nat.max]. destruct file as [[data|]|]; cbn -[Nat.min Nat.max].
    + destruct (Hk data) as (H1 & H2 & H3). exists data. rewrite <- H1, <- H2. done.
    + done.
    + destruct (fs_open fs path) as [[seek [data|]]|k|]; cbn -[Nat.min Nat.max]; [|done..].
      destruct (Hk data) as (H1 & H2 & H3). exists data. rewrite <- H1, <- H2. done.
Qed.

(** Reading to the end gives all the data, whatever the sizes of the reads, or
    the error of the file. *)
Lemma read_to_end_spec fs bufs fuel src :
  (match source_data fs src with Ok d => String.length d | _ => 0 end) < fuel →
  read_to_end fs bufs fuel src = Some (source_data fs src).
Proof.
  revert src. induction fuel as [|fuel IH]; intros src Hf; [lia|]. cbn [read_to_end].
  pose proof (source_read_spec fs (bufs fuel).1 (bufs fuel).2 src) as Hr.
  destruct (source_read fs _ _ src) as [[chunk src']|e|]; [|by rewrite Hr..].
  destruct Hr as (data & Hd & Hd' & Hc & He). rewrite Hd in *. destruct chunk as [|c chunk].
  { by rewrite He. }
  set (k := String.length (String c chunk)) in *. cbn [is_empty].
  assert (String.length (str_drop k data) < fuel).
  { rewrite str_drop_length. pose proof (f_equal String.length Hc) as Hl.
    rewrite str_take_length in Hl. assert (k ≠ 0) by done. fold k in Hl. clearbody k. lia. }
  rewrite IH, Hd' by by rewrite Hd'. by rewrite Hc, str_take_drop.
Qed.

Lemma source_data_total fs src : fs_total fs → source_data fs src ≠ Panic.
Proof.
  intros [Ho _ _]. destruct src as [| |[path [[]|]]]; cbn; try done.
  specialize (Ho path). destruct (fs_open fs path) as [[seek [|]]| |]; done.
Qed.

(** ** Lemmas: the sections of a PEM buffer *)

(** The sections a buffer holds; the flag tells whether it ends well or with
    malformed data. *)
Inductive sections : string → list (Item PrivateKey) → bool → Prop :=
| sections_end b : pem_read_one b = Some None → sections b [] true
| sections_malformed b : pem_read_one b = None → sections b [] false
| sections_cons b i r l ok :
    pem_read_one b = Some (Some (i, r)) → sections r l ok → sections b (i :: l) ok.

Lemma sections_exist b : ∃ l ok, sections b l ok.
Proof.
  induction b as [b IH] using (induction_ltof1 _ String.length). unfold ltof in IH.
  destruct (pem_read_one b) as [[[i r]|]|] eqn:E.
  - destruct (IH r (pem_read_one_shorter _ _ _ E)) as (l & ok & ?). eauto using sections.
  - eauto using sections.
  - eauto using sections.
Qed.

Definition item_key (i : Item PrivateKey) : option PrivateKey :=
  match i with
  | Pkcs1Key k => Some k
  | Pkcs8Key k => Some k
  | Sec1Key k => Some k
  | OtherItem => None
  end.

(** The result of the loop: an item that is not a key ends it; otherwise the
    last key, or the one it started with. *)
Fixpoint keys_result (key : option PrivateKey) (l : list (Item PrivateKey)) (ok : bool)
    : Result (option PrivateKey) TlsConfigError :=
  match l with
  | [] => if ok then Ok key else Err InvalidIdentityPem
  | i :: l' =>
      match item_key i with
      | Some k => keys_result (Some k) l' ok
      | None => Err UnknownPrivateKeyFormat
      end
  end.

Lemma read_keys_spec b l ok fuel key :
  sections b l ok → String.length b < fuel → read_keys fuel key b = Some (keys_result key l ok).
Proof.
  intros Hsec. revert fuel key. induction Hsec as [b E|b E|b i r l ok E Hs IH]; intros fuel key Hf;
    (destruct fuel as [|fuel]; [lia|]); cbn [read_keys]; rewrite E; [done..|].
  apply pem_read_one_shorter in E. destruct i; cbn; try (apply IH; lia). done.
Qed.

Lemma keys_result_spec key l ok :
  match keys_result key l ok with
  | Ok k => ok = true ∧ ∃ ks, item_key <$> l = Some <$> ks ∧ k = match last ks with Some k => Some k | None => key end
  | Err UnknownPrivateKeyFormat => OtherItem ∈ l
  | Err InvalidIdentityPem => ok = false
  | _ => False
  end.
Proof.
  revert key. induction l as [|i l IH]; intros key; cbn [keys_result].
  { destruct ok; [split; [done|]; exists []; done|done]. }
  destruct (item_key i) as [k|] eqn:Hi; [|destruct i; simplify_eq/=; left].
  specialize (IH (Some k)). destruct (keys_result (Some k) l ok) as [k'|e|]; [|by destruct e; try right|done].
  destruct IH as (-> & ks & Hks & ->). split; [done|]. exists (k :: ks). rewrite !fmap_cons, Hi, Hks.
  split; [done|]. rewrite last_cons. by destruct (last ks).
Qed.

(** The certificates of the certificate file, and the last of the private keys
    the key file consists of. *)
Definition identity (fs : FileSystem) (b : TlsConfigBuilder) (certs : list Certificate)
    (k : PrivateKey) : Prop :=
  ∃ cert_pem key_pem items ks,
    source_data fs (tb_cert b) = Ok cert_pem ∧ pem_certs cert_pem = Some certs
    ∧ source_data fs (tb_key b) = Ok key_pem ∧ sections key_pem items true
    ∧ item_key <$> items = Some <$> ks ∧ last ks = Some k.

(** What each error of a build means. *)
Definition build_error (fs : FileSystem) (b : TlsConfigBuilder) (e : TlsConfigError) : Prop :=
  match e with
  | CertParseError => ∀ d, source_data fs (tb_cert b) = Ok d → pem_certs d = None
  | IoErr e => source_data fs (tb_key b) = Err e
  | EmptyKey => ∃ d, source_data fs (tb_key b) = Ok d ∧ (d = "" ∨ sections d [] true)
  | InvalidIdentityPem => ∃ d items, source_data fs (tb_key b) = Ok d ∧ sections d items false
  | UnknownPrivateKeyFormat =>
      ∃ d items ok, source_data fs (tb_key b) = Ok d ∧ sections d items ok ∧ OtherItem ∈ items
  | InvalidKey e => ∃ certs k, identity fs b certs k ∧ with_single_cert certs k = inr e
  end.

(** The files are shorter than the fuel. *)
Definition enough_fuel (fs : FileSystem) (fuel : nat) (b : TlsConfigBuilder) : Prop :=
  (∀ d, source_data fs (tb_cert b) = Ok d → String.length d < fuel)
  ∧ (∀ d, source_data fs (tb_key b) = Ok d → String.length d < fuel) ∧ 0 < fuel.

Lemma build_outcome fs bufs fuel b :
  fs_total fs → enough_fuel fs fuel b →
  ∃ r, build fs bufs fuel b = Some r
    ∧ match r with
      | Ok cfg =>
          alpn_protocols cfg = ["h2"; "http/1.1"]
          ∧ ∃ certs k, identity fs b certs k ∧ with_single_cert certs k = inl (sc_base cfg)
      | Err e => build_error fs b e
      | Panic => False
      end.
Proof.
  intros Hfs (Hc & Hk & Hf).
  assert (∀ src, (∀ d, source_data fs src = Ok d → String.length d < fuel) →
            source_data fs src ≠ Panic ∧ read_to_end fs bufs fuel src = Some (source_data fs src)) as Hread.
  { intros src Hs. split; [by apply source_data_total|]. apply read_to_end_spec.
    destruct (source_data fs src); auto. }
  destruct (Hread _ Hc) as [Hcp Hcr], (Hread _ Hk) as [Hkp Hkr]. clear Hread.
  unfold build. rewrite Hcr. cbn [mbind option_bind].
  destruct (source_data fs (tb_cert b)) as [cert_pem|e|] eqn:Hcd;
    [|eexists; split; [done|]; cbn; congruence|done].
  destruct (pem_certs cert_pem) as [certs|] eqn:Hcerts;
    [|eexists; split; [done|]; cbn; rewrite Hcd; intros d [= <-]; done].
  rewrite Hkr. cbn [mbind option_bind].
  destruct (source_data fs (tb_key b)) as [key_pem|e|] eqn:Hkd; [|by eexists|done].
  destruct (is_empty key_pem) eqn:He.
  { apply is_empty_true in He as ->. eexists. split; [done|]. exists EmptyString. auto. }
  destruct (sections_exist key_pem) as (items & ok & Hs).
  rewrite (read_keys_spec _ _ _ _ None Hs) by lia. cbn [mbind option_bind]. eexists. split; [done|].
  pose proof (keys_result_spec None items ok) as Hkeys.
  destruct (keys_result None items ok) as [key|[]|]; cbn [rbind]; try done.
  - destruct Hkeys as (-> & ks & Hks & ->). destruct (last ks) as [k|] eqn:Hl; cbn.
    + assert (identity fs b certs k) as Hid by by exists cert_pem, key_pem, items, ks.
      destruct (with_single_cert certs k) as [base|e] eqn:Hw; cbn; eauto.
    + apply last_None in Hl as ->. apply fmap_nil_inv in Hks as ->. eauto.
  - exists key_pem, items. by subst ok.
  - by exists key_pem, items, ok.
Qed.

Lemma sections_functional b l1 ok1 l2 ok2 :
  sections b l1 ok1 → sections b l2 ok2 → l1 = l2 ∧ ok1 = ok2.
Proof.
  intros H1. revert l2 ok2. induction H1 as [b E|b E|b i r l ok E _ IH]; intros l2 ok2 H2;
    inversion H2; subst; try congruence; try done.
  match goal with H : pem_read_one b = Some (Some _) |- _ => rewrite E in H; injection H as <- <- end.
  match goal with H : sections r _ _ |- _ => by destruct (IH _ _ H) as [-> ->] end.
Qed.

Lemma identity_functional fs b certs1 k1 certs2 k2 :
  identity fs b certs1 k1 → identity fs b certs2 k2 → certs1 = certs2 ∧ k1 = k2.
Proof.
  intros (c1 & p1 & i1 & ks1 & Hc1 & Hp1 & Hk1 & Hs1 & Hi1 & Hl1)
    (c2 & p2 & i2 & ks2 & Hc2 & Hp2 & Hk2 & Hs2 & Hi2 & Hl2).
  assert (c1 = c2) as -> by congruence. assert (p1 = p2) as -> by congruence.
  destruct (sections_functional _ _ _ _ _ Hs1 Hs2) as [-> _]. rewrite Hi1 in Hi2.
  apply (inj (fmap Some)) in Hi2 as ->. by simplify_eq.
Qed.

(** The error cases exclude an identity that the library accepts. *)
Lemma build_error_excludes fs b e certs k base :
  build_error fs b e → identity fs b certs k → with_single_cert certs k = inl base → False.
Proof.
  intros He Hid Hw. pose proof Hid as (cert_pem & key_pem & items & ks & Hc & Hp & Hk & Hs & Hi & Hl).
  destruct e as [e| | | | |e]; cbn in He.
  - congruence.
  - rewrite (He _ Hc) in Hp. done.
  - destruct He as (d & items' & Hd & Hs'). assert (d = key_pem) as -> by congruence.
    by destruct (sections_functional _ _ _ _ _ Hs Hs').
  - destruct He as (d & Hd & He). assert (d = key_pem) as -> by congruence. assert (items = []) as ->.
    { destruct He as [->|He]; [|by destruct (sections_functional _ _ _ _ _ Hs He)].
      inversion Hs as [| |? i r l ok E]; subst; [done|]. apply pem_read_one_shorter in E. simpl in E. lia. }
    symmetry in Hi. apply fmap_nil_inv in Hi as ->. done.
  - destruct He as (d & items' & ok & Hd & Hs' & Hin). assert (d = key_pem) as -> by congruence.
    destruct (sections_functional _ _ _ _ _ Hs Hs') as [-> _].
    apply (list_elem_of_fmap_2 item_key) in Hin. rewrite Hi in Hin.
    apply list_elem_of_fmap in Hin as (? & ? & _). done.
  - destruct He as (certs' & k' & Hid' & Hw'). destruct (identity_functional _ _ _ _ _ _ Hid Hid') as [<- <-].
    congruence.
Qed.

(** ** Theorems *)

(** C16. Building the TLS configuration, on every branch, once the files are read to
    their ends (in reads of any size).  It succeeds exactly when the certificate
    file has certificates and the key file consists of private keys of which the
    last one goes with them for the TLS library, and the configuration is made of
    those and offers HTTP/2 before HTTP/1.1; otherwise the error names the cause;
    it never panics. *)
Theorem build_spec fs bufs fuel b :
  fs_total fs → enough_fuel fs fuel b →
  ∃ r, build fs bufs fuel b = Some r ∧ r ≠ Panic
    ∧ (∀ base, r = Ok {| sc_base := base; alpn_protocols := ["h2"; "http/1.1"] |}
         ↔ ∃ certs k, identity fs b certs k ∧ with_single_cert certs k = inl base)
    ∧ (∀ e, r = Err e → build_error fs b e)
    ∧ ((∃ cfg, r = Ok cfg) → ∃ base, r = Ok {| sc_base := base; alpn_protocols := ["h2"; "http/1.1"] |}).
Proof.
  intros Hfs Hfuel. destruct (build_outcome fs bufs fuel b Hfs Hfuel) as (r & Hb & Hr). exists r.
  destruct r as [[base alpn]|e|]; [| |done]; cbn in Hr.
  - destruct Hr as (-> & certs & k & Hid & Hw). split_and!; try done; [|eauto]. intros base'. split.
    + intros [= <-]. eauto.
    + intros (certs' & k' & Hid' & Hw'). destruct (identity_functional _ _ _ _ _ _ Hid Hid') as [<- <-].
      congruence.
  - split_and!; try done; [|by intros ? [= <-]|by intros [??]]. intros base. split; [done|].
    intros (certs & k & Hid & Hw). exfalso. by eapply build_error_excludes.
Qed.

End Config.

(** ** The connection *)

Section Stream.
Context `{Htls : !TlsC}.

(** A handshake future that has completed is [Handshaking None]; polling it once
    more panics. *)
Inductive State : Type :=
| Handshaking (accept : option Accept)
| Streaming (stream : Stream).

Record TlsStream : Type := { ts_state : State; ts_remote_addr : SocketAddr }.

(** [TlsStream::new] *)
Definition tls_stream_new (stream : AddrStream) (config : ServerConfig) : TlsStream := {|
  ts_state := Handshaking (Some (tls_accept (sc_base config) (alpn_protocols config) stream));
  ts_remote_addr := addr_remote_addr stream
|}.

Definition with_state (st : State) (t : TlsStream) : TlsStream :=
  {| ts_state := st; ts_remote_addr := ts_remote_addr t |}.

(** The common part of [poll_read] and [poll_write]: finish the handshake first,
    then operate on the stream, in the same poll. *)
Definition after_handshake {A}
    (op : Stream → Result (Poll (Result A IoError) * Stream) Error) (cx : Cx) (t : TlsStream)
    : Result (Poll (Result A IoError) * TlsStream) Error :=
  match ts_state t with
  | Handshaking None => Panic
  | Handshaking (Some accept) =>
      match poll_accept_tls cx accept with
      | (Pending, accept') => Ok (Pending, with_state (Handshaking (Some accept')) t)
      | (Ready (Ok stream), _) =>
          let? r := op stream in Ok (r.1, with_state (Streaming r.2) t)
      | (Ready (Err err), _) => Ok (Ready (Err err), with_state (Handshaking None) t)
      | (Ready Panic, _) => Panic
      end
  | Streaming stream => let? r := op stream in Ok (r.1, with_state (Streaming r.2) t)
  end.

Definition tls_poll_read (cx : Cx) (len : nat) (t : TlsStream) :=
  after_handshake (poll_read cx len) cx t.

Definition tls_poll_write (cx : Cx) (buf : string) (t : TlsStream) :=
  after_handshake (poll_write cx buf) cx t.

Definition tls_poll_flush (cx : Cx) (t : TlsStream)
    : Result (Poll (Result unit IoError) * TlsStream) Error :=
  match ts_state t with
  | Handshaking _ => Ok (Ready (Ok ()), t)
  | Streaming stream => let? r := poll_flush cx stream in Ok (r.1, with_state (Streaming r.2) t)
  end.

Definition tls_poll_shutdown (cx : Cx) (t : TlsStream)
    : Result (Poll (Result unit IoError) * TlsStream) Error :=
  match ts_state t with
  | Handshaking _ => Ok (Ready (Ok ()), t)
  | Streaming stream => let? r := poll_shutdown cx stream in Ok (r.1, with_state (Streaming r.2) t)
  end.

#[global] Instance TlsStream_transport : Transport Cx TlsStream := {|
  poll_read := tls_poll_read;
  poll_write := tls_poll_write;
  poll_flush := tls_poll_flush;
  poll_shutdown := tls_poll_shutdown;
  remote_addr := λ t, Some (ts_remote_addr t)
|}.

(** [TlsAcceptor] and its [poll_accept] *)
Record TlsAcceptor : Type := { ta_config : ServerConfig; ta_incoming : AddrIncoming }.

Definition acceptor_new (config : ServerConfig) (incoming : AddrIncoming) : TlsAcceptor :=
  {| ta_config := config; ta_incoming := incoming |}.

Definition poll_accept (cx : Cx) (a : TlsAcceptor)
    : Poll (option (Result TlsStream IoError)) * TlsAcceptor :=
  let (r, incoming) := poll_accept_addr cx (ta_incoming a) in
  let a' := {| ta_config := ta_config a; ta_incoming := incoming |} in
  (match r with
   | Pending => Pending
   | Ready (Some (Ok sock)) => Ready (Some (Ok (tls_stream_new sock (ta_config a))))
   | Ready (Some (Err e)) => Ready (Some (Err e))
   | Ready (Some Panic) => Ready (Some Panic)
   | Ready None => Ready None
   end, a').

(** ** Specification: a handshake, then the stream

    What the connection promises: while the handshake runs, reads and writes are
    pending and the rest succeeds at once; then the operations are those of the
    encrypted stream. *)

Definition waiting (op : Op) : Outcome :=
  match op with
  | Read _ => OutRead Pending
  | Write _ => OutWrite Pending
  | Flush => OutFlush (Ready (Ok ()))
  | Shutdown => OutShutdown (Ready (Ok ()))
  end.

Definition failed (op : Op) (e : IoError) : Outcome :=
  match op with
  | Read _ => OutRead (Ready (Err e))
  | Write _ => OutWrite (Ready (Err e))
  | Flush => OutFlush (Ready (Ok ()))
  | Shutdown => OutShutdown (Ready (Ok ()))
  end.

(** The operations that drive the handshake. *)
Definition drives (op : Op) : bool :=
  match op with
  | Read _ | Write _ => true
  | Flush | Shutdown => false
  end.

(** The handshake future after the operations [ops], when it is still running. *)
Fixpoint handshake_after (ops : list (Cx * Op)) (a : Accept) : option Accept :=
  match ops with
  | [] => Some a
  | (cx, op) :: ops' =>
      if drives op then
        match poll_accept_tls cx a with
        | (Pending, a') => handshake_after ops' a'
        | _ => None
        end
      else handshake_after ops' a
  end.

(** ** Lemmas *)

Lemma poll_op_streaming cx op s addr :
  poll_op cx op {| ts_state := Streaming s; ts_remote_addr := addr |}
  = let? r := poll_op cx op s in
    Ok (r.1, {| ts_state := Streaming r.2; ts_remote_addr := addr |}).
Proof.
  destruct op as [len|buf| |]; cbn.
  - by destruct (poll_read cx len s).
  - by destruct (poll_write cx buf s).
  - by destruct (poll_flush cx s).
  - by destruct (poll_shutdown cx s).
Qed.

Lemma run_streaming ops s addr :
  run ops {| ts_state := Streaming s; ts_remote_addr := addr |}
  = let? r := run ops s in Ok (r.1, {| ts_state := Streaming r.2; ts_remote_addr := addr |}).
Proof.
  revert s. induction ops as [|[cx op] ops IH]; intros s; [done|]. cbn [run].
  rewrite poll_op_streaming. destruct (poll_op cx op s) as [[o s']|e|]; cbn; [|done..].
  rewrite IH. by destruct (run ops s') as [[os s'']|e|].
Qed.

(** One operation during the handshake. *)
Lemma poll_op_handshaking cx op a addr :
  poll_op cx op {| ts_state := Handshaking (Some a); ts_remote_addr := addr |}
  = if drives op then
      match poll_accept_tls cx a with
      | (Pending, a') => Ok (waiting op, {| ts_state := Handshaking (Some a'); ts_remote_addr := addr |})
      | (Ready (Ok s), _) =>
          let? r := poll_op cx op s in
          Ok (r.1, {| ts_state := Streaming r.2; ts_remote_addr := addr |})
      | (Ready (Err e), _) =>
          Ok (failed op e, {| ts_state := Handshaking None; ts_remote_addr := addr |})
      | (Ready Panic, _) => Panic
      end
    else Ok (waiting op, {| ts_state := Handshaking (Some a); ts_remote_addr := addr |}).
Proof.
  destruct op as [len|buf| |]; cbn; try done; unfold tls_poll_read, tls_poll_write, after_handshake; cbn;
    destruct (poll_accept_tls cx a) as [[|[s|e|]] a']; cbn; try done.
  - by destruct (poll_read cx len s).
  - by destruct (poll_write cx buf s).
Qed.

Lemma run_handshaking ops a a' addr :
  handshake_after ops a = Some a' →
  run ops {| ts_state := Handshaking (Some a); ts_remote_addr := addr |}
  = Ok ((λ x, waiting x.2) <$> ops, {| ts_state := Handshaking (Some a'); ts_remote_addr := addr |}).
Proof.
  revert a. induction ops as [|[cx op] ops IH]; intros a Ha; cbn in *; [by simplify_eq|].
  rewrite poll_op_handshaking. destruct (drives op).
  - destruct (poll_accept_tls cx a) as [[|r] a1]; [|done]. cbn. by rewrite (IH a1 Ha).
  - cbn. by rewrite (IH a Ha).
Qed.

Lemma run_app {T} `{!Transport Cx T} (ops1 ops2 : list (Cx * Op)) (t : T) :
  run (ops1 ++ ops2) t
  = let? r1 := run ops1 t in
    let? r2 := run ops2 r1.2 in
    Ok (r1.1 ++ r2.1, r2.2).
Proof.
  revert t. induction ops1 as [|[cx op] ops1 IH]; intros t; cbn.
  { by destruct (run ops2 t) as [[]| |]. }
  destruct (poll_op cx op t) as [[o t']|e|]; cbn; [|done..]. rewrite IH.
  destruct (run ops1 t') as [[os t'']|e|]; cbn; [|done..]. by destruct (run ops2 t'') as [[]| |].
Qed.

(** ** Theorems *)

(** C15. A TLS connection refines the handshake followed by the stream.  As long as
    the handshake is pending, reads and writes are pending and nothing is lost;
    the read or write whose poll completes the handshake, and every operation
    after it, behave as the same operations on the encrypted stream; when the
    handshake fails, that read or write returns its error.  The peer address is
    the one of the TCP connection throughout. *)
Theorem tls_stream_refines sock config pre cx op post a :
  let t := tls_stream_new sock config in
  handshake_after pre (tls_accept (sc_base config) (alpn_protocols config) sock) = Some a →
  drives op = true →
  match poll_accept_tls cx a with
  | (Pending, _) => ∃ t', run (pre ++ [(cx, op)]) t
                          = Ok ((λ x, waiting x.2) <$> pre ++ [(cx, op)], t')
                          ∧ remote_addr t' = remote_addr sock
  | (Ready (Ok s), _) =>
      match run ((cx, op) :: post) s with
      | Ok (os, s') => ∃ t', run (pre ++ (cx, op) :: post) t = Ok (((λ x, waiting x.2) <$> pre) ++ os, t')
                             ∧ ts_state t' = Streaming s' ∧ remote_addr t' = remote_addr sock
      | _ => True
      end
  | (Ready (Err e), _) => ∃ t', run (pre ++ [(cx, op)]) t
                                = Ok (((λ x, waiting x.2) <$> pre) ++ [failed op e], t')
                                ∧ remote_addr t' = remote_addr sock
  | (Ready Panic, _) => True
  end.
Proof.
  intros t Ha Hop. rewrite addr_remote_addr_spec.
  assert (∀ ops, run (pre ++ ops) t
            = let? r := run ops {| ts_state := Handshaking (Some a); ts_remote_addr := addr_remote_addr sock |} in
              Ok (((λ x, waiting x.2) <$> pre) ++ r.1, r.2)) as Hrun.
  { intros ops. unfold t, tls_stream_new. by rewrite run_app, (run_handshaking _ _ _ _ Ha). }
  destruct (poll_accept_tls cx a) as [[|[s|e|]] a'] eqn:Hp; [| | |done].
  - rewrite Hrun, fmap_app. cbn [run]. rewrite poll_op_handshaking, Hop, Hp. by eexists.
  - destruct (run ((cx, op) :: post) s) as [[os s']|e|] eqn:Hs; [|done..]. rewrite Hrun. cbn [run] in *.
    rewrite poll_op_handshaking, Hop, Hp. destruct (poll_op cx op s) as [[o s1]|e|]; cbn in *; [|done..].
    rewrite run_streaming. destruct (run post s1) as [[os1 s2]|e|]; cbn in *; simplify_eq. by eexists.
  - rewrite Hrun. cbn [run]. rewrite poll_op_handshaking, Hop, Hp. by eexists.
Qed.

(** Every connection the acceptor returns starts with a handshake under the
    acceptor's configuration and carries the address of its peer; errors and the
    end of the listener are passed on. *)
Lemma poll_accept_spec cx a :
  match poll_accept_addr cx (ta_incoming a), poll_accept cx a with
  | (Ready (Some (Ok sock)), i), (Ready (Some (Ok t)), a') =>
      ts_state t = Handshaking (Some (tls_accept (sc_base (ta_config a)) (alpn_protocols (ta_config a)) sock))
      ∧ remote_addr t = remote_addr sock ∧ a' = {| ta_config := ta_config a; ta_incoming := i |}
  | (Ready (Some (Ok _)), _), _ => False
  | (Ready (Some (Err e)), _), (r, _) => r = Ready (Some (Err e))
  | (Ready (Some Panic), _), _ => True
  | (Ready None, _), (r, _) => r = Ready None
  | (Pending, _), (r, _) => r = Pending
  end.
Proof.
  unfold poll_accept. destruct (poll_accept_addr cx (ta_incoming a)) as [[|[[sock|e|]|]] i]; try done.
  cbn. by rewrite addr_remote_addr_spec.
Qed.

End Stream.

(** ** A TLS library that satisfies the interface

    Certificates and keys are lines of text; a handshake takes two polls and the
    stream then echoes what was written.  Used by the witnesses. *)

Definition sample_echo_read (len : nat) (s : string) : Result (Poll (Result string IoError) * string) Error :=
  if is_empty s then Ok (Pending, s) else Ok (Ready (Ok (str_take len s)), str_drop len s).

Definition echo_transport : Transport unit string := {|
  poll_read := λ _, sample_echo_read;
  poll_write := λ _ buf s, Ok (Ready (Ok (String.length buf)), s +:+ buf);
  poll_flush := λ _ s, Ok (Ready (Ok ()), s);
  poll_shutdown := λ _ s, Ok (Ready (Ok ()), s);
  remote_addr := λ _, None
|}.

Definition sample_socket_transport : Transport unit SocketAddr := {|
  poll_read := λ _ _ a, Ok (Pending, a);
  poll_write := λ _ _ a, Ok (Pending, a);
  poll_flush := λ _ a, Ok (Pending, a);
  poll_shutdown := λ _ a, Ok (Pending, a);
  remote_addr := Some
|}.

Definition sample_line (b : string) : string * string :=
  match split_once "010"%char b with
  | Some (l, r) => (l, r)
  | None => (b, "")
  end.

Definition sample_read_one (b : string) : option (option (Item string * string)) :=
  if is_empty b then Some None
  else let (l, r) := sample_line b in
       match strip_prefix "KEY " l with
       | Some k => Some (Some (Pkcs8Key k, r))
       | None => Some (Some (OtherItem, r))
       end.

Lemma sample_read_one_shorter b i r :
  sample_read_one b = Some (Some (i, r)) → String.length r < String.length b.
Proof.
  unfold sample_read_one, sample_line. destruct (is_empty b) eqn:Hb; [done|].
  assert (String.length r < String.length b ∨ r ≠ (match split_once "010"%char b with Some (_, r) => r | None => "" end)) as Hr.
  { destruct (split_once "010"%char b) as [[l r']|] eqn:E.
    - apply split_once_Some in E as [-> _]. rewrite append_length. simpl.
      destruct (decide (r = r')) as [->|]; [left; lia|by right].
    - destruct (decide (r = "")) as [->|]; [left|by right]. by destruct b; simpl in *; [|lia]. }
  intros H. destruct (split_once "010"%char b) as [[l r']|]; repeat case_hyp H; simplify_eq; naive_solver.
Qed.

#[export, refine] Instance tls_sample : TlsC := {|
  Certificate := string;
  PrivateKey := string;
  TlsError := string;
  tls_error_display := λ e, e;
  BaseConfig := list string * string;
  pem_certs := λ b, Some (if is_empty b then [] else [b]);
  pem_read_one := sample_read_one;
  with_single_cert := λ certs k,
    match certs with [] => inr "no certificates" | _ => inl (certs, k) end;
  Cx := unit;
  AddrStream := SocketAddr;
  addr_stream_transport := sample_socket_transport;
  addr_remote_addr := λ a, a;
  Accept := nat;
  Stream := string;
  stream_transport := echo_transport;
  tls_accept := λ _ _ _, 2;
  poll_accept_tls := λ _ n, match n with O => (Ready (Ok ""), O) | S n' => (Pending, n') end;
  AddrIncoming := list SocketAddr;
  poll_accept_addr := λ _ l, match l with [] => (Pending, []) | a :: l' => (Ready (Some (Ok a)), l') end
|}.
Proof.
  - apply sample_read_one_shorter.
  - done.
Defined.

Definition sample_tls_fs : FileSystem :=
  table_fs [file_node "/c.pem" "CERT" 0; file_node "/k.pem" "KEY first" 0; file_node "/empty.pem" "" 0].

Lemma build_witness :
  match build sample_tls_fs (λ n, (n, 7)) 100 (key_path "/k.pem" (cert_path "/c.pem" builder_new)) with
  | Some (Ok cfg) => sc_base cfg = (["CERT"], "first") ∧ alpn_protocols cfg = ["h2"; "http/1.1"]
  | _ => False
  end.
Proof.
  destruct (build_spec sample_tls_fs (λ n, (n, 7)) 100 (key_path "/k.pem" (cert_path "/c.pem" builder_new)))
    as (r & E & _ & _ & _ & Hr).
  - apply table_fs_total. by repeat constructor.
  - split_and!; [..|lia]; intros d; cbn; intros [= <-]; cbn; lia.
  - vm_compute in E. injection E as <-. destruct Hr as [base Hb]; [by eexists|].
    injection Hb as _. split; reflexivity.
Defined.

Lemma tls_stream_witness :
  let peer := {| sa_ip := V4 {| oct_a := 1; oct_b := 2; oct_c := 3; oct_d := 4 |};
                 sa_port := 5; sa_scope_id := 0 |} in
  let cfg := {| sc_base := ([] : list string, "k" : string); alpn_protocols := [] |} in
  ∃ t', run (Cx := @Cx tls_sample) (T := @TlsStream tls_sample) [((), Write "hi"); ((), Read 9); ((), Write "hi"); ((), Read 1)] (tls_stream_new (Htls := tls_sample) peer cfg)
        = Ok ([OutWrite Pending; OutRead Pending; OutWrite (Ready (Ok 2)); OutRead (Ready (Ok "h"))], t')
        ∧ ts_state t' = Streaming "i" ∧ remote_addr t' = Some peer.
Proof.
  intros peer cfg.
  apply (tls_stream_refines (Htls := tls_sample) peer cfg [((), Write "hi"); ((), Read 9)] () (Write "hi") [((), Read 1)] 0);
    reflexivity.
Defined.

(** A certificate file that does not exist is reported as one that does not parse,
    a key file that does not exist as an I/O error. *)
Example missing_files :
  build sample_tls_fs (λ n, (n, 7)) 100 (key_path "/k.pem" (cert_path "/none.pem" builder_new))
  = Some (Err CertParseError)
  ∧ build sample_tls_fs (λ n, (n, 7)) 100 (key_path "/none.pem" (cert_path "/c.pem" builder_new))
    = Some (Err (IoErr (ReadingFile "/none.pem" NotFound))).
Proof. by vm_compute. Qed.
