(* ===== verification/Signals.v ===== *)
(** * Graceful shutdown: [signals.rs]

    [wait_for_signals] is the future whose completion starts the graceful
    shutdown of a server: it spawns one task that waits for a termination signal
    and one that waits for the cancellation channel, receives one message from
    either, and sleeps for the grace period.  With HTTP/2 and the redirect server
    two such futures run and share the receiver of the cancellation channel
    behind a mutex.  The tasks are a transition system; the channels of the
    [tokio] crate are the class [TokioC]. *)

From S2P Require Import Prelude.

(** ** The channels of [tokio] *)

(** What a bounded channel of capacity 1 holds: the queued messages, the senders
    that are alive, and whether the receiver is. *)
Record MpscView : Type := { queued : nat; senders : nat; rx_alive : bool }.

(** [m_send] is [None] while the send waits for room; a send to a dropped
    receiver returns at once.  [m_recv] is [None] while the receiver waits, and
    gives [false] when every sender is gone.  [w_changed] is [None] while the
    receiver waits for a value it has not seen or for the end of the sender. *)
Class TokioC : Type := {
  Mpsc : Type;
  m_view : Mpsc → MpscView;
  m_new : Mpsc;
  m_send : Mpsc → option Mpsc;
  m_recv : Mpsc → option (bool * Mpsc);
  m_drop_tx : Mpsc → Mpsc;
  m_drop_rx : Mpsc → Mpsc;
  m_new_spec : m_view m_new = {| queued := 0; senders := 2; rx_alive := true |};
  m_send_spec : ∀ c,
    match m_send c with
    | Some c' =>
        senders (m_view c') = senders (m_view c) ∧ rx_alive (m_view c') = rx_alive (m_view c)
        ∧ (rx_alive (m_view c) = true → queued (m_view c) = 0 ∧ queued (m_view c') = 1)
    | None => rx_alive (m_view c) = true ∧ queued (m_view c) ≠ 0
    end;
  m_recv_spec : ∀ c,
    match m_recv c with
    | Some (true, c') =>
        queued (m_view c) = S (queued (m_view c')) ∧ senders (m_view c') = senders (m_view c)
        ∧ rx_alive (m_view c') = rx_alive (m_view c)
    | Some (false, c') => c' = c ∧ queued (m_view c) = 0 ∧ senders (m_view c) = 0
    | None => queued (m_view c) = 0 ∧ senders (m_view c) ≠ 0
    end;
  m_drop_tx_spec : ∀ c, m_view (m_drop_tx c)
    = {| queued := queued (m_view c); senders := senders (m_view c) - 1; rx_alive := rx_alive (m_view c) |};
  m_drop_rx_spec : ∀ c, rx_alive (m_view (m_drop_rx c)) = false;
  WChan : Type;
  WRx : Type;
  w_send : WChan → WChan;
  w_close : WChan → WChan;
  w_closed : WChan → bool;
  w_changed : WChan → WRx → option WRx;
  w_close_spec : ∀ c, w_closed (w_close c) = true;
  w_send_closed : ∀ c, w_closed (w_send c) = w_closed c;
  w_changed_closed : ∀ c r, w_closed c = true → w_changed c r ≠ None;
  w_changed_seen : ∀ c r r', w_closed c = false → w_changed c r = Some r' → w_changed c r' = None;
  w_changed_send : ∀ c r, w_closed c = false → w_changed c r = None → w_changed (w_send c) r ≠ None
}.

(** ** The tasks of [wait_for_signals] *)

Inductive Signal : Type := SIGHUP | SIGTERM | SIGINT | SIGQUIT.

Definition terminates (s : Signal) : bool :=
  match s with
  | SIGHUP => false
  | SIGTERM | SIGINT | SIGQUIT => true
  end.

#[global] Instance Signal_eq_dec : EqDecision Signal.
Proof. solve_decision. Defined.

(** The task of the signal loop: waiting for a signal, sending, done. *)
Inductive SigTask : Type := SigLoop | SigSending | SigDone.

(** The task of the cancellation: waiting for the mutex, for a change with the
    mutex held, sending with the mutex held, done. *)
Inductive CanTask : Type := CanLocking | CanWaiting | CanSending | CanDone.

(** The body: receiving, sleeping for so many seconds still, returned. *)
Inductive MainTask : Type := MRecv | MSleep (left : nat) | MDone.

#[global] Instance CanTask_eq_dec : EqDecision CanTask.
Proof. solve_decision. Defined.

#[global] Instance MainTask_eq_dec : EqDecision MainTask.
Proof. solve_decision. Defined.

Section Signals.
Context `{Htok : !TokioC}.

(** One call of [wait_for_signals].  [sv_signals] are the signals that were
    delivered and not yet taken, [sv_closed] whether the handle was closed,
    [sv_slept] counts the seconds of sleep. *)
Record Srv : Type := {
  sv_grace : nat;
  sv_signals : list Signal;
  sv_closed : bool;
  sv_sig : SigTask;
  sv_can : CanTask;
  sv_main : MainTask;
  sv_chan : Mpsc;
  sv_slept : nat
}.

Definition srv_new (grace : nat) : Srv := {|
  sv_grace := grace; sv_signals := []; sv_closed := false; sv_sig := SigLoop;
  sv_can := CanLocking; sv_main := MRecv; sv_chan := m_new; sv_slept := 0
|}.

Definition set_sig (q : list Signal) (t : SigTask) (c : Mpsc) (sv : Srv) : Srv := {|
  sv_grace := sv_grace sv; sv_signals := q; sv_closed := sv_closed sv; sv_sig := t;
  sv_can := sv_can sv; sv_main := sv_main sv; sv_chan := c; sv_slept := sv_slept sv
|}.

Definition set_can (t : CanTask) (c : Mpsc) (sv : Srv) : Srv := {|
  sv_grace := sv_grace sv; sv_signals := sv_signals sv; sv_closed := sv_closed sv;
  sv_sig := sv_sig sv; sv_can := t; sv_main := sv_main sv; sv_chan := c; sv_slept := sv_slept sv
|}.

Definition set_main (t : MainTask) (c : Mpsc) (slept : nat) (sv : Srv) : Srv := {|
  sv_grace := sv_grace sv; sv_signals := sv_signals sv; sv_closed := sv_closed sv;
  sv_sig := sv_sig sv; sv_can := sv_can sv; sv_main := t; sv_chan := c; sv_slept := slept
|}.

(** The steps that concern one call alone: the signal loop, the reception and the
    grace period ([delay_graceful_shutdown]; a period of 0 does not sleep). *)
Inductive srv_step : Srv → Srv → Prop :=
| sig_ignored sv s q :
    sv_sig sv = SigLoop → sv_signals sv = s :: q → terminates s = false →
    srv_step sv (set_sig q SigLoop (sv_chan sv) sv)
| sig_caught sv s q :
    sv_sig sv = SigLoop → sv_signals sv = s :: q → terminates s = true →
    srv_step sv (set_sig q SigSending (sv_chan sv) sv)
| sig_closed sv :
    sv_sig sv = SigLoop → sv_signals sv = [] → sv_closed sv = true →
    srv_step sv (set_sig [] SigDone (m_drop_tx (sv_chan sv)) sv)
| sig_sent sv c :
    sv_sig sv = SigSending → m_send (sv_chan sv) = Some c →
    srv_step sv (set_sig (sv_signals sv) SigDone (m_drop_tx c) sv)
| main_recv sv b c :
    sv_main sv = MRecv → m_recv (sv_chan sv) = Some (b, c) →
    srv_step sv (set_main (MSleep (sv_grace sv)) c 0 sv)
| main_tick sv n :
    sv_main sv = MSleep (S n) → srv_step sv (set_main (MSleep n) (sv_chan sv) (S (sv_slept sv)) sv)
| main_return sv :
    sv_main sv = MSleep 0 →
    srv_step sv (set_main MDone (m_drop_rx (sv_chan sv)) (sv_slept sv) sv).

(** ** The servers of one process

    [lock] is the call that holds the mutex, [rx] the receiver in it. *)
Record Sys : Type := {
  servers : list Srv;
  lock : option nat;
  watch : WChan;
  rx : option WRx
}.

Definition set_server (i : nat) (sv : Srv) (s : Sys) : Sys :=
  {| servers := <[i := sv]> (servers s); lock := lock s; watch := watch s; rx := rx s |}.

Definition set_shared (l : option nat) (r : option WRx) (s : Sys) : Sys :=
  {| servers := servers s; lock := l; watch := watch s; rx := r |}.

(** Steps of the program. *)
Inductive internal : Sys → Sys → Prop :=
| int_local s i sv sv' :
    servers s !! i = Some sv → srv_step sv sv' → internal s (set_server i sv' s)
| int_lock_none s i sv :
    servers s !! i = Some sv → sv_can sv = CanLocking → lock s = None → rx s = None →
    internal s (set_server i (set_can CanDone (m_drop_tx (sv_chan sv)) sv) s)
| int_lock s i sv r :
    servers s !! i = Some sv → sv_can sv = CanLocking → lock s = None → rx s = Some r →
    internal s (set_server i (set_can CanWaiting (sv_chan sv) sv) (set_shared (Some i) (rx s) s))
| int_changed s i sv r r' :
    servers s !! i = Some sv → sv_can sv = CanWaiting → rx s = Some r →
    w_changed (watch s) r = Some r' →
    internal s (set_server i (set_can CanSending (sv_chan sv) sv) (set_shared (lock s) (Some r') s))
| int_can_sent s i sv c :
    servers s !! i = Some sv → sv_can sv = CanSending → m_send (sv_chan sv) = Some c →
    internal s (set_server i (set_can CanDone (m_drop_tx c) sv) (set_shared None (rx s) s)).

(** Steps of the environment: a signal, a closed handle, a message on the
    cancellation channel, the end of its sender. *)
Inductive external : Sys → Sys → Prop :=
| ext_signal s i sv sig :
    servers s !! i = Some sv →
    external s (set_server i (set_sig (sv_signals sv ++ [sig]) (sv_sig sv) (sv_chan sv) sv) s)
| ext_close s i sv :
    servers s !! i = Some sv →
    external s (set_server i {| sv_grace := sv_grace sv; sv_signals := sv_signals sv; sv_closed := true;
                                sv_sig := sv_sig sv; sv_can := sv_can sv; sv_main := sv_main sv;
                                sv_chan := sv_chan sv; sv_slept := sv_slept sv |} s)
| ext_cancel s :
    external s {| servers := servers s; lock := lock s; watch := w_send (watch s); rx := rx s |}
| ext_drop s :
    external s {| servers := servers s; lock := lock s; watch := w_close (watch s); rx := rx s |}.

Definition step (s s' : Sys) : Prop := internal s s' ∨ external s s'.

(** [n] servers, with or without a cancellation channel. *)
Definition sys_new (n grace : nat) (w : WChan) (r : option WRx) : Sys :=
  {| servers := replicate n (srv_new grace); lock := None; watch := w; rx := r |}.

(** On every maximal run of the program, [P] holds at some point. *)
Inductive eventually (P : Sys → Prop) : Sys → Prop :=
| ev_now s : P s → eventually P s
| ev_step s : (∃ s', internal s s') → (∀ s', internal s s' → eventually P s') → eventually P s.

(** ** The program's steps terminate *)

Definition sig_rank (t : SigTask) : nat := match t with SigLoop => 2 | SigSending => 1 | SigDone => 0 end.
Definition can_rank (t : CanTask) : nat :=
  match t with CanLocking => 3 | CanWaiting => 2 | CanSending => 1 | CanDone => 0 end.
Definition main_rank (sv : Srv) : nat :=
  match sv_main sv with MRecv => sv_grace sv + 2 | MSleep n => n + 1 | MDone => 0 end.

Definition srv_measure (sv : Srv) : nat :=
  2 * length (sv_signals sv) + sig_rank (sv_sig sv) + can_rank (sv_can sv) + main_rank sv.

Definition measure (s : Sys) : nat := sum_list_with srv_measure (servers s).

Lemma srv_step_measure sv sv' : srv_step sv sv' → srv_measure sv' < srv_measure sv.
Proof.
  intros Hs. unfold srv_measure, main_rank. inversion Hs; subst; simpl;
    repeat match goal with H : _ = _ |- _ => rewrite H; clear H end; simpl; lia.
Qed.

Lemma sum_insert l i sv sv' :
  l !! i = Some sv → srv_measure sv' < srv_measure sv →
  sum_list_with srv_measure (<[i := sv']> l) < sum_list_with srv_measure l.
Proof.
  intros Hi Hlt. revert i Hi. induction l as [|x l IH]; intros [|i] Hi; simplify_eq/=; [lia|].
  specialize (IH i Hi). lia.
Qed.

Lemma internal_measure s s' : internal s s' → measure s' < measure s.
Proof.
  intros Hs. unfold measure. destruct Hs as [s i sv sv' Hi Hst|s i sv Hi Hc _ _|s i sv r Hi Hc _ _|s i sv r r' Hi Hc _ _|s i sv c Hi Hc _];
    simpl; eapply sum_insert; eauto using srv_step_measure;
    unfold srv_measure, main_rank; simpl; rewrite Hc; simpl; lia.
Qed.

(** A property that holds in every state where the program can do nothing more,
    and whose premise the program preserves, holds eventually. *)
Lemma eventually_intro (I P : Sys → Prop) s :
  (∀ s s', I s → internal s s' → I s') →
  (∀ s, I s → (∃ s', internal s s') ∨ P s) → I s → eventually P s.
Proof.
  intros Hpres Hprog. induction s as [s IH] using (induction_ltof1 _ measure). intros Hs.
  destruct (Hprog s Hs) as [Hex|HP]; [|by apply ev_now].
  apply ev_step; [done|]. intros s' Hs'. apply IH; [by apply internal_measure|eauto].
Qed.

(** ** Invariants *)

(** The seconds slept, the receiver and the senders of one call. *)
Record srv_inv (sv : Srv) : Prop := {
  inv_slept : match sv_main sv with
              | MRecv => True
              | MSleep n => sv_slept sv + n = sv_grace sv
              | MDone => sv_slept sv = sv_grace sv
              end;
  inv_rx : rx_alive (m_view (sv_chan sv)) = match sv_main sv with MDone => false | _ => true end;
  inv_tx : senders (m_view (sv_chan sv))
           = match sv_sig sv with SigDone => 0 | _ => 1 end + match sv_can sv with CanDone => 0 | _ => 1 end
           ∨ sv_main sv = MDone
}.

(** A shutdown is under way: the body has received, or it will. *)
Definition requested (sv : Srv) : Prop :=
  sv_main sv ≠ MRecv ∨ queued (m_view (sv_chan sv)) ≠ 0 ∨ sv_sig sv = SigSending
  ∨ sv_sig sv = SigLoop ∧ Exists (λ s, terminates s = true) (sv_signals sv).

Lemma srv_new_inv grace : srv_inv (srv_new grace).
Proof. split; cbn; rewrite ?m_new_spec; auto. Qed.

(** After a send the message is there, or the body has returned. *)
Lemma send_requested sv c :
  srv_inv sv → m_send (sv_chan sv) = Some c →
  sv_main sv ≠ MRecv ∨ queued (m_view (m_drop_tx c)) ≠ 0.
Proof.
  intros [_ Hrx _] Hsend. pose proof (m_send_spec (sv_chan sv)) as Hs. rewrite Hsend in Hs.
  destruct (sv_main sv) eqn:Hm; [right|by left..].
  destruct Hs as (_ & _ & Hq). rewrite m_drop_tx_spec. cbn. destruct Hq; [done|lia].
Qed.

(** Sending and dropping the sender keep what the invariant says of a channel. *)
Lemma send_view c c' :
  m_send c = Some c' →
  rx_alive (m_view (m_drop_tx c')) = rx_alive (m_view c)
  ∧ senders (m_view (m_drop_tx c')) = senders (m_view c) - 1.
Proof.
  intros Hsend. pose proof (m_send_spec c) as Hs. rewrite Hsend in Hs. destruct Hs as (Ht & Hr & _).
  rewrite m_drop_tx_spec. cbn. by rewrite Ht, Hr.
Qed.

Lemma recv_view c b c' :
  m_recv c = Some (b, c') →
  rx_alive (m_view c') = rx_alive (m_view c) ∧ senders (m_view c') = senders (m_view c).
Proof.
  intros Hrecv. pose proof (m_recv_spec c) as Hr. rewrite Hrecv in Hr.
  destruct b; [naive_solver|]. by destruct Hr as (-> & _).
Qed.

Lemma srv_step_inv sv sv' : srv_inv sv → srv_step sv sv' → srv_inv sv'.
Proof.
  intros [H1 H2 H3] Hs. inversion Hs as [? ? ? E1 E2 E3|? ? ? E1 E2 E3|? E1 E2 E3|? c E1 E2|? b c E1 E2|? n E1|? E1];
    subst; rewrite E1 in *; split; cbn; try done; auto.
  - rewrite m_drop_tx_spec. done.
  - rewrite m_drop_tx_spec. cbn. destruct H3 as [->|]; [left; lia|by right].
  - by destruct (send_view _ _ E2) as [-> _].
  - destruct (send_view _ _ E2) as [_ ->]. destruct H3 as [->|]; [left; lia|by right].
  - by destruct (recv_view _ _ _ E2) as [-> _].
  - destruct (recv_view _ _ _ E2) as [_ ->]. destruct H3 as [->|]; [by left|done].
  - lia.
  - destruct H3; [by left|done].
  - lia.
  - apply m_drop_rx_spec.
Qed.

Lemma requested_step sv sv' : srv_inv sv → requested sv → srv_step sv sv' → requested sv'.
Proof.
  intros Hinv Hreq Hs. unfold requested in *.
  inversion Hs as [? s q E1 E2 E3|? ? ? E1 E2 E3|? E1 E2 E3|? c E1 E2|? b c E1 E2|? n E1|? E1]; subst; cbn;
    rewrite ?E1, ?E2 in *; try (by left); try naive_solver.
  - destruct Hreq as [?|[?|[?|[_ Hex]]]]; [by left|by right; left|done|].
    apply Exists_cons in Hex as [?|?]; [congruence|]. by right; right; right.
  - rewrite m_drop_tx_spec. destruct Hreq as [?|[?|[?|[_ Hex]]]]; [by left|by right; left|done|].
    by apply Exists_nil in Hex.
  - destruct (send_requested _ _ Hinv E2); [by left|by right; left].
Qed.

(** A call with a shutdown under way is done or can go on. *)
Lemma requested_progress sv : requested sv → sv_main sv = MDone ∨ ∃ sv', srv_step sv sv'.
Proof.
  intros Hreq. destruct (sv_main sv) as [|[|n]|] eqn:Hm; [|right; eauto using srv_step..|by left]. right.
  pose proof (m_recv_spec (sv_chan sv)) as Hr.
  destruct (m_recv (sv_chan sv)) as [[b c]|] eqn:Er; [eauto using srv_step|]. destruct Hr as [Hq _].
  unfold requested in Hreq. rewrite Hm, Hq in Hreq. destruct Hreq as [?|[?|[Hsig|[Hsig Hex]]]]; [done..| |].
  - pose proof (m_send_spec (sv_chan sv)) as Hs. destruct (m_send (sv_chan sv)) eqn:Es; [eauto using srv_step|].
    by destruct Hs.
  - destruct (sv_signals sv) as [|s q] eqn:Hsg; [by apply Exists_nil in Hex|].
    destruct (terminates s) eqn:Ht; eauto using srv_step.
Qed.

(** Holding the mutex. *)
Definition holds (sv : Srv) : bool :=
  match sv_can sv with
  | CanWaiting | CanSending => true
  | _ => false
  end.

Record sys_inv (grace : nat) (s : Sys) : Prop := {
  si_srv : ∀ i sv, servers s !! i = Some sv → srv_inv sv ∧ sv_grace sv = grace;
  si_lock : ∀ i sv, servers s !! i = Some sv → lock s = Some i ↔ holds sv = true;
  si_lock_in : ∀ i, lock s = Some i → is_Some (servers s !! i);
  si_done : rx s ≠ None → ∀ i sv, servers s !! i = Some sv → sv_can sv = CanDone → requested sv
}.

Lemma sys_new_inv n grace w r : sys_inv grace (sys_new n grace w r).
Proof.
  split; cbn; try done; intros; match goal with H : replicate _ _ !! _ = Some _ |- _ =>
    apply lookup_replicate in H as [-> _] end; cbn; auto using srv_new_inv; done.
Qed.

(** One server changes. *)
Lemma sys_inv_update grace s s' i sv sv' :
  sys_inv grace s → servers s !! i = Some sv → servers s' = <[i := sv']> (servers s) →
  srv_inv sv' → sv_grace sv' = sv_grace sv →
  (lock s' = Some i ↔ holds sv' = true) → (∀ j, j ≠ i → lock s' = Some j ↔ lock s = Some j) →
  (rx s' ≠ None → rx s ≠ None ∧ (sv_can sv' = CanDone → requested sv')) →
  sys_inv grace s'.
Proof.
  intros [H1 H2 H3 H4] Hi Hs Hinv Hg Hl Hlj Hrx. pose proof (lookup_lt_Some _ _ _ Hi) as Hlt.
  split; rewrite Hs.
  - intros j x. rewrite list_lookup_insert_Some. intros [(<- & <- & _)|[_ Hj]]; [|eauto].
    split; [done|]. rewrite Hg. by apply (H1 i).
  - intros j x. rewrite list_lookup_insert_Some. intros [(<- & <- & _)|[Hne Hj]]; [done|].
    rewrite Hlj by done. eauto.
  - intros j Hj. rewrite list_lookup_insert_is_Some. destruct (decide (j = i)) as [->|]; [by eauto|].
    apply H3. by apply Hlj.
  - intros Hr j x. destruct (Hrx Hr) as [Hr' Hd]. rewrite list_lookup_insert_Some.
    intros [(<- & <- & _)|[Hne Hj]]; [done|]. eauto.
Qed.

(** The steps of the signal loop and of the body leave the cancellation task. *)
Lemma srv_step_can sv sv' :
  srv_step sv sv' → sv_can sv' = sv_can sv ∧ sv_grace sv' = sv_grace sv.
Proof. by destruct 1. Qed.

Lemma set_can_inv sv t c :
  srv_inv sv → sv_can sv ≠ CanDone → t ≠ CanDone → c = sv_chan sv → srv_inv (set_can t c sv).
Proof. intros [H1 H2 H3] Hc Ht ->. split; cbn; auto. destruct H3 as [->|]; [left|by right]. by destruct (sv_can sv), t. Qed.

Lemma set_can_done_inv sv c :
  srv_inv sv → sv_can sv ≠ CanDone → rx_alive (m_view c) = rx_alive (m_view (sv_chan sv)) →
  senders (m_view c) = senders (m_view (sv_chan sv)) - 1 → srv_inv (set_can CanDone c sv).
Proof.
  intros [H1 H2 H3] Hc Hr Ht. split; cbn; [done|by rewrite Hr|]. rewrite Ht.
  destruct H3 as [->|]; [left|by right]. destruct (sv_can sv); simpl; try lia; done.
Qed.

Lemma requested_set_can sv t : requested (set_can t (sv_chan sv) sv) ↔ requested sv.
Proof. done. Qed.

Lemma internal_inv grace s s' : sys_inv grace s → internal s s' → sys_inv grace s'.
Proof.
  intros Hs Hst. pose proof Hs as [H1 H2 H3 H4].
  destruct Hst as [s i sv sv' Hi Hst|s i sv Hi Hc Hl Hr|s i sv r Hi Hc Hl Hr|s i sv r r' Hi Hc Hr Hw|s i sv c Hi Hc Hsend];
    destruct (H1 _ _ Hi) as [Hinv Hg]; specialize (H2 _ _ Hi).
  - destruct (srv_step_can _ _ Hst) as [Hcan Hg'].
    apply (sys_inv_update grace s _ i sv sv' Hs Hi); try done; [by eapply srv_step_inv| |].
    + cbn. rewrite H2. unfold holds. by rewrite Hcan.
    + intros Hr. split; [done|]. rewrite Hcan. intros. eapply requested_step; eauto.
  - eapply (sys_inv_update grace s _ i sv _ Hs Hi); [reflexivity|..]; try done.
    + apply set_can_done_inv; [done|by rewrite Hc|by rewrite m_drop_tx_spec..].
    + cbn. by rewrite Hl.
  - eapply (sys_inv_update grace s _ i sv _ Hs Hi); [reflexivity|..]; try done.
    + by apply set_can_inv; rewrite ?Hc.
    + cbn. intros j Hj. rewrite Hl. naive_solver.
  - unfold holds in H2. rewrite Hc in H2. eapply (sys_inv_update grace s _ i sv _ Hs Hi); [reflexivity|..]; try done.
    + by apply set_can_inv; rewrite ?Hc.
    + cbn. by rewrite Hr.
  - unfold holds in H2. rewrite Hc in H2. eapply (sys_inv_update grace s _ i sv _ Hs Hi); [reflexivity|..]; try done.
    + destruct (send_view _ _ Hsend). by apply set_can_done_inv; rewrite ?Hc.
    + cbn. intros j Hj. rewrite (proj2 H2) by done. naive_solver.
    + cbn. intros Hr. split; [done|]. intros _. unfold requested; cbn.
      destruct (send_requested _ _ Hinv Hsend); auto.
Qed.

Lemma external_inv grace s s' : sys_inv grace s → external s s' → sys_inv grace s'.
Proof.
  intros Hs Hst. pose proof Hs as [H1 H2 H3 H4].
  destruct Hst as [s i sv sig Hi|s i sv Hi|s|s]; [| |by split..];
    destruct (H1 _ _ Hi) as [[I1 I2 I3] Hg]; specialize (H2 _ _ Hi);
    (eapply (sys_inv_update grace s _ i sv _ Hs Hi); [reflexivity|by split|done|done|done|]).
  - intros Hr. split; [done|]. cbn. intros Hd. destruct (H4 Hr _ _ Hi Hd) as [?|[?|[?|[? ?]]]];
      unfold requested; cbn; rewrite ?Exists_app; auto 6.
  - intros Hr. split; [done|]. cbn. intros Hd. by apply (H4 Hr _ _ Hi Hd).
Qed.

Lemma signals_reachable_inv n grace w r s : rtc step (sys_new n grace w r) s → sys_inv grace s.
Proof.
  intros Hr. eapply rtc_preserves; [|exact Hr|apply sys_new_inv].
  intros ?? ? [?|?]; eauto using internal_inv, external_inv.
Qed.

(** The steps of the program keep the request of a server. *)
Lemma internal_requested grace s s' i sv :
  sys_inv grace s → servers s !! i = Some sv → requested sv → internal s s' →
  ∃ sv', servers s' !! i = Some sv' ∧ requested sv'.
Proof.
  intros [H1 _ _ _] Hi Hreq Hst.
  assert (∀ j x x', servers s !! j = Some x → (requested x → requested x') →
            ∃ sv', <[j := x']> (servers s) !! i = Some sv' ∧ requested sv') as Hupd.
  { intros j x x' Hj Hx. destruct (decide (j = i)) as [->|].
    - rewrite list_lookup_insert_eq by by eapply lookup_lt_Some. exists x'. split; [done|].
      apply Hx. congruence.
    - rewrite list_lookup_insert_ne by done. eauto. }
  destruct Hst as [s j x x' Hj Hst|s j x Hj Hc Hl Hr|s j x r Hj Hc Hl Hr|s j x r r' Hj Hc Hr Hw|s j x c Hj Hc Hsend];
    cbn; eapply Hupd; try done; intros Hx.
  - eapply requested_step; eauto. by eapply H1.
  - unfold requested in *; cbn. by rewrite m_drop_tx_spec.
  - destruct (send_requested x c); [by eapply H1|done|..]; unfold requested; cbn; auto.
Qed.

Definition done_after (grace i : nat) (s : Sys) : Prop :=
  ∃ sv, servers s !! i = Some sv ∧ sv_main sv = MDone ∧ sv_slept sv = grace.

Lemma requested_eventually grace s i sv :
  sys_inv grace s → servers s !! i = Some sv → requested sv → eventually (done_after grace i) s.
Proof.
  intros Hinv Hi Hreq.
  apply (eventually_intro (λ s, sys_inv grace s ∧ ∃ sv, servers s !! i = Some sv ∧ requested sv)); [| |eauto].
  - intros s1 s2 (H1 & x & Hx & Hr) Hst. split; [by eapply internal_inv|].
    by eapply internal_requested.
  - intros s1 (H1 & x & Hx & Hr). destruct (requested_progress x Hr) as [Hd|(x' & Hst)]; [right|left].
    + exists x. destruct (si_srv _ _ H1 _ _ Hx) as [[Hs _ _] <-]. by rewrite Hd in Hs.
    + eauto using internal.
Qed.

(** ** Lemmas: a server that nothing has told to stop *)

Definition quiet (sv : Srv) : Prop :=
  srv_inv sv ∧ sv_main sv = MRecv ∧ queued (m_view (sv_chan sv)) = 0 ∧ sv_sig sv = SigLoop
  ∧ Forall (λ s, terminates s = false) (sv_signals sv) ∧ sv_closed sv = false.

Lemma srv_new_quiet grace : quiet (srv_new grace).
Proof. split_and!; try done; [apply srv_new_inv|]. cbn. by rewrite m_new_spec. Qed.

Lemma quiet_step sv sv' : quiet sv → srv_step sv sv' → quiet sv'.
Proof.
  intros (Hinv & Hm & Hq & Hsig & Hsigs & Hcl) Hst. pose proof (srv_step_inv _ _ Hinv Hst) as Hinv'.
  inversion Hst as [? s q E1 E2 E3|? s q E1 E2 E3|? E1 E2 E3|? c E1 E2|? b c E1 E2|? n E1|? E1]; subst;
    try congruence.
  - rewrite E2 in Hsigs. apply Forall_cons in Hsigs as [_ ?]. by split_and!.
  - rewrite E2 in Hsigs. apply Forall_cons in Hsigs as [? _]. congruence.
  - pose proof (m_recv_spec (sv_chan sv)) as Hr. rewrite E2 in Hr. destruct b; [lia|].
    destruct Hinv as [_ _ [Ht|Ht]]; [|congruence]. rewrite Hsig in Ht. lia.
Qed.

Lemma quiet_can sv t :
  quiet sv → sv_can sv ≠ CanDone → t ≠ CanDone → quiet (set_can t (sv_chan sv) sv).
Proof. intros (Hinv & ?) Hc Ht. split; [by apply set_can_inv|done]. Qed.

Lemma quiet_can_done sv :
  quiet sv → sv_can sv ≠ CanDone → quiet (set_can CanDone (m_drop_tx (sv_chan sv)) sv).
Proof.
  intros (Hinv & Hm & Hq & Hrest) Hc. split; [apply set_can_done_inv; try done; by rewrite m_drop_tx_spec|].
  split_and!; try apply Hrest; [done|]. cbn. by rewrite m_drop_tx_spec.
Qed.

(** Steps of the program and the delivery of [SIGHUP]. *)
Definition hangup_step (s s' : Sys) : Prop :=
  internal s s'
  ∨ ∃ i sv, servers s !! i = Some sv
     ∧ s' = set_server i (set_sig (sv_signals sv ++ [SIGHUP]) (sv_sig sv) (sv_chan sv) sv) s.

Definition all_quiet (w : WChan) (r : option WRx) (s : Sys) : Prop :=
  watch s = w ∧ rx s = r ∧ ∀ i sv, servers s !! i = Some sv → quiet sv ∧ sv_can sv ≠ CanSending.

Lemma hangup_quiet w r s1 s2 :
  (∀ x, r = Some x → w_changed w x = None) → all_quiet w r s1 → hangup_step s1 s2 → all_quiet w r s2.
Proof.
  intros Hw (Hw1 & Hr1 & Hq) Hst.
  assert (∀ j x x', servers s1 !! j = Some x → quiet x' → sv_can x' ≠ CanSending →
            ∀ i sv, <[j := x']> (servers s1) !! i = Some sv → quiet sv ∧ sv_can sv ≠ CanSending) as Hupd.
  { intros j x x' Hj Hx Hc i sv. rewrite list_lookup_insert_Some. intros [(_ & <- & _)|[_ Hi]]; eauto. }
  destruct Hst as [Hst|(i & sv & Hi & ->)].
  - destruct Hst as [s1 i sv sv' Hi Hst|s1 i sv Hi Hc Hl Hrx|s1 i sv x Hi Hc Hl Hrx|s1 i sv x x' Hi Hc Hrx Hch|s1 i sv c Hi Hc Hsend];
      destruct (Hq i sv Hi) as [Hqs Hcs]; [| | |subst; by rewrite (Hw x) in Hch|done];
      (split_and!; [done..|]); cbn; eapply Hupd; try done.
    + by eapply quiet_step.
    + by apply srv_step_can in Hst as [-> _].
    + apply quiet_can_done; [done|by rewrite Hc].
    + apply quiet_can; by rewrite ?Hc.
  - split_and!; [done..|]. destruct (Hq i sv Hi) as [Hqs Hcs]. eapply Hupd; [done| |done].
    destruct Hqs as ([I1 I2 I3] & ? & ? & ? & ? & ?). split; [by split|]. split_and!; try done.
    cbn. apply Forall_app. split; [done|]. by repeat constructor.
Qed.

(** After one message: nobody has seen it, or one server has. *)
Definition waits (sv : Srv) : Prop := quiet sv ∧ (sv_can sv = CanLocking ∨ sv_can sv = CanWaiting).

Definition woken_by_one (w : WChan) (s : Sys) : Prop :=
  watch s = w ∧ ∃ x i, rx s = Some x
    ∧ (∀ j sv, j ≠ i → servers s !! j = Some sv → waits sv)
    ∧ (w_changed w x = None ∨ ∀ sv, servers s !! i = Some sv → waits sv).

Lemma woken_step w s1 s2 :
  w_closed w = false → woken_by_one w s1 → internal s1 s2 → woken_by_one w s2.
Proof.
  intros Hopen (Hw & x & k & Hx & Hj & Hk) Hst.
  assert (∀ i sv, servers s1 !! i = Some sv → waits sv ∨ i = k ∧ w_changed w x = None) as Hone.
  { intros i sv Hi. destruct (decide (i = k)) as [->|]; [|left; eauto].
    destruct Hk as [?|Hk]; [by right|left; eauto]. }
  assert (∀ s i sv sv', servers s1 !! i = Some sv → servers s = <[i := sv']> (servers s1) →
            watch s = watch s1 → rx s = rx s1 → (waits sv → waits sv') → woken_by_one w s) as Hupd.
  { intros s i sv sv' Hi Hs Hws Hrs Hq. split; [by rewrite Hws|]. exists x, k. rewrite Hrs, Hs.
    split_and!; [done| |].
    - intros j y Hne. rewrite list_lookup_insert_Some. intros [(<- & <- & _)|[_ ?]]; eauto.
    - destruct Hk as [?|Hk]; [by left|right]. intros y. rewrite list_lookup_insert_Some.
      intros [(-> & <- & _)|[_ ?]]; eauto. }
  destruct Hst as [s1 i sv sv' Hi Hst|s1 i sv Hi Hc Hl Hrx|s1 i sv y Hi Hc Hl Hrx|s1 i sv y y' Hi Hc Hrx Hch|s1 i sv c Hi Hc Hsend].
  - eapply Hupd; try done. intros [Hq Hcan]. split; [by eapply quiet_step|].
    by apply srv_step_can in Hst as [-> _].
  - congruence.
  - eapply Hupd; try done. intros [Hq _]. split; [apply quiet_can; by rewrite ?Hc|by right].
  - simplify_eq. destruct (Hone i sv Hi) as [_|[-> Hn]]; [|by rewrite Hn in Hch].
    assert (∀ j sv, servers s1 !! j = Some sv → waits sv) as Hall.
    { intros j z Hz. destruct (Hone j z Hz) as [?|[_ Hn]]; [done|]. congruence. }
    split; [done|]. exists y', i. split_and!; [done| |left; by eapply w_changed_seen].
    intros j z Hne. cbn. rewrite list_lookup_insert_ne by done. eauto.
  - eapply Hupd; try done. intros [_ [?|?]]; congruence.
Qed.

(** What the steps do to the shared state, when there is a receiver. *)
Lemma internal_shared s s' :
  internal s s' → watch s' = watch s ∧ (rx s ≠ None → rx s' ≠ None).
Proof. by destruct 1. Qed.

(** ** Theorems *)

(** C13. A termination signal shuts a server down: once [SIGTERM], [SIGINT] or
    [SIGQUIT] is delivered to a server whose signal loop runs, every run of the
    program (with any number of servers, any other signals pending, any state of
    the cancellation) comes to the point where [wait_for_signals] returns, after
    exactly the grace period. *)
Theorem signal_shuts_down n grace w r s i sv sig :
  rtc step (sys_new n grace w r) s → servers s !! i = Some sv → sv_sig sv = SigLoop →
  sig ∈ [SIGTERM; SIGINT; SIGQUIT] → sig ∈ sv_signals sv →
  eventually (done_after grace i) s.
Proof.
  intros Hr Hi Hsig Hin Hsv. eapply requested_eventually; [by eapply signals_reachable_inv|done|].
  unfold requested. right; right; right. split; [done|]. apply Exists_exists. exists sig. split; [done|].
  assert (sig = SIGTERM ∨ sig = SIGINT ∨ sig = SIGQUIT) as [-> |[-> | ->]] by set_solver; done.
Qed.

(** Once the sender of the cancellation channel is gone, the program can go on
    or all servers are done. *)
Lemma all_requested grace s :
  sys_inv grace s → rx s ≠ None → w_closed (watch s) = true →
  (∃ s', internal s s') ∨ ∀ i sv, servers s !! i = Some sv → done_after grace i s.
Proof.
  intros Hinv Hrx Hw. pose proof Hinv as [H1 H2 H3 H4]. destruct (rx s) as [r|] eqn:Er; [|done].
  destruct (lock s) as [j|] eqn:Hl.
  { left. destruct (H3 j eq_refl) as [x Hx]. pose proof (proj1 (H2 j x Hx) eq_refl) as Hh. unfold holds in Hh.
    destruct (sv_can x) eqn:Hc; try done.
    - destruct (w_changed (watch s) r) as [r'|] eqn:Hch; [eauto using internal|].
      by apply w_changed_closed in Hch.
    - destruct (m_send (sv_chan x)) as [c|] eqn:Hsend; [eauto using internal|].
      pose proof (m_send_spec (sv_chan x)) as Hs. rewrite Hsend in Hs. destruct Hs as [Hrx' Hq].
      destruct (requested_progress x) as [Hd|(x' & Hst)]; [by right; left| |eauto using internal].
      destruct (H1 _ _ Hx) as [[_ Hrx2 _] _]. rewrite Hd in Hrx2. congruence. }
  destruct (decide (Exists (λ x, sv_can x ≠ CanDone) (servers s))) as [Hex|Hall].
  { left. apply Exists_exists in Hex as (x & Hx & Hne). apply list_elem_of_lookup in Hx as [i Hi].
    destruct (sv_can x) eqn:Hc; try done; [eauto using internal|..];
      pose proof (proj2 (H2 i x Hi)) as Hh; unfold holds in Hh; rewrite Hc in Hh; by specialize (Hh eq_refl). }
  destruct (decide (Exists (λ x, sv_main x ≠ MDone) (servers s))) as [Hex|Hmain].
  - left. apply Exists_exists in Hex as (x & Hx & Hne). apply list_elem_of_lookup in Hx as [i Hi].
    destruct (requested_progress x) as [Hd|(x' & Hst)]; [|done|eauto using internal].
    apply (H4 Hrx i x Hi). apply dec_stable. intros Hne'. apply Hall, Exists_exists.
    exists x. split; [by eapply list_elem_of_lookup_2|done].
  - right. intros i x Hi. exists x. destruct (H1 _ _ Hi) as [[Hs _ _] <-].
    assert (sv_main x = MDone) as Hd.
    { apply dec_stable. intros Hne'. apply Hmain, Exists_exists. exists x.
      split; [by eapply list_elem_of_lookup_2|done]. }
    by rewrite Hd in Hs.
Qed.

(** C14. The end of the cancellation channel shuts every server down: once its sender
    is dropped (after a message or without one), every run comes to the point
    where all calls of [wait_for_signals] have returned, each after its grace
    period. *)
Theorem cancel_shuts_down n grace w r s :
  rtc step (sys_new n grace w (Some r)) s → w_closed (watch s) = true →
  eventually (λ s', ∀ i sv, servers s' !! i = Some sv → done_after grace i s') s.
Proof.
  intros Hr Hw. assert (rx s ≠ None) as Hrx.
  { eapply (rtc_preserves step (λ s, rx s ≠ None)); [|exact Hr|done].
    intros s1 s2 H1 [Hst|Hst]; [by apply internal_shared in Hst as [_ ?]; auto|by destruct Hst]. }
  apply (eventually_intro (λ s, sys_inv grace s ∧ rx s ≠ None ∧ w_closed (watch s) = true)).
  - intros s1 s2 (H1 & H2 & H3) Hst. destruct (internal_shared _ _ Hst) as [-> ?].
    split; [by eapply internal_inv|auto].
  - intros s1 (H1 & H2 & H3). by apply all_requested.
  - split; [by eapply signals_reachable_inv|auto].
Qed.

(** C35. A server keeps serving until it is told to stop: whatever [SIGHUP] signals
    arrive, no run of the program leaves the reception while no termination
    signal is delivered, no handle is closed and the cancellation channel, if
    there is one, is silent. *)
Theorem hangup_ignored n grace w r s :
  (∀ x, r = Some x → w_changed w x = None) →
  rtc hangup_step (sys_new n grace w r) s →
  ∀ i sv, servers s !! i = Some sv → sv_main sv = MRecv.
Proof.
  intros Hw Hr.
  destruct (rtc_preserves hangup_step (all_quiet w r) (sys_new n grace w r) s) as (_ & _ & Hq); [|done| |].
  - intros s1 s2 H1 H2. by eapply hangup_quiet.
  - split_and!; [done..|]. intros i sv [-> _]%lookup_replicate. split; [apply srv_new_quiet|done].
  - intros i sv Hi. by apply (Hq i sv Hi).
Qed.

(** One message on the cancellation channel, sent before the servers wait, wakes one
    server: as long as the sender stays alive, no run of the program makes a second
    server leave its reception.  With HTTP/2 and the redirect server there are two,
    so the process does not end. *)
Theorem cancel_wakes_one n grace w r s :
  w_closed w = false →
  rtc internal (sys_new n grace (w_send w) (Some r)) s →
  ∃ i, ∀ j sv, j ≠ i → servers s !! j = Some sv → sv_main sv = MRecv.
Proof.
  intros Hopen Hr.
  destruct (rtc_preserves internal (woken_by_one (w_send w)) (sys_new n grace (w_send w) (Some r)) s)
    as (_ & x & i & _ & Hi & _); [|done| |].
  - intros s1 s2. apply woken_step. by rewrite w_send_closed.
  - assert (∀ j sv, servers (sys_new n grace (w_send w) (Some r)) !! j = Some sv → waits sv) as Hall.
    { intros j sv [-> _]%lookup_replicate. split; [apply srv_new_quiet|by left]. }
    split; [done|]. exists r, 0. split_and!; [done|intros; by eapply Hall|right; intros; by eapply Hall].
  - exists i. intros j sv Hne Hj. by apply (Hi j sv Hne Hj).
Qed.

End Signals.

(** ** Channels that satisfy the interface

    A bounded channel is what it holds; a watch channel is a version number and
    whether it is closed, a receiver the version it has seen. *)

Definition sample_changed (c : nat * bool) (seen : nat) : option nat :=
  if bool_decide (seen = c.1) && negb c.2 then None else Some c.1.

#[export, refine] Instance tokio_sample : TokioC := {|
  Mpsc := MpscView;
  m_view := λ c, c;
  m_new := {| queued := 0; senders := 2; rx_alive := true |};
  m_send := λ c,
    if rx_alive c then
      match queued c with
      | O => Some {| queued := 1; senders := senders c; rx_alive := true |}
      | S _ => None
      end
    else Some c;
  m_recv := λ c,
    match queued c with
    | S q => Some (true, {| queued := q; senders := senders c; rx_alive := rx_alive c |})
    | O => if bool_decide (senders c = 0) then Some (false, c) else None
    end;
  m_drop_tx := λ c, {| queued := queued c; senders := senders c - 1; rx_alive := rx_alive c |};
  m_drop_rx := λ c, {| queued := queued c; senders := senders c; rx_alive := false |};
  WChan := nat * bool;
  WRx := nat;
  w_send := λ c, (S c.1, c.2);
  w_close := λ c, (c.1, true);
  w_closed := snd;
  w_changed := sample_changed
|}.
Proof.
  - done.
  - intros [q t [|]]; cbn; [|done]. by destruct q.
  - intros [[|q] t a]; cbn; [|done]. by case_bool_decide.
  - done.
  - done.
  - done.
  - done.
  - intros [v c] r. cbn. intros ->. unfold sample_changed. cbn. by rewrite andb_false_r.
  - intros [v c] r r'. unfold sample_changed. cbn. intros ->. case_bool_decide; [done|].
    intros [= <-]. by rewrite bool_decide_eq_true_2.
  - intros [v c] r. unfold sample_changed. cbn. intros ->. case_bool_decide; [|done]. subst.
    by rewrite bool_decide_eq_false_2 by lia.
Defined.

(** ** Witnesses *)

Definition sample_sys (n : nat) (r : option nat) : Sys (Htok := tokio_sample) :=
  sys_new (Htok := tokio_sample) n 0 (0, false) r.

Lemma signal_witness :
  let s0 := sys_new (Htok := tokio_sample) 2 3 (0, false) None in
  let sv := set_sig (Htok := tokio_sample) [SIGQUIT] SigLoop m_new (srv_new 3) in
  eventually (done_after 3 1) (set_server 1 sv s0).
Proof.
  intros s0 sv. eapply (signal_shuts_down (Htok := tokio_sample) 2 3 (0, false) None _ 1 sv SIGQUIT).
  - apply rtc_once. right. by apply (ext_signal s0 1 (srv_new 3) SIGQUIT).
  - reflexivity.
  - reflexivity.
  - right. right. left.
  - left.
Defined.

Lemma cancel_witness :
  let s0 := sample_sys 2 (Some 0) in
  eventually (λ s', ∀ i sv, servers s' !! i = Some sv → done_after 0 i s')
    {| servers := servers s0; lock := lock s0; watch := w_close (watch s0); rx := rx s0 |}.
Proof.
  intros s0. apply (cancel_shuts_down (Htok := tokio_sample) 2 0 (0, false) 0).
  - apply rtc_once. right. apply (ext_drop s0).
  - reflexivity.
Defined.

Lemma hangup_witness :
  let s0 := sample_sys 1 None in
  let sv := set_sig (Htok := tokio_sample) [SIGHUP] SigLoop m_new (srv_new 0) in
  sv_main sv = MRecv ∧ servers (set_server 0 sv s0) !! 0 = Some sv.
Proof.
  intros s0 sv. split; [|reflexivity].
  apply (hangup_ignored (Htok := tokio_sample) 1 0 (0, false) None (set_server 0 sv s0)) with (i := 0); [done| |reflexivity].
  apply rtc_once. right. exists 0, (srv_new 0). split; reflexivity.
Defined.

(** The first server has returned and the second one is still receiving. *)
Definition stuck_servers : list (Srv (Htok := tokio_sample)) :=
  let c q t a : Mpsc (TokioC := tokio_sample) := {| queued := q; senders := t; rx_alive := a |} in
  [{| sv_grace := 0; sv_signals := []; sv_closed := false; sv_sig := SigLoop; sv_can := CanDone;
      sv_main := MDone; sv_chan := c 0 1 false; sv_slept := 0 |};
   srv_new 0].

Lemma cancel_one_run :
  rtc internal (sys_new (Htok := tokio_sample) 2 0 (w_send (0, false)) (Some 0))
    {| servers := stuck_servers; lock := None; watch := (1, false) : WChan; rx := Some (1 : WRx) |}.
Proof.
  eapply rtc_l; [by eapply (int_lock (Htok := tokio_sample) _ 0 _ 0)|].
  eapply rtc_l; [by eapply (int_changed (Htok := tokio_sample) _ 0 _ 0 1)|].
  eapply rtc_l; [by eapply (int_can_sent _ 0)|].
  eapply rtc_l; [eapply (int_local _ 0); [reflexivity|by eapply main_recv]|].
  eapply rtc_l; [eapply (int_local _ 0); [reflexivity|by eapply main_return]|].
  apply rtc_refl.
Qed.

Lemma cancel_one_witness :
  ∃ i : nat, ∀ j sv, j ≠ i → stuck_servers !! j = Some sv → sv_main sv = MRecv.
Proof.
  apply (cancel_wakes_one (Htok := tokio_sample) 2 0 (0, false) 0 _ eq_refl cancel_one_run).
Defined.
