(* ===== verification/WinService.v ===== *)
(** * Windows service: [winservice.rs] and the Windows part of [signals.rs]

    The control handler that turns a stop event into one message on the
    cancellation channel, the tasks that wait for it ([wait_for_ctrl_c]), the
    states the service reports, and the installation.  The [windows-service]
    crate is the class [ScmC]; the channel is that of [Signals]. *)

From S2P Require Import Prelude RustStr RustPath Fs Helpers Signals.

Open Scope sws_scope.

Definition SERVICE_NAME : string := "static-web-server".
Definition SERVICE_EXE : string := "static-web-server.exe".
Definition SERVICE_DISPLAY_NAME : string := "Static Web Server".
Definition SERVICE_DESC : string :=
  "A cross-platform, high-performance and asynchronous web server for static files-serving".

Inductive ServiceState : Type := StateRunning | StateStopPending | StateStopped | StateOther.

#[global] Instance ServiceState_eq_dec : EqDecision ServiceState.
Proof. solve_decision. Defined.



(** ** The control handler *)

Section Handler.
Context `{Htok : !TokioC}.




(** ** Waiting for the cancellation: [wait_for_ctrl_c] *)

Inductive WinTask : Type := WLock | WWait | WSleep (left : nat) | WDone.

#[global] Instance WinTask_eq_dec : EqDecision WinTask.
Proof. solve_decision. Defined.






(** ** Lemmas *)












(** ** Theorems *)


End Handler.

(** ** The states the service reports *)

(** [ServiceStatus]: the state, its checkpoint and its wait hint in seconds; the
    type, the accepted controls and the exit code are constants. *)
Record ServiceStatus : Type := { current_state : ServiceState; checkpoint : Z; wait_hint : Z }.

(** The [windows-service] crate and the system behind it. *)
Class ScmC : Type := {
  scm_register : Result unit Error;
  scm_set_status : ServiceStatus → Result unit Error;
  scm_connect : bool → Result unit Error;
  scm_create_service : string → list string → Result unit Error;
  scm_set_description : string → Result unit Error;
  scm_open_service : Result unit Error;
  scm_query_status : Result ServiceState Error;
  scm_stop : Result unit Error;
  scm_delete : Result unit Error
}.

(** How [run_as_service] ends: the server was shut down and the stop handler ran,
    the runtime could not be built, or the process exited because the server
    failed to start. *)
Inductive ServerRun : Type := RunStopped | RunFailed | RunExit.

Inductive ServiceEnd : Type := Returned (r : Result unit Error) | ProcessExit (code : Z).

Section Service.
Context `{Hscm : !ScmC}.
(* [Path::with_file_name] for Windows paths. *)
Context (with_file_name : string → string → string).

(** [set_service_state]: the status that was reported, and the answer. *)
Definition set_service_state (s : ServiceState) (checkpoint wait_hint : Z)
    : list ServiceStatus * Result unit Error :=
  let st := {| current_state := s; checkpoint := checkpoint; wait_hint := wait_hint |} in
  ([st], scm_set_status st).

(** [run_service]; [opts] and [server] are the results of [Settings::get] and
    [Server::new].  A stop handler that cannot report is only logged. *)
Definition run_service (opts server : Result unit Error) (run : ServerRun)
    : list ServiceStatus * ServiceEnd :=
  match opts, scm_register with
  | Ok _, Ok _ =>
      let (s1, r1) := set_service_state StateRunning 1 0 in
      match r1 with
      | Ok _ =>
          let stopped := set_service_state StateStopped 3 3 in
          match server, run with
          | Ok _, RunExit => (s1, ProcessExit 1)
          | Ok _, RunStopped =>
              (s1 ++ (set_service_state StateStopPending 2 3).1 ++ stopped.1, Returned stopped.2)
          | _, _ => (s1 ++ stopped.1, Returned stopped.2)
          end
      | r1 => (s1, Returned r1)
      end
  | Ok _, r => ([], Returned r)
  | r, _ => ([], Returned r)
  end.

(** [install_service]: the executable and the arguments of the service. *)
Definition launch_arguments (config_file : string) : list string :=
  let f := adjust_canonicalization config_file in
  "--windows-service=true" :: (if is_empty f then [] else ["--config-file=" +:+ f]).

Definition install_service (current_exe config_file : string) : Result unit Error :=
  let? _ := scm_connect true in
  let? _ := scm_create_service (with_file_name current_exe SERVICE_EXE) (launch_arguments config_file) in
  scm_set_description SERVICE_DESC.

(** [uninstall_service]: a service that runs is stopped first. *)
Definition uninstall_service : Result unit Error :=
  let? _ := scm_connect false in
  let? _ := scm_open_service in
  let? st := scm_query_status in
  let? _ := if bool_decide (st = StateStopped) then Ok () else scm_stop in
  scm_delete.

(** The service ends stopped: when it returns without an error, the last status it
    reported is [Stopped], the first one [Running], and in between at most
    [StopPending], with increasing checkpoints. *)
Lemma run_service_states opts server run sts :
  run_service opts server run = (sts, Returned (Ok ())) →
  ∃ mid, sts = {| current_state := StateRunning; checkpoint := 1; wait_hint := 0 |} :: mid
               ++ [{| current_state := StateStopped; checkpoint := 3; wait_hint := 3 |}]
    ∧ (mid = [] ∨ mid = [{| current_state := StateStopPending; checkpoint := 2; wait_hint := 3 |}]).
Proof.
  unfold run_service. destruct opts as [[]|e|], scm_register as [[]|e'|]; try done.
  destruct (set_service_state StateRunning 1 0) as [s1 r1] eqn:E. unfold set_service_state in E.
  injection E as <- <-. destruct (scm_set_status _) as [[]|e|]; try done.
  destruct server as [[]|e|], run; intros Hr; try done; injection Hr as <- _;
    first [by exists []; auto | eexists [_]; split; [reflexivity|by right]].
Qed.

End Service.

(** ** Witness *)

