(* ===== verification/FsStream.v ===== *)
(** * File streams: [fs/stream.rs]

    A response body is read from a [FileStream]: a reader limited to the bytes
    of the range ([BufReader::new(file).take(sub_len)]) and a buffer size.
    [Read::read] may return fewer bytes than asked for: [want] is what the
    operating system delivers at that call, so the theorems hold for every
    sequence of short reads. *)

From S2P Require Import Prelude RustStr RustPath Fs.

Definition DEFAULT_READ_BUF_SIZE : Z := 4096.

(** [BufReader::new(file).take(limit)], positioned by a previous seek. *)
Record Reader : Type := {
  rd_data : option string;
  rd_limit : Z
}.

Record FileStream : Type := {
  reader : Reader;
  buf_size : Z
}.

(** [reader.read(&mut buf)] with a buffer of [len] bytes. *)
Definition read (want : nat) (len : Z) (r : Reader) : Result (string * Reader) ErrorKind :=
  if (rd_limit r =? 0)%Z then Ok ("", r)
  else match rd_data r with
       | None => Err OtherError
       | Some data =>
           let n := (max 1 want) `min` (Z.to_nat len `min` Z.to_nat (rd_limit r)) in
           let chunk := str_take n data in
           Ok (chunk, {| rd_data := Some (str_drop n data);
                         rd_limit := (rd_limit r - str_len chunk)%Z |})
       end.

Inductive Poll : Type :=
| PollNone
| PollChunk (bytes : string)
| PollErr.

(** [FileStream::poll_next] *)
Definition poll_next (want : nat) (st : FileStream) : Poll * FileStream :=
  match read want (buf_size st) (reader st) with
  | Ok (chunk, r) =>
      let st' := {| reader := r; buf_size := buf_size st |} in
      if is_empty chunk then (PollNone, st') else (PollChunk chunk, st')
  | _ => (PollErr, st)
  end.

Definition get_block_size (m : Metadata) : Z := Z.max (meta_blksize m) DEFAULT_READ_BUF_SIZE.

Definition optimal_buf_size (m : Metadata) : Z := Z.min (get_block_size m) (meta_len m).

(** What the server does with a body: poll until the end or an error.  [None]:
    the fuel was not enough. *)
Fixpoint drain (wants : nat → nat) (fuel : nat) (st : FileStream) : option (list string * bool) :=
  match fuel with
  | O => None
  | S fuel' =>
      match poll_next (wants fuel') st with
      | (PollNone, _) => Some ([], true)
      | (PollErr, _) => Some ([], false)
      | (PollChunk c, st') =>
          match drain wants fuel' st' with
          | Some (cs, ok) => Some (c :: cs, ok)
          | None => None
          end
      end
  end.

(** ** Lemmas *)

Lemma read_chunk want len data limit :
  (0 < limit)%Z →
  ∃ n, read want len {| rd_data := Some data; rd_limit := limit |} =
         Ok (str_take n data,
             {| rd_data := Some (str_drop n data);
                rd_limit := (limit - str_len (str_take n data))%Z |})
       ∧ (n ≤ Z.to_nat len)%nat ∧ (n ≤ Z.to_nat limit)%nat
       ∧ ((0 < len)%Z → (0 < n)%nat).
Proof.
  intros Hl. unfold read. simpl. destruct (limit =? 0)%Z eqn:E; [lia|].
  eexists. split; [done|]. lia.
Qed.

(** Draining: for every schedule of short reads the concatenation of the chunks
    is the first [limit] bytes of the data, no chunk is empty or larger than
    the buffer, and [length data + 1] polls are enough. *)
Lemma drain_spec wants fuel data limit bsz :
  (0 < bsz)%Z → (0 ≤ limit)%Z → (String.length data < fuel)%nat →
  ∃ cs, drain wants fuel
          {| reader := {| rd_data := Some data; rd_limit := limit |}; buf_size := bsz |}
          = Some (cs, true)
        ∧ concat_str cs = str_take (Z.to_nat limit) data
        ∧ Forall (λ c, (0 < str_len c ≤ bsz)%Z) cs.
Proof.
  intros Hb. revert data limit. induction fuel as [|fuel IH]; intros data limit Hl Hf; [lia|].
  simpl. unfold poll_next. simpl. destruct (decide (limit = 0%Z)) as [->|Hne].
  { exists []. by split_and!; [|destruct data|constructor]. }
  destruct (read_chunk (wants fuel) bsz data limit ltac:(lia)) as (n & -> & Hn1 & Hn2 & Hn3).
  destruct (is_empty (str_take n data)) eqn:He.
  { apply is_empty_true in He. apply (f_equal String.length) in He.
    rewrite str_take_length in He. simpl in He. specialize (Hn3 Hb).
    assert (data = "") as -> by (apply str_length_0; lia).
    exists []. split_and!; [done|by rewrite str_take_nil|constructor]. }
  apply is_empty_false in He.
  assert (0 < String.length (str_take n data))%nat as Hpos
    by (destruct (str_take n data); simpl; [done|lia]).
  pose proof (str_take_length n data) as Htl. unfold str_len.
  destruct (IH (str_drop n data) (limit - Z.of_nat (String.length (str_take n data)))%Z)
    as (cs & -> & Hc & Hcs); [lia|rewrite str_drop_length; lia|].
  eexists. split; [done|]. split.
  - simpl. rewrite Hc. set (k := String.length (str_take n data)) in *.
    destruct (decide (n ≤ String.length data)%nat).
    + replace (Z.to_nat limit) with (n + Z.to_nat (limit - Z.of_nat k))%nat by lia.
      by rewrite str_take_add.
    + rewrite (str_take_all n), (str_take_all (Z.to_nat limit)) by lia.
      assert (str_drop n data = "") as -> by (apply str_length_0; rewrite str_drop_length; lia).
      by rewrite str_take_nil, append_nil_r.
  - constructor; [|done]. unfold str_len. lia.
Qed.

(** A reader that fails ends the stream with an error at the first poll. *)
Lemma drain_unreadable wants fuel limit bsz :
  (0 < limit)%Z →
  drain wants (S fuel) {| reader := {| rd_data := None; rd_limit := limit |}; buf_size := bsz |}
  = Some ([], false).
Proof.
  intros H. simpl. unfold poll_next, read. simpl. by destruct (limit =? 0)%Z eqn:E; [lia|].
Qed.
