(* ===== verification/ContentCoding.v ===== *)
(** * Content codings: [headers_ext/content_coding.rs]

    The enum, [as_str] and [FromStr] that the [define_content_coding!] macro
    generates for the six codings of the program, the total conversion
    [From<&str>], and the compression levels of [settings/file.rs]. *)

From S2P Require Import Prelude RustStr.

Inductive ContentCoding : Type :=
| BROTLI
| COMPRESS
| DEFLATE
| GZIP
| IDENTITY
| ZSTD.

#[global] Instance ContentCoding_eq_dec : EqDecision ContentCoding.
Proof. solve_decision. Defined.

Definition as_str (c : ContentCoding) : string :=
  match c with
  | BROTLI => "br"
  | COMPRESS => "compress"
  | DEFLATE => "deflate"
  | GZIP => "gzip"
  | IDENTITY => "identity"
  | ZSTD => "zstd"
  end.

(** [FromStr]: the variant's own name or its token. *)
Definition from_str (s : string) : option ContentCoding :=
  if str_eqb s "BROTLI" || str_eqb s "br" then Some BROTLI
  else if str_eqb s "COMPRESS" || str_eqb s "compress" then Some COMPRESS
  else if str_eqb s "DEFLATE" || str_eqb s "deflate" then Some DEFLATE
  else if str_eqb s "GZIP" || str_eqb s "gzip" then Some GZIP
  else if str_eqb s "IDENTITY" || str_eqb s "identity" then Some IDENTITY
  else if str_eqb s "ZSTD" || str_eqb s "zstd" then Some ZSTD
  else None.

(** [From<&str>] *)
Definition coding_from (s : string) : ContentCoding := default IDENTITY (from_str s).

(** [Display] and [From<ContentCoding> for HeaderValue]: the token. *)
Definition coding_display (c : ContentCoding) : string :=
  match c with
  | BROTLI => "br"
  | COMPRESS => "compress"
  | DEFLATE => "deflate"
  | GZIP => "gzip"
  | IDENTITY => "identity"
  | ZSTD => "zstd"
  end.

Definition coding_value (c : ContentCoding) : string :=
  match c with
  | BROTLI => "br"
  | COMPRESS => "compress"
  | DEFLATE => "deflate"
  | GZIP => "gzip"
  | IDENTITY => "identity"
  | ZSTD => "zstd"
  end.

Definition coding_eqb (a b : ContentCoding) : bool := bool_decide (a = b).

(** ** Compression levels ([settings/file.rs]) *)

Inductive CompressionLevel : Type := LevelFastest | LevelBest | LevelDefault.

(** [async_compression::Level] *)
Inductive AlgorithmLevel : Type := AlgFastest | AlgBest | AlgPrecise (n : Z).

Definition into_algorithm_level (l : CompressionLevel) (dflt : Z) : AlgorithmLevel :=
  match l with
  | LevelFastest => AlgFastest
  | LevelBest => AlgBest
  | LevelDefault => AlgPrecise dflt
  end.

(** ** Lemmas *)

Lemma from_str_as_str c : from_str (as_str c) = Some c.
Proof. by destruct c. Qed.

(** The four texts of a coding agree, and parse back. *)
Lemma coding_texts c :
  coding_display c = as_str c ∧ coding_value c = as_str c ∧ from_str (coding_display c) = Some c.
Proof. by destruct c. Qed.

Lemma from_str_Some s c : from_str s = Some c → c ≠ IDENTITY → coding_from s = c.
Proof. unfold coding_from. by intros ->. Qed.
