(* ===== verification/Http.v ===== *)
(** * HTTP messages

    The types of the [http], [hyper] and [headers] crates as the program uses
    them.  The crates are not part of the repository, so their operations are
    fields of two classes: [HttpC] ([HeaderMap], [HeaderValue], [Uri], ...) and
    [HeadersC] (typed headers, MIME types, dates).  A field that the theorems
    rely on comes with its documented law.  The instances at the end show that
    the laws can hold and make the witnesses computable. *)

From S2P Require Import Prelude RustStr RustPath Fs FsStream ContentCoding.

(** ** Methods and status codes *)

Inductive Method : Type :=
| OPTIONS | GET | POST | PUT | DELETE | HEAD | TRACE | CONNECT | PATCH
| Extension (token : string).

#[global] Instance Method_eq_dec : EqDecision Method.
Proof. solve_decision. Defined.

#[global] Instance Method_countable : Countable Method.
Proof.
  refine (inj_countable'
    (λ m, match m with
          | OPTIONS => inl 0 | GET => inl 1 | POST => inl 2 | PUT => inl 3
          | DELETE => inl 4 | HEAD => inl 5 | TRACE => inl 6 | CONNECT => inl 7
          | PATCH => inl 8 | Extension t => inr t
          end%nat)
    (λ e, match e with
          | inl 0 => OPTIONS | inl 1 => GET | inl 2 => POST | inl 3 => PUT
          | inl 4 => DELETE | inl 5 => HEAD | inl 6 => TRACE | inl 7 => CONNECT
          | inl _ => PATCH | inr t => Extension t
          end%nat) _).
  by intros [].
Defined.

(** A status code is its number. *)
Notation StatusCode := Z (only parsing).

Definition SC_OK : StatusCode := 200.
Definition SC_NO_CONTENT : StatusCode := 204.
Definition SC_PARTIAL_CONTENT : StatusCode := 206.
Definition SC_MOVED_PERMANENTLY : StatusCode := 301.
Definition SC_FOUND : StatusCode := 302.
Definition SC_NOT_MODIFIED : StatusCode := 304.
Definition SC_PERMANENT_REDIRECT : StatusCode := 308.
Definition SC_BAD_REQUEST : StatusCode := 400.
Definition SC_UNAUTHORIZED : StatusCode := 401.
Definition SC_FORBIDDEN : StatusCode := 403.
Definition SC_NOT_FOUND : StatusCode := 404.
Definition SC_METHOD_NOT_ALLOWED : StatusCode := 405.
Definition SC_PRECONDITION_FAILED : StatusCode := 412.
Definition SC_RANGE_NOT_SATISFIABLE : StatusCode := 416.
Definition SC_INTERNAL_SERVER_ERROR : StatusCode := 500.
Definition SC_SERVICE_UNAVAILABLE : StatusCode := 503.

(** ** Header names (canonical lower-case form) *)

Definition H_ACCEPT_ENCODING : string := "accept-encoding".
Definition H_ACCEPT_RANGES : string := "accept-ranges".
Definition H_AC_ALLOW_HEADERS : string := "access-control-allow-headers".
Definition H_AC_ALLOW_METHODS : string := "access-control-allow-methods".
Definition H_AC_ALLOW_ORIGIN : string := "access-control-allow-origin".
Definition H_AC_EXPOSE_HEADERS : string := "access-control-expose-headers".
Definition H_AC_MAX_AGE : string := "access-control-max-age".
Definition H_AC_REQUEST_HEADERS : string := "access-control-request-headers".
Definition H_AC_REQUEST_METHOD : string := "access-control-request-method".
Definition H_ALLOW : string := "allow".
Definition H_AUTHORIZATION : string := "authorization".
Definition H_CACHE_CONTROL : string := "cache-control".
Definition H_CONTENT_ENCODING : string := "content-encoding".
Definition H_CONTENT_LENGTH : string := "content-length".
Definition H_CONTENT_RANGE : string := "content-range".
Definition H_CONTENT_SECURITY_POLICY : string := "content-security-policy".
Definition H_CONTENT_TYPE : string := "content-type".
Definition H_HOST : string := "host".
Definition H_IF_MODIFIED_SINCE : string := "if-modified-since".
Definition H_IF_RANGE : string := "if-range".
Definition H_IF_UNMODIFIED_SINCE : string := "if-unmodified-since".
Definition H_LAST_MODIFIED : string := "last-modified".
Definition H_LOCATION : string := "location".
Definition H_ORIGIN : string := "origin".
Definition H_RANGE : string := "range".
Definition H_STRICT_TRANSPORT_SECURITY : string := "strict-transport-security".
Definition H_VARY : string := "vary".
Definition H_WWW_AUTHENTICATE : string := "www-authenticate".
Definition H_X_CONTENT_TYPE_OPTIONS : string := "x-content-type-options".
Definition H_X_FORWARDED_FOR : string := "x-forwarded-for".
Definition H_X_FRAME_OPTIONS : string := "x-frame-options".

(** ** URIs *)

Record Authority : Type := {
  auth_host : string;
  auth_port : option Z
}.

Record PathAndQuery : Type := {
  pq_path : string;
  pq_query : option string
}.

Record Uri : Type := {
  uri_scheme : option string;
  uri_authority : option Authority;
  uri_path_and_query : option PathAndQuery
}.

Definition uri_path (u : Uri) : string :=
  match uri_path_and_query u with
  | Some pq => pq_path pq
  | None => ""
  end.

Definition uri_query (u : Uri) : option string := uri_path_and_query u ≫= pq_query.

Definition uri_host (u : Uri) : option string := auth_host <$> uri_authority u.

Definition uri_port_u16 (u : Uri) : option Z := uri_authority u ≫= auth_port.

(** [PathAndQuery::as_str] *)
Definition pq_as_str (pq : PathAndQuery) : string :=
  match pq_query pq with
  | Some q => concat_str [pq_path pq; "?"; q]
  | None => pq_path pq
  end.

(** ** The [http] crate *)

Definition visible_byte (a : ascii) : bool := byte_in 32 126 a || ascii_eqb a "009"%char.

Fixpoint str_forallb (f : ascii → bool) (s : string) : bool :=
  match s with
  | EmptyString => true
  | String a s' => f a && str_forallb f s'
  end.

(** A header map associates a name with its values in order; [insert] replaces
    them by one value.  [HeaderValue::from_str] keeps the bytes or fails, and
    accepts visible ASCII; [to_str] yields the bytes when they are visible
    ASCII. *)
Class HttpC : Type := {
  HeaderMap : Type;
  hm_new : HeaderMap;
  hm_get_all : HeaderMap → string → list string;
  hm_insert : string → string → HeaderMap → HeaderMap;
  hm_remove : string → HeaderMap → HeaderMap;
  hm_iter : HeaderMap → list (string * string);
  hm_get_all_new : ∀ k, hm_get_all hm_new k = [];
  hm_get_all_insert : ∀ k v m k',
    hm_get_all (hm_insert k v m) k' = if bool_decide (k = k') then [v] else hm_get_all m k';
  hm_get_all_remove : ∀ k m k',
    hm_get_all (hm_remove k m) k' = if bool_decide (k = k') then [] else hm_get_all m k';
  hm_iter_spec : ∀ m k v, (k, v) ∈ hm_iter m ↔ v ∈ hm_get_all m k;

  hv_from_str : string → option string;
  hv_to_str : string → option string;
  hv_from_bytes : string → option string;
  hv_from_str_bytes : ∀ s v, hv_from_str s = Some v → v = s;
  hv_from_str_visible : ∀ s, str_forallb visible_byte s = true → hv_from_str s = Some s;
  hv_from_bytes_bytes : ∀ s v, hv_from_bytes s = Some v → v = s;
  hv_to_str_bytes : ∀ v s, hv_to_str v = Some s → s = v;
  hv_to_str_visible : ∀ v, str_forallb visible_byte v = true → hv_to_str v = Some v;

  canonical_reason : StatusCode → option string;
  status_from_u16 : Z → option StatusCode;
  status_from_u16_spec : ∀ v s, status_from_u16 v = Some s ↔ s = v ∧ (100 ≤ v ≤ 999)%Z;
  method_from_bytes : string → option Method;
  header_name_from_bytes : string → option string;
  method_from_bytes_supported :
    method_from_bytes "GET" = Some GET ∧ method_from_bytes "HEAD" = Some HEAD
    ∧ method_from_bytes "OPTIONS" = Some OPTIONS;

  uri_parse : string → option Uri;
  pq_parse : string → option PathAndQuery;
  uri_from_parts : Uri → option Uri;
  uri_to_string : Uri → string
}.

Section HeaderMapOps.
Context `{!HttpC}.

(** [headers.get(name)]: the first value. *)
Definition hm_get (m : HeaderMap) (k : string) : option string := head (hm_get_all m k).

Definition hm_is_empty (m : HeaderMap) : bool :=
  match hm_iter m with
  | [] => true
  | _ => false
  end.

(** [for (k, v) in headers.iter() { map.insert(k, v) }] *)
Definition hm_insert_all (src dst : HeaderMap) : HeaderMap :=
  foldl (λ m kv, hm_insert kv.1 kv.2 m) dst (hm_iter src).

End HeaderMapOps.

(** ** The [headers], [mime_guess] and [mime] crates *)

(** [std::ops::Bound<u64>] *)
Inductive Bound : Type :=
| Included (n : Z)
| Excluded (n : Z)
| Unbounded.

(** A [Range] header is what its [iter] yields. *)
Definition Range : Type := list (Bound * Bound).

Definition bound_ok (b : Bound) : Prop :=
  match b with
  | Included n => is_u64 n
  | Excluded _ => False
  | Unbounded => True
  end.

Class HeadersC : Type := {
  HttpDate : Type;
  Mime : Type;
  IfRange : Type;

  http_date_from : Z → HttpDate;
  ims_is_modified : HttpDate → HttpDate → bool;
  ius_precondition_passes : HttpDate → HttpDate → bool;
  if_range_is_modified : IfRange → option HttpDate → bool;
  decode_if_modified_since : list string → option HttpDate;
  decode_if_unmodified_since : list string → option HttpDate;
  decode_if_range : list string → option IfRange;
  decode_range : list string → option Range;
  (** [Range::iter] yields inclusive or missing bounds only. *)
  decode_range_bounds : ∀ vs r,
    decode_range vs = Some r → Forall (λ p, bound_ok p.1 ∧ bound_ok p.2) r;

  content_length_value : Z → string;
  content_type_value : Mime → string;
  content_range_bytes : Z → Z → Z → option string;
  content_range_unsatisfied : Z → string;
  accept_ranges_bytes : string;
  last_modified_value : HttpDate → string;
  allow_value : list Method → string;
  ac_allow_methods_value : list Method → string;
  ac_header_names_value : list string → string;
  decode_content_type : list string → option Mime;
  decode_basic_auth : list string → option (string * string);
  decode_host : list string → option string;

  mime_guess_from_path : string → Mime;
  TEXT_HTML_UTF_8 : Mime;
  TEXT_HTML : Mime;
  TEXT_PLAIN_UTF_8 : Mime;
  APPLICATION_JSON : Mime;
  mime_type_ : Mime → string;
  mime_suffix : Mime → option string;
  mime_essence_str : Mime → string
}.

(** ** Bodies, requests and responses *)

Section Messages.
Context `{!HttpC, !HeadersC}.

(** [headers.typed_get::<H>()]: nothing without a value, or when decoding fails. *)
Definition typed_get {A : Type} (decode : list string → option A) (name : string)
    (m : HeaderMap) : option A :=
  match hm_get_all m name with
  | [] => None
  | vs => decode vs
  end.

(** What a cached stream needs to store the file ([mem_cache/cache.rs]). *)
Record MemFileTempOpts : Type := {
  temp_file_path : string;
  temp_content_type : Mime;
  temp_last_modified : option HttpDate
}.

(** [mem_cache/stream.rs]; [mem_buf] is the buffer and its capacity. *)
Record MemCacheFileStream : Type := {
  ms_reader : Reader;
  ms_buf_size : Z;
  mem_opts : option MemFileTempOpts;
  mem_buf : option (string * Z)
}.

(** [hyper::Body]: the encoded bodies of [compression.rs] stay symbolic. *)
Inductive Body : Type :=
| BodyEmpty
| BodyBytes (bytes : string)
| BodyFile (st : FileStream)
| BodyMemFile (st : MemCacheFileStream)
| BodyEncoded (c : ContentCoding) (l : AlgorithmLevel) (b : Body).

Record Response : Type := {
  resp_status : StatusCode;
  resp_headers : HeaderMap;
  resp_body : Body
}.

Record Request : Type := {
  req_method : Method;
  req_uri : Uri;
  req_headers : HeaderMap
}.

(** [Response::new(body)] *)
Definition response_new (b : Body) : Response :=
  {| resp_status := SC_OK; resp_headers := hm_new; resp_body := b |}.

Definition set_status (s : StatusCode) (r : Response) : Response :=
  {| resp_status := s; resp_headers := resp_headers r; resp_body := resp_body r |}.

Definition set_body (b : Body) (r : Response) : Response :=
  {| resp_status := resp_status r; resp_headers := resp_headers r; resp_body := b |}.

(** [resp.headers_mut().insert(name, value)] and [typed_insert] *)
Definition put_header (k v : string) (r : Response) : Response :=
  {| resp_status := resp_status r;
     resp_headers := hm_insert k v (resp_headers r);
     resp_body := resp_body r |}.

Definition del_header (k : string) (r : Response) : Response :=
  {| resp_status := resp_status r;
     resp_headers := hm_remove k (resp_headers r);
     resp_body := resp_body r |}.

Definition get_header (r : Response) (k : string) : option string := hm_get (resp_headers r) k.

(** ** [http_ext.rs] *)

Definition HTTP_SUPPORTED_METHODS : list Method := [OPTIONS; HEAD; GET].

Definition is_allowed (m : Method) : bool :=
  existsb (λ x, bool_decide (x = m)) HTTP_SUPPORTED_METHODS.

Definition is_get (m : Method) : bool := bool_decide (m = GET).

Definition is_head (m : Method) : bool := bool_decide (m = HEAD).

Definition is_options (m : Method) : bool := bool_decide (m = OPTIONS).

End Messages.

(** ** Lemmas *)

Section Lemmas.
Context `{!HttpC, !HeadersC}.

Lemma hm_get_new k : hm_get hm_new k = None.
Proof. unfold hm_get. by rewrite hm_get_all_new. Qed.

Lemma hm_get_insert k v m k' :
  hm_get (hm_insert k v m) k' = if bool_decide (k = k') then Some v else hm_get m k'.
Proof. unfold hm_get. rewrite hm_get_all_insert. by case_bool_decide. Qed.

Lemma hm_get_remove k m k' :
  hm_get (hm_remove k m) k' = if bool_decide (k = k') then None else hm_get m k'.
Proof. unfold hm_get. rewrite hm_get_all_remove. by case_bool_decide. Qed.

Lemma get_header_put k v r k' :
  get_header (put_header k v r) k' = if bool_decide (k = k') then Some v else get_header r k'.
Proof. apply hm_get_insert. Qed.

Lemma get_header_del k r k' :
  get_header (del_header k r) k' = if bool_decide (k = k') then None else get_header r k'.
Proof. apply hm_get_remove. Qed.

Lemma get_header_set_status s r k : get_header (set_status s r) k = get_header r k.
Proof. done. Qed.

Lemma get_header_set_body b r k : get_header (set_body b r) k = get_header r k.
Proof. done. Qed.

Lemma get_header_new b k : get_header (response_new b) k = None.
Proof. apply hm_get_new. Qed.

Lemma hm_is_empty_true m : hm_is_empty m = true ↔ ∀ k, hm_get_all m k = [].
Proof.
  unfold hm_is_empty. destruct (hm_iter m) as [|[k v] l] eqn:E; split; try done.
  - intros _ k. destruct (hm_get_all m k) as [|v l] eqn:Ek; [done|].
    assert ((k, v) ∈ hm_iter m) as Hin by (apply hm_iter_spec; rewrite Ek; left).
    rewrite E in Hin. by apply not_elem_of_nil in Hin.
  - intros Hall. assert ((k, v) ∈ hm_iter m) as Hm by (rewrite E; left).
    apply hm_iter_spec in Hm. rewrite Hall in Hm. by apply not_elem_of_nil in Hm.
Qed.

(** Inserting the entries of a map one by one: a name it does not hold keeps
    its values, a name it holds once gets that value. *)
Lemma hm_insert_all_other src dst k :
  hm_get_all src k = [] → hm_get (hm_insert_all src dst) k = hm_get dst k.
Proof.
  intros Hk. unfold hm_insert_all.
  assert (∀ v, (k, v) ∉ hm_iter src) as Hn.
  { intros v Hv%hm_iter_spec. rewrite Hk in Hv. by apply not_elem_of_nil in Hv. }
  revert dst Hn. generalize (hm_iter src). intros l.
  induction l as [|[k' v'] l IH]; intros dst Hn; simpl; [done|].
  rewrite IH by (intros v Hv; apply (Hn v); by right).
  rewrite hm_get_insert. case_bool_decide as Heq; [|done]. subst.
  destruct (Hn v'). left.
Qed.

Lemma hm_insert_all_single src dst k v :
  hm_get_all src k = [v] → hm_get (hm_insert_all src dst) k = Some v.
Proof.
  intros Hk. unfold hm_insert_all.
  assert (∀ w, (k, w) ∈ hm_iter src → w = v) as Hw.
  { intros w Hin%hm_iter_spec. rewrite Hk in Hin. by apply list_elem_of_singleton in Hin. }
  assert ((k, v) ∈ hm_iter src) as Hv by (apply hm_iter_spec; rewrite Hk; left).
  assert (hm_get dst k = Some v ∨ (k, v) ∈ hm_iter src) as Hor by (by right). clear Hv Hk.
  revert dst Hw Hor. generalize (hm_iter src). intros l.
  induction l as [|[k' v'] l IH]; intros dst Hw Hor; simpl.
  { by destruct Hor as [?|?%not_elem_of_nil]. }
  apply IH; [intros w Hin; apply Hw; by right|]. rewrite hm_get_insert.
  case_bool_decide as Heq.
  - left. subst. f_equal. apply Hw. left.
  - destruct Hor as [?|[[= -> ->]|?]%elem_of_cons]; [by left|done|by right].
Qed.

Lemma typed_get_new {A} (d : list string → option A) n : typed_get d n hm_new = None.
Proof. unfold typed_get. by rewrite hm_get_all_new. Qed.

Lemma is_allowed_spec m : is_allowed m = true ↔ m = OPTIONS ∨ m = HEAD ∨ m = GET.
Proof.
  unfold is_allowed. simpl. rewrite !orb_true_iff, !bool_decide_eq_true. naive_solver.
Qed.

End Lemmas.

(** Reads a header through a chain of updates; closed names are compared by
    evaluation. *)
Ltac eval_names :=
  repeat match goal with
  | |- context [bool_decide (?a = ?b)] =>
      lazymatch type of a with
      | string =>
          let r := eval vm_compute in (bool_decide (a = b)) in
          lazymatch r with
          | true => change (bool_decide (a = b)) with true
          | false => change (bool_decide (a = b)) with false
          end
      end
  end.

Ltac headers :=
  repeat first
    [ rewrite get_header_put | rewrite get_header_del
    | rewrite get_header_set_status | rewrite get_header_set_body
    | rewrite get_header_new ];
  eval_names; cbv iota beta.

#[export] Hint Resolve get_header_put get_header_del : sws.
