(* ===== verification/HttpInstances.v ===== *)
(** * Instances of the HTTP classes

    Concrete, computable implementations of [HttpC] and [HeadersC]: a header
    map as a finite map from names to value lists, header values checked byte
    by byte, dates as decimal seconds.  They show that the laws of the classes
    can hold together and are what the witnesses are evaluated with. *)

From S2P Require Import Prelude RustStr RustPath Fs FsStream ContentCoding Http.

(** ** Header maps *)

Definition map_get_all (m : gmap string (list string)) (k : string) : list string :=
  default [] (m !! k).

Definition map_iter (m : gmap string (list string)) : list (string * string) :=
  map_to_list m ≫= λ kv, pair kv.1 <$> kv.2.

Definition visible_or_none (s : string) : option string :=
  if str_forallb visible_byte s then Some s else None.

Definition reason (s : StatusCode) : option string :=
  if (s =? 200)%Z then Some "OK"
  else if (s =? 401)%Z then Some "Unauthorized"
  else if (s =? 403)%Z then Some "Forbidden"
  else if (s =? 404)%Z then Some "Not Found"
  else if (s =? 405)%Z then Some "Method Not Allowed"
  else if (s =? 416)%Z then Some "Range Not Satisfiable"
  else if (s =? 500)%Z then Some "Internal Server Error"
  else None.

Definition status_checked (z : Z) : option StatusCode :=
  if ((100 <=? z) && (z <=? 999))%Z then Some z else None.

Lemma status_checked_spec v s : status_checked v = Some s ↔ s = v ∧ (100 ≤ v ≤ 999)%Z.
Proof.
  unfold status_checked.
  destruct (Z.leb_spec 100 v), (Z.leb_spec v 999); simpl; naive_solver lia.
Qed.

Definition method_of_token (s : string) : option Method :=
  if str_eqb s "GET" then Some GET
  else if str_eqb s "HEAD" then Some HEAD
  else if str_eqb s "OPTIONS" then Some OPTIONS
  else if str_eqb s "POST" then Some POST
  else if is_empty s then None
  else Some (Extension s).

Definition lower_ascii (a : ascii) : ascii :=
  if byte_in 65 90 a then Ascii.ascii_of_nat (Ascii.nat_of_ascii a + 32) else a.

Fixpoint lower (s : string) : string :=
  match s with
  | EmptyString => EmptyString
  | String a s' => String (lower_ascii a) (lower s')
  end.

Definition name_of_bytes (s : string) : option string :=
  if is_empty s then None else Some (lower s).

Definition path_of_string (s : string) : PathAndQuery :=
  match split_once "?"%char s with
  | Some (p, q) => {| pq_path := p; pq_query := Some q |}
  | None => {| pq_path := s; pq_query := None |}
  end.

(** Origin form ([/path?query]) and absolute form with an [http] scheme. *)
Definition uri_of_string (s : string) : option Uri :=
  match strip_prefix "http://" s with
  | Some rest =>
      let (auth, tail) := default (rest, "") (split_once "/"%char rest) in
      let a := match split_once ":"%char auth with
               | Some (h, p) => {| auth_host := h; auth_port := parse_uint u16_max p |}
               | None => {| auth_host := auth; auth_port := None |}
               end in
      Some {| uri_scheme := Some "http"; uri_authority := Some a;
              uri_path_and_query := Some (path_of_string ("/" +:+ tail)) |}
  | None =>
      if starts_with "/" s
      then Some {| uri_scheme := None; uri_authority := None;
                   uri_path_and_query := Some (path_of_string s) |}
      else None
  end.

Definition string_of_uri (u : Uri) : string :=
  match uri_path_and_query u with
  | Some pq => pq_as_str pq
  | None => ""
  end.

(** ** Typed headers *)

Definition date_of (vs : list string) : option Z := head vs ≫= parse_uint u64_max.

Definition bound_of (s : string) : option Bound :=
  if is_empty s then Some Unbounded else Included <$> parse_uint u64_max s.

Definition range_spec (s : string) : option (Bound * Bound) :=
  match split_once "-"%char s with
  | Some (a, b) =>
      match bound_of (trim a), bound_of (trim b) with
      | Some x, Some y => Some (x, y)
      | _, _ => None
      end
  | None => None
  end.

Definition ranges_of (vs : list string) : option Range :=
  match head vs ≫= strip_prefix "bytes=" with
  | Some r => Some (omap range_spec (split ","%char r))
  | None => None
  end.

Definition ext_mime (p : string) : string :=
  match extension p with
  | Some e =>
      if str_eqb e "html" then "text/html"
      else if str_eqb e "txt" then "text/plain"
      else if str_eqb e "svg" then "image/svg+xml"
      else "application/octet-stream"
  | None => "application/octet-stream"
  end.

Definition essence (m : string) : string := (default (m, "") (split_once ";"%char m)).1.

(** Base64 with padding. *)
Definition b64_value (a : ascii) : option nat :=
  let n := Ascii.nat_of_ascii a in
  if byte_in 65 90 a then Some (n - 65)%nat
  else if byte_in 97 122 a then Some (n - 71)%nat
  else if byte_in 48 57 a then Some (n + 4)%nat
  else if ascii_eqb a "+"%char then Some 62%nat
  else if ascii_eqb a "/"%char then Some 63%nat
  else None.

Fixpoint b64_decode (s : string) : option string :=
  match s with
  | EmptyString => Some ""
  | String a (String b (String c (String d rest))) =>
      match b64_value a, b64_value b with
      | Some x, Some y =>
          let byte1 := Ascii.ascii_of_nat (4 * x + y / 16) in
          match b64_value c, b64_value d with
          | Some z, Some w =>
              let byte2 := Ascii.ascii_of_nat ((y `mod` 16) * 16 + z / 4) in
              let byte3 := Ascii.ascii_of_nat ((z `mod` 4) * 64 + w) in
              (λ r, String byte1 (String byte2 (String byte3 r))) <$> b64_decode rest
          | Some z, None =>
              if str_eqb (String d rest) "=" then
                Some (String byte1 (String (Ascii.ascii_of_nat ((y `mod` 16) * 16 + z / 4)) ""))
              else None
          | None, _ => if str_eqb (String c (String d rest)) "==" then Some (String byte1 "") else None
          end
      | _, _ => None
      end
  | _ => None
  end.

(** [Basic] and the encoded [user:password]. *)
Definition basic_of (vs : list string) : option (string * string) :=
  match head vs with
  | Some v => match strip_prefix "Basic " v with
              | Some c => b64_decode c ≫= split_once ":"%char
              | None => None
              end
  | None => None
  end.

Definition host_of (vs : list string) : option string :=
  (λ v, (default (v, "") (split_once ":"%char v)).1) <$> head vs.

Definition join_methods (l : list Method) : string :=
  join ", " ((λ m, match m with
                   | OPTIONS => "OPTIONS" | GET => "GET" | HEAD => "HEAD" | POST => "POST"
                   | PUT => "PUT" | DELETE => "DELETE" | TRACE => "TRACE"
                   | CONNECT => "CONNECT" | PATCH => "PATCH" | Extension t => t
                   end) <$> l).

(** ** The instances *)

Lemma map_iter_spec m k v : (k, v) ∈ map_iter m ↔ v ∈ map_get_all m k.
Proof.
  unfold map_iter, map_get_all. rewrite list_elem_of_bind. split.
  - intros ([k' vs] & (w & [= -> ->] & Hw)%list_elem_of_fmap & Hm%elem_of_map_to_list).
    simpl in *. by rewrite Hm.
  - destruct (m !! k) as [vs|] eqn:E; simpl; [|by intros ?%not_elem_of_nil].
    intros Hv. exists (k, vs). split; [|by apply elem_of_map_to_list].
    apply list_elem_of_fmap. eauto.
Qed.

Lemma visible_or_none_Some s v : visible_or_none s = Some v → v = s.
Proof. unfold visible_or_none. case_match; congruence. Qed.

Lemma visible_or_none_visible s :
  str_forallb visible_byte s = true → visible_or_none s = Some s.
Proof. unfold visible_or_none. by intros ->. Qed.

#[export] Program Instance http_gmap : HttpC := {|
  HeaderMap := gmap string (list string);
  hm_new := ∅;
  hm_get_all := map_get_all;
  hm_insert := λ k v m, <[k := [v]]> m;
  hm_remove := λ k m, delete k m;
  hm_iter := map_iter;
  hv_from_str := visible_or_none;
  hv_to_str := visible_or_none;
  hv_from_bytes := Some;
  canonical_reason := reason;
  status_from_u16 := status_checked;
  status_from_u16_spec := status_checked_spec;
  method_from_bytes := method_of_token;
  header_name_from_bytes := name_of_bytes;
  uri_parse := uri_of_string;
  pq_parse := λ s, if starts_with "/" s then Some (path_of_string s) else None;
  uri_from_parts := Some;
  uri_to_string := string_of_uri
|}.
Next Obligation. done. Qed.
Next Obligation.
  intros k v m k'. unfold map_get_all. rewrite lookup_insert.
  case_bool_decide; by case_decide.
Qed.
Next Obligation.
  intros k m k'. unfold map_get_all. rewrite lookup_delete.
  case_bool_decide; by case_decide.
Qed.
Next Obligation. apply map_iter_spec. Qed.
Next Obligation. apply visible_or_none_Some. Qed.
Next Obligation. apply visible_or_none_visible. Qed.
Next Obligation. congruence. Qed.
Next Obligation. apply visible_or_none_Some. Qed.
Next Obligation. apply visible_or_none_visible. Qed.
Next Obligation. done. Qed.

Lemma parse_digits_u64 acc s z :
  is_u64 acc → parse_digits u64_max acc s = Some z → is_u64 z.
Proof.
  revert acc. induction s as [|a s IH]; intros acc Hacc; simpl; [by intros [= <-]|].
  unfold digit_value. destruct (byte_in 48 57 a) eqn:Hb; [|done].
  apply andb_true_iff in Hb as [Hlo _]. apply Nat.leb_le in Hlo.
  destruct (_ <=? _)%Z eqn:E; [|done]. apply Z.leb_le in E. apply IH.
  unfold is_u64 in *. lia.
Qed.

Lemma parse_uint_u64 s z : parse_uint u64_max s = Some z → is_u64 z.
Proof.
  unfold parse_uint. repeat case_match; try done; apply parse_digits_u64; done.
Qed.

Lemma bound_of_ok s b : bound_of s = Some b → bound_ok b.
Proof.
  unfold bound_of. destruct (is_empty s); [by intros [= <-]|].
  destruct (parse_uint u64_max s) eqn:E; simpl; [|done]. intros [= <-].
  by apply parse_uint_u64 in E.
Qed.

#[export] Program Instance headers_simple : HeadersC := {|
  HttpDate := Z;
  Mime := string;
  IfRange := Z;
  http_date_from := λ ns, (ns / 1000000000)%Z;
  ims_is_modified := λ since lm, (since <? lm)%Z;
  ius_precondition_passes := λ since lm, (lm <=? since)%Z;
  if_range_is_modified := λ ir lm,
    match lm with Some t => negb (t =? ir)%Z | None => true end;
  decode_if_modified_since := date_of;
  decode_if_unmodified_since := date_of;
  decode_if_range := date_of;
  decode_range := ranges_of;
  content_length_value := dec;
  content_type_value := λ m, m;
  content_range_bytes := λ s e l,
    Some (concat_str ["bytes "; dec s; "-"; dec (e - 1); "/"; dec l]);
  content_range_unsatisfied := λ l, "bytes */" +:+ dec l;
  accept_ranges_bytes := "bytes";
  last_modified_value := dec;
  allow_value := join_methods;
  ac_allow_methods_value := join_methods;
  ac_header_names_value := join ", ";
  decode_content_type := head;
  decode_basic_auth := basic_of;
  decode_host := host_of;
  mime_guess_from_path := ext_mime;
  TEXT_HTML_UTF_8 := "text/html; charset=utf-8";
  TEXT_HTML := "text/html";
  TEXT_PLAIN_UTF_8 := "text/plain; charset=utf-8";
  APPLICATION_JSON := "application/json";
  mime_type_ := λ m, (default (m, "") (split_once "/"%char m)).1;
  mime_suffix := λ m, snd <$> rsplit_once "+"%char (essence m);
  mime_essence_str := essence
|}.
Next Obligation.
  intros vs r. unfold ranges_of. destruct (head vs ≫= strip_prefix "bytes="); [|done].
  intros [= <-]. apply Forall_forall. intros p (x & _ & Hx)%list_elem_of_omap.
  unfold range_spec in Hx. destruct (split_once _ x) as [[a b]|]; [|done].
  destruct (bound_of (trim a)) eqn:Ea; [|done]. destruct (bound_of (trim b)) eqn:Eb; [|done].
  injection Hx as <-. split; by eapply bound_of_ok.
Qed.
