(* ===== verification/Opts.v ===== *)
(** * Options of the request handler

    The data the components share: the compiled advanced settings of
    [settings/mod.rs] ([Headers], [Rewrites], [Redirects], [VirtualHosts],
    [Advanced]), the CORS configuration of [cors.rs], the directory listing
    format, and [RequestHandlerOpts] of [handler.rs] with its defaults.  Regular
    expressions, globs and the Aho-Corasick replacer come from crates, so they
    are the class [MatchC]. *)

From S2P Require Import Prelude RustStr IpAddr RustPath Fs FsStream ContentCoding Http.

(** ** The [regex], [globset] and [aho-corasick] crates *)

(** [captures] succeeds exactly when [is_match] does; its groups are numbered
    from 0, the whole match. *)
Class MatchC : Type := {
  Regex : Type;
  regex_is_match : Regex → string → bool;
  regex_captures : Regex → string → option (list (option string));
  regex_captures_match : ∀ r s,
    regex_is_match r s = true ↔ ∃ g gs, regex_captures r s = Some (g :: gs);
  GlobMatcher : Type;
  glob_is_match : GlobMatcher → string → bool;
  AhoCorasick : Type;
  ac_new : list string → option AhoCorasick;
  ac_try_replace_all : AhoCorasick → string → list string → option string
}.

(** ** Settings *)

Inductive RedirectsKind : Type := Permanent | Temporary.

Definition redirects_kind_u16 (k : RedirectsKind) : Z :=
  match k with
  | Permanent => 301
  | Temporary => 302
  end.

Inductive DirListFmt : Type := Html | Json.

(** [settings::file::MemoryCache] *)
Record MemoryCache : Type := {
  mc_capacity : option Z;
  mc_ttl : option Z;
  mc_tti : option Z;
  mc_max_file_size : option Z
}.

(** [mem_cache::cache::MemCacheOpts] *)
Record MemCacheOpts : Type := { max_file_size : Z }.

Section Settings.
Context `{!HttpC, !MatchC}.

Record Headers : Type := {
  hdr_source : GlobMatcher;
  hdr_headers : HeaderMap
}.

Record Rewrites : Type := {
  rw_source : Regex;
  rw_destination : string;
  rw_redirect : option RedirectsKind
}.

Record Redirects : Type := {
  rd_host : option string;
  rd_source : Regex;
  rd_destination : string;
  rd_kind : StatusCode
}.

Record VirtualHosts : Type := {
  vh_host : string;
  vh_root : string
}.

Record Advanced : Type := {
  adv_headers : option (list Headers);
  adv_rewrites : option (list Rewrites);
  adv_redirects : option (list Redirects);
  adv_virtual_hosts : option (list VirtualHosts);
  adv_memory_cache : option MemoryCache
}.

Definition advanced_default : Advanced := {|
  adv_headers := None;
  adv_rewrites := None;
  adv_redirects := None;
  adv_virtual_hosts := None;
  adv_memory_cache := None
|}.

(** ** CORS ([cors.rs]) *)

Record Cors : Type := {
  allowed_headers : gset string;
  exposed_headers : gset string;
  max_age : option Z;
  allowed_methods : gset Method;
  origins : option (gset string)
}.

(** The header values are built once from the sets; the iteration order of a
    [HashSet] is unspecified, here it is the order of [elements]. *)
Record Configured : Type := {
  cors : Cors;
  cfg_allowed_headers : list string;
  cfg_exposed_headers : list string;
  cfg_methods_header : list Method
}.

(** ** [handler::RequestHandlerOpts] (all features, Unix) *)

Record RequestHandlerOpts : Type := {
  root_dir : string;
  memory_cache : option MemCacheOpts;
  compression : bool;
  compression_level : CompressionLevel;
  compression_static : bool;
  dir_listing : bool;
  dir_listing_order : Z;
  dir_listing_format : DirListFmt;
  opt_cors : option Configured;
  security_headers : bool;
  cache_control_headers : bool;
  page404 : string;
  page50x : string;
  page_fallback : string;
  basic_auth : string;
  index_files : list string;
  log_remote_address : bool;
  log_forwarded_for : bool;
  trusted_proxies : list IpAddr;
  redirect_trailing_slash : bool;
  ignore_hidden_files : bool;
  disable_symlinks : bool;
  health : bool;
  experimental_metrics : bool;
  maintenance_mode : bool;
  maintenance_mode_status : StatusCode;
  maintenance_mode_file : string;
  advanced_opts : option Advanced
}.

(** [impl Default for RequestHandlerOpts] *)
Definition opts_default : RequestHandlerOpts := {|
  root_dir := "./public";
  memory_cache := None;
  compression := true;
  compression_level := LevelDefault;
  compression_static := false;
  dir_listing := false;
  dir_listing_order := 6;
  dir_listing_format := Html;
  opt_cors := None;
  security_headers := false;
  cache_control_headers := true;
  page404 := "./404.html";
  page50x := "./50x.html";
  page_fallback := "";
  basic_auth := "";
  index_files := ["index.html"];
  log_remote_address := false;
  log_forwarded_for := false;
  trusted_proxies := [];
  redirect_trailing_slash := true;
  ignore_hidden_files := false;
  disable_symlinks := false;
  health := false;
  experimental_metrics := false;
  maintenance_mode := false;
  maintenance_mode_status := SC_SERVICE_UNAVAILABLE;
  maintenance_mode_file := "";
  advanced_opts := None
|}.

(** The options rebuilt from their fields, and from it the assignment to one field. *)
Definition opts_eta (o : RequestHandlerOpts) : RequestHandlerOpts := {|
  root_dir := root_dir o;
  memory_cache := memory_cache o;
  compression := compression o;
  compression_level := compression_level o;
  compression_static := compression_static o;
  dir_listing := dir_listing o;
  dir_listing_order := dir_listing_order o;
  dir_listing_format := dir_listing_format o;
  opt_cors := opt_cors o;
  security_headers := security_headers o;
  cache_control_headers := cache_control_headers o;
  page404 := page404 o;
  page50x := page50x o;
  page_fallback := page_fallback o;
  basic_auth := basic_auth o;
  index_files := index_files o;
  log_remote_address := log_remote_address o;
  log_forwarded_for := log_forwarded_for o;
  trusted_proxies := trusted_proxies o;
  redirect_trailing_slash := redirect_trailing_slash o;
  ignore_hidden_files := ignore_hidden_files o;
  disable_symlinks := disable_symlinks o;
  health := health o;
  experimental_metrics := experimental_metrics o;
  maintenance_mode := maintenance_mode o;
  maintenance_mode_status := maintenance_mode_status o;
  maintenance_mode_file := maintenance_mode_file o;
  advanced_opts := advanced_opts o
|}.

#[local] Ltac assign field :=
  let eta := eval unfold opts_eta in opts_eta in
  match eval pattern field in eta with
  | ?f _ => let set := constr:(λ v o, f (λ _, v) o) in
            let set := eval cbv beta in set in exact set
  end.

Definition set_compression : bool → RequestHandlerOpts → RequestHandlerOpts := ltac:(assign compression).
Definition set_compression_level : CompressionLevel → RequestHandlerOpts → RequestHandlerOpts := ltac:(assign compression_level).
Definition set_compression_static : bool → RequestHandlerOpts → RequestHandlerOpts := ltac:(assign compression_static).
Definition set_dir_listing : bool → RequestHandlerOpts → RequestHandlerOpts := ltac:(assign dir_listing).
Definition set_dir_listing_order : Z → RequestHandlerOpts → RequestHandlerOpts := ltac:(assign dir_listing_order).
Definition set_dir_listing_format : DirListFmt → RequestHandlerOpts → RequestHandlerOpts := ltac:(assign dir_listing_format).
Definition set_opt_cors : (option Configured) → RequestHandlerOpts → RequestHandlerOpts := ltac:(assign opt_cors).
Definition set_security_headers : bool → RequestHandlerOpts → RequestHandlerOpts := ltac:(assign security_headers).
Definition set_cache_control_headers : bool → RequestHandlerOpts → RequestHandlerOpts := ltac:(assign cache_control_headers).
Definition set_page_fallback : string → RequestHandlerOpts → RequestHandlerOpts := ltac:(assign page_fallback).
Definition set_basic_auth : string → RequestHandlerOpts → RequestHandlerOpts := ltac:(assign basic_auth).
Definition set_log_remote_address : bool → RequestHandlerOpts → RequestHandlerOpts := ltac:(assign log_remote_address).
Definition set_health : bool → RequestHandlerOpts → RequestHandlerOpts := ltac:(assign health).
Definition set_experimental_metrics : bool → RequestHandlerOpts → RequestHandlerOpts := ltac:(assign experimental_metrics).
Definition set_maintenance_mode : bool → RequestHandlerOpts → RequestHandlerOpts := ltac:(assign maintenance_mode).
Definition set_maintenance_mode_status : StatusCode → RequestHandlerOpts → RequestHandlerOpts := ltac:(assign maintenance_mode_status).
Definition set_maintenance_mode_file : string → RequestHandlerOpts → RequestHandlerOpts := ltac:(assign maintenance_mode_file).
Definition set_memory_cache : (option MemCacheOpts) → RequestHandlerOpts → RequestHandlerOpts := ltac:(assign memory_cache).
Definition set_advanced_opts : (option Advanced) → RequestHandlerOpts → RequestHandlerOpts := ltac:(assign advanced_opts).

(** The defaults with advanced options, as for [..Default::default()]. *)
Definition opts_with_advanced (a : Advanced) : RequestHandlerOpts := set_advanced_opts (Some a) opts_default.

End Settings.

(** ** An instance: patterns matched by a prefix

    A "regular expression" is a literal prefix with one group for the rest, a
    glob is an exact path; placeholders are replaced left to right, the first
    pattern that matches at a position wins. *)

Fixpoint first_pattern (ps rs : list string) (s : string) : option (string * string) :=
  match ps, rs with
  | p :: ps', r :: rs' =>
      match strip_prefix p s with
      | Some rest => Some (r, rest)
      | None => first_pattern ps' rs' s
      end
  | _, _ => None
  end.

Fixpoint replace_fuel (fuel : nat) (ps rs : list string) (s : string) : string :=
  match fuel, s with
  | S fuel', String a s' =>
      match first_pattern ps rs s with
      | Some (r, rest) => r +:+ replace_fuel fuel' ps rs rest
      | None => String a (replace_fuel fuel' ps rs s')
      end
  | _, _ => s
  end.

Lemma prefix_captures_match (r s : string) :
  starts_with r s = true ↔
  ∃ g gs, ((λ rest, [Some s; Some rest]) <$> strip_prefix r s) = Some (g :: gs).
Proof.
  unfold starts_with. destruct (strip_prefix r s); simpl; [|naive_solver].
  split; [|done]. eauto.
Qed.

#[export] Instance match_prefix : MatchC := {|
  Regex := string;
  regex_is_match := starts_with;
  regex_captures := λ r s, (λ rest, [Some s; Some rest]) <$> strip_prefix r s;
  regex_captures_match := prefix_captures_match;
  GlobMatcher := string;
  glob_is_match := str_eqb;
  AhoCorasick := list string;
  ac_new := Some;
  ac_try_replace_all := λ ps s rs, Some (replace_fuel (String.length s) ps rs s)
|}.
