(* ===== verification/Settings.v ===== *)
(** * The settings: [settings/mod.rs], [settings/file.rs], [settings/cli.rs]

    The options of the command line ([General], as the argument parser delivers
    them), the options of the configuration file (every one optional), their
    merge, and the compilation of the advanced options: glob patterns become
    matchers or regular expressions, the roots of virtual hosts are checked.
    The TOML reader, the pattern compilers and the log subscriber come from
    crates, so they are the class [ConfigC]. *)

From S2P Require Import Prelude RustStr Logger IpAddr RustPath Fs Helpers FsStream ContentCoding Http HttpInstances Opts.

Open Scope sws_scope.

(** ** Command line *)

(** [cli::Commands] on Unix *)
Inductive Commands : Type := Generate (completions man_pages : bool) (out_dir : string).

(** [cli::General] (all features, Unix) *)
Record General : Type := {
  g_version : bool;
  g_host : string;
  g_port : Z;
  g_root : string;
  g_log_level : string;
  g_config_file : string;
  g_cache_control_headers : bool;
  g_compression : bool;
  g_compression_level : CompressionLevel;
  g_compression_static : bool;
  g_page404 : string;
  g_page50x : string;
  g_http2 : bool;
  g_http2_tls_cert : option string;
  g_http2_tls_key : option string;
  g_https_redirect : bool;
  g_https_redirect_host : string;
  g_https_redirect_from_port : Z;
  g_https_redirect_from_hosts : string;
  g_security_headers : bool;
  g_cors_allow_origins : string;
  g_cors_allow_headers : string;
  g_cors_expose_headers : string;
  g_directory_listing : bool;
  g_directory_listing_order : Z;
  g_directory_listing_format : DirListFmt;
  g_basic_auth : string;
  g_fd : option Z;
  g_threads_multiplier : Z;
  g_max_blocking_threads : Z;
  g_grace_period : Z;
  g_page_fallback : string;
  g_log_remote_address : bool;
  g_log_forwarded_for : bool;
  g_trusted_proxies : list IpAddr;
  g_redirect_trailing_slash : bool;
  g_ignore_hidden_files : bool;
  g_disable_symlinks : bool;
  g_index_files : string;
  g_health : bool;
  g_experimental_metrics : bool;
  g_maintenance_mode : bool;
  g_maintenance_mode_status : StatusCode;
  g_maintenance_mode_file : string;
  g_commands : option Commands
}.

(** ** Configuration file *)

(** [file::LogLevel] and its [name] *)
Inductive LogLevel : Type := LevelError | LevelWarn | LevelInfo | LevelDebug | LevelTrace.

Definition log_level_name (l : LogLevel) : string :=
  match l with
  | LevelError => "error"
  | LevelWarn => "warn"
  | LevelInfo => "info"
  | LevelDebug => "debug"
  | LevelTrace => "trace"
  end.

(** [file::General] *)
Record FileGeneral : Type := {
  f_host : option string;
  f_port : option Z;
  f_root : option string;
  f_log_level : option LogLevel;
  f_cache_control_headers : option bool;
  f_compression : option bool;
  f_compression_level : option CompressionLevel;
  f_compression_static : option bool;
  f_page404 : option string;
  f_page50x : option string;
  f_http2 : option bool;
  f_http2_tls_cert : option string;
  f_http2_tls_key : option string;
  f_https_redirect : option bool;
  f_https_redirect_host : option string;
  f_https_redirect_from_port : option Z;
  f_https_redirect_from_hosts : option string;
  f_security_headers : option bool;
  f_cors_allow_origins : option string;
  f_cors_allow_headers : option string;
  f_cors_expose_headers : option string;
  f_directory_listing : option bool;
  f_directory_listing_order : option Z;
  f_directory_listing_format : option DirListFmt;
  f_basic_auth : option string;
  f_fd : option Z;
  f_threads_multiplier : option Z;
  f_max_blocking_threads : option Z;
  f_grace_period : option Z;
  f_page_fallback : option string;
  f_log_remote_address : option bool;
  f_log_forwarded_for : option bool;
  f_trusted_proxies : option (list IpAddr);
  f_redirect_trailing_slash : option bool;
  f_ignore_hidden_files : option bool;
  f_disable_symlinks : option bool;
  f_index_files : option string;
  f_health : option bool;
  f_experimental_metrics : option bool;
  f_maintenance_mode : option bool;
  f_maintenance_mode_status : option Z;
  f_maintenance_mode_file : option string;
  f_memory_cache : option bool
}.

(** [file::Redirects], [file::Rewrites], [file::VirtualHosts] *)
Record FileRedirects : Type := {
  frd_host : option string;
  frd_source : string;
  frd_destination : string;
  frd_kind : RedirectsKind
}.

Record FileRewrites : Type := {
  frw_source : string;
  frw_destination : string;
  frw_redirect : option RedirectsKind
}.

Record FileVirtualHosts : Type := {
  fvh_host : string;
  fvh_root : option string
}.

Section Settings.
Context `{!HttpC, !MatchC}.

(** [file::Headers], [file::Advanced], [file::Settings] *)
Record FileHeaders : Type := {
  fhd_source : string;
  fhd_headers : HeaderMap
}.

Record FileAdvanced : Type := {
  fa_headers : option (list FileHeaders);
  fa_rewrites : option (list FileRewrites);
  fa_redirects : option (list FileRedirects);
  fa_virtual_hosts : option (list FileVirtualHosts);
  fa_memory_cache : option MemoryCache
}.

Record FileSettings : Type := {
  file_general : option FileGeneral;
  file_advanced : option FileAdvanced
}.

(** [settings::Settings] *)
Record Settings : Type := {
  s_general : General;
  s_advanced : option Advanced
}.

End Settings.

(** ** The [toml], [globset] and [regex] crates

    [glob_new] is [Glob::new(s)] with its matcher, [glob_regex] the regular
    expression of [GlobBuilder::new(s).literal_separator(true).build()],
    and [lowercase] is [str::to_lowercase]. *)
Class ConfigC `{!HttpC, !MatchC} : Type := {
  TomlValue : Type;
  toml_parse : string → option TomlValue;
  toml_settings : TomlValue → option (FileSettings * list SerdePath);
  glob_new : string → option GlobMatcher;
  glob_regex : string → option string;
  regex_new : string → option Regex;
  lowercase : string → string
}.

Section Read.
Context `{!HttpC, !MatchC, !ConfigC, !TracingC}.

(** [if let Some(v) = file { x = Some(v) }] *)
Definition or_keep {A : Type} (file cli : option A) : option A :=
  match file with
  | Some v => Some v
  | None => cli
  end.

Definition with_config_file (config_file : string) (g : General) : General := {|
  g_version := g_version g;
  g_host := g_host g;
  g_port := g_port g;
  g_root := g_root g;
  g_log_level := g_log_level g;
  g_config_file := config_file;
  g_cache_control_headers := g_cache_control_headers g;
  g_compression := g_compression g;
  g_compression_level := g_compression_level g;
  g_compression_static := g_compression_static g;
  g_page404 := g_page404 g;
  g_page50x := g_page50x g;
  g_http2 := g_http2 g;
  g_http2_tls_cert := g_http2_tls_cert g;
  g_http2_tls_key := g_http2_tls_key g;
  g_https_redirect := g_https_redirect g;
  g_https_redirect_host := g_https_redirect_host g;
  g_https_redirect_from_port := g_https_redirect_from_port g;
  g_https_redirect_from_hosts := g_https_redirect_from_hosts g;
  g_security_headers := g_security_headers g;
  g_cors_allow_origins := g_cors_allow_origins g;
  g_cors_allow_headers := g_cors_allow_headers g;
  g_cors_expose_headers := g_cors_expose_headers g;
  g_directory_listing := g_directory_listing g;
  g_directory_listing_order := g_directory_listing_order g;
  g_directory_listing_format := g_directory_listing_format g;
  g_basic_auth := g_basic_auth g;
  g_fd := g_fd g;
  g_threads_multiplier := g_threads_multiplier g;
  g_max_blocking_threads := g_max_blocking_threads g;
  g_grace_period := g_grace_period g;
  g_page_fallback := g_page_fallback g;
  g_log_remote_address := g_log_remote_address g;
  g_log_forwarded_for := g_log_forwarded_for g;
  g_trusted_proxies := g_trusted_proxies g;
  g_redirect_trailing_slash := g_redirect_trailing_slash g;
  g_ignore_hidden_files := g_ignore_hidden_files g;
  g_disable_symlinks := g_disable_symlinks g;
  g_index_files := g_index_files g;
  g_health := g_health g;
  g_experimental_metrics := g_experimental_metrics g;
  g_maintenance_mode := g_maintenance_mode g;
  g_maintenance_mode_status := g_maintenance_mode_status g;
  g_maintenance_mode_file := g_maintenance_mode_file g;
  g_commands := g_commands g
|}.

(** The options of the file override those of the command line; without a value
    of its own in the file, [security_headers] follows [http2]. *)
Definition merge_general (f : FileGeneral) (config_file : string) (cli : General)
    : Result General Error :=
  let http2 := default (g_http2 cli) (f_http2 f) in
  let? status :=
    match f_maintenance_mode_status f with
    | Some v => ok_or (status_from_u16 v) "invalid HTTP status code"
    | None => Ok (g_maintenance_mode_status cli)
    end in
  Ok {|
    g_version := g_version cli;
    g_host := default (g_host cli) (f_host f);
    g_port := default (g_port cli) (f_port f);
    g_root := default (g_root cli) (f_root f);
    g_log_level := match f_log_level f with Some v => lowercase (log_level_name v) | None => g_log_level cli end;
    g_config_file := config_file;
    g_cache_control_headers := default (g_cache_control_headers cli) (f_cache_control_headers f);
    g_compression := default (g_compression cli) (f_compression f);
    g_compression_level := default (g_compression_level cli) (f_compression_level f);
    g_compression_static := default (g_compression_static cli) (f_compression_static f);
    g_page404 := default (g_page404 cli) (f_page404 f);
    g_page50x := default (g_page50x cli) (f_page50x f);
    g_http2 := http2;
    g_http2_tls_cert := or_keep (f_http2_tls_cert f) (g_http2_tls_cert cli);
    g_http2_tls_key := or_keep (f_http2_tls_key f) (g_http2_tls_key cli);
    g_https_redirect := default (g_https_redirect cli) (f_https_redirect f);
    g_https_redirect_host := default (g_https_redirect_host cli) (f_https_redirect_host f);
    g_https_redirect_from_port := default (g_https_redirect_from_port cli) (f_https_redirect_from_port f);
    g_https_redirect_from_hosts := default (g_https_redirect_from_hosts cli) (f_https_redirect_from_hosts f);
    g_security_headers := 
    match f_security_headers f with
    | Some v => v
    | None => if http2 then true else g_security_headers cli
    end;
    g_cors_allow_origins := default (g_cors_allow_origins cli) (f_cors_allow_origins f);
    g_cors_allow_headers := default (g_cors_allow_headers cli) (f_cors_allow_headers f);
    g_cors_expose_headers := default (g_cors_expose_headers cli) (f_cors_expose_headers f);
    g_directory_listing := default (g_directory_listing cli) (f_directory_listing f);
    g_directory_listing_order := default (g_directory_listing_order cli) (f_directory_listing_order f);
    g_directory_listing_format := default (g_directory_listing_format cli) (f_directory_listing_format f);
    g_basic_auth := default (g_basic_auth cli) (f_basic_auth f);
    g_fd := or_keep (f_fd f) (g_fd cli);
    g_threads_multiplier := default (g_threads_multiplier cli) (f_threads_multiplier f);
    g_max_blocking_threads := default (g_max_blocking_threads cli) (f_max_blocking_threads f);
    g_grace_period := default (g_grace_period cli) (f_grace_period f);
    g_page_fallback := default (g_page_fallback cli) (f_page_fallback f);
    g_log_remote_address := default (g_log_remote_address cli) (f_log_remote_address f);
    g_log_forwarded_for := default (g_log_forwarded_for cli) (f_log_forwarded_for f);
    g_trusted_proxies := default (g_trusted_proxies cli) (f_trusted_proxies f);
    g_redirect_trailing_slash := default (g_redirect_trailing_slash cli) (f_redirect_trailing_slash f);
    g_ignore_hidden_files := default (g_ignore_hidden_files cli) (f_ignore_hidden_files f);
    g_disable_symlinks := default (g_disable_symlinks cli) (f_disable_symlinks f);
    g_index_files := default (g_index_files cli) (f_index_files f);
    g_health := default (g_health cli) (f_health f);
    g_experimental_metrics := default (g_experimental_metrics cli) (f_experimental_metrics f);
    g_maintenance_mode := default (g_maintenance_mode cli) (f_maintenance_mode f);
    g_maintenance_mode_status := status;
    g_maintenance_mode_file := default (g_maintenance_mode_file cli) (f_maintenance_mode_file f);
    g_commands := g_commands cli
  |}.

(** [logger::init]: the filter that is installed. *)
Definition logger_init (log_level : string) : Result Targets Error :=
  match logger_configure (lowercase log_level) with
  | Ok t => Ok t
  | Err _ => Err "failed to initialize logging"
  | Panic => Panic
  end.

(** [file::read_toml_file] and [file::Settings::read] *)
Definition read_toml_file (fs : FileSystem) (path : string) : Result TomlValue Error :=
  match read_file fs path with
  | Ok toml_str => ok_or (toml_parse toml_str) "could not parse input as TOML"
  | Err _ => Err "error trying to deserialize toml configuration file"
  | Panic => Panic
  end.

(** The lines printed for the keys that were ignored: a [BTreeSet], in its order. *)
Definition unused_warnings (ignored : list SerdePath) : list string :=
  (λ key, concat_str ["Warning: unused configuration manifest key "; dquote; key; dquote; " or unsupported"])
    <$> stable_sort str_leb (remove_dups (stringify "" <$> ignored)).

Definition file_settings_read (fs : FileSystem) (config_file : string)
    : Result (FileSettings * list string) Error :=
  let is_toml := match extension config_file with Some ext => str_eqb ext "toml" | None => false end in
  if negb is_toml then Err "configuration file should be in toml format"
  else
    let? toml := read_toml_file fs config_file in
    let? manifest := ok_or (toml_settings toml) "error during toml configuration file deserialization" in
    Ok (manifest.1, unused_warnings manifest.2).

(** [read_file_settings]: the settings of the file and its resolved path, with the
    lines that reading it prints. *)
Definition read_file_settings (fs : FileSystem) (config_file : string)
    : Result (option (FileSettings * string) * list string) Error :=
  if path_is_file fs config_file then
    match fs_canonicalize fs config_file with
    | Ok resolved =>
        let? r := file_settings_read fs resolved in
        Ok (Some (r.1, resolved), r.2)
    | Err _ => Err "unable to resolve toml config file path"
    | Panic => Panic
    end
  else Ok (None, []).

(** The regular expression of a glob with its groups made capturing. *)
Definition capture_pattern (regex : string) : string :=
  str_replace ".*.*" ".*" (str_replace "?:" "" (str_replace "?:.*" ".*" (trim_start_str "(?-u)" regex))).

(** The source of a rule; [rules] is ["rewrites"] or ["redirects"]. *)
Definition compile_source (rules source : string) : Logged Regex :=
  let! regex := lift (ok_or (glob_regex source) "can not compile glob pattern") in
  let pattern := capture_pattern regex in
  emit! tracing DEBUG "settings" (concat_str ["url "; rules; " glob pattern: "; source]) in
  emit! tracing DEBUG "settings" (concat_str ["url "; rules; " regex equivalent: "; pattern]) in
  lift (ok_or (regex_new pattern) "can not compile regex pattern equivalent").

Definition compile_header (e : FileHeaders) : Logged Headers :=
  let! source := lift (ok_or (glob_new (fhd_source e)) "can not compile glob pattern for header source") in
  lret {| hdr_source := source; hdr_headers := fhd_headers e |}.

Definition compile_rewrite (e : FileRewrites) : Logged Rewrites :=
  let! source := compile_source "rewrites" (frw_source e) in
  lret {| rw_source := source; rw_destination := frw_destination e; rw_redirect := frw_redirect e |}.

Definition compile_redirect (e : FileRedirects) : Logged Redirects :=
  let! source := compile_source "redirects" (frd_source e) in
  let! kind := lift (ok_or (status_from_u16 (redirects_kind_u16 (frd_kind e))) "invalid redirect status code") in
  lret {| rd_host := frd_host e; rd_source := source; rd_destination := frd_destination e;
          rd_kind := kind |}.

(** An entry without a root is skipped. *)
Definition compile_vhost (fs : FileSystem) (e : FileVirtualHosts) : Logged (option VirtualHosts) :=
  match fvh_root e with
  | None => lret None
  | Some root =>
      let! root_dir := lift match get_valid_dirpath fs root with
                            | Ok root_dir => Ok root_dir
                            | Err _ => Err "root directory for virtual host was not found or inaccessible"
                            | Panic => Panic
                            end in
      emit! tracing DEBUG "settings" (concat_str ["added virtual host: "; fvh_host e; " -> "; show_path root_dir]) in
      lret (Some {| vh_host := fvh_host e; vh_root := root_dir |})
  end.

(** [match entries { Some(entries) => { loop; Some(vec) }, _ => None }] *)
Definition compile_entries {A B : Type} (f : A → Logged B) (entries : option (list A))
    : Logged (option (list B)) :=
  match entries with
  | Some l => let! v := lmap f l in lret (Some v)
  | None => lret None
  end.

(** The entries that were pushed. *)
Definition keep_some {A : Type} (l : list (option A)) : list A := omap (λ x, x) l.

Definition compile_advanced (fs : FileSystem) (a : FileAdvanced) : Logged Advanced :=
  let! headers := compile_entries compile_header (fa_headers a) in
  let! rewrites := compile_entries compile_rewrite (fa_rewrites a) in
  let! redirects := compile_entries compile_redirect (fa_redirects a) in
  let! vhosts := compile_entries (compile_vhost fs) (fa_virtual_hosts a) in
  lret {| adv_headers := headers; adv_rewrites := rewrites; adv_redirects := redirects;
          adv_virtual_hosts := keep_some <$> vhosts;
          adv_memory_cache := fa_memory_cache a |}.

(** The general options of the file, merged into those of the command line. *)
Definition file_general_options (settings : FileSettings) (config_file : string) (opts : General)
    : Result General Error :=
  match file_general settings with
  | Some f => merge_general f config_file opts
  | None => Ok (with_config_file config_file opts)
  end.

(** The log is initialised on demand. *)
Definition log_on_demand (log_init : bool) (log_level : string) : Result unit Error :=
  if log_init then let? _ := logger_init log_level in Ok () else Ok ().

(** The lines about the file. *)
Definition log_config_file (provided resolved : string) (has_general : bool) : Logged unit :=
  emit! tracing DEBUG "settings" "config file read successfully" in
  emit! tracing DEBUG "settings" (concat_str ["config file path provided: "; show_path provided]) in
  emit! tracing DEBUG "settings" (concat_str ["config file path resolved: "; show_path resolved]) in
  log_if (negb has_general)
    (server_warn "config file empty or no `general` settings found, using default values").

Definition file_advanced_options (fs : FileSystem) (settings : FileSettings) : Logged (option Advanced) :=
  match file_advanced settings with
  | Some a => let! a' := compile_advanced fs a in lret (Some a')
  | None => lret None
  end.

(** [Ok(Settings { general: General { .. }, advanced })] *)
Definition settings_new (general : General) (advanced : option Advanced) : Settings :=
  {| s_general := general; s_advanced := advanced |}.

(** [Settings::read] for the parsed command line [opts]. *)
Definition read_settings (fs : FileSystem) (log_init : bool) (opts : General) : Logged Settings :=
  let! file := lift (read_file_settings fs (g_config_file opts)) in
  match file.1 with
  | Some (settings, config_file) =>
      let! general := lift (file_general_options settings config_file opts) in
      let! _ := lift (log_on_demand log_init (g_log_level general)) in
      let! _ := log_config_file (g_config_file opts) config_file
                  match file_general settings with Some _ => true | None => false end in
      let! advanced := file_advanced_options fs settings in
      lret (settings_new general advanced)
  | None =>
      let! _ := lift (log_on_demand log_init (g_log_level opts)) in
      lret (settings_new opts None)
  end.

(** ** Theorems *)

(** A loop over entries, from what one entry compiles to ([P]) and why it does not
    ([Q]). *)
Lemma compile_entries_spec {A B : Type} (P : A → B → Prop) (Q : A → Prop)
    (f : A → Logged B) entries :
  (∀ e, match outcome (f e) with Ok y => P e y | Err _ => Q e | Panic => False end) →
  match outcome (compile_entries f entries) with
  | Ok out => option_Forall2 (Forall2 P) entries out
  | Err _ => ∃ l e, entries = Some l ∧ e ∈ l ∧ Q e
  | Panic => False
  end.
Proof.
  intros Hf. unfold compile_entries. destruct entries as [l|]; [|constructor].
  rewrite outcome_bind, outcome_lmap.
  pose proof (try_map_spec (λ x, outcome (f x)) l) as Hl. destruct (try_map _ l) as [ys|e|]; simpl.
  - constructor. eapply Forall2_impl; [done|]. intros x y Hxy. pose proof (Hf x) as Hx. by rewrite Hxy in Hx.
  - destruct Hl as (x & Hx & Hfx). exists l, x. specialize (Hf x). rewrite Hfx in Hf. eauto.
  - destruct Hl as (x & _ & Hfx). specialize (Hf x). by rewrite Hfx in Hf.
Qed.

(** The source of a rule compiles: its glob has a regular expression, and the
    capturing version of that is one too. *)
Definition source_compiles (source : string) (r : Regex) : Prop :=
  ∃ regex, glob_regex source = Some regex ∧ regex_new (capture_pattern regex) = Some r.

Lemma compile_source_spec rules source :
  match outcome (compile_source rules source) with
  | Ok r => source_compiles source r
  | Err _ => ∀ r, ¬ source_compiles source r
  | Panic => False
  end.
Proof.
  unfold compile_source, source_compiles. rewrite outcome_bind. cbn [outcome lift snd]. unfold ok_or.
  destruct (glob_regex source) as [regex|]; simpl; [|naive_solver].
  destruct (regex_new _) eqn:Hr; naive_solver.
Qed.

Lemma kind_status k : status_from_u16 (redirects_kind_u16 k) = Some (redirects_kind_u16 k).
Proof. apply status_from_u16_spec. by destruct k. Qed.

Lemma compile_header_spec e :
  match outcome (compile_header e) with
  | Ok h => glob_new (fhd_source e) = Some (hdr_source h) ∧ hdr_headers h = fhd_headers e
  | Err _ => glob_new (fhd_source e) = None
  | Panic => False
  end.
Proof. unfold compile_header, ok_or. by destruct (glob_new (fhd_source e)). Qed.

Lemma compile_rewrite_spec e :
  match outcome (compile_rewrite e) with
  | Ok r => source_compiles (frw_source e) (rw_source r)
            ∧ rw_destination r = frw_destination e ∧ rw_redirect r = frw_redirect e
  | Err _ => ∀ r, ¬ source_compiles (frw_source e) r
  | Panic => False
  end.
Proof.
  unfold compile_rewrite. rewrite outcome_bind. pose proof (compile_source_spec "rewrites" (frw_source e)) as Hs.
  by destruct (outcome (compile_source _ _)).
Qed.

Lemma compile_redirect_spec e :
  match outcome (compile_redirect e) with
  | Ok r => source_compiles (frd_source e) (rd_source r) ∧ rd_host r = frd_host e
            ∧ rd_destination r = frd_destination e ∧ rd_kind r = redirects_kind_u16 (frd_kind e)
  | Err _ => ∀ r, ¬ source_compiles (frd_source e) r
  | Panic => False
  end.
Proof.
  unfold compile_redirect. rewrite outcome_bind. pose proof (compile_source_spec "redirects" (frd_source e)) as Hs.
  rewrite kind_status. by destruct (outcome (compile_source _ _)).
Qed.

Lemma compile_vhost_spec fs e :
  match outcome (compile_vhost fs e) with
  | Ok v => v = (λ root, {| vh_host := fvh_host e; vh_root := root |}) <$> fvh_root e
            ∧ ∀ root, fvh_root e = Some root → path_is_dir fs root = true
  | Err _ => ∃ root, fvh_root e = Some root ∧ path_is_dir fs root = false
  | Panic => False
  end.
Proof.
  unfold compile_vhost, get_valid_dirpath. destruct (fvh_root e) as [root|]; [|done].
  rewrite outcome_bind. cbn [outcome lift snd]. destruct (path_exists fs root) eqn:He; simpl.
  - destruct (path_is_dir fs root) eqn:Hd; simpl; naive_solver.
  - exists root. split; [done|]. apply not_true_is_false. intros Hd%path_is_dir_exists. congruence.
Qed.

Lemma compile_vhosts_spec fs es vs :
  Forall2 (λ e v, v = (λ root, {| vh_host := fvh_host e; vh_root := root |}) <$> fvh_root e
                  ∧ ∀ root, fvh_root e = Some root → path_is_dir fs root = true) es vs →
  keep_some vs = omap (λ e, (λ root, {| vh_host := fvh_host e; vh_root := root |}) <$> fvh_root e) es
  ∧ Forall (λ v, path_is_dir fs (vh_root v) = true) (keep_some vs).
Proof.
  unfold keep_some. induction 1 as [|e v es vs [-> Hd] _ [IH1 IH2]];
    [by split; constructor|].
  destruct (fvh_root e) as [root|] eqn:Hr; cbn; rewrite Hr; cbn; [|done].
  split; [by f_equal|]. constructor; [by apply Hd|done].
Qed.

(** C19. The advanced options compile exactly when every pattern does and every virtual
    host's root is a directory; the rules keep their order and contents, redirects
    get status 301 or 302, virtual hosts without a root are left out and the root
    of every remaining one exists. *)
Theorem compile_advanced_spec fs a :
  match outcome (compile_advanced fs a) with
  | Ok adv =>
      option_Forall2 (Forall2 (λ e h, glob_new (fhd_source e) = Some (hdr_source h)
        ∧ hdr_headers h = fhd_headers e)) (fa_headers a) (adv_headers adv)
      ∧ option_Forall2 (Forall2 (λ e r, source_compiles (frw_source e) (rw_source r)
        ∧ rw_destination r = frw_destination e ∧ rw_redirect r = frw_redirect e))
          (fa_rewrites a) (adv_rewrites adv)
      ∧ option_Forall2 (Forall2 (λ e r, source_compiles (frd_source e) (rd_source r)
        ∧ rd_host r = frd_host e ∧ rd_destination r = frd_destination e
        ∧ rd_kind r = redirects_kind_u16 (frd_kind e))) (fa_redirects a) (adv_redirects adv)
      ∧ option_Forall2 (λ es vs,
          vs = omap (λ e, (λ root, {| vh_host := fvh_host e; vh_root := root |}) <$> fvh_root e) es
          ∧ Forall (λ v, path_is_dir fs (vh_root v) = true) vs)
          (fa_virtual_hosts a) (adv_virtual_hosts adv)
  | Err _ =>
      (∃ l e, fa_headers a = Some l ∧ e ∈ l ∧ glob_new (fhd_source e) = None)
      ∨ (∃ l e, fa_rewrites a = Some l ∧ e ∈ l ∧ ∀ r, ¬ source_compiles (frw_source e) r)
      ∨ (∃ l e, fa_redirects a = Some l ∧ e ∈ l ∧ ∀ r, ¬ source_compiles (frd_source e) r)
      ∨ (∃ l e root, fa_virtual_hosts a = Some l ∧ e ∈ l ∧ fvh_root e = Some root
         ∧ path_is_dir fs root = false)
  | Panic => False
  end.
Proof.
  unfold compile_advanced. rewrite outcome_bind.
  pose proof (compile_entries_spec _ _ _ (fa_headers a) compile_header_spec) as H1'.
  destruct (outcome (compile_entries compile_header _)) as [hs| |]; cbn [rbind]; rewrite ?outcome_bind; [|by left|done].
  pose proof (compile_entries_spec _ _ _ (fa_rewrites a) compile_rewrite_spec) as H2'.
  destruct (outcome (compile_entries compile_rewrite _)) as [ws| |]; cbn [rbind]; rewrite ?outcome_bind; [|by right; left|done].
  pose proof (compile_entries_spec _ _ _ (fa_redirects a) compile_redirect_spec) as H3'.
  destruct (outcome (compile_entries compile_redirect _)) as [rs| |]; cbn [rbind]; rewrite ?outcome_bind; [|by do 2 right; left|done].
  pose proof (compile_entries_spec _ _ _ (fa_virtual_hosts a) (compile_vhost_spec fs)) as H4'.
  destruct (outcome (compile_entries (compile_vhost fs) _)) as [vs| |]; cbn [rbind]; rewrite ?outcome_bind; [|naive_solver|done].
  split; [done|]. split; [done|]. split; [done|]. cbn. destruct H4' as [l l' Hl|]; simpl; constructor.
  by apply compile_vhosts_spec.
Qed.

(** The roots of the compiled virtual hosts exist. *)
Lemma compile_advanced_vhosts fs a adv vs :
  outcome (compile_advanced fs a) = Ok adv → adv_virtual_hosts adv = Some vs →
  Forall (λ v, path_is_dir fs (vh_root v) = true) vs.
Proof.
  unfold compile_advanced. intros Hc Hv. do 3 (apply lbind_Ok in Hc as (? & _ & Hc)).
  apply lbind_Ok in Hc as (out & Ho & Hc).
  pose proof (compile_entries_spec _ _ _ (fa_virtual_hosts a) (compile_vhost_spec fs)) as Hs. rewrite Ho in Hs.
  injection Hc as <-. cbn in Hv. destruct Hs as [l l' Hl|]; simplify_eq/=.
  by apply (compile_vhosts_spec fs l l').
Qed.

(** What reading the settings establishes. *)
Lemma read_settings_Ok fs log_init opts s :
  outcome (read_settings fs log_init opts) = Ok s →
  ∃ file lines, read_file_settings fs (g_config_file opts) = Ok (file, lines)
    ∧ match file with
      | Some (settings, config_file) =>
          file_general_options settings config_file opts = Ok (s_general s)
          ∧ outcome (file_advanced_options fs settings) = Ok (s_advanced s)
      | None => s = settings_new opts None
      end.
Proof.
  unfold read_settings. intros ([file lines] & Hf & Hr)%lbind_Ok. exists file, lines. split; [exact Hf|].
  cbn [fst] in Hr. destruct file as [[settings cf]|].
  - apply lbind_Ok in Hr as (general & Hg & Hr). apply lbind_Ok in Hr as (_ & _ & Hr).
    apply lbind_Ok in Hr as (_ & _ & Hr). apply lbind_Ok in Hr as (adv & Ha & Hr). injection Hr as <-. done.
  - apply lbind_Ok in Hr as (_ & _ & Hr). by injection Hr as <-.
Qed.

Lemma read_settings_vhosts fs log_init opts s adv vs :
  outcome (read_settings fs log_init opts) = Ok s → s_advanced s = Some adv →
  adv_virtual_hosts adv = Some vs → Forall (λ v, path_is_dir fs (vh_root v) = true) vs.
Proof.
  intros (file & lines & _ & Hr)%read_settings_Ok Ha Hv. destruct file as [[settings cf]|]; [|by subst s].
  destruct Hr as [_ Hr]. unfold file_advanced_options in Hr. rewrite Ha in Hr.
  destruct (file_advanced settings) as [fa|]; [|done]. apply lbind_Ok in Hr as (a & Hc & Hr).
  injection Hr as ->. by eapply compile_advanced_vhosts.
Qed.

(** HTTP/2 brings the security headers: settings with HTTP/2 on and the security
    headers off come from a file that turns them off, or from a command line that
    has the former on and the latter off (the parser's default follows
    [--http2], so they were turned off explicitly there). *)
Theorem http2_enables_security_headers fs log_init opts s :
  outcome (read_settings fs log_init opts) = Ok s →
  g_http2 (s_general s) = true → g_security_headers (s_general s) = false →
  (∃ settings path lines f, read_file_settings fs (g_config_file opts) = Ok (Some (settings, path), lines)
     ∧ file_general settings = Some f ∧ f_security_headers f = Some false)
  ∨ g_http2 opts = true ∧ g_security_headers opts = false.
Proof.
  intros (file & lines & Hf & Hr)%read_settings_Ok Hh Hs. destruct file as [[settings cf]|]; [|subst s; by right].
  destruct Hr as [Hg _]. unfold file_general_options in Hg.
  destruct (file_general settings) as [f|] eqn:Hfg; [|injection Hg as Heq; rewrite <- Heq in Hh, Hs; by right].
  left. exists settings, cf, lines, f. split; [done|]. split; [done|].
  unfold merge_general in Hg. apply rbind_Ok in Hg as (st & _ & Hg). injection Hg as Heq.
  rewrite <- Heq in Hh, Hs. cbn in Hh, Hs. destruct (f_security_headers f) as [v|]; [by subst|]. by rewrite Hh in Hs.
Qed.

End Read.

(** ** An instance and witnesses

    Patterns are literal, and two configuration files are known. *)

(** The defaults of the command line, with a configuration file and a root. *)
Definition sample_general (config_file root : string) : General := {|
  g_version := false; g_host := "::"; g_port := 80; g_root := root; g_log_level := "error";
  g_config_file := config_file; g_cache_control_headers := true; g_compression := true;
  g_compression_level := LevelDefault; g_compression_static := false;
  g_page404 := "./404.html"; g_page50x := "./50x.html"; g_http2 := false;
  g_http2_tls_cert := None; g_http2_tls_key := None; g_https_redirect := false;
  g_https_redirect_host := "localhost"; g_https_redirect_from_port := 80;
  g_https_redirect_from_hosts := "localhost"; g_security_headers := false;
  g_cors_allow_origins := ""; g_cors_allow_headers := "origin, content-type, authorization";
  g_cors_expose_headers := "origin, content-type"; g_directory_listing := false;
  g_directory_listing_order := 6; g_directory_listing_format := Html; g_basic_auth := "";
  g_fd := None; g_threads_multiplier := 1; g_max_blocking_threads := 512; g_grace_period := 0;
  g_page_fallback := ""; g_log_remote_address := false; g_log_forwarded_for := false;
  g_trusted_proxies := []; g_redirect_trailing_slash := true; g_ignore_hidden_files := false;
  g_disable_symlinks := false; g_index_files := "index.html"; g_health := false;
  g_experimental_metrics := false; g_maintenance_mode := false;
  g_maintenance_mode_status := 503; g_maintenance_mode_file := ""; g_commands := None
|}.

(** A file that turns on HTTP/2 and turns the security headers off. *)
Definition sample_file_general : FileGeneral := {|
  f_host := None; f_port := None; f_root := None; f_log_level := None;
  f_cache_control_headers := None; f_compression := None; f_compression_level := None;
  f_compression_static := None; f_page404 := None; f_page50x := None; f_http2 := Some true;
  f_http2_tls_cert := None; f_http2_tls_key := None; f_https_redirect := None;
  f_https_redirect_host := None; f_https_redirect_from_port := None;
  f_https_redirect_from_hosts := None; f_security_headers := Some false;
  f_cors_allow_origins := None; f_cors_allow_headers := None; f_cors_expose_headers := None;
  f_directory_listing := None; f_directory_listing_order := None;
  f_directory_listing_format := None; f_basic_auth := None; f_fd := None;
  f_threads_multiplier := None; f_max_blocking_threads := None; f_grace_period := None;
  f_page_fallback := None; f_log_remote_address := None; f_log_forwarded_for := None;
  f_trusted_proxies := None; f_redirect_trailing_slash := None; f_ignore_hidden_files := None;
  f_disable_symlinks := None; f_index_files := None; f_health := None;
  f_experimental_metrics := None; f_maintenance_mode := None;
  f_maintenance_mode_status := None; f_maintenance_mode_file := None; f_memory_cache := None
|}.

(** A virtual host, one without a root, and a rewrite. *)
Definition sample_vhosts : FileAdvanced := {|
  fa_headers := None; fa_redirects := None;
  fa_rewrites := Some [{| frw_source := "/old"; frw_destination := "/a.txt"; frw_redirect := None |}];
  fa_virtual_hosts := Some [{| fvh_host := "a.com"; fvh_root := Some "/a" |};
                            {| fvh_host := "b.com"; fvh_root := None |}];
  fa_memory_cache := None
|}.

#[export] Instance config_sample : ConfigC := {|
  TomlValue := string;
  toml_parse := Some;
  toml_settings := λ s,
    if str_eqb s "http2" then Some ({| file_general := Some sample_file_general; file_advanced := None |}, [])
    else if str_eqb s "vhosts" then Some ({| file_general := None; file_advanced := Some sample_vhosts |}, [])
    else None;
  glob_new := Some;
  glob_regex := Some;
  regex_new := Some;
  lowercase := λ s, s
|}.

(** The groups of the expression of a glob such as [/img/{a,b}/**] capture. *)
Example capture_pattern_example :
  capture_pattern "(?-u)^/img/(?:a|b)/(?:.*)$" = "^/img/(a|b)/(.*)$".
Proof. reflexivity. Qed.

Lemma http2_security_witness :
  let fs := table_fs [file_node "/etc/sws.toml" "http2" 5000000000] in
  let cli := sample_general "/etc/sws.toml" "/srv" in
  ∃ s, outcome (read_settings fs true cli) = Ok s
    ∧ ((∃ settings path lines f, read_file_settings fs (g_config_file cli) = Ok (Some (settings, path), lines)
        ∧ file_general settings = Some f ∧ f_security_headers f = Some false)
       ∨ g_http2 cli = true ∧ g_security_headers cli = false).
Proof.
  intros fs cli. eexists. split; [reflexivity|].
  eapply (http2_enables_security_headers fs true cli); reflexivity.
Defined.
