(* ===== verification/Cli.v ===== *)
(** * Command-line options: [settings/cli.rs]

    The arguments of [cli::General] as the [#[arg]] attributes declare them, and
    the value of type [General] that is read from a command line and an
    environment.  The [clap] crate is the class [ClapC]: it matches the command
    line against the arguments and gives the raw values of each of them, by the
    documented precedence (command line, environment, conditional default,
    default), checks the conditional requirements and the conflicts, and parses
    the values of the primitive types.  The parsers the program defines itself
    are definitions here. *)

From S2P Require Import Prelude RustStr IpAddr RustPath Fs FsStream ContentCoding Http HttpInstances Opts.
From S2P Require Import Settings.

(** ** Arguments *)

(** One [#[arg(...)]] attribute.  [a_default_if] is [default_value_if(other, value,
    default)], [a_required_if_eq] and [a_requires_if] are pairs of an argument and
    a value, or of a value and an argument. *)
Record Arg : Type := {
  a_id : string;
  a_long : string;
  a_short : option ascii;
  a_env : option string;
  a_default : option string;
  a_default_missing : option string;
  a_default_if : option (string * string * string);
  a_value_delimiter : option ascii;
  a_conflicts : list string;
  a_required_if_eq : option (string * string);
  a_requires_if : option (string * string)
}.

(** An argument with a value and a default. *)
Definition opt_arg (id long : string) (short : option ascii) (env default : string) : Arg := {|
  a_id := id; a_long := long; a_short := short; a_env := Some env; a_default := Some default;
  a_default_missing := None; a_default_if := None; a_value_delimiter := None; a_conflicts := [];
  a_required_if_eq := None; a_requires_if := None
|}.

(** A boolean argument whose value is optional and [true] when it is missing:
    [default_missing_value("true"), num_args(0..=1), action = Set]. *)
Definition flag_arg (id long : string) (short : option ascii) (env default : string) : Arg := {|
  a_id := id; a_long := long; a_short := short; a_env := Some env; a_default := Some default;
  a_default_missing := Some "true"; a_default_if := None; a_value_delimiter := None;
  a_conflicts := []; a_required_if_eq := None; a_requires_if := None
|}.

(** An argument without a default. *)
Definition bare_arg (id long : string) (short : option ascii) (env : string) : Arg := {|
  a_id := id; a_long := long; a_short := short; a_env := Some env; a_default := None;
  a_default_missing := None; a_default_if := None; a_value_delimiter := None; a_conflicts := [];
  a_required_if_eq := None; a_requires_if := None
|}.

(** The other attributes. *)
Definition with_conflicts (l : list string) (a : Arg) : Arg := {|
  a_id := a_id a; a_long := a_long a; a_short := a_short a; a_env := a_env a;
  a_default := a_default a; a_default_missing := a_default_missing a;
  a_default_if := a_default_if a; a_value_delimiter := a_value_delimiter a; a_conflicts := l;
  a_required_if_eq := a_required_if_eq a; a_requires_if := a_requires_if a
|}.

Definition required_if_eq (other value : string) (a : Arg) : Arg := {|
  a_id := a_id a; a_long := a_long a; a_short := a_short a; a_env := a_env a;
  a_default := a_default a; a_default_missing := a_default_missing a;
  a_default_if := a_default_if a; a_value_delimiter := a_value_delimiter a;
  a_conflicts := a_conflicts a; a_required_if_eq := Some (other, value);
  a_requires_if := a_requires_if a
|}.

Definition requires_if (value other : string) (a : Arg) : Arg := {|
  a_id := a_id a; a_long := a_long a; a_short := a_short a; a_env := a_env a;
  a_default := a_default a; a_default_missing := a_default_missing a;
  a_default_if := a_default_if a; a_value_delimiter := a_value_delimiter a;
  a_conflicts := a_conflicts a; a_required_if_eq := a_required_if_eq a;
  a_requires_if := Some (value, other)
|}.

Definition default_value_if (other value default : string) (a : Arg) : Arg := {|
  a_id := a_id a; a_long := a_long a; a_short := a_short a; a_env := a_env a;
  a_default := a_default a; a_default_missing := a_default_missing a;
  a_default_if := Some (other, value, default); a_value_delimiter := a_value_delimiter a;
  a_conflicts := a_conflicts a; a_required_if_eq := a_required_if_eq a;
  a_requires_if := a_requires_if a
|}.

Definition value_delimiter (c : ascii) (a : Arg) : Arg := {|
  a_id := a_id a; a_long := a_long a; a_short := a_short a; a_env := a_env a;
  a_default := a_default a; a_default_missing := a_default_missing a;
  a_default_if := a_default_if a; a_value_delimiter := Some c;
  a_conflicts := a_conflicts a; a_required_if_eq := a_required_if_eq a;
  a_requires_if := a_requires_if a
|}.

(** Address, threads, paths and logging. *)
Definition args_server : list Arg := [
  opt_arg "host" "host" (Some "a"%char) "SERVER_HOST" "::";
  opt_arg "port" "port" (Some "p"%char) "SERVER_PORT" "80";
  with_conflicts ["host"; "port"; "https_redirect"]
    (bare_arg "fd" "fd" (Some "f"%char) "SERVER_LISTEN_FD");
  opt_arg "threads_multiplier" "threads-multiplier" (Some "n"%char) "SERVER_THREADS_MULTIPLIER" "1";
  opt_arg "max_blocking_threads" "max-blocking-threads" (Some "b"%char)
    "SERVER_MAX_BLOCKING_THREADS" "512";
  opt_arg "root" "root" (Some "d"%char) "SERVER_ROOT" "./public";
  opt_arg "page50x" "page50x" None "SERVER_ERROR_PAGE_50X" "./50x.html";
  opt_arg "page404" "page404" None "SERVER_ERROR_PAGE_404" "./404.html";
  opt_arg "page_fallback" "page-fallback" None "SERVER_FALLBACK_PAGE" "";
  opt_arg "log_level" "log-level" (Some "g"%char) "SERVER_LOG_LEVEL" "error"
].

(** CORS. *)
Definition args_cors : list Arg := [
  opt_arg "cors_allow_origins" "cors-allow-origins" (Some "c"%char) "SERVER_CORS_ALLOW_ORIGINS" "";
  opt_arg "cors_allow_headers" "cors-allow-headers" (Some "j"%char) "SERVER_CORS_ALLOW_HEADERS"
    "origin, content-type, authorization";
  opt_arg "cors_expose_headers" "cors-expose-headers" None "SERVER_CORS_EXPOSE_HEADERS"
    "origin, content-type"
].

(** HTTP/2 with TLS. *)
Definition args_http2 : list Arg := [
  flag_arg "http2" "http2" (Some "t"%char) "SERVER_HTTP2_TLS" "false";
  required_if_eq "http2" "true"
    (bare_arg "http2_tls_cert" "http2-tls-cert" None "SERVER_HTTP2_TLS_CERT");
  required_if_eq "http2" "true"
    (bare_arg "http2_tls_key" "http2-tls-key" None "SERVER_HTTP2_TLS_KEY");
  requires_if "true" "http2"
    (flag_arg "https_redirect" "https-redirect" None "SERVER_HTTPS_REDIRECT" "false");
  requires_if "true" "https_redirect"
    (opt_arg "https_redirect_host" "https-redirect-host" None "SERVER_HTTPS_REDIRECT_HOST" "localhost");
  requires_if "true" "https_redirect"
    (opt_arg "https_redirect_from_port" "https-redirect-from-port" None
       "SERVER_HTTPS_REDIRECT_FROM_PORT" "80");
  requires_if "true" "https_redirect"
    (opt_arg "https_redirect_from_hosts" "https-redirect-from-hosts" None
       "SERVER_HTTPS_REDIRECT_FROM_HOSTS" "localhost")
].

(** Index files, compression and directory listing. *)
Definition args_files : list Arg := [
  opt_arg "index_files" "index-files" None "SERVER_INDEX_FILES" "index.html";
  flag_arg "compression" "compression" (Some "x"%char) "SERVER_COMPRESSION" "true";
  opt_arg "compression_level" "compression-level" None "SERVER_COMPRESSION_LEVEL" "default";
  flag_arg "compression_static" "compression-static" None "SERVER_COMPRESSION_STATIC" "false";
  flag_arg "directory_listing" "directory-listing" (Some "z"%char) "SERVER_DIRECTORY_LISTING" "false";
  requires_if "true" "directory_listing"
    (opt_arg "directory_listing_order" "directory-listing-order" None
       "SERVER_DIRECTORY_LISTING_ORDER" "6");
  requires_if "true" "directory_listing"
    (opt_arg "directory_listing_format" "directory-listing-format" None
       "SERVER_DIRECTORY_LISTING_FORMAT" "html")
].

(** Headers, authentication, shutdown, configuration file and log. *)
Definition args_headers : list Arg := [
  default_value_if "http2" "true" "true"
    (flag_arg "security_headers" "security-headers" None "SERVER_SECURITY_HEADERS" "false");
  flag_arg "cache_control_headers" "cache-control-headers" (Some "e"%char)
    "SERVER_CACHE_CONTROL_HEADERS" "true";
  opt_arg "basic_auth" "basic-auth" None "SERVER_BASIC_AUTH" "";
  opt_arg "grace_period" "grace-period" (Some "q"%char) "SERVER_GRACE_PERIOD" "0";
  opt_arg "config_file" "config-file" (Some "w"%char) "SERVER_CONFIG_FILE" "./config.toml";
  flag_arg "log_remote_address" "log-remote-address" None "SERVER_LOG_REMOTE_ADDRESS" "false";
  flag_arg "log_forwarded_for" "log-forwarded-for" None "SERVER_LOG_FORWARDED_FOR" "false";
  value_delimiter ","%char
    (bare_arg "trusted_proxies" "trusted-proxies" None "SERVER_TRUSTED_PROXIES");
  flag_arg "redirect_trailing_slash" "redirect-trailing-slash" None
    "SERVER_REDIRECT_TRAILING_SLASH" "true"
].

(** Hidden files, symbolic links, endpoints, maintenance mode and version. *)
Definition args_modes : list Arg := [
  flag_arg "ignore_hidden_files" "ignore-hidden-files" None "SERVER_IGNORE_HIDDEN_FILES" "false";
  flag_arg "disable_symlinks" "disable-symlinks" None "SERVER_DISABLE_SYMLINKS" "false";
  flag_arg "health" "health" None "SERVER_HEALTH" "false";
  flag_arg "experimental_metrics" "experimental-metrics" None "SERVER_EXPERIMENTAL_METRICS" "false";
  flag_arg "maintenance_mode" "maintenance-mode" None "SERVER_MAINTENANCE_MODE" "false";
  requires_if "true" "maintenance_mode"
    (opt_arg "maintenance_mode_status" "maintenance-mode-status" None
       "SERVER_MAINTENANCE_MODE_STATUS" "503");
  requires_if "true" "maintenance_mode"
    (opt_arg "maintenance_mode_file" "maintenance-mode-file" None "SERVER_MAINTENANCE_MODE_FILE" "");
  {| a_id := "version"; a_long := "version"; a_short := Some "V"%char; a_env := None;
     a_default := Some "false"; a_default_missing := Some "true"; a_default_if := None;
     a_value_delimiter := None; a_conflicts := []; a_required_if_eq := None; a_requires_if := None |}
].

Definition general_args : list Arg :=
  args_server ++ args_cors ++ args_http2 ++ args_files ++ args_headers ++ args_modes.

(** ** The [clap] crate *)

Definition Env : Type := string → option string.

Definition env_of (env : Env) (a : Arg) : option string := a_env a ≫= env.

Definition delimited (a : Arg) (v : string) : list string :=
  match a_value_delimiter a with
  | Some c => split c v
  | None => [v]
  end.

(** [clap_matches args argv env] matches a command line; [m_cli] is what the
    command line says of an argument ([Some []]: it is there without a value),
    [m_values] its raw values once the environment and the defaults are
    considered, [m_subcommand] the [generate] subcommand. *)
Class ClapC : Type := {
  Matches : Type;
  clap_matches : list Arg → list string → Env → Result Matches Error;
  m_cli : Matches → string → option (list string);
  m_values : Matches → string → list string;
  m_subcommand : Matches → option (bool * bool * string);
  m_values_cli : ∀ args argv env m a v vs,
    clap_matches args argv env = Ok m → a ∈ args → m_cli m (a_id a) = Some (v :: vs) →
    m_values m (a_id a) = v :: vs;
  m_values_missing : ∀ args argv env m a d,
    clap_matches args argv env = Ok m → a ∈ args → m_cli m (a_id a) = Some [] →
    a_default_missing a = Some d → m_values m (a_id a) = [d];
  m_values_env : ∀ args argv env m a v,
    clap_matches args argv env = Ok m → a ∈ args → m_cli m (a_id a) = None →
    env_of env a = Some v → m_values m (a_id a) = delimited a v;
  m_values_default_if : ∀ args argv env m a other v d,
    clap_matches args argv env = Ok m → a ∈ args → m_cli m (a_id a) = None →
    env_of env a = None → a_default_if a = Some (a_id other, v, d) →
    other ∈ args → a_default_if other = None → v ∈ m_values m (a_id other) →
    m_values m (a_id a) = [d];
  m_values_default : ∀ args argv env m a,
    clap_matches args argv env = Ok m → a ∈ args → m_cli m (a_id a) = None →
    env_of env a = None →
    (∀ other v d, a_default_if a = Some (a_id other, v, d) → other ∈ args → v ∉ m_values m (a_id other)) →
    m_values m (a_id a) = match a_default a with Some d => [d] | None => [] end;
  m_required : ∀ args argv env m a other v,
    clap_matches args argv env = Ok m → a ∈ args → a_required_if_eq a = Some (a_id other, v) →
    other ∈ args → a_default_if other = None → a_default other ≠ Some v →
    v ∈ m_values m (a_id other) → m_values m (a_id a) ≠ [];
  m_conflict : ∀ args argv env m a b,
    clap_matches args argv env = Ok m → a ∈ args → b ∈ args → a_id b ∈ a_conflicts a →
    m_cli m (a_id a) ≠ None ∨ env_of env a ≠ None →
    m_cli m (a_id b) = None ∧ env_of env b = None;
  (* A program name alone matches, whatever the environment, when no variable of an argument is set. *)
  clap_matches_empty : ∀ (args : list Arg) prog env,
    NoDup (a_id <$> args) → (∀ a, a ∈ args → env_of env a = None) →
    ∃ m, clap_matches args [prog] env = Ok m ∧ (∀ i : string, m_cli m i = None) ∧ m_subcommand m = None;
  (* Value parsers of the primitive types. *)
  parse_bool : string → option bool;
  parse_bool_spec : ∀ s (b : bool), parse_bool s = Some b ↔ s = if b then "true" else "false";
  parse_num : Z → string → option Z;
  parse_num_dec : ∀ max n, (0 ≤ n ≤ max)%Z → (n < 65536)%Z → parse_num max (fmt_dec n) = Some n;
  parse_num_range : ∀ max s n, parse_num max s = Some n → (0 ≤ n ≤ max)%Z;
  parse_path : string → option string;
  parse_path_spec : ∀ s, parse_path s = if is_empty s then None else Some s;
  eq_ignore_case : string → string → bool;
  eq_ignore_case_refl : ∀ s, eq_ignore_case s s = true
}.

(** ** Value parsers of the program *)

(** [IntErrorKind], as [ParseIntError] prints it; digits are examined from the
    left and an invalid one is reported before an overflow at the same place. *)
Fixpoint int_error_digits (max acc : Z) (s : string) : string :=
  match s with
  | EmptyString => ""
  | String c s' =>
      match to_digit 10 c with
      | None => "invalid digit found in string"
      | Some d =>
          if (acc * 10 + d <=? max)%Z then int_error_digits max (acc * 10 + d) s'
          else "number too large to fit in target type"
      end
  end.

Definition int_error (max : Z) (s : string) : string :=
  if is_empty s then "cannot parse integer from empty string"
  else match strip_prefix "+" s with
       | Some EmptyString => "invalid digit found in string"
       | Some r => int_error_digits max 0 r
       | None => int_error_digits max 0 s
       end.

Definition value_parser_pathbuf (s : string) : Result string Error := Ok s.

Section Parse.
Context `{!HttpC, !ClapC}.

Definition value_parser_status_code (s : string) : Result StatusCode Error :=
  match parse_uint u16_max s with
  | Some code => ok_or (status_from_u16 code) "invalid status code"
  | None => Err (int_error u16_max s)
  end.

(** The value of a field, by its type. *)
Definition get_string (m : Matches) (id : string) : Result string Error :=
  match m_values m id with
  | v :: _ => Ok v
  | [] => Err ("missing argument: " +:+ id)
  end.

Definition get_with {A} (parse : string → option A) (m : Matches) (id : string) : Result A Error :=
  let? v := get_string m id in
  ok_or (parse v) ("invalid value for argument: " +:+ id).

Definition get_bool : Matches → string → Result bool Error := get_with parse_bool.
Definition get_u8 : Matches → string → Result Z Error := get_with (parse_num u8_max).
Definition get_u16 : Matches → string → Result Z Error := get_with (parse_num u16_max).
Definition get_usize : Matches → string → Result Z Error := get_with (parse_num u64_max).
Definition get_path : Matches → string → Result string Error := get_with parse_path.

(** A field of type [Option<T>]. *)
Definition get_option {A} (parse : string → option A) (m : Matches) (id : string)
    : Result (option A) Error :=
  match m_values m id with
  | [] => Ok None
  | v :: _ => let? x := ok_or (parse v) ("invalid value for argument: " +:+ id) in Ok (Some x)
  end.

(** [#[derive(ValueEnum)]]: the names of the variants. *)
Definition parse_compression_level (s : string) : option CompressionLevel :=
  if str_eqb s "fastest" then Some LevelFastest
  else if str_eqb s "best" then Some LevelBest
  else if str_eqb s "default" then Some LevelDefault
  else None.

Definition parse_dir_list_fmt (s : string) : option DirListFmt :=
  if eq_ignore_case s "html" then Some Html
  else if eq_ignore_case s "json" then Some Json
  else None.

Definition get_ips (m : Matches) (id : string) : Result (list IpAddr) Error :=
  try_map (λ s, ok_or (ip_parse s) ("invalid value for argument: " +:+ id)) (m_values m id).

(** The fields of [General], read by their identifiers. *)
Definition general_of_matches (m : Matches) : Result General Error :=
  let? host := get_string m "host" in
  let? port := get_u16 m "port" in
  let? fd := get_option (parse_num u64_max) m "fd" in
  let? threads_multiplier := get_usize m "threads_multiplier" in
  let? max_blocking_threads := get_usize m "max_blocking_threads" in
  let? root := get_path m "root" in
  let? page50x := get_path m "page50x" in
  let? page404 := get_path m "page404" in
  let? page_fallback := rbind (get_string m "page_fallback") value_parser_pathbuf in
  let? log_level := get_string m "log_level" in
  let? cors_allow_origins := get_string m "cors_allow_origins" in
  let? cors_allow_headers := get_string m "cors_allow_headers" in
  let? cors_expose_headers := get_string m "cors_expose_headers" in
  let? http2 := get_bool m "http2" in
  let? http2_tls_cert := get_option parse_path m "http2_tls_cert" in
  let? http2_tls_key := get_option parse_path m "http2_tls_key" in
  let? https_redirect := get_bool m "https_redirect" in
  let? https_redirect_host := get_string m "https_redirect_host" in
  let? https_redirect_from_port := get_u16 m "https_redirect_from_port" in
  let? https_redirect_from_hosts := get_string m "https_redirect_from_hosts" in
  let? index_files := get_string m "index_files" in
  let? compression := get_bool m "compression" in
  let? compression_level := get_with parse_compression_level m "compression_level" in
  let? compression_static := get_bool m "compression_static" in
  let? directory_listing := get_bool m "directory_listing" in
  let? directory_listing_order := get_u8 m "directory_listing_order" in
  let? directory_listing_format := get_with parse_dir_list_fmt m "directory_listing_format" in
  let? security_headers := get_bool m "security_headers" in
  let? cache_control_headers := get_bool m "cache_control_headers" in
  let? basic_auth := get_string m "basic_auth" in
  let? grace_period := get_u8 m "grace_period" in
  let? config_file := rbind (get_string m "config_file") value_parser_pathbuf in
  let? log_remote_address := get_bool m "log_remote_address" in
  let? log_forwarded_for := get_bool m "log_forwarded_for" in
  let? trusted_proxies := get_ips m "trusted_proxies" in
  let? redirect_trailing_slash := get_bool m "redirect_trailing_slash" in
  let? ignore_hidden_files := get_bool m "ignore_hidden_files" in
  let? disable_symlinks := get_bool m "disable_symlinks" in
  let? health := get_bool m "health" in
  let? experimental_metrics := get_bool m "experimental_metrics" in
  let? maintenance_mode := get_bool m "maintenance_mode" in
  let? maintenance_mode_status :=
    rbind (get_string m "maintenance_mode_status") value_parser_status_code in
  let? maintenance_mode_file :=
    rbind (get_string m "maintenance_mode_file") value_parser_pathbuf in
  let? version := get_bool m "version" in
  Ok {|
    g_version := version; g_host := host; g_port := port; g_root := root; g_log_level := log_level;
    g_config_file := config_file; g_cache_control_headers := cache_control_headers;
    g_compression := compression; g_compression_level := compression_level;
    g_compression_static := compression_static; g_page404 := page404; g_page50x := page50x;
    g_http2 := http2; g_http2_tls_cert := http2_tls_cert; g_http2_tls_key := http2_tls_key;
    g_https_redirect := https_redirect; g_https_redirect_host := https_redirect_host;
    g_https_redirect_from_port := https_redirect_from_port;
    g_https_redirect_from_hosts := https_redirect_from_hosts;
    g_security_headers := security_headers; g_cors_allow_origins := cors_allow_origins;
    g_cors_allow_headers := cors_allow_headers; g_cors_expose_headers := cors_expose_headers;
    g_directory_listing := directory_listing; g_directory_listing_order := directory_listing_order;
    g_directory_listing_format := directory_listing_format; g_basic_auth := basic_auth;
    g_fd := fd; g_threads_multiplier := threads_multiplier;
    g_max_blocking_threads := max_blocking_threads; g_grace_period := grace_period;
    g_page_fallback := page_fallback; g_log_remote_address := log_remote_address;
    g_log_forwarded_for := log_forwarded_for; g_trusted_proxies := trusted_proxies;
    g_redirect_trailing_slash := redirect_trailing_slash;
    g_ignore_hidden_files := ignore_hidden_files; g_disable_symlinks := disable_symlinks;
    g_index_files := index_files; g_health := health; g_experimental_metrics := experimental_metrics;
    g_maintenance_mode := maintenance_mode; g_maintenance_mode_status := maintenance_mode_status;
    g_maintenance_mode_file := maintenance_mode_file;
    g_commands :=
      match m_subcommand m with
      | Some (completions, man_pages, out_dir) => Some (Generate completions man_pages out_dir)
      | None => None
      end
  |}.

(** [General::parse()]; [clap] prints an error and ends the process. *)
Definition parse_general (argv : list string) (env : Env) : Result General Error :=
  let? m := clap_matches general_args argv env in
  general_of_matches m.

(** ** Lemmas *)

Lemma parse_bool_true : parse_bool "true" = Some true.
Proof. by apply (parse_bool_spec "true" true). Qed.

Lemma parse_bool_false : parse_bool "false" = Some false.
Proof. by apply (parse_bool_spec "false" false). Qed.

Lemma get_bool_true m id : get_bool m id = Ok true → "true" ∈ m_values m id.
Proof.
  unfold get_bool, get_with, get_string. destruct (m_values m id) as [|v vs]; [done|]. simpl.
  destruct (parse_bool v) as [b|] eqn:E; [|done]. intros [= ->].
  apply parse_bool_spec in E as ->. left.
Qed.

(** Membership of a literal argument in the table. *)
Ltac in_args := apply list_elem_of_In; cbn; tauto.

Let http2_arg : Arg :=
  flag_arg "http2" "http2" (Some "t"%char) "SERVER_HTTP2_TLS" "false".

Lemma http2_arg_in : http2_arg ∈ general_args.
Proof. in_args. Qed.

Let security_arg : Arg :=
  default_value_if "http2" "true" "true"
    (flag_arg "security_headers" "security-headers" None "SERVER_SECURITY_HEADERS" "false").

Lemma security_arg_in : security_arg ∈ general_args.
Proof. in_args. Qed.

Let fd_arg : Arg :=
  with_conflicts ["host"; "port"; "https_redirect"]
    (bare_arg "fd" "fd" (Some "f"%char) "SERVER_LISTEN_FD").

Lemma fd_arg_in : fd_arg ∈ general_args.
Proof. in_args. Qed.

(** With nothing on the command line and nothing in the environment every
    argument has its default. *)
Lemma default_values argv env m :
  clap_matches general_args argv env = Ok m → (∀ i, m_cli m i = None) →
  (∀ a, a ∈ general_args → env_of env a = None) →
  Forall (λ a, m_values m (a_id a) = match a_default a with Some d => [d] | None => [] end)
    general_args.
Proof.
  intros Hm Hcli Henv.
  assert (∀ a, a ∈ general_args → a_default_if a = None →
            m_values m (a_id a) = match a_default a with Some d => [d] | None => [] end) as Hplain.
  { intros a Ha Hif. eapply m_values_default; eauto. intros ???. by rewrite Hif. }
  apply Forall_forall. intros a Ha. destruct (a_default_if a) as [[[o v] d]|] eqn:Hif; [|by apply Hplain].
  eapply m_values_default; eauto. intros other v' d' Hif' _. rewrite Hif in Hif'. simplify_eq.
  assert (a_id other = "http2" ∧ v' = "true") as [-> ->].
  { assert (Forall (λ a, ∀ x, a_default_if a = Some x → x = ("http2", "true", "true")) general_args) as Hall
      by (repeat constructor; cbn; intros; by simplify_eq).
    pose proof (proj1 (Forall_forall _ _) Hall a Ha _ Hif). by simplify_eq. }
  pose proof (Hplain _ http2_arg_in eq_refl) as E. cbn in E. rewrite E. by rewrite list_elem_of_singleton.
Qed.

(** The values of the defaults, through [clap]'s parsers. *)
Lemma parse_num_lit max n s :
  s = fmt_dec n → (0 ≤ n ≤ max)%Z → (n < 65536)%Z → parse_num max s = Some n.
Proof. intros ->. apply parse_num_dec. Qed.

Lemma parse_path_nonempty c s : parse_path (String c s) = Some (String c s).
Proof. by rewrite parse_path_spec. Qed.

Lemma default_status : value_parser_status_code "503" = Ok 503%Z.
Proof.
  unfold value_parser_status_code. replace (parse_uint u16_max "503") with (Some 503%Z) by done.
  simpl. by rewrite (proj2 (status_from_u16_spec 503 503)).
Qed.

(** The fields of a configuration that was read are the values of the arguments. *)
Lemma general_of_matches_Ok m g :
  general_of_matches m = Ok g →
  get_string m "host" = Ok (g_host g) ∧ get_u16 m "port" = Ok (g_port g)
  ∧ get_option (parse_num u64_max) m "fd" = Ok (g_fd g)
  ∧ get_path m "root" = Ok (g_root g) ∧ get_bool m "http2" = Ok (g_http2 g)
  ∧ get_option parse_path m "http2_tls_cert" = Ok (g_http2_tls_cert g)
  ∧ get_option parse_path m "http2_tls_key" = Ok (g_http2_tls_key g)
  ∧ get_bool m "https_redirect" = Ok (g_https_redirect g)
  ∧ get_u16 m "https_redirect_from_port" = Ok (g_https_redirect_from_port g)
  ∧ get_u8 m "directory_listing_order" = Ok (g_directory_listing_order g)
  ∧ get_bool m "security_headers" = Ok (g_security_headers g)
  ∧ get_u8 m "grace_period" = Ok (g_grace_period g)
  ∧ get_ips m "trusted_proxies" = Ok (g_trusted_proxies g)
  ∧ rbind (get_string m "maintenance_mode_status") value_parser_status_code
    = Ok (g_maintenance_mode_status g).
Proof.
  intros H'. unfold general_of_matches in H'.
  repeat match type of H' with rbind _ _ = Ok _ => apply rbind_Ok in H' as (? & ? & H') end.
  injection H' as <-. cbn. by split_and!.
Qed.

Lemma get_option_given {A} (parse : string → option A) m id x :
  get_option parse m id = Ok x → m_values m id ≠ [] → ∃ v y, x = Some y ∧ parse v = Some y.
Proof.
  unfold get_option. destruct (m_values m id) as [|v vs]; [done|]. intros (y & Hy & ?)%rbind_Ok _.
  simplify_eq. destruct (parse v) eqn:E; simplify_eq/=. by exists v, y.
Qed.

Lemma parse_path_not_empty v p : parse_path v = Some p → p ≠ "".
Proof. rewrite parse_path_spec. destruct v; naive_solver. Qed.

(** ** Theorems *)

(** The defaults that the attributes declare: a command line with the program's name
    alone, in an environment that sets none of the program's variables. *)
Lemma cli_defaults prog env :
  (∀ a, a ∈ general_args → env_of env a = None) →
  parse_general [prog] env = Ok (sample_general "./config.toml" "./public").
Proof.
  intros Henv. destruct (clap_matches_empty general_args prog env) as (m & Hm & Hcli & Hsub);
    [by apply (bool_decide_unpack _); vm_compute|done|].
  pose proof (default_values _ _ _ Hm Hcli Henv) as Hv.
  unfold parse_general. rewrite Hm. unfold rbind at 1. unfold general_of_matches. rewrite Hsub.
  unfold general_args, args_server, args_cors, args_http2, args_files, args_headers, args_modes in Hv.
  cbn in Hv. repeat match type of Hv with Forall _ (_ :: _) => apply Forall_cons in Hv as [? Hv] end.
  cbn in *. unfold get_bool, get_u8, get_u16, get_usize, get_path, get_ips, get_with, get_option, get_string.
  repeat match goal with H : m_values m ?i = _ |- context [m_values m ?i] => rewrite H; clear H end.
  repeat (cbn [rbind ok_or try_map];
          first [rewrite parse_bool_true | rewrite parse_bool_false | rewrite parse_path_nonempty
                | rewrite default_status | rewrite (parse_num_lit _ 80 "80") by done
                | rewrite (parse_num_lit _ 1 "1") by done | rewrite (parse_num_lit _ 512 "512") by done
                | rewrite (parse_num_lit _ 6 "6") by done | rewrite (parse_num_lit _ 0 "0") by done]).
  cbn. unfold parse_dir_list_fmt. by rewrite eq_ignore_case_refl.
Qed.

(** HTTP/2 on the command line or in the environment: the certificate and the
    key are both given, and the security headers are on unless the command line
    or the environment decides about them. *)
Theorem cli_http2 argv env g :
  parse_general argv env = Ok g → g_http2 g = true →
  (∃ cert key, g_http2_tls_cert g = Some cert ∧ cert ≠ "" ∧ g_http2_tls_key g = Some key ∧ key ≠ "")
  ∧ (g_security_headers g = true
     ∨ env "SERVER_SECURITY_HEADERS" ≠ None
     ∨ ∃ m, clap_matches general_args argv env = Ok m ∧ m_cli m "security_headers" ≠ None).
Proof.
  intros (m & Hm & Hg)%rbind_Ok Hh. apply general_of_matches_Ok in Hg. destruct_and! Hg.
  rewrite Hh in *. match goal with H : get_bool m "http2" = _ |- _ => apply get_bool_true in H as Ht end.
  assert (∀ a p, a ∈ general_args → a_required_if_eq a = Some ("http2", "true") →
            get_option parse_path m (a_id a) = Ok p → ∃ f, p = Some f ∧ f ≠ "") as Hreq.
  { intros a p Ha Hr Hp. edestruct (get_option_given parse_path m (a_id a)) as (v & f & -> & Hf); [done| |].
    - by eapply (m_required _ _ _ _ a http2_arg "true" Hm Ha Hr http2_arg_in).
    - eauto using parse_path_not_empty. }
  split.
  - edestruct (Hreq (required_if_eq "http2" "true"
      (bare_arg "http2_tls_cert" "http2-tls-cert" None "SERVER_HTTP2_TLS_CERT"))) as (cert & -> & ?);
      [in_args|done|cbn; assumption|].
    destruct (Hreq (required_if_eq "http2" "true"
      (bare_arg "http2_tls_key" "http2-tls-key" None "SERVER_HTTP2_TLS_KEY")) (g_http2_tls_key g)) as (key & -> & ?);
      [in_args|done|cbn; assumption|]. eauto 10.
  - destruct (m_cli m "security_headers") as [vs|] eqn:Hcli; [right; right; exists m; by rewrite Hcli|].
    destruct (env "SERVER_SECURITY_HEADERS") as [v|] eqn:Henv; [by right; left|left].
    pose proof (m_values_default_if _ _ _ _ security_arg http2_arg "true" "true" Hm security_arg_in
      Hcli Henv eq_refl http2_arg_in eq_refl Ht) as Hv. cbn in Hv.
    match goal with H : get_bool m "security_headers" = _ |- _ => revert H end.
    unfold get_bool, get_with, get_string. rewrite Hv. cbn. rewrite parse_bool_true. by intros [= <-].
Qed.

(** A listener that is inherited as a file descriptor excludes the options it
    would make void: the address and the redirection have their defaults. *)
Theorem cli_fd_excludes argv env g :
  parse_general argv env = Ok g → g_fd g ≠ None →
  g_host g = "::" ∧ g_port g = 80%Z ∧ g_https_redirect g = false.
Proof.
  intros (m & Hm & Hg)%rbind_Ok Hfd. apply general_of_matches_Ok in Hg. destruct_and! Hg.
  assert (m_cli m "fd" ≠ None ∨ env_of env fd_arg ≠ None) as Hgiven.
  { destruct (m_cli m "fd") eqn:Hcli; [by left|]. destruct (env_of env fd_arg) eqn:Henv; [by right|].
    assert (m_values m "fd" = []) as Hv.
    { apply (m_values_default _ _ _ _ fd_arg Hm fd_arg_in Hcli Henv). done. }
    unfold get_option in *. rewrite Hv in *. naive_solver. }
  assert (∀ b, b ∈ general_args → a_id b ∈ a_conflicts fd_arg → a_default_if b = None →
            m_values m (a_id b) = match a_default b with Some d => [d] | None => [] end) as Hdef.
  { intros b Hb Hc Hif. destruct (m_conflict _ _ _ _ fd_arg b Hm fd_arg_in Hb Hc Hgiven).
    eapply m_values_default; eauto. intros ???. by rewrite Hif. }
  pose proof (Hdef (opt_arg "host" "host" (Some "a"%char) "SERVER_HOST" "::")
    ltac:(in_args) ltac:(in_args) eq_refl) as Hhost.
  pose proof (Hdef (opt_arg "port" "port" (Some "p"%char) "SERVER_PORT" "80")
    ltac:(in_args) ltac:(in_args) eq_refl) as Hport.
  pose proof (Hdef (requires_if "true" "http2"
      (flag_arg "https_redirect" "https-redirect" None "SERVER_HTTPS_REDIRECT" "false"))
    ltac:(in_args) ltac:(in_args) eq_refl) as Hred.
  cbn in Hhost, Hport, Hred. unfold get_u16, get_bool, get_with, get_string in *.
  rewrite Hhost, Hport, Hred in *. cbn in *.
  rewrite (parse_num_lit _ 80 "80"), parse_bool_false in * by done. naive_solver.
Qed.

End Parse.

(** ** A command-line parser that satisfies the interface

    Arguments are [--name] or [--name=value]; used by the witnesses. *)

Record SampleMatches : Type := {
  sm_args : list Arg;
  sm_env : Env;
  sm_cli : list (string * list string)
}.

Definition sample_find (args : list Arg) (id : string) : option Arg :=
  find_first (λ a, str_eqb (a_id a) id) args.

Definition sample_cli (m : SampleMatches) (id : string) : option (list string) :=
  snd <$> find_first (λ x, str_eqb x.1 id) (sm_cli m).

Definition default_list (a : Arg) : list string :=
  match a_default a with Some d => [d] | None => [] end.

Definition sample_base (m : SampleMatches) (a : Arg) : list string :=
  match sample_cli m (a_id a) with
  | Some [] => match a_default_missing a with Some d => [d] | None => [] end
  | Some vs => vs
  | None =>
      match env_of (sm_env m) a with
      | Some v => delimited a v
      | None => default_list a
      end
  end.

Definition sample_explicit (m : SampleMatches) (a : Arg) : bool :=
  bool_decide (sample_cli m (a_id a) ≠ None ∨ env_of (sm_env m) a ≠ None).

Definition sample_values_of (m : SampleMatches) (a : Arg) : list string :=
  match a_default_if a with
  | Some (o, v, d) =>
      if sample_explicit m a then sample_base m a
      else match sample_find (sm_args m) o with
           | Some b => if bool_decide (a_default_if b = None ∧ v ∈ sample_base m b) then [d]
                       else sample_base m a
           | None => sample_base m a
           end
  | None => sample_base m a
  end.

Definition sample_values (m : SampleMatches) (id : string) : list string :=
  match sample_find (sm_args m) id with
  | Some a => sample_values_of m a
  | None => []
  end.

(** The conditional requirements and the conflicts. *)
Definition sample_required_ok (m : SampleMatches) (a : Arg) : bool :=
  match a_required_if_eq a with
  | Some (o, v) =>
      match sample_find (sm_args m) o with
      | Some b =>
          negb (bool_decide (a_default_if b = None ∧ a_default b ≠ Some v ∧ v ∈ sample_values_of m b
                             ∧ sample_values_of m a = []))
      | None => true
      end
  | None => true
  end.

Definition sample_conflicts_ok (m : SampleMatches) (a : Arg) : bool :=
  negb (sample_explicit m a)
  || forallb (λ b, negb (bool_decide (a_id b ∈ a_conflicts a)) || negb (sample_explicit m b)) (sm_args m).

Definition sample_token (args : list Arg) (tok : string) : Result (string * list string) Error :=
  match strip_prefix "--" tok with
  | None => Err "unexpected argument"
  | Some r =>
      let '(l, v) := match split_once "="%char r with Some (l, v) => (l, Some v) | None => (r, None) end in
      match find_first (λ a, str_eqb (a_long a) l) args, v with
      | Some a, Some v => Ok (a_id a, delimited a v)
      | Some a, None => Ok (a_id a, [])
      | None, _ => Err "unexpected argument"
      end
  end.

Definition sample_matches (args : list Arg) (argv : list string) (env : Env)
    : Result SampleMatches Error :=
  let? cli := try_map (sample_token args) (tail argv) in
  let m := {| sm_args := args; sm_env := env; sm_cli := cli |} in
  if bool_decide (NoDup (a_id <$> args)) && forallb (sample_required_ok m) args
     && forallb (sample_conflicts_ok m) args
  then Ok m else Err "invalid arguments".

Section SampleLaws.
Context (args : list Arg) (argv : list string) (env : Env) (m : SampleMatches).
Hypothesis Hm : sample_matches args argv env = Ok m.

Lemma sample_ok :
  sm_args m = args ∧ sm_env m = env ∧ NoDup (a_id <$> args)
  ∧ (∀ a, a ∈ args → sample_required_ok m a = true ∧ sample_conflicts_ok m a = true).
Proof.
  pose proof Hm as H. unfold sample_matches in H. apply rbind_Ok in H as (cli & _ & H).
  case_match eqn:E; [|done]. simplify_eq/=. rewrite !andb_true_iff, !forallb_forall in E.
  destruct E as [[E1 E2] E3]. apply bool_decide_eq_true in E1. split_and!; [done..|].
  intros a Ha%list_elem_of_In. auto.
Qed.

Lemma sample_find_in a : a ∈ args → sample_find args (a_id a) = Some a.
Proof.
  destruct sample_ok as (_ & _ & Hnd & _). clear Hm. intros Ha.
  induction args as [|b l IH]; [by apply not_elem_of_nil in Ha|]. unfold sample_find. simpl.
  rewrite fmap_cons in Hnd. apply NoDup_cons in Hnd as [Hb Hnd].
  apply elem_of_cons in Ha as [->|Ha]; [by rewrite (proj2 (str_eqb_eq _ _))|].
  rewrite (proj2 (str_eqb_ne _ _)); [by apply IH|]. intros E. apply Hb. rewrite E.
  by apply list_elem_of_fmap_2.
Qed.

Lemma sample_values_in a : a ∈ args → sample_values m (a_id a) = sample_values_of m a.
Proof.
  intros Ha. destruct sample_ok as (Hargs & _). unfold sample_values.
  by rewrite Hargs, sample_find_in.
Qed.

Lemma sample_explicit_true a :
  sample_explicit m a = true ↔ sample_cli m (a_id a) ≠ None ∨ env_of env a ≠ None.
Proof. destruct sample_ok as (_ & <- & _). apply bool_decide_eq_true. Qed.

Lemma sample_values_explicit a :
  a ∈ args → sample_explicit m a = true → sample_values m (a_id a) = sample_base m a.
Proof.
  intros Ha He. rewrite sample_values_in by done. unfold sample_values_of. rewrite He. by repeat case_match.
Qed.

Lemma sample_values_default a :
  a ∈ args → sample_explicit m a = false →
  sample_values m (a_id a) = match a_default_if a with
    | Some (o, v, d) =>
        match sample_find args o with
        | Some b => if bool_decide (a_default_if b = None ∧ v ∈ sample_base m b) then [d] else default_list a
        | None => default_list a
        end
    | None => default_list a
    end.
Proof.
  intros Ha He. rewrite sample_values_in by done. unfold sample_values_of. rewrite He.
  assert (sample_base m a = default_list a) as ->.
  { apply bool_decide_eq_false in He. unfold sample_base.
    destruct (sample_cli m (a_id a)), (env_of (sm_env m) a); try done; destruct He; auto. }
  by rewrite (proj1 sample_ok).
Qed.

Lemma sample_law_cli a v vs :
  a ∈ args → sample_cli m (a_id a) = Some (v :: vs) → sample_values m (a_id a) = v :: vs.
Proof.
  intros Ha Hc. rewrite sample_values_explicit; [|done|apply sample_explicit_true; left; by rewrite Hc].
  unfold sample_base. by rewrite Hc.
Qed.

Lemma sample_law_missing a d :
  a ∈ args → sample_cli m (a_id a) = Some [] → a_default_missing a = Some d →
  sample_values m (a_id a) = [d].
Proof.
  intros Ha Hc Hd. rewrite sample_values_explicit; [|done|apply sample_explicit_true; left; by rewrite Hc].
  unfold sample_base. by rewrite Hc, Hd.
Qed.

Lemma sample_law_env a v :
  a ∈ args → sample_cli m (a_id a) = None → env_of env a = Some v →
  sample_values m (a_id a) = delimited a v.
Proof.
  intros Ha Hc He. rewrite sample_values_explicit; [|done|apply sample_explicit_true; right; by rewrite He].
  unfold sample_base. destruct sample_ok as (_ & -> & _). by rewrite Hc, He.
Qed.

Lemma sample_not_explicit a :
  sample_cli m (a_id a) = None → env_of env a = None → sample_explicit m a = false.
Proof. intros Hc He. apply not_true_is_false. rewrite sample_explicit_true, Hc, He. naive_solver. Qed.

Lemma sample_law_default_if a o v d :
  a ∈ args → sample_cli m (a_id a) = None → env_of env a = None →
  a_default_if a = Some (a_id o, v, d) → o ∈ args → a_default_if o = None →
  v ∈ sample_values m (a_id o) → sample_values m (a_id a) = [d].
Proof.
  intros Ha Hc He Hif Ho Hoif Hv.
  rewrite sample_values_default by (done || by apply sample_not_explicit).
  rewrite Hif, sample_find_in by done. rewrite sample_values_in in Hv by done.
  unfold sample_values_of in Hv. rewrite Hoif in Hv. by rewrite bool_decide_eq_true_2.
Qed.

Lemma sample_law_default a :
  a ∈ args → sample_cli m (a_id a) = None → env_of env a = None →
  (∀ o v d, a_default_if a = Some (a_id o, v, d) → o ∈ args → v ∉ sample_values m (a_id o)) →
  sample_values m (a_id a) = default_list a.
Proof.
  intros Ha Hc He Hif.
  rewrite sample_values_default by (done || by apply sample_not_explicit).
  destruct (a_default_if a) as [[[o v] d]|] eqn:Ea; [|done].
  destruct (sample_find args o) as [b|] eqn:Hb; [|done].
  apply find_first_Some in Hb as (l1 & l2 & Hl & Hb & _). apply str_eqb_eq in Hb as <-.
  assert (b ∈ args) as Hin by (rewrite Hl; set_solver).
  rewrite bool_decide_eq_false_2; [done|]. intros [Hbif Hv]. eapply Hif; [done|done|].
  rewrite sample_values_in by done. unfold sample_values_of. by rewrite Hbif.
Qed.

Lemma sample_law_required a o v :
  a ∈ args → a_required_if_eq a = Some (a_id o, v) → o ∈ args → a_default_if o = None →
  a_default o ≠ Some v → v ∈ sample_values m (a_id o) → sample_values m (a_id a) ≠ [].
Proof.
  intros Ha Hreq Ho Hoif Hod Hv Hn.
  destruct sample_ok as (Hargs & _ & _ & Hok). destruct (Hok a Ha) as [Hr _].
  unfold sample_required_ok in Hr. rewrite Hreq, Hargs, sample_find_in in Hr by done.
  rewrite sample_values_in in Hv, Hn by done. by rewrite bool_decide_eq_true_2 in Hr.
Qed.

Lemma sample_law_conflict a b :
  a ∈ args → b ∈ args → a_id b ∈ a_conflicts a →
  sample_cli m (a_id a) ≠ None ∨ env_of env a ≠ None →
  sample_cli m (a_id b) = None ∧ env_of env b = None.
Proof.
  intros Ha Hb Hc He%sample_explicit_true.
  destruct sample_ok as (Hargs & Henv & _ & Hok). destruct (Hok a Ha) as [_ Hr].
  unfold sample_conflicts_ok in Hr. rewrite He, Hargs in Hr. simpl in Hr.
  rewrite forallb_forall in Hr. specialize (Hr b ltac:(by apply list_elem_of_In)).
  rewrite bool_decide_eq_true_2 in Hr by done. simpl in Hr. apply negb_true_iff in Hr.
  unfold sample_explicit in Hr. apply bool_decide_eq_false in Hr. rewrite Henv in Hr.
  destruct (sample_cli m (a_id b)), (env_of env b); try done; destruct Hr; naive_solver.
Qed.

End SampleLaws.

Lemma sample_law_empty (args : list Arg) prog env :
  NoDup (a_id <$> args) → (∀ a, a ∈ args → env_of env a = None) →
  sample_matches args [prog] env = Ok {| sm_args := args; sm_env := env; sm_cli := [] |}.
Proof.
  intros Hnd Henv. set (m := {| sm_args := args; sm_env := env; sm_cli := [] |}).
  assert (∀ a, a ∈ args → sample_explicit m a = false) as He.
  { intros a Ha. apply bool_decide_eq_false. cbn. rewrite (Henv a Ha). naive_solver. }
  unfold sample_matches. cbn [tail try_map rbind]. fold m. rewrite bool_decide_eq_true_2 by done.
  rewrite !(proj2 (forallb_forall _ _)); [done| |]; intros a Ha%list_elem_of_In.
  - unfold sample_conflicts_ok. by rewrite He.
  - unfold sample_required_ok. destruct (a_required_if_eq a) as [[o v]|]; [|done]. cbn [sm_args m].
    destruct (sample_find args o) as [b|] eqn:Hb; [|done].
    apply find_first_Some in Hb as (l1 & l2 & -> & _).
    apply negb_true_iff, bool_decide_eq_false. intros (Hif & Hd & Hv & _).
    unfold sample_values_of in Hv. rewrite Hif in Hv. unfold sample_base in Hv.
    cbn in Hv. rewrite Henv in Hv by set_solver. unfold default_list in Hv.
    destruct (a_default b); [|by apply not_elem_of_nil in Hv].
    apply list_elem_of_singleton in Hv. congruence.
Qed.

Definition sample_lower (c : ascii) : ascii :=
  if byte_in 65 90 c then Ascii.ascii_of_nat (Ascii.nat_of_ascii c + 32) else c.

Fixpoint sample_eq_ignore_case (s t : string) : bool :=
  match s, t with
  | EmptyString, EmptyString => true
  | String a s', String b t' =>
      ascii_eqb (sample_lower a) (sample_lower b) && sample_eq_ignore_case s' t'
  | _, _ => false
  end.

Definition sample_num (max : Z) (s : string) : option Z :=
  match read_number 10 5 true max s with
  | Some (n, EmptyString) => Some n
  | _ => None
  end.

Definition sample_bool (s : string) : option bool :=
  if str_eqb s "true" then Some true else if str_eqb s "false" then Some false else None.

Lemma sample_bool_spec s (b : bool) : sample_bool s = Some b ↔ s = if b then "true" else "false".
Proof.
  unfold sample_bool. destruct (str_eqb s "true") eqn:E1; [apply str_eqb_eq in E1 as ->|].
  { destruct b; naive_solver. }
  apply str_eqb_ne in E1. destruct (str_eqb s "false") eqn:E2; [apply str_eqb_eq in E2 as ->|].
  { destruct b; naive_solver. }
  apply str_eqb_ne in E2. destruct b; naive_solver.
Qed.

Lemma sample_num_dec max n : (0 ≤ n ≤ max)%Z → (n < 65536)%Z → sample_num max (fmt_dec n) = Some n.
Proof.
  intros Hn Hlt. unfold sample_num. rewrite <- (append_nil_r (fmt_dec n)). unfold fmt_dec.
  rewrite read_number_print; [done|lia|simpl; lia|simpl; lia|lia|done].
Qed.

Lemma sample_num_range max s n : sample_num max s = Some n → (0 ≤ n ≤ max)%Z.
Proof.
  unfold sample_num. destruct (read_number 10 5 true max s) as [[k r]|] eqn:E; [|done].
  destruct r; intros; simplify_eq. eapply read_number_range; [|done]. lia.
Qed.

#[refine] Instance clap_sample : ClapC := {|
  Matches := SampleMatches;
  clap_matches := sample_matches;
  m_cli := sample_cli;
  m_values := sample_values;
  m_subcommand := λ _, None;
  parse_bool := sample_bool;
  parse_num := sample_num;
  parse_path := λ s, if is_empty s then None else Some s;
  eq_ignore_case := sample_eq_ignore_case
|}.
Proof.
  - eauto using sample_law_cli.
  - eauto using sample_law_missing.
  - eauto using sample_law_env.
  - eauto using sample_law_default_if.
  - eauto using sample_law_default.
  - eauto using sample_law_required.
  - eauto using sample_law_conflict.
  - intros. eexists. split; [by apply sample_law_empty|done].
  - apply sample_bool_spec.
  - apply sample_num_dec.
  - apply sample_num_range.
  - done.
  - intros s. induction s as [|c s IH]; simpl; [done|]. by rewrite ascii_eqb_refl.
Defined.

(** ** Witnesses *)

Definition sample_argv : list string :=
  ["static-web-server"; "--http2"; "--http2-tls-cert=/c.pem"; "--http2-tls-key=/k.pem";
   "--trusted-proxies=10.0.0.1,::1"; "--port=8443"].

Example sample_argv_read :
  match parse_general sample_argv (λ _, None) with
  | Ok g => g_http2 g = true ∧ g_security_headers g = true ∧ g_port g = 8443%Z
            ∧ ip_display <$> g_trusted_proxies g = ["10.0.0.1"; "::1"]
  | _ => False
  end.
Proof. by vm_compute. Qed.

Example cli_defaults_read :
  parse_general ["static-web-server"] (λ _, None) = Ok (sample_general "./config.toml" "./public").
Proof. apply cli_defaults. intros a _. unfold env_of. by destruct (a_env a). Qed.

Lemma cli_http2_witness :
  match parse_general sample_argv (λ _, None) with
  | Ok g => ∃ cert key, g_http2_tls_cert g = Some cert ∧ cert ≠ ""
              ∧ g_http2_tls_key g = Some key ∧ key ≠ ""
  | _ => False
  end.
Proof.
  pose proof sample_argv_read as Hs.
  destruct (parse_general sample_argv (λ _, None)) as [g|e|] eqn:E; [|by destruct Hs..].
  apply (cli_http2 _ _ _ E), Hs.
Defined.

Lemma cli_fd_witness :
  match parse_general ["static-web-server"; "--fd=3"] (λ _, None) with
  | Ok g => g_host g = "::"
  | _ => False
  end.
Proof.
  assert (match parse_general ["static-web-server"; "--fd=3"] (λ _, None) with
          | Ok g => g_fd g = Some 3%Z | _ => False end) as Hs by by vm_compute.
  destruct (parse_general ["static-web-server"; "--fd=3"] (λ _, None)) as [g|e|] eqn:E; [|by destruct Hs..].
  apply (cli_fd_excludes _ _ _ E). by rewrite Hs.
Defined.
