(* ===== verification/FsPath.v ===== *)
(** * Request paths: [fs/path.rs]

    [sanitize_path] turns the path of a request into a path under a base
    directory; [is_hidden] is the dotfile test.  Percent-decoding is a crate
    ([PercentC]): the confinement theorem holds whatever it decodes to. *)

From S2P Require Import Prelude RustStr RustPath Fs Http.

(** [percent_decode_str(s).collect()] and [percent_encode(bytes, set).to_string()];
    an [AsciiSet] is its membership test.  Documented behaviour: decoding
    undoes encoding when the set has the percent sign, and it works on each
    side of a slash by itself (a slash is neither [%] nor a hexadecimal
    digit); a byte of the set does not appear in the encoded form (here: the
    slash). *)
Class PercentC : Type := {
  percent_decode_str : string → string;
  percent_encode : (ascii → bool) → string → string;
  percent_decode_encode : ∀ set s,
    set "%"%char = true → percent_decode_str (percent_encode set s) = s;
  percent_decode_slash : ∀ s t,
    percent_decode_str (s +:+ String SEP t)
    = percent_decode_str s +:+ String SEP (percent_decode_str t);
  percent_decode_nil : percent_decode_str EmptyString = EmptyString;
  percent_encode_slash : ∀ set s,
    set SEP = true → has_char SEP (percent_encode set s) = false
}.

(** [PathExt::is_hidden] *)
Definition is_hidden (p : string) : bool :=
  existsb (starts_with ".")
    (omap (λ cmp, match cmp with Normal s => to_str s | _ => None end) (components p)).

Section Sanitize.
Context `{!PercentC}.

(** [path_from_bytes] is the identity on Unix. *)
Definition decode_tail_path (tail : string) : string :=
  percent_decode_str (trim_start_matches SEP tail).

(** One iteration of the loop over the components. *)
Definition sanitize_step (full_path : string) (component : Component) : string :=
  match component with
  | Normal comp =>
      if forallb is_normal (components comp) then push full_path comp else full_path
  | CurDir => full_path
  | Prefix _ | RootDir | ParentDir => full_path
  end.

Definition sanitize_path (base tail : string) : Result string StatusCode :=
  Ok (foldl sanitize_step base (components (decode_tail_path tail))).

End Sanitize.

(** The names a list of components keeps. *)
Definition normal_names (l : list Component) : list string :=
  omap (λ c, match c with Normal s => Some s | _ => None end) l.

(** ** An instance: [%XX] decoding *)

Definition hex_value (a : ascii) : option nat :=
  let n := Ascii.nat_of_ascii a in
  if byte_in 48 57 a then Some (n - 48)%nat
  else if byte_in 65 70 a then Some (n - 55)%nat
  else if byte_in 97 102 a then Some (n - 87)%nat
  else None.

Fixpoint hex_decode (s : string) : string :=
  match s with
  | EmptyString => EmptyString
  | String c s1 =>
      if ascii_eqb c "%"%char then
        match s1 with
        | String a (String b s2) =>
            match hex_value a, hex_value b with
            | Some x, Some y => String (Ascii.ascii_of_nat (16 * x + y)) (hex_decode s2)
            | _, _ => String c (hex_decode s1)
            end
        | _ => String c (hex_decode s1)
        end
      else String c (hex_decode s1)
  end.

Definition hex_digit (n : nat) : ascii :=
  Ascii.ascii_of_nat (if (n <? 10)%nat then n + 48 else n + 55)%nat.

Fixpoint hex_encode (set : ascii → bool) (s : string) : string :=
  match s with
  | EmptyString => EmptyString
  | String c s' =>
      let n := Ascii.nat_of_ascii c in
      if set c || negb (byte_in 0 127 c)
      then String "%" (String (hex_digit (n / 16)) (String (hex_digit (n `mod` 16))
             (hex_encode set s')))
      else String c (hex_encode set s')
  end.

Lemma hex_byte_round (c : ascii) :
  let n := Ascii.nat_of_ascii c in
  match hex_value (hex_digit (n / 16)), hex_value (hex_digit (n `mod` 16)) with
  | Some x, Some y => Ascii.ascii_of_nat (16 * x + y) = c
  | _, _ => False
  end.
Proof. destruct c as [[] [] [] [] [] [] [] []]; vm_compute; reflexivity. Qed.

Lemma hex_decode_encode set s :
  set "%"%char = true → hex_decode (hex_encode set s) = s.
Proof.
  intros Hset. induction s as [|c s IH]; [done|].
  cbn [hex_encode]. destruct (set c || negb (byte_in 0 127 c)) eqn:E.
  - pose proof (hex_byte_round c) as Hc. cbn zeta in Hc. cbn [hex_decode].
    change (ascii_eqb "%"%char "%"%char) with true. cbv iota.
    destruct (hex_value (hex_digit (_ / 16))); [|done].
    destruct (hex_value (hex_digit (_ `mod` 16))); [|done]. by rewrite Hc, IH.
  - cbn [hex_decode]. destruct (ascii_eqb c "%"%char) eqn:Ec.
    + apply ascii_eqb_eq in Ec as ->. by rewrite Hset in E.
    + by rewrite IH.
Qed.

Lemma hex_decode_slash s t :
  hex_decode (s +:+ String SEP t) = hex_decode s +:+ String SEP (hex_decode t).
Proof.
  induction s as [s IH] using (induction_ltof1 _ String.length). unfold ltof in IH.
  destruct s as [|c s1]; [done|]. rewrite append_cons. cbn [hex_decode].
  destruct (ascii_eqb c "%"%char) eqn:Ec; [|rewrite (IH s1) by (simpl; lia); done].
  destruct s1 as [|a [|b s2]]; rewrite ?append_cons, ?append_nil_l.
  - destruct t; [done|]. change (hex_value SEP) with (@None nat). done.
  - change (hex_value SEP) with (@None nat).
    pose proof (IH (String a "") ltac:(simpl; lia)) as IH1. rewrite append_cons, append_nil_l in IH1.
    rewrite IH1. by destruct (hex_value a).
  - pose proof (IH (String a (String b s2)) ltac:(simpl; lia)) as IH1.
    pose proof (IH s2 ltac:(simpl; lia)) as IH2. rewrite !append_cons in IH1.
    destruct (hex_value a); [|by rewrite IH1].
    destruct (hex_value b); [|by rewrite IH1]. by rewrite IH2.
Qed.

Lemma hex_digit_slash c :
  ascii_eqb (hex_digit (Ascii.nat_of_ascii c / 16)) SEP = false
  ∧ ascii_eqb (hex_digit (Ascii.nat_of_ascii c `mod` 16)) SEP = false.
Proof. destruct c as [[] [] [] [] [] [] [] []]; vm_compute; done. Qed.

Lemma hex_encode_slash set s :
  set SEP = true → has_char SEP (hex_encode set s) = false.
Proof.
  intros Hset. induction s as [|c s IH]; [done|]. cbn [hex_encode].
  destruct (hex_digit_slash c) as [H1 H2].
  destruct (set c || negb (byte_in 0 127 c)) eqn:E; cbn [has_char].
  - by rewrite H1, H2, IH.
  - rewrite IH, orb_false_r. destruct (ascii_eqb c SEP) eqn:Ec; [|done].
    apply ascii_eqb_eq in Ec as ->. by rewrite Hset in E.
Qed.

#[export] Instance percent_hex : PercentC := {|
  percent_decode_str := hex_decode;
  percent_encode := hex_encode;
  percent_decode_encode := hex_decode_encode;
  percent_decode_slash := hex_decode_slash;
  percent_decode_nil := eq_refl;
  percent_encode_slash := hex_encode_slash
|}.

(** ** Theorems *)

Section Lemmas.
Context `{!PercentC}.

Lemma valid_name_all_normal s : valid_name s → forallb is_normal (components s) = true.
Proof.
  intros Hs. pose proof (components_push_name "" s Hs) as Hc.
  unfold push in Hc. rewrite valid_name_not_absolute in Hc by done. simpl in Hc.
  rewrite append_nil_l in Hc. by rewrite Hc.
Qed.

(** On Unix every normal component passes the prefix check of the loop. *)
Lemma sanitize_fold cs base :
  Forall valid_comp cs →
  components (foldl sanitize_step base cs)
  = components base ++ (Normal <$> normal_names cs).
Proof.
  intros Hcs. revert base. induction Hcs as [|c cs Hc Hcs IH]; intros base; simpl.
  - by rewrite app_nil_r.
  - rewrite IH. destruct c as [| | | |s]; try done. simpl.
    rewrite valid_name_all_normal by done. rewrite components_push_name by done.
    by rewrite <- app_assoc.
Qed.

Lemma normal_names_valid cs : Forall valid_comp cs → Forall valid_name (normal_names cs).
Proof.
  intros Hcs. apply Forall_forall. intros s (c & Hin & Hc)%list_elem_of_omap.
  rewrite Forall_forall in Hcs. specialize (Hcs c Hin).
  destruct c; try done. by injection Hc as <-.
Qed.

(** The result of [sanitize_path] in terms of components. *)
Lemma sanitize_components base tail p :
  sanitize_path base tail = Ok p →
  components p = components base ++ (Normal <$> normal_names (components (decode_tail_path tail))).
Proof. intros [= <-]. apply sanitize_fold, components_valid. Qed.

(** *** The path of a child *)

Lemma trim_start_app c s t :
  trim_start_matches c (s +:+ t) =
  if is_empty (trim_start_matches c s) then trim_start_matches c t
  else trim_start_matches c s +:+ t.
Proof.
  induction s as [|a s IH]; [done|]. rewrite append_cons. simpl.
  destruct (ascii_eqb a c); [done|]. simpl. by rewrite append_cons.
Qed.

Lemma trim_start_none c s : has_char c s = false → trim_start_matches c s = s.
Proof. destruct s as [|a s]; simpl; [done|]. by intros [-> _]%orb_false_iff. Qed.

Lemma normal_names_app l1 l2 : normal_names (l1 ++ l2) = normal_names l1 ++ normal_names l2.
Proof. apply omap_app. Qed.

Lemma components_trailing_sep d : d ≠ "" → components (d +:+ String SEP "") = components d.
Proof.
  intros Hd. pose proof (components_push_gen (d +:+ String SEP "") "" ltac:(by destruct d) eq_refl) as H1.
  pose proof (components_push_gen d "" Hd eq_refl) as H2. simpl in H1, H2.
  rewrite app_nil_r in H1, H2. unfold push in H2. simpl in H2.
  rewrite (proj2 (is_empty_false d) Hd) in H2. simpl in H2.
  destruct (ends_with_char SEP d) eqn:E.
  - apply ends_with_char_true in E as [q ->]. destruct q as [|a q]; [done|].
    unfold components. rewrite body_segs_sep by done. rewrite append_cons.
    simpl is_absolute. rewrite body_segs_cons. destruct (ascii_eqb a SEP) eqn:Ea.
    + change (split SEP "") with [""]. by rewrite omap_nil_seg.
    + destruct (split SEP (String a (q +:+ String SEP ""))) as [|x l] eqn:El;
        [by apply split_not_nil in El|].
      rewrite <- app_comm_cons. change (split SEP "") with [""].
      destruct (str_eqb x "."); rewrite ?app_comm_cons, omap_nil_seg; done.
  - done.
Qed.

Lemma normal_names_trailing d :
  normal_names (components (d +:+ String SEP "")) = normal_names (components d).
Proof. destruct (decide (d = "")) as [->|Hd]; [done|]. by rewrite components_trailing_sep. Qed.

Lemma normal_names_child d name :
  valid_name name →
  normal_names (components (d +:+ String SEP name)) = normal_names (components d) ++ [name].
Proof.
  intros Hn. pose proof (components_push_name (d +:+ String SEP "") name Hn) as Hp.
  unfold push in Hp. rewrite valid_name_not_absolute in Hp by done.
  assert (ends_with_char SEP (d +:+ String SEP "") = true) as He
    by (apply ends_with_char_true; by eexists).
  rewrite He, orb_true_r in Hp. rewrite append_assoc in Hp.
  change (String SEP "" +:+ name) with (String SEP name) in Hp.
  by rewrite Hp, normal_names_app, normal_names_trailing.
Qed.

Lemma normal_names_single name : valid_name name → normal_names (components name) = [name].
Proof.
  intros Hn. pose proof (components_push_name "" name Hn) as Hp. unfold push in Hp.
  rewrite valid_name_not_absolute in Hp by done. simpl in Hp.
  rewrite append_nil_l in Hp. by rewrite Hp.
Qed.

(** Decoding [q/x], where [x] has no leading slash and decodes to a name. *)
Lemma tail_child q x name :
  valid_name name → x ≠ "" → trim_start_matches SEP x = x →
  percent_decode_str x = name ∨ percent_decode_str x = name +:+ String SEP "" →
  normal_names (components (decode_tail_path (q +:+ String SEP x)))
  = normal_names (components (decode_tail_path q)) ++ [name].
Proof.
  intros Hn Hx Ht Hd. unfold decode_tail_path. rewrite trim_start_app.
  assert (∀ d, normal_names (components (d +:+ String SEP (percent_decode_str x)))
               = normal_names (components d) ++ [name]) as Hc.
  { intros d. destruct Hd as [-> | ->]; [by apply normal_names_child|].
    replace (d +:+ String SEP (name +:+ String SEP ""))
      with ((d +:+ String SEP name) +:+ String SEP "") by (by rewrite append_assoc).
    by rewrite normal_names_trailing, normal_names_child. }
  destruct (is_empty (trim_start_matches SEP q)) eqn:Eq.
  - apply is_empty_true in Eq. rewrite Eq, percent_decode_nil.
    change (trim_start_matches SEP (String SEP x)) with (trim_start_matches SEP x). rewrite Ht.
    destruct Hd as [-> | ->]; rewrite ?normal_names_trailing; by apply normal_names_single.
  - by rewrite percent_decode_slash, Hc.
Qed.

(** C9. [sanitize_path] always succeeds, and the path it returns is the base
    directory followed by the normal components of the decoded tail, in order:
    no [..], no root, no separator inside a component, whatever bytes the
    percent-decoding produces. *)
Theorem sanitize_path_confined base tail :
  ∃ p names,
    sanitize_path base tail = Ok p
    ∧ components p = components base ++ (Normal <$> names)
    ∧ names = normal_names (components (decode_tail_path tail))
    ∧ Forall valid_name names
    ∧ path_starts_with base p = true.
Proof.
  eexists _, _. split; [done|]. rewrite path_starts_with_true.
  pose proof (components_valid (decode_tail_path tail)) as Hv.
  split_and!.
  - by apply sanitize_fold.
  - done.
  - by apply normal_names_valid.
  - eexists. by apply sanitize_fold.
Qed.

End Lemmas.

(** The dotfile test, component by component. *)
Lemma is_hidden_spec p :
  is_hidden p = true ↔
  ∃ s, Normal s ∈ components p ∧ utf8_valid s = true ∧ starts_with "." s = true.
Proof.
  unfold is_hidden. rewrite existsb_exists. split.
  - intros (t & Ht & Hd). rewrite <- list_elem_of_In in Ht.
    apply list_elem_of_omap in Ht as (c & Hc & Hs). destruct c as [| | | |s]; try done.
    pose proof (to_str_Some _ _ Hs) as ->. exists s. split_and!; try done.
    unfold to_str in Hs. by destruct (utf8_valid s).
  - intros (s & Hin & Hu & Hd). exists s. split; [|done]. rewrite <- list_elem_of_In.
    apply list_elem_of_omap. exists (Normal s). split; [done|]. unfold to_str. by rewrite Hu.
Qed.
