(* ===== verification/FsMeta.v ===== *)
(** * File metadata: [fs/meta.rs] *)

From S2P Require Import Prelude RustStr RustPath Fs ContentCoding Http.

(** The path and metadata a request resolves to, with the pre-compressed
    variant if one was chosen; [fm_metadata] then belongs to the variant. *)
Record FileMetadata : Type := {
  fm_file_path : string;
  fm_metadata : Metadata;
  fm_is_dir : bool;
  fm_precompressed_variant : option (string * ContentCoding)
}.

Definition try_metadata (fs : FileSystem) (file_path : string) : Result (Metadata * bool) StatusCode :=
  match fs_metadata fs file_path with
  | Ok meta => Ok (meta, kind_is_dir (meta_kind meta))
  | _ => Err SC_NOT_FOUND
  end.

(** The path is mutated in place: it is the first component of the result. *)
Definition try_metadata_with_html_suffix (fs : FileSystem) (file_path : string)
    : string * option Metadata :=
  match file_name file_path with
  | Some filename =>
      let suffixed := set_file_name file_path (filename +:+ ".html") in
      match try_metadata fs suffixed with
      | Ok (meta, _) => (suffixed, Some meta)
      | _ => (set_file_name suffixed filename, None)
      end
  | None => (file_path, None)
  end.

(** ** Lemmas *)

Lemma try_metadata_no_panic fs p : try_metadata fs p ≠ Panic.
Proof. unfold try_metadata. by destruct (fs_metadata fs p). Qed.

Lemma try_metadata_Err fs p e : try_metadata fs p = Err e → e = SC_NOT_FOUND.
Proof. unfold try_metadata. destruct (fs_metadata fs p); congruence. Qed.

Lemma try_metadata_Ok fs p m d :
  try_metadata fs p = Ok (m, d) ↔ fs_metadata fs p = Ok m ∧ d = kind_is_dir (meta_kind m).
Proof. unfold try_metadata. destruct (fs_metadata fs p); naive_solver. Qed.

Lemma html_name f : valid_name f → valid_name (f +:+ ".html").
Proof. intros Hf. apply valid_name_app; [done|done|simpl; lia]. Qed.

(** When the suffixed file is found its name is the original one plus
    [.html]; otherwise the components of the path are restored. *)
Lemma html_suffix_spec fs p p' o :
  try_metadata_with_html_suffix fs p = (p', o) →
  match o with
  | Some m =>
      ∃ f, file_name p = Some f ∧ valid_name f ∧ fs_metadata fs p' = Ok m
           ∧ components p' = components (pop p) ++ [Normal (f +:+ ".html")]
  | None => components p' = components p
  end.
Proof.
  unfold try_metadata_with_html_suffix.
  destruct (file_name p) as [f|] eqn:Hf; [|by intros [= <- <-]].
  destruct (file_name_Some _ _ Hf) as [Hv Hc].
  pose proof (components_set_file_name p f (f +:+ ".html") Hf (html_name f Hv)) as Hs.
  destruct (try_metadata fs _) as [[m d]| |] eqn:E; intros [= <- <-].
  - apply try_metadata_Ok in E as [E _]. eauto 6.
  - assert (file_name (set_file_name p (f +:+ ".html")) = Some (f +:+ ".html")) as Hf'.
    { unfold file_name. by rewrite Hs, last_snoc. }
    rewrite (components_set_file_name _ _ f Hf' Hv).
    destruct (file_name_Some _ _ Hf') as [_ Hc']. rewrite Hs in Hc'.
    apply app_inj_2 in Hc' as [<- _]; [|done]. by rewrite Hc.
  - by apply try_metadata_no_panic in E.
Qed.
