(* ===== verification/F32.v ===== *)
(** * [f32]: parsing, multiplication and the cast to [u16]

    The quality values of [Accept-Encoding] go through [str::parse::<f32>],
    a product in [f32] and an [as u16] cast.  Binary32 arithmetic is the
    Standard Library's [SpecFloat] at precision 24; a decimal literal is rounded
    once, to nearest even, as Rust documents. *)

From S2P Require Import Prelude RustStr.
From Stdlib Require Import SpecFloat.

Definition f32_prec : Z := 24.
Definition f32_emax : Z := 128.

(** The binary32 number nearest to [n / d]. *)
Definition f32_of_ratio (neg : bool) (n d : positive) : spec_float :=
  let '(mz, ez, lz) := SFdiv_core_binary f32_prec f32_emax (Zpos n) 0 (Zpos d) 0 in
  binary_round_aux f32_prec f32_emax neg mz ez lz.

(** [m * 10 ^ e] *)
Definition f32_of_decimal (neg : bool) (m e : Z) : spec_float :=
  match m with
  | Zpos n =>
      if (0 <=? e)%Z then f32_of_ratio neg (Z.to_pos (Zpos n * 10 ^ e)) 1
      else f32_of_ratio neg n (Z.to_pos (10 ^ (- e)))
  | _ => S754_zero neg
  end.

(** The longest run of digits: its value, its length and what follows. *)
Fixpoint take_digits (acc : Z) (n : nat) (s : string) : Z * nat * string :=
  match s with
  | EmptyString => (acc, n, s)
  | String a s' =>
      match digit_value a with
      | Some d => take_digits (acc * 10 + d) (S n) s'
      | None => (acc, n, s)
      end
  end.

Definition take_sign (s : string) : bool * string :=
  match s with
  | String "-" s' => (true, s')
  | String "+" s' => (false, s')
  | _ => (false, s)
  end.

(** [Exp ::= 'e' Sign? Digit+], to the end of the string. *)
Definition parse_exponent (s : string) : option Z :=
  match s with
  | EmptyString => Some 0%Z
  | String "e" s' | String "E" s' =>
      let (neg, s1) := take_sign s' in
      let '(v, n, rest) := take_digits 0 0 s1 in
      if (n =? 0)%nat || negb (is_empty rest) then None
      else Some (if neg then - v else v)%Z
  | _ => None
  end.

(** [Number ::= ( Digit+ | Digit+ '.' Digit* | Digit* '.' Digit+ ) Exp?] *)
Definition parse_number (neg : bool) (s : string) : option spec_float :=
  let '(v1, n1, s1) := take_digits 0 0 s in
  let '(v, n2, s2) :=
    match s1 with
    | String "." s' => take_digits v1 0 s'
    | _ => (v1, 0%nat, s1)
    end in
  if (n1 + n2 =? 0)%nat then None
  else match parse_exponent s2 with
       | Some e => Some (f32_of_decimal neg v (e - Z.of_nat n2))
       | None => None
       end.

Definition ascii_lower (a : ascii) : ascii :=
  if byte_in 65 90 a then Ascii.ascii_of_nat (Ascii.nat_of_ascii a + 32) else a.

Fixpoint to_ascii_lowercase (s : string) : string :=
  match s with
  | EmptyString => EmptyString
  | String a s' => String (ascii_lower a) (to_ascii_lowercase s')
  end.

(** [s.parse::<f32>()] *)
Definition parse_f32 (s : string) : option spec_float :=
  let (neg, s') := take_sign s in
  let l := to_ascii_lowercase s' in
  if str_eqb l "inf" || str_eqb l "infinity" then Some (S754_infinity neg)
  else if str_eqb l "nan" then Some S754_nan
  else parse_number neg s'.

Definition f32_1000 : spec_float := f32_of_decimal false 1000 0.

Definition f32_mul (x y : spec_float) : spec_float := SFmul f32_prec f32_emax x y.

(** [x as u16]: truncation, saturating, [NaN] to 0. *)
Definition f32_as_u16 (x : spec_float) : Z :=
  match x with
  | S754_zero _ | S754_nan => 0
  | S754_infinity neg => if neg then 0 else u16_max
  | S754_finite neg m e =>
      if neg then 0
      else Z.min u16_max (if (0 <=? e)%Z then Zpos m * 2 ^ e else Zpos m / 2 ^ (- e))
  end.

(** ** Lemmas *)

Lemma f32_as_u16_range x : (0 ≤ f32_as_u16 x ≤ u16_max)%Z.
Proof.
  destruct x as [s|s| |s m e]; simpl; try (destruct s); try (unfold u16_max; lia).
  destruct (0 <=? e)%Z eqn:E.
  - apply Z.leb_le in E. pose proof (Z.pow_nonneg 2 e). unfold u16_max. lia.
  - apply Z.leb_gt in E.
    pose proof (Z.div_pos (Zpos m) (2 ^ - e) ltac:(lia) (Z.pow_pos_nonneg 2 (- e) ltac:(lia) ltac:(lia))).
    unfold u16_max. lia.
Qed.
