(* ===== verification/QualityValue.v ===== *)
(** * Quality values: [headers_ext/quality_value.rs], [headers_ext/accept_encoding.rs]

    A comma-separated list whose items may carry [;q=<weight>]; [iter] yields
    the items by decreasing weight, items of equal weight in the order of the
    header.  [AcceptEncoding] decodes the request header into such a list. *)

From S2P Require Import Prelude RustStr Fs ContentCoding Http F32.

Record QualityMeta : Type := {
  data : string;
  quality : Z
}.

(** The loop over the parts of an item: the last [q=] that parses wins. *)
Definition quality_step (quality : Z) (part : string) : Z :=
  match strip_prefix "q=" (trim_start part) with
  | Some value =>
      match parse_f32 (trim value) with
      | Some parsed => f32_as_u16 (f32_mul parsed f32_1000)
      | None => quality
      end
  | None => quality
  end.

(** [TryFrom<&str> for QualityMeta] *)
Definition quality_meta_try_from (val : string) : option QualityMeta :=
  let parts := split ";"%char val in
  match parts with
  | [] => None
  | first :: _ => Some {| data := trim first; quality := foldl quality_step 1000%Z parts |}
  end.

(** [Ord for QualityMeta]: the larger quality is the smaller element. *)
Definition meta_leb (x y : QualityMeta) : bool := (quality y <=? quality x)%Z.

(** The items of a header value, in the order of the text. *)
Definition quality_items (value_str : string) : list QualityMeta :=
  omap quality_meta_try_from (split ","%char value_str).

Section Quality.
Context `{!HttpC}.

(** [QualityValue::iter] *)
Definition quality_sorted (value : string) : list QualityMeta :=
  match hv_to_str value with
  | Some value_str => stable_sort meta_leb (quality_items value_str)
  | None => []
  end.

Definition quality_iter (value : string) : list string := data <$> quality_sorted value.

(** [QualityValue::try_from_values] *)
Definition try_from_values (values : list string) : option string :=
  match values with
  | [] => Some ""
  | [first] => Some first
  | first :: rest =>
      hv_from_bytes (foldl (λ buf v, concat_str [buf; ", "; v]) first rest)
  end.

(** [AcceptEncoding::decode] through [typed_get] *)
Definition accept_encoding (headers : HeaderMap) : option string :=
  typed_get try_from_values H_ACCEPT_ENCODING headers.

(** [AcceptEncoding::sorted_encodings] *)
Definition sorted_encodings (value : string) : list ContentCoding :=
  coding_from <$> quality_iter value.

End Quality.

(** ** Theorems *)

Lemma meta_leb_total x y : meta_leb x y = false → meta_leb y x = true.
Proof. unfold meta_leb. lia. Qed.

Lemma quality_step_range q part : (0 ≤ q ≤ u16_max)%Z → (0 ≤ quality_step q part ≤ u16_max)%Z.
Proof.
  intros Hq. unfold quality_step. repeat case_match; try done. apply f32_as_u16_range.
Qed.

Lemma quality_meta_range v m :
  quality_meta_try_from v = Some m → (0 ≤ quality m ≤ u16_max)%Z.
Proof.
  unfold quality_meta_try_from. destruct (split ";"%char v) as [|p ps] eqn:E; [done|].
  intros [= <-]. simpl. rewrite <- (left_id_L [] app ps).
  assert (∀ l q, (0 ≤ q ≤ u16_max)%Z → (0 ≤ foldl quality_step q l ≤ u16_max)%Z) as Hf.
  { induction l as [|x l IH]; intros q Hq; simpl; [done|]. by apply IH, quality_step_range. }
  apply (Hf (p :: [] ++ ps)). unfold u16_max. lia.
Qed.

Section QualityLemmas.
Context `{!HttpC}.

Lemma quality_sorted_perm v s :
  hv_to_str v = Some s → quality_sorted v ≡ₚ quality_items s.
Proof. unfold quality_sorted. intros ->. apply stable_sort_perm. Qed.

(** The items come out by non-increasing weight, each exactly once, and items
    of equal weight keep the order the client wrote them in. *)
Theorem quality_sorted_spec value s :
  hv_to_str value = Some s →
  Sorted (λ x y, quality y ≤ quality x)%Z (quality_sorted value)
  ∧ quality_sorted value ≡ₚ quality_items s
  ∧ ∀ q, List.filter (λ m, quality m =? q)%Z (quality_sorted value)
         = List.filter (λ m, quality m =? q)%Z (quality_items s).
Proof.
  intros Hs. split_and!.
  - unfold quality_sorted. rewrite Hs.
    eapply Sorted_ind with (R := λ a b, meta_leb a b = true)
      (P := Sorted (λ x y, quality y ≤ quality x)%Z);
      [constructor| |by apply stable_sort_sorted, meta_leb_total].
    intros a l Hl IH Hd. constructor; [done|]. destruct Hd as [|b l Hab]; constructor.
    unfold meta_leb in Hab. lia.
  - by apply quality_sorted_perm.
  - intros q. unfold quality_sorted. rewrite Hs. apply stable_sort_filter.
    unfold meta_leb. lia.
Qed.

End QualityLemmas.
