(* ===== verification/ErrorPage.v ===== *)
(** * Error pages: [error_page.rs]

    Every error of the handler becomes a response here: the configured 404 or
    50x page when it is a regular file with text, a generic page otherwise. *)

From S2P Require Import Prelude RustStr RustPath Fs Http.

(** The status codes of the two groups of the [match]. *)
Definition STATUS_4XX : list StatusCode :=
  [400; 401; 402; 403; 404; 405; 406; 407; 408; 409; 410; 411; 412; 413; 414; 415; 416; 417]%Z.

Definition STATUS_50X : list StatusCode := [500; 501; 502; 503; 504; 505; 506; 507; 508]%Z.

Definition status_in (s : StatusCode) (l : list StatusCode) : bool := existsb (Z.eqb s) l.

Section ErrorPage.
Context `{!HttpC, !HeadersC}.

(** [String::from_utf8_lossy(&read_bytes_default(page)).trim()] for a regular file *)
Definition page_file_content (fs : FileSystem) (page : string) : string :=
  if path_is_file fs page then trim (from_utf8_lossy (read_bytes_default fs page)) else "".

Definition generic_page (status : StatusCode) : string :=
  let reason := default "" (canonical_reason status) in
  concat_str
    ["<html><head><title>"; dec status; " "; reason;
     "</title></head><body><center><h1>"; dec status; " "; reason;
     "</h1></center></body></html>"].

Definition page_content (fs : FileSystem) (status : StatusCode) (page404 page50x : string) : string :=
  let content :=
    if status_in status STATUS_4XX then
      if (status =? SC_NOT_FOUND)%Z then page_file_content fs page404 else ""
    else if status_in status STATUS_50X then page_file_content fs page50x
    else "" in
  if is_empty content then generic_page status else content.

(** A page with its headers: the body is left out for [HEAD]. *)
Definition html_page (method : Method) (status : StatusCode) (content : string) : Response :=
  let body := if is_head method then BodyEmpty else BodyBytes content in
  let resp := set_status status (response_new body) in
  let resp := put_header H_CONTENT_TYPE (content_type_value TEXT_HTML_UTF_8) resp in
  let resp := put_header H_CONTENT_LENGTH (content_length_value (str_len content)) resp in
  put_header H_ACCEPT_RANGES accept_ranges_bytes resp.

(** [error_page::error_response] (the URI is only logged). *)
Definition error_response (fs : FileSystem) (uri : Uri) (method : Method) (status : StatusCode)
    (page404 page50x : string) : Result Response Error :=
  Ok (html_page method status (page_content fs status page404 page50x)).

(** ** Theorems *)

(** The error response keeps the status, announces the length of the page and
    carries the page, except for [HEAD] requests, whose body is empty. *)
Theorem error_response_spec fs uri method status p404 p50x :
  ∃ resp content,
    error_response fs uri method status p404 p50x = Ok resp
    ∧ resp_status resp = status
    ∧ get_header resp H_CONTENT_LENGTH = Some (content_length_value (str_len content))
    ∧ get_header resp H_CONTENT_TYPE = Some (content_type_value TEXT_HTML_UTF_8)
    ∧ resp_body resp = (if is_head method then BodyEmpty else BodyBytes content)
    ∧ content ≠ ""
    ∧ (content = generic_page status
       ∨ status = SC_NOT_FOUND ∧ content = page_file_content fs p404
       ∨ status_in status STATUS_50X = true ∧ content = page_file_content fs p50x).
Proof.
  exists (html_page method status (page_content fs status p404 p50x)),
    (page_content fs status p404 p50x).
  split_and!; try done; try (unfold html_page; headers; done).
  - unfold page_content. destruct (is_empty _) eqn:E; [done|]. by apply is_empty_false in E.
  - unfold page_content. destruct (is_empty _) eqn:E; [by left|]. right.
    revert E. destruct (status_in status STATUS_4XX).
    + destruct (status =? SC_NOT_FOUND)%Z eqn:Es; [|done]. intros _. left.
      apply Z.eqb_eq in Es. done.
    + destruct (status_in status STATUS_50X); [|done]. by right.
Qed.

Lemma error_response_Ok fs uri method status p404 p50x :
  error_response fs uri method status p404 p50x
  = Ok (html_page method status (page_content fs status p404 p50x)).
Proof. done. Qed.

End ErrorPage.
