(* ===== verification/Compression.v ===== *)
(** * Compression on the fly: [compression.rs]

    The choice of a coding from [Accept-Encoding] and the rewriting of a
    response by the chosen encoder.  The encoders are a crate: an encoded body
    stays symbolic ([BodyEncoded]), its headers are what the code sets. *)

From S2P Require Import Prelude RustStr Logger Fs FsStream ContentCoding Http HttpInstances Opts.
From S2P Require Import F32 QualityValue ErrorPage.

Definition TEXT_MIME_TYPES : list string :=
  ["application/rtf"; "application/javascript"; "application/json"; "application/xml";
   "font/ttf"; "application/font-sfnt"; "application/vnd.ms-fontobject"; "application/wasm"].

(** All compression features enabled. *)
Definition AVAILABLE_ENCODINGS : list ContentCoding := [DEFLATE; GZIP; BROTLI; ZSTD].

Definition available (c : ContentCoding) : bool := existsb (coding_eqb c) AVAILABLE_ENCODINGS.

Section Compression.
Context `{!HttpC, !HeadersC, !MatchC}.

Definition get_preferred_encoding (headers : HeaderMap) : option ContentCoding :=
  match accept_encoding headers with
  | Some ae => find_first available (sorted_encodings ae)
  | None => None
  end.

Definition get_encodings (headers : HeaderMap) : list ContentCoding :=
  match accept_encoding headers with
  | Some ae => List.filter available (sorted_encodings ae)
  | None => []
  end.

Definition is_text (mime : Mime) : bool :=
  str_eqb (mime_type_ mime) "text"
  || match mime_suffix mime with
     | Some suffix => str_eqb suffix "xml" || str_eqb suffix "json"
     | None => false
     end
  || existsb (str_eqb (mime_essence_str mime)) TEXT_MIME_TYPES.

Definition create_encoding_header (existing : option string) (coding : ContentCoding) : string :=
  match existing with
  | Some val =>
      match hv_to_str val with
      | Some str_val =>
          default (as_str coding) (hv_from_str (concat_str [str_val; ", "; as_str coding]))
      | None => as_str coding
      end
  | None => as_str coding
  end.

(** What the four wrappers share: encode the body, drop the length, set or
    extend [Content-Encoding]. *)
Definition encode_response (coding : ContentCoding) (level : AlgorithmLevel) (resp : Response) : Response :=
  let header := create_encoding_header (get_header resp H_CONTENT_ENCODING) coding in
  let resp' := set_body (BodyEncoded coding level (resp_body resp)) resp in
  put_header H_CONTENT_ENCODING header
    (del_header H_CONTENT_LENGTH (del_header H_CONTENT_ENCODING resp')).

Definition gzip (resp : Response) (level : CompressionLevel) : Response :=
  encode_response GZIP (into_algorithm_level level 4) resp.

Definition deflate (resp : Response) (level : CompressionLevel) : Response :=
  encode_response DEFLATE (into_algorithm_level level 4) resp.

Definition brotli (resp : Response) (level : CompressionLevel) : Response :=
  encode_response BROTLI (into_algorithm_level level 4) resp.

Definition zstd (resp : Response) (level : CompressionLevel) : Response :=
  encode_response ZSTD (into_algorithm_level level 3) resp.

(** [compression::auto] *)
Definition auto_compress (method : Method) (headers : HeaderMap) (level : CompressionLevel)
    (resp : Response) : Result Response Error :=
  if is_head method || is_options method then Ok resp
  else match get_preferred_encoding headers with
       | None => Ok resp
       | Some encoding =>
           let skip :=
             match typed_get decode_content_type H_CONTENT_TYPE (resp_headers resp) with
             | Some content_type => negb (is_text content_type)
             | None => false
             end in
           if skip then Ok resp
           else if coding_eqb encoding GZIP then Ok (gzip resp level)
           else if coding_eqb encoding DEFLATE then Ok (deflate resp level)
           else if coding_eqb encoding BROTLI then Ok (brotli resp level)
           else if coding_eqb encoding ZSTD then Ok (zstd resp level)
           else Ok resp
       end.

(** [compression::init], with every format enabled; the level is printed by its
    derived [Debug]. *)
Definition level_debug (level : CompressionLevel) : string :=
  match level with
  | LevelFastest => "Fastest"
  | LevelBest => "Best"
  | LevelDefault => "Default"
  end.

Definition init (enabled : bool) (level : CompressionLevel) (opts : RequestHandlerOpts)
    : Logged RequestHandlerOpts :=
  emit! server_info (concat_str ["auto compression: enabled="; show_bool enabled; ", formats=";
                                 join "," ["deflate"; "gzip"; "brotli"; "zstd"];
                                 ", compression level="; level_debug level]) in
  lret (set_compression_level level (set_compression enabled opts)).

(** [compression::post_process] *)
Definition post_process (fs : FileSystem) (opts : RequestHandlerOpts) (req : Request)
    (resp : Response) : Result Response Error :=
  if negb (compression opts) then Ok resp
  else match get_header resp H_CONTENT_ENCODING with
       | Some _ => Ok resp
       | None =>
           let resp := put_header H_VARY H_ACCEPT_ENCODING resp in
           match auto_compress (req_method req) (req_headers req) (compression_level opts) resp with
           | Ok resp => Ok resp
           | Err _ =>
               error_response fs (req_uri req) (req_method req) SC_INTERNAL_SERVER_ERROR
                 (page404 opts) (page50x opts)
           | Panic => Panic
           end
       end.

(** The level each coding uses when none is configured. *)
Definition default_level (c : ContentCoding) : Z :=
  match c with
  | ZSTD => 3
  | _ => 4
  end.

(** ** Theorems *)

Lemma available_spec c : available c = true ↔ c = DEFLATE ∨ c = GZIP ∨ c = BROTLI ∨ c = ZSTD.
Proof. destruct c; vm_compute; naive_solver. Qed.

Lemma find_first_filter {A} (f : A → bool) l : find_first f l = head (List.filter f l).
Proof. induction l as [|x l IH]; simpl; [done|]. by destruct (f x). Qed.

Lemma preferred_is_head headers : get_preferred_encoding headers = head (get_encodings headers).
Proof.
  unfold get_preferred_encoding, get_encodings. destruct (accept_encoding headers); [|done].
  apply find_first_filter.
Qed.

Lemma sorted_head_max (l1 l2 : list QualityMeta) x y :
  Sorted (λ a b, quality b ≤ quality a)%Z (l1 ++ x :: l2) → y ∈ l2 → (quality y ≤ quality x)%Z.
Proof.
  intros Hs Hy. apply Sorted_StronglySorted in Hs; [|intros ???; lia].
  induction l1 as [|z l1 IH]; simpl in Hs; inversion Hs; subst; [|by apply IH].
  match goal with H : Forall _ l2 |- _ => rewrite Forall_forall in H; by apply H end.
Qed.

(** An item of [l1] is not of an available coding, so an available item is the
    chosen one or comes after it. *)
Lemma preferred_scan l c :
  find_first available (coding_from <$> (data <$> l)) = Some c →
  ∃ l1 m l2, l = l1 ++ m :: l2 ∧ coding_from (data m) = c ∧ available c = true
             ∧ Forall (λ x, available (coding_from (data x)) = false) l1.
Proof.
  induction l as [|x l IH]; simpl; [done|].
  destruct (available (coding_from (data x))) eqn:E.
  - intros [= <-]. by exists [], x, l.
  - intros (l1 & m & l2 & -> & Hc & Ha & Hl)%IH. exists (x :: l1), m, l2. naive_solver.
Qed.

Lemma filter_app_inv {A} (f : A → bool) l l1 x l2 :
  List.filter f l = l1 ++ x :: l2 →
  ∃ k1 k2, l = k1 ++ x :: k2 ∧ List.filter f k1 = l1 ∧ List.filter f k2 = l2.
Proof.
  revert l1. induction l as [|y l IH]; intros l1; simpl; [by destruct l1|].
  destruct (f y) eqn:Hy.
  - destruct l1 as [|z l1]; simpl; intros [= <- Hl]; [by exists [], l|].
    apply IH in Hl as (k1 & k2 & -> & <- & <-). exists (y :: k1), k2. simpl. by rewrite Hy.
  - intros (k1 & k2 & -> & <- & <-)%IH. exists (y :: k1), k2. simpl. by rewrite Hy.
Qed.

(** The first item with a property, by weight, is the first of the heaviest items of
    the header that have it. *)
Lemma heaviest_first value s (P : QualityMeta → Prop) l1 m l2 :
  hv_to_str value = Some s → quality_sorted value = l1 ++ m :: l2 → Forall (λ x, ¬ P x) l1 →
  ∃ k1 k2, quality_items s = k1 ++ m :: k2
    ∧ Forall (λ x, P x → quality x < quality m)%Z k1
    ∧ Forall (λ x, P x → quality x ≤ quality m)%Z k2.
Proof.
  intros Hs Hl Hl1. destruct (quality_sorted_spec value s Hs) as (Hsort & Hperm & Hst).
  rewrite Forall_forall in Hl1.
  assert (∀ x, x ∈ quality_items s → P x → (quality x ≤ quality m)%Z) as Hmax.
  { intros x Hx HP. rewrite <- Hperm, Hl in Hx.
    apply elem_of_app in Hx as [Hx|[->|Hx]%elem_of_cons]; [by destruct (Hl1 _ Hx)|done|].
    rewrite Hl in Hsort. by eapply sorted_head_max. }
  specialize (Hst (quality m)). rewrite Hl, List.filter_app in Hst. simpl in Hst.
  rewrite Z.eqb_refl in Hst. symmetry in Hst.
  apply filter_app_inv in Hst as (k1 & k2 & Hk & Hk1 & _). exists k1, k2.
  rewrite Hk in Hmax. split_and!; [done|..]; apply Forall_forall; intros x Hx HP.
  - assert (quality x ≠ quality m) as Hne.
    { intros Hq. assert (x ∈ l1) as Hin; [|by destruct (Hl1 _ Hin)].
      eapply list_elem_of_In, (List.incl_filter (λ x, quality x =? quality m)%Z).
      rewrite <- Hk1. apply List.filter_In. split; [by apply list_elem_of_In|by apply Z.eqb_eq]. }
    specialize (Hmax x ltac:(set_solver) HP). lia.
  - apply Hmax; [set_solver|done].
Qed.

(** C23. The preferred encoding is one the server can produce and the coding of an
    item of the request's header such that every available item before it has a
    smaller weight and every available item after it at most the same: the first
    of the available items of largest weight.  There is none exactly when no item
    is available. *)
Theorem preferred_encoding_spec headers ae s :
  accept_encoding headers = Some ae → hv_to_str ae = Some s →
  match get_preferred_encoding headers with
  | Some c =>
      available c = true
      ∧ ∃ l1 m l2, quality_items s = l1 ++ m :: l2 ∧ coding_from (data m) = c
          ∧ Forall (λ m', available (coding_from (data m')) = true → quality m' < quality m)%Z l1
          ∧ Forall (λ m', available (coding_from (data m')) = true → quality m' ≤ quality m)%Z l2
  | None => ∀ m, m ∈ quality_items s → available (coding_from (data m)) = false
  end.
Proof.
  intros Hae Hs. unfold get_preferred_encoding. rewrite Hae. unfold sorted_encodings, quality_iter.
  destruct (find_first _ _) as [c|] eqn:E.
  - apply preferred_scan in E as (l1 & m & l2 & Hl & Hc & Ha & Hl1). split; [done|].
    destruct (heaviest_first ae s (λ x, available (coding_from (data x)) = true) l1 m l2 Hs Hl)
      as (k1 & k2 & Hk & H1' & H2'); [|by exists k1, m, k2].
    eapply Forall_impl; [done|]. intros x Hx. cbn in *. congruence.
  - apply find_first_None in E. rewrite Forall_forall in E. intros m Hm.
    rewrite <- (quality_sorted_perm _ _ Hs) in Hm. apply E. apply list_elem_of_fmap. eexists. split; [done|].
    apply list_elem_of_fmap. eauto.
Qed.

Lemma encode_response_headers c l resp k :
  get_header (encode_response c l resp) k =
  if bool_decide (H_CONTENT_ENCODING = k)
  then Some (create_encoding_header (get_header resp H_CONTENT_ENCODING) c)
  else if bool_decide (H_CONTENT_LENGTH = k) then None else get_header resp k.
Proof.
  unfold encode_response. rewrite get_header_put. case_bool_decide; [done|].
  rewrite !get_header_del, get_header_set_body. case_bool_decide; [done|].
  by rewrite bool_decide_eq_false_2.
Qed.

Lemma preferred_available headers c :
  get_preferred_encoding headers = Some c → available c = true.
Proof.
  unfold get_preferred_encoding. destruct (accept_encoding headers); [|done].
  by intros (? & ? & _ & ? & _)%find_first_Some.
Qed.

(** [auto]: the response is encoded exactly under the conditions of the code. *)
Lemma auto_compress_spec method headers level resp :
  ∃ resp', auto_compress method headers level resp = Ok resp'
  ∧ match get_preferred_encoding headers with
    | Some c =>
        resp' = if negb (is_head method) && negb (is_options method)
                   && match typed_get decode_content_type H_CONTENT_TYPE (resp_headers resp) with
                      | Some content_type => is_text content_type
                      | None => true
                      end
                then encode_response c (into_algorithm_level level (default_level c)) resp
                else resp
    | None => resp' = resp
    end.
Proof.
  unfold auto_compress. destruct (is_head method), (is_options method); simpl;
    try (by exists resp; destruct (get_preferred_encoding headers)).
  destruct (get_preferred_encoding headers) as [c|] eqn:Hc; [|by exists resp].
  apply preferred_available in Hc.
  destruct (typed_get _ _ _) as [ct|]; [destruct (is_text ct); simpl; [|by exists resp]|];
    apply available_spec in Hc as [->|[->|[->| ->]]]; by eexists.
Qed.

Lemma compression_post_status fs opts req resp :
  ∃ resp', post_process fs opts req resp = Ok resp' ∧ resp_status resp' = resp_status resp.
Proof.
  unfold post_process. destruct (compression opts); simpl; [|by eexists].
  destruct (get_header resp _); [by eexists|].
  destruct (auto_compress_spec (req_method req) (req_headers req) (compression_level opts)
    (put_header H_VARY H_ACCEPT_ENCODING resp)) as (r & -> & Hr).
  exists r. split; [done|]. by repeat case_match; subst r.
Qed.

(** An answer to [OPTIONS] is never encoded. *)
Lemma compression_post_options fs opts req resp :
  req_method req = OPTIONS →
  ∃ resp', post_process fs opts req resp = Ok resp' ∧ resp_body resp' = resp_body resp.
Proof.
  intros Ho. unfold post_process. destruct (compression opts); simpl; [|by eexists].
  destruct (get_header resp _); [by eexists|].
  destruct (auto_compress_spec (req_method req) (req_headers req) (compression_level opts)
    (put_header H_VARY H_ACCEPT_ENCODING resp)) as (r & -> & Hr).
  exists r. split; [done|]. rewrite Ho in Hr. simpl in Hr. by case_match; subst r.
Qed.

(** The responses that are compressed when the client accepts a coding. *)
Definition compressible (opts : RequestHandlerOpts) (req : Request) (resp : Response) : bool :=
  compression opts
  && negb (is_head (req_method req)) && negb (is_options (req_method req))
  && match get_header resp H_CONTENT_ENCODING with Some _ => false | None => true end
  && match typed_get decode_content_type H_CONTENT_TYPE (resp_headers resp) with
     | Some content_type => is_text content_type
     | None => true
     end.

(** C22. On-the-fly compression never fails and keeps the status.  A compressible
    response to a client that accepts an available coding is encoded once with
    it: [Content-Encoding] names it, [Content-Length] is dropped, [Vary] is set
    and the other headers are kept.  Any other response keeps its body and every
    header but [Vary]; one that is encoded already is untouched. *)
Theorem post_process_spec fs opts req resp :
  ∃ resp', post_process fs opts req resp = Ok resp'
  ∧ resp_status resp' = resp_status resp
  ∧ (is_Some (get_header resp H_CONTENT_ENCODING) → resp' = resp)
  ∧ match get_preferred_encoding (req_headers req), compressible opts req resp with
    | Some c, true =>
        available c = true
        ∧ resp_body resp'
          = BodyEncoded c (into_algorithm_level (compression_level opts) (default_level c))
              (resp_body resp)
        ∧ get_header resp' H_CONTENT_ENCODING = Some (as_str c)
        ∧ get_header resp' H_CONTENT_LENGTH = None
        ∧ get_header resp' H_VARY = Some H_ACCEPT_ENCODING
        ∧ ∀ k, k ∉ [H_CONTENT_ENCODING; H_CONTENT_LENGTH; H_VARY] →
            get_header resp' k = get_header resp k
    | _, _ =>
        resp_body resp' = resp_body resp
        ∧ ∀ k, k ≠ H_VARY → get_header resp' k = get_header resp k
    end.
Proof.
  unfold post_process, compressible.
  destruct (compression opts); simpl; [|by exists resp; repeat case_match; naive_solver].
  destruct (get_header resp H_CONTENT_ENCODING) eqn:Hce; simpl.
  { exists resp. rewrite andb_false_r. simpl. by repeat case_match; naive_solver. }
  set (r1 := put_header H_VARY H_ACCEPT_ENCODING resp).
  assert (typed_get decode_content_type H_CONTENT_TYPE (resp_headers r1)
          = typed_get decode_content_type H_CONTENT_TYPE (resp_headers resp)) as Hct.
  { unfold typed_get, r1, put_header. cbn [resp_headers]. rewrite hm_get_all_insert. by eval_names. }
  rewrite <- Hct, andb_true_r.
  destruct (auto_compress_spec (req_method req) (req_headers req) (compression_level opts) r1)
    as (r2 & -> & Hr2).
  exists r2. destruct (get_preferred_encoding (req_headers req)) as [c|] eqn:Hc.
  - destruct (_ && match typed_get _ _ _ with Some _ => _ | None => _ end); subst r2.
    + split_and!; try done.
      * by apply preferred_available in Hc.
      * rewrite encode_response_headers. unfold r1. rewrite !get_header_put. eval_names. cbv iota. by rewrite Hce.
      * rewrite encode_response_headers. by eval_names.
      * rewrite encode_response_headers. unfold r1. rewrite !get_header_put. by eval_names.
      * intros k Hk. rewrite encode_response_headers. unfold r1. rewrite !get_header_put.
        rewrite !not_elem_of_cons in Hk. destruct Hk as (? & ? & ? & _).
        by repeat case_bool_decide; try congruence.
    + split_and!; try done. intros k Hk. unfold r1. rewrite get_header_put. by case_bool_decide.
  - subst r2. split_and!; try done. intros k Hk. unfold r1. rewrite get_header_put. by case_bool_decide.
Qed.

End Compression.

Lemma preferred_encoding_witness :
  let headers := hm_insert H_ACCEPT_ENCODING "gzip;q=0.5, br;q=0.9, zstd;q=0.1" hm_new in
  match get_preferred_encoding headers with
  | Some c => available c = true
  | None => False
  end.
Proof.
  intros headers.
  pose proof (preferred_encoding_spec headers "gzip;q=0.5, br;q=0.9, zstd;q=0.1"
    "gzip;q=0.5, br;q=0.9, zstd;q=0.1" ltac:(vm_compute; reflexivity) ltac:(vm_compute; reflexivity)) as Hp.
  destruct (get_preferred_encoding headers) as [c|] eqn:E; [apply Hp|].
  assert (is_Some (get_preferred_encoding headers)) as [c Hc] by (vm_compute; by eexists). congruence.
Defined.
