(* ===== verification/CompressionStatic.v ===== *)
(** * Pre-compressed files: [compression_static.rs] *)

From S2P Require Import Prelude RustStr Logger RustPath Fs FsStream ContentCoding Http.
From S2P Require Import HttpInstances Opts FsMeta F32 QualityValue ErrorPage Compression.

Record CompressedFileVariant : Type := {
  cv_file_path : string;
  cv_metadata : Metadata;
  cv_encoding : ContentCoding
}.

(** The extension of each coding's files. *)
Definition comp_ext (encoding : ContentCoding) : option string :=
  match encoding with
  | GZIP | DEFLATE => Some "gz"
  | BROTLI => Some "br"
  | ZSTD => Some "zst"
  | _ => None
  end.

(** One round of the loop: [None] is [continue]. *)
Definition try_variant (fs : FileSystem) (file_path : string) (encoding : ContentCoding)
    : option CompressedFileVariant :=
  match comp_ext encoding with
  | None => None
  | Some ext =>
      match file_name file_path ≫= to_str with
      | None => None
      | Some comp_name =>
          let file_path := set_file_name file_path (concat_str [comp_name; "."; ext]) in
          match try_metadata fs file_path with
          | Ok (metadata, is_dir) =>
              if is_dir then None
              else Some {| cv_file_path := file_path; cv_metadata := metadata;
                           cv_encoding := encoding |}
          | _ => None
          end
      end
  end.

Fixpoint variant_loop (fs : FileSystem) (file_path : string) (encodings : list ContentCoding)
    : option CompressedFileVariant :=
  match encodings with
  | [] => None
  | encoding :: rest =>
      match try_variant fs file_path encoding with
      | Some v => Some v
      | None => variant_loop fs file_path rest
      end
  end.

Section CompressionStatic.
Context `{!HttpC, !HeadersC, !MatchC}.

(** [compression_static::init] *)
Definition init (enabled : bool) (opts : RequestHandlerOpts) : Logged RequestHandlerOpts :=
  emit! server_info (concat_str ["compression static: enabled="; show_bool enabled]) in
  lret (set_compression_static enabled opts).

(** [compression_static::post_process] *)
Definition post_process (opts : RequestHandlerOpts) (req : Request) (resp : Response)
    : Result Response Error :=
  if negb (compression_static opts) then Ok resp
  else Ok (put_header H_VARY H_ACCEPT_ENCODING resp).

Definition precompressed_variant (fs : FileSystem) (file_path : string) (headers : HeaderMap)
    : option CompressedFileVariant :=
  variant_loop fs file_path (get_encodings headers).

End CompressionStatic.

(** ** Theorems *)

Lemma variant_name_valid name ext :
  valid_name name → ext = "gz" ∨ ext = "br" ∨ ext = "zst" →
  valid_name (concat_str [name; "."; ext]).
Proof.
  intros Hn Hext. simpl. rewrite append_nil_r. apply valid_name_app; [done| |].
  - by destruct Hext as [-> |[-> | ->]].
  - destruct Hext as [-> |[-> | ->]]; simpl; lia.
Qed.

Lemma comp_ext_cases c ext : comp_ext c = Some ext → ext = "gz" ∨ ext = "br" ∨ ext = "zst".
Proof. destruct c; naive_solver. Qed.

(** A variant is a file next to the requested one: its name is the name of the
    file, a dot and the coding's extension. *)
Lemma try_variant_Some fs p c v :
  try_variant fs p c = Some v →
  ∃ name ext, file_name p = Some name ∧ comp_ext c = Some ext ∧ cv_encoding v = c
    ∧ fs_metadata fs (cv_file_path v) = Ok (cv_metadata v)
    ∧ kind_is_dir (meta_kind (cv_metadata v)) = false
    ∧ components (cv_file_path v) = components (pop p) ++ [Normal (concat_str [name; "."; ext])].
Proof.
  unfold try_variant. destruct (comp_ext c) as [ext|] eqn:Hext; [|done].
  destruct (file_name p ≫= to_str) as [name|] eqn:Hn; [|done].
  apply bind_Some in Hn as (name' & Hf & Hto). apply to_str_Some in Hto as ->.
  destruct (file_name_Some _ _ Hf) as [Hv _].
  destruct (try_metadata _ _) as [[m d]| |] eqn:Hm; [|done|done].
  destruct d; [done|]. intros [= <-]. apply try_metadata_Ok in Hm as [Hm Hd]. simpl.
  do 2 eexists. split_and!; try done.
  apply (components_set_file_name _ name'); [done|].
  eapply variant_name_valid; [done|]. by eapply comp_ext_cases.
Qed.

Lemma variant_loop_Some fs p l v :
  variant_loop fs p l = Some v →
  ∃ l1 c l2, l = l1 ++ c :: l2 ∧ try_variant fs p c = Some v
             ∧ Forall (λ c', try_variant fs p c' = None) l1.
Proof.
  induction l as [|c l IH]; simpl; [done|].
  destruct (try_variant fs p c) as [v'|] eqn:E.
  - intros [= <-]. by exists [], c, l.
  - intros (l1 & c' & l2 & -> & ? & ?)%IH. exists (c :: l1), c', l2. naive_solver.
Qed.

Lemma variant_loop_None fs p l :
  variant_loop fs p l = None ↔ Forall (λ c, try_variant fs p c = None) l.
Proof.
  induction l as [|c l IH]; simpl; [naive_solver|].
  rewrite Forall_cons. destruct (try_variant fs p c); naive_solver.
Qed.

Section Theorems.
Context `{!HttpC, !HeadersC, !MatchC}.

Lemma get_encodings_available headers c : c ∈ get_encodings headers → available c = true.
Proof.
  unfold get_encodings. destruct (accept_encoding headers); [|by intros ?%not_elem_of_nil].
  by intros [_ ?]%list_elem_of_In%List.filter_In.
Qed.

(** What the caller learns of a chosen variant. *)
Lemma precompressed_variant_Some fs p headers v :
  precompressed_variant fs p headers = Some v →
  available (cv_encoding v) = true
  ∧ try_variant fs p (cv_encoding v) = Some v
  ∧ fs_metadata fs (cv_file_path v) = Ok (cv_metadata v)
  ∧ kind_is_dir (meta_kind (cv_metadata v)) = false.
Proof.
  intros (l1 & c & l2 & Hl & Hv & _)%variant_loop_Some.
  destruct (try_variant_Some _ _ _ _ Hv) as (name & ext & _ & _ & <- & Hm & Hd & _).
  split_and!; try done. apply (get_encodings_available headers). rewrite Hl. set_solver.
Qed.

(** The pre-compressed form of a file for a coding: the file beside it whose name
    has the extension of the coding added, if it exists and is not a directory. *)
Definition has_variant (fs : FileSystem) (p : string) (c : ContentCoding) (q : string) (meta : Metadata) : Prop :=
  ∃ name ext, (c, ext) ∈ [(GZIP, "gz"); (DEFLATE, "gz"); (BROTLI, "br"); (ZSTD, "zst")]
    ∧ file_name p = Some name ∧ to_str name = Some name
    ∧ q = set_file_name p (name +:+ "." +:+ ext)
    ∧ fs_metadata fs q = Ok meta ∧ meta_kind meta ≠ KDir.

Lemma try_variant_iff fs p c q meta :
  try_variant fs p c = Some {| cv_file_path := q; cv_metadata := meta; cv_encoding := c |}
  ↔ has_variant fs p c q meta.
Proof.
  unfold try_variant, has_variant.
  assert (∀ ext, comp_ext c = Some ext
    ↔ (c, ext) ∈ [(GZIP, "gz"); (DEFLATE, "gz"); (BROTLI, "br"); (ZSTD, "zst")]) as Hext.
  { intros ext. rewrite !elem_of_cons, elem_of_nil. destruct c; naive_solver. }
  assert (∀ k, kind_is_dir k = false ↔ k ≠ KDir) as Hk by (by intros []).
  destruct (comp_ext c) as [ext|] eqn:He; [|split; [done|intros (? & ext & Hin & _); by apply Hext in Hin]].
  destruct (file_name p) as [name|] eqn:Hf; simpl; [|naive_solver].
  destruct (to_str name) as [name'|] eqn:Ht; [|naive_solver]. pose proof (to_str_Some _ _ Ht) as ->.
  rewrite append_nil_r. unfold try_metadata. split.
  - destruct (fs_metadata fs _) as [m| |] eqn:Hm; [|done..]. destruct (kind_is_dir _) eqn:Hd; [done|].
    intros [= <- <-]. exists name, ext. split_and!; try done; [by apply Hext|by apply Hk].
  - intros (? & ext' & Hin & [= <-] & _ & -> & Hm & Hd%Hk). apply Hext in Hin as [= <-]. by rewrite Hm, Hd.
Qed.

Lemma variant_loop_first fs p (l : list QualityMeta) :
  match variant_loop fs p (List.filter available (coding_from <$> (data <$> l))) with
  | Some v => ∃ l1 m l2, l = l1 ++ m :: l2 ∧ coding_from (data m) = cv_encoding v
      ∧ has_variant fs p (cv_encoding v) (cv_file_path v) (cv_metadata v)
      ∧ Forall (λ x, ¬ ∃ q meta, has_variant fs p (coding_from (data x)) q meta) l1
  | None => Forall (λ x, ¬ ∃ q meta, has_variant fs p (coding_from (data x)) q meta) l
  end.
Proof.
  induction l as [|x l IH]; simpl; [done|].
  assert (try_variant fs p (coding_from (data x)) = None
          ∨ available (coding_from (data x)) = false →
          ¬ ∃ q meta, has_variant fs p (coding_from (data x)) q meta) as Hnone.
  { intros Hx (q & meta & Hv). pose proof Hv as (? & ext & Hin & _). apply try_variant_iff in Hv.
    destruct Hx as [Hx|Hx]; [congruence|].
    rewrite !elem_of_cons, elem_of_nil in Hin. destruct (coding_from (data x)); naive_solver. }
  destruct (available (coding_from (data x))) eqn:Ha; simpl.
  - destruct (try_variant fs p (coding_from (data x))) as [v|] eqn:Hv.
    + destruct (try_variant_Some _ _ _ _ Hv) as (_ & _ & _ & _ & Hc & _).
      exists [], x, l. split_and!; [done|done| |done]. rewrite Hc. apply try_variant_iff.
      destruct v. simpl in *. by subst.
    + destruct (variant_loop fs p _); [|by constructor; auto].
      destruct IH as (l1 & m & l2 & -> & Hm & Hv' & Hl). exists (x :: l1), m, l2.
      split_and!; [done..|]. constructor; auto.
  - destruct (variant_loop fs p _); [|by constructor; auto].
    destruct IH as (l1 & m & l2 & -> & Hm & Hv' & Hl). exists (x :: l1), m, l2.
    split_and!; [done..|]. constructor; auto.
Qed.

(** C24. The chosen variant is the pre-compressed form of the file for the coding of an
    item of [Accept-Encoding], the first of those of largest weight that have one:
    every item before it that has one has a smaller weight, and every item after it
    at most the same.  None is chosen exactly when no item has one. *)
Theorem precompressed_variant_spec fs p headers :
  match accept_encoding headers ≫= hv_to_str with
  | Some s =>
      let has m := ∃ q meta, has_variant fs p (coding_from (data m)) q meta in
      match precompressed_variant fs p headers with
      | Some v => ∃ l1 m l2, quality_items s = l1 ++ m :: l2 ∧ coding_from (data m) = cv_encoding v
          ∧ has_variant fs p (cv_encoding v) (cv_file_path v) (cv_metadata v)
          ∧ Forall (λ m', has m' → quality m' < quality m)%Z l1
          ∧ Forall (λ m', has m' → quality m' ≤ quality m)%Z l2
      | None => Forall (λ m, ¬ has m) (quality_items s)
      end
  | None => precompressed_variant fs p headers = None
  end.
Proof.
  unfold precompressed_variant, get_encodings. destruct (accept_encoding headers) as [ae|]; [|done]. simpl.
  unfold sorted_encodings, quality_iter. destruct (hv_to_str ae) as [s|] eqn:Hs; [|unfold quality_sorted; by rewrite Hs].
  pose proof (variant_loop_first fs p (quality_sorted ae)) as Hv.
  destruct (variant_loop fs p _) as [v|].
  - destruct Hv as (l1 & m & l2 & Hl & Hm & Hv & Hl1).
    destruct (heaviest_first ae s (λ x, ∃ q meta, has_variant fs p (coding_from (data x)) q meta) l1 m l2 Hs Hl Hl1)
      as (k1 & k2 & Hk & H1' & H2'). by exists k1, m, k2.
  - by rewrite <- (quality_sorted_perm _ _ Hs).
Qed.

End Theorems.

(** A client that only accepts [deflate] is served the gzip file, labelled
    [deflate]: the two formats differ. *)
Theorem deflate_serves_gzip_file :
  let fs := table_fs [file_node "/r/a.js" "x" 1; file_node "/r/a.js.gz" "gz" 1] in
  precompressed_variant fs "/r/a.js" (hm_insert H_ACCEPT_ENCODING "deflate" hm_new)
  = Some {| cv_file_path := "/r/a.js.gz"; cv_metadata := node_meta (file_node "/r/a.js.gz" "gz" 1);
            cv_encoding := DEFLATE |}.
Proof. vm_compute. reflexivity. Qed.
