(* ===== verification/ConditionalHeaders.v ===== *)
(** * Conditional requests: [conditional_headers.rs] *)

From S2P Require Import Prelude RustStr Fs FsStream ContentCoding Http HttpInstances.

Section ConditionalHeaders.
Context `{!HttpC, !HeadersC}.

Record ConditionalHeaders : Type := {
  if_modified_since : option HttpDate;
  if_unmodified_since : option HttpDate;
  if_range : option IfRange;
  range : option Range
}.

Inductive ConditionalBody : Type :=
| NoBody (resp : Response)
| WithBody (range : option Range).

(** [ConditionalHeaders::new] *)
Definition conditionals_new (headers : HeaderMap) : ConditionalHeaders := {|
  if_modified_since := typed_get decode_if_modified_since H_IF_MODIFIED_SINCE headers;
  if_unmodified_since := typed_get decode_if_unmodified_since H_IF_UNMODIFIED_SINCE headers;
  if_range := typed_get decode_if_range H_IF_RANGE headers;
  range := typed_get decode_range H_RANGE headers
|}.

(** [ConditionalHeaders::check]: the three tests in the order of the code, each
    with its early return. *)
Definition check (c : ConditionalHeaders) (last_modified : option HttpDate) : ConditionalBody :=
  let precondition :=
    match if_unmodified_since c with
    | Some since => default false (ius_precondition_passes since <$> last_modified)
    | None => true
    end in
  if negb precondition then
    NoBody (set_status SC_PRECONDITION_FAILED (response_new BodyEmpty))
  else
    let unmodified :=
      match if_modified_since c with
      | Some since => default false ((λ time, negb (ims_is_modified since time)) <$> last_modified)
      | None => false
      end in
    if unmodified then NoBody (set_status SC_NOT_MODIFIED (response_new BodyEmpty))
    else
      match if_range c with
      | Some ifr =>
          let can_range := negb (if_range_is_modified ifr last_modified) in
          if negb can_range then WithBody None else WithBody (range c)
      | None => WithBody (range c)
      end.

(** ** Theorems *)

(** The result of the checks as one decision table: 412 when there is an
    [If-Unmodified-Since] that fails (or no date to compare), else 304 when
    [If-Modified-Since] is not older than the file, else the body, with the
    range dropped when [If-Range] does not match. *)
Definition check_table (c : ConditionalHeaders) (lm : option HttpDate) : option StatusCode * option Range :=
  let fails := match if_unmodified_since c, lm with
               | Some s, Some t => negb (ius_precondition_passes s t)
               | Some _, None => true
               | None, _ => false
               end in
  let fresh := match if_modified_since c, lm with
               | Some s, Some t => negb (ims_is_modified s t)
               | _, _ => false
               end in
  let stale := match if_range c with Some r => if_range_is_modified r lm | None => false end in
  if fails then (Some SC_PRECONDITION_FAILED, None)
  else if fresh then (Some SC_NOT_MODIFIED, None)
  else (None, if stale then None else range c).

Lemma check_cases c lm :
  match check c lm with
  | NoBody r =>
      (resp_status r = SC_PRECONDITION_FAILED ∧ is_Some (if_unmodified_since c)
       ∨ resp_status r = SC_NOT_MODIFIED ∧ is_Some (if_modified_since c) ∧ is_Some lm)
      ∧ resp_body r = BodyEmpty ∧ resp_headers r = hm_new
  | WithBody o => o = None ∨ o = range c
  end.
Proof.
  unfold check.
  destruct (if_unmodified_since c), lm, (if_modified_since c), (if_range c); simpl;
    repeat case_goal; simplify_eq/=; eauto 10.
Qed.

(** The early returns of [check] compute the decision table. *)
Theorem check_table_spec c lm :
  check_table c lm =
  match check c lm with
  | NoBody r => (Some (resp_status r), None)
  | WithBody o => (None, o)
  end.
Proof.
  unfold check, check_table.
  destruct (if_unmodified_since c) as [s|], lm as [t|]; simpl;
    destruct (if_modified_since c) as [s'|]; simpl;
    destruct (if_range c) as [i|]; simpl; repeat case_goal; simplify_eq/=; done.
Qed.

End ConditionalHeaders.
