(* ===== verification/ResponseBody.v ===== *)
(** * From a file to a response: [response.rs]

    The byte range a request asks for and the response with its status,
    headers and body stream. *)

From S2P Require Import Prelude RustStr RustPath Fs FsStream ContentCoding Http HttpInstances.
From S2P Require Import ConditionalHeaders Opts.

(** [BadRangeError] is a unit struct. *)
Inductive BadRangeError : Type := MkBadRangeError.

(** The closure of [bytes_range] on one pair of bounds.  [b + 1] is computed on
    64 bits and wraps. *)
Definition range_of_bounds (max_len : Z) (bounds : Bound * Bound)
    : Result (Z * Z) BadRangeError :=
  let pair :=
    match bounds with
    | (Unbounded, Unbounded) => Ok (0, max_len)%Z
    | (Included a, Included b) =>
        if (b <? a)%Z then Err MkBadRangeError
        else Ok (a, if (b =? max_len)%Z then b else wrap_u64 (b + 1))
    | (Included a, Unbounded) => Ok (a, max_len)
    | (Unbounded, Included b) =>
        if (max_len <? b)%Z then Ok (0, max_len)%Z else Ok (max_len - b, max_len)%Z
    | _ => Panic
    end in
  match pair with
  | Ok (start, end_) =>
      if ((start <? end_) && (end_ <=? max_len))%Z then Ok (start, end_)
      else if ((start <? end_) && (start <=? max_len))%Z then Ok (start, max_len)
      else Err MkBadRangeError
  | Err e => Err e
  | Panic => Panic
  end.

(** Only the first pair of bounds is looked at ([map] is lazy, then [next]). *)
Definition bytes_range (range : option Range) (max_len : Z) : Result (Z * Z) BadRangeError :=
  match range with
  | None => Ok (0, max_len)%Z
  | Some [] => Err MkBadRangeError
  | Some (bounds :: _) => range_of_bounds max_len bounds
  end.

(** ** The range a request means

    What RFC 9110 (14.1.1, 14.1.2 and 14.2) lets a server do with one byte range of a
    representation of [len] bytes, as the half-open interval to send or an error.  An
    int-range is satisfiable when it starts before the end, and its last position is
    clamped; a suffix-range is satisfiable when its length is not zero, and all is
    sent of a shorter representation.  A range that is not satisfiable is an error.
    A range that is not valid (it ends before it starts, or has no position at all)
    may be ignored, so that all is sent, or rejected. *)
Inductive rfc_allows (len : Z) : Bound * Bound → Result (Z * Z) BadRangeError → Prop :=
| RfcInt first last :
    (first ≤ last)%Z → (first < len)%Z →
    rfc_allows len (Included first, Included last) (Ok (first, Z.min (last + 1) len))
| RfcFrom first :
    (first < len)%Z → rfc_allows len (Included first, Unbounded) (Ok (first, len))
| RfcSuffix n :
    (0 < n)%Z → rfc_allows len (Unbounded, Included n) (Ok (len - Z.min n len, len)%Z)
| RfcIntUnsatisfiable first last :
    (first ≤ last)%Z → (len ≤ first)%Z →
    rfc_allows len (Included first, Included last) (Err MkBadRangeError)
| RfcFromUnsatisfiable first :
    (len ≤ first)%Z → rfc_allows len (Included first, Unbounded) (Err MkBadRangeError)
| RfcSuffixUnsatisfiable :
    rfc_allows len (Unbounded, Included 0%Z) (Err MkBadRangeError)
| RfcInvalidInt first last r :
    (last < first)%Z → r ∈ [Ok (0%Z, len); Err MkBadRangeError] →
    rfc_allows len (Included first, Included last) r
| RfcInvalid r :
    r ∈ [Ok (0%Z, len); Err MkBadRangeError] → rfc_allows len (Unbounded, Unbounded) r.

(** Where [bytes_range] departs from it: a range that starts right at the end of the
    file and ends later (an empty range is sent), a satisfiable range whose last
    position is 2^64 - 1 (refused), and a suffix of an empty file (refused). *)
Definition range_exception (len : Z) (bounds : Bound * Bound) : Prop :=
  match bounds with
  | (Included a, Included b) => a = len ∧ (len < b < u64_max)%Z ∨ b = u64_max ∧ (a < len < b)%Z
  | (Unbounded, Included n) => len = 0%Z ∧ (0 < n)%Z
  | _ => False
  end.

Section ResponseBody.
Context `{!HttpC, !HeadersC}.

Definition unsatisfied_response (len : Z) : Response :=
  put_header H_CONTENT_RANGE (content_range_unsatisfied len)
    (set_status SC_RANGE_NOT_SATISFIABLE (response_new BodyEmpty)).

(** The headers every successful file response ends with. *)
Definition insert_file_headers (len : Z) (content_type : Mime) (modified : option HttpDate)
    (resp : Response) : Response :=
  let resp := put_header H_CONTENT_LENGTH (content_length_value len) resp in
  let resp := put_header H_CONTENT_TYPE (content_type_value content_type) resp in
  let resp := put_header H_ACCEPT_RANGES accept_ranges_bytes resp in
  match modified with
  | Some last_modified => put_header H_LAST_MODIFIED (last_modified_value last_modified) resp
  | None => resp
  end.

(** Status and headers for the bytes [start..end_] of a file of [len] bytes. *)
Definition range_response (start end_ len : Z) (content_type : Mime)
    (modified : option HttpDate) (body : Body) : Response :=
  let sub_len := (end_ - start)%Z in
  let resp := response_new body in
  if negb (sub_len =? len)%Z then
    match content_range_bytes start end_ len with
    | Some range =>
        insert_file_headers sub_len content_type modified
          (put_header H_CONTENT_RANGE range (set_status SC_PARTIAL_CONTENT resp))
    | None => unsatisfied_response len
    end
  else insert_file_headers len content_type modified resp.

(** [meta.modified().ok().filter(|&t| t != UNIX_EPOCH).map(LastModified::from)] *)
Definition last_modified_of (meta : Metadata) : option HttpDate :=
  match meta_modified meta with
  | Some t => if (t =? UNIX_EPOCH)%Z then None else Some (http_date_from t)
  | None => None
  end.

(** The body stream: cached while it is read when the file is small enough and
    its path is valid UTF-8. *)
Definition file_body (path : string) (len : Z) (content_type : Mime) (modified : option HttpDate)
    (memory_cache : option MemCacheOpts) (reader : Reader) (bsz : Z) : Body :=
  match memory_cache with
  | Some mem_cache_opts =>
      if (len <=? max_file_size mem_cache_opts)%Z then
        match to_str path with
        | Some file_path =>
            BodyMemFile {|
              ms_reader := reader;
              ms_buf_size := bsz;
              mem_opts := Some {| temp_file_path := file_path; temp_content_type := content_type;
                                  temp_last_modified := modified |};
              mem_buf := Some ("", len)
            |}
        | None => BodyFile {| reader := reader; buf_size := bsz |}
        end
      else BodyFile {| reader := reader; buf_size := bsz |}
  | None => BodyFile {| reader := reader; buf_size := bsz |}
  end.

(** [file.seek(SeekFrom::Start(start))] followed by [take(sub_len)] *)
Definition seek_take (file : OpenFile) (start sub_len : Z) : Reader := {|
  rd_data := str_drop (Z.to_nat start) <$> of_data file;
  rd_limit := sub_len
|}.

Definition response_body (file : OpenFile) (path : string) (meta : Metadata)
    (conditionals : ConditionalHeaders) (memory_cache : option MemCacheOpts)
    : Result Response StatusCode :=
  let len := meta_len meta in
  let modified := last_modified_of meta in
  match check conditionals modified with
  | NoBody resp => Ok resp
  | WithBody range =>
      let bsz := optimal_buf_size meta in
      match bytes_range range len with
      | Ok (start, end_) =>
          if negb (of_seek file start) then Err SC_INTERNAL_SERVER_ERROR
          else
            let reader := seek_take file start (end_ - start) in
            let content_type := mime_guess_from_path path in
            let body := file_body path len content_type modified memory_cache reader bsz in
            Ok (range_response start end_ len content_type modified body)
      | Err MkBadRangeError => Ok (unsatisfied_response len)
      | Panic => Panic
      end
  end.

End ResponseBody.

(** The stream behind a body that is read from a file. *)
Definition body_stream `{!HttpC, !HeadersC} (b : Body) : option FileStream :=
  match b with
  | BodyFile st => Some st
  | BodyMemFile st => Some {| reader := ms_reader st; buf_size := ms_buf_size st |}
  | _ => None
  end.

(** ** Theorems: ranges *)

Lemma range_of_bounds_spec len s e :
  is_u64 len → bound_ok s → bound_ok e →
  match range_of_bounds len (s, e) with
  | Ok (a, b) => (0 ≤ a ≤ b)%Z ∧ (b ≤ len)%Z ∧ ((a < b)%Z ∨ a = len)
  | Err _ => True
  | Panic => False
  end.
Proof.
  intros Hl Hs He. unfold range_of_bounds.
  assert (∀ z, 0 ≤ wrap_u64 z)%Z as Hw by (intros z; apply wrap_u64_range). unfold is_u64 in Hl.
  destruct s as [a|a|], e as [b|b|]; simpl in *; unfold is_u64 in *; try done;
    repeat case_goal; simplify_eq/=; try done;
    repeat match goal with
    | H : _ && _ = true |- _ => apply andb_true_iff in H as [? ?]
    end; try lia.
Qed.

Lemma bytes_range_bounds range len :
  is_u64 len → (∀ r, range = Some r → Forall (λ p, bound_ok p.1 ∧ bound_ok p.2) r) →
  match bytes_range range len with
  | Ok (a, b) => (0 ≤ a ≤ b)%Z ∧ (b ≤ len)%Z ∧ ((a < b)%Z ∨ a = len ∨ range = None)
  | Err _ => True
  | Panic => False
  end.
Proof.
  intros Hl Hr. destruct range as [[|[s e] r]|]; simpl; [done| |unfold is_u64 in *; lia].
  specialize (Hr _ eq_refl). inversion_clear Hr as [|?? [Hs He] _].
  pose proof (range_of_bounds_spec len s e Hl Hs He) as H.
  destruct (range_of_bounds len (s, e)) as [[]| |]; naive_solver.
Qed.

Lemma wrap_succ b : is_u64 b → b ≠ u64_max → wrap_u64 (b + 1) = (b + 1)%Z.
Proof. intros. apply wrap_u64_small. unfold is_u64 in *. lia. Qed.

Lemma range_of_bounds_rfc len s e :
  is_u64 len → bound_ok s → bound_ok e → ¬ range_exception len (s, e) →
  rfc_allows len (s, e) (range_of_bounds len (s, e)).
Proof.
  intros Hl Hs He Hex. unfold range_of_bounds, is_u64 in *.
  destruct s as [a|a|], e as [b|b|]; simpl in Hs, He, Hex; try done; unfold is_u64 in *.
  - destruct (decide (b < a)%Z) as [Hba|Hba].
    { rewrite (proj2 (Z.ltb_lt b a)) by done. apply RfcInvalidInt; [done|]. right. left. }
    rewrite (proj2 (Z.ltb_ge b a)) by lia. destruct (decide (a < len)%Z) as [Hal|Hal].
    + assert (b ≠ u64_max ∨ b = len) as Hbm by lia.
      destruct (Z.eqb_spec b len) as [->|Hbl].
      { rewrite (proj2 (Z.ltb_lt a len)), (proj2 (Z.leb_le len len)) by lia. simpl.
        replace (a, len) with (a, Z.min (len + 1) len) by (f_equal; lia). constructor; lia. }
      rewrite wrap_u64_small by (unfold is_u64; lia). rewrite (proj2 (Z.ltb_lt a (b + 1))) by lia. simpl.
      destruct (Z.leb_spec (b + 1) len).
      * replace (a, (b + 1)%Z) with (a, Z.min (b + 1) len) by (f_equal; lia). constructor; lia.
      * rewrite (proj2 (Z.leb_le a len)) by lia.
        replace (a, len) with (a, Z.min (b + 1) len) by (f_equal; lia). constructor; lia.
    + assert (((if (b =? len)%Z then b else wrap_u64 (b + 1)) ≤ a ∨ len < a)%Z) as Hend.
      { destruct (Z.eqb_spec b len); [lia|]. destruct (decide (b = u64_max)) as [->|Hb]; [left; vm_compute (wrap_u64 _); lia|].
        rewrite wrap_u64_small by (unfold is_u64; lia). lia. }
      destruct Hend as [Hend|Hend].
      * rewrite (proj2 (Z.ltb_ge a _) Hend). simpl. apply RfcIntUnsatisfiable; lia.
      * rewrite (proj2 (Z.leb_gt a len)) by done. rewrite andb_false_r.
        destruct (Z.leb_spec (if (b =? len)%Z then b else wrap_u64 (b + 1)) len).
        { rewrite (proj2 (Z.ltb_ge a _)) by lia. simpl. apply RfcIntUnsatisfiable; lia. }
        rewrite andb_false_r. apply RfcIntUnsatisfiable; lia.
  - rewrite Z.leb_refl, andb_true_r. destruct (Z.ltb_spec a len); [by constructor|].
    simpl. constructor; lia.
  - destruct (decide (b = 0)%Z) as [->|Hb].
    { rewrite (proj2 (Z.ltb_ge len 0)) by lia. rewrite Z.sub_0_r, Z.ltb_irrefl. simpl. constructor. }
    destruct (Z.ltb_spec len b).
    + rewrite (proj2 (Z.ltb_lt 0 len)), Z.leb_refl by lia. simpl.
      replace (0%Z, len) with ((len - Z.min b len)%Z, len) by (f_equal; lia). constructor; lia.
    + rewrite (proj2 (Z.ltb_lt (len - b) len)), Z.leb_refl by lia. simpl.
      replace ((len - b)%Z, len) with ((len - Z.min b len)%Z, len) by (f_equal; lia). constructor; lia.
  - rewrite Z.leb_refl, andb_true_r. destruct (Z.ltb_spec 0 len); constructor; [left|right; left].
Qed.

Lemma range_exceptions_differ len s e :
  is_u64 len → bound_ok s → bound_ok e → range_exception len (s, e) →
  ¬ rfc_allows len (s, e) (range_of_bounds len (s, e)).
Proof.
  intros Hl Hs He Hex. unfold range_of_bounds, is_u64 in *.
  destruct s as [a|a|], e as [b|b|]; simpl in Hs, He, Hex; try done; unfold is_u64 in *.
  - destruct Hex as [(-> & Hb)|(-> & Ha)].
    + rewrite (proj2 (Z.ltb_ge b len)), (proj2 (Z.eqb_neq b len)) by lia.
      rewrite wrap_u64_small by (unfold is_u64; lia).
      rewrite (proj2 (Z.ltb_lt len (b + 1))), (proj2 (Z.leb_gt (b + 1) len)), Z.leb_refl by lia. simpl.
      inversion 1; lia.
    + rewrite (proj2 (Z.ltb_ge _ a)), (proj2 (Z.eqb_neq _ len)) by lia.
      change (wrap_u64 (u64_max + 1)) with 0%Z. rewrite (proj2 (Z.ltb_ge a 0)) by lia. simpl. inversion 1; lia.
  - destruct Hex as [-> Hb]. rewrite (proj2 (Z.ltb_lt 0 b)) by lia. simpl. inversion 1; lia.
Qed.

(** C7. A header with one byte range: what the code selects is what RFC 9110 allows,
    except in the three cases of [range_exception], where it is not. *)
Theorem bytes_range_rfc len s e :
  is_u64 len → bound_ok s → bound_ok e →
  rfc_allows len (s, e) (bytes_range (Some [(s, e)]) len) ↔ ¬ range_exception len (s, e).
Proof.
  intros Hl Hs He. split.
  - intros Ha Hex. by apply (range_exceptions_differ len s e).
  - by apply range_of_bounds_rfc.
Qed.

(** A range that starts right after the last byte and ends later is answered
    with an empty range instead of the error. *)
Theorem range_at_end_is_empty :
  bytes_range (Some [(Included 10, Included 20)]) 10 = Ok (10, 10)%Z
  ∧ ¬ rfc_allows 10 (Included 10, Included 20)%Z (Ok (10, 10)%Z).
Proof.
  assert (bytes_range (Some [(Included 10, Included 20)]) 10 = Ok (10, 10)%Z) as Hr by reflexivity.
  split; [done|]. rewrite <- Hr. apply range_exceptions_differ; unfold is_u64, u64_max; simpl; unfold is_u64, u64_max; lia.
Qed.

(** The last byte position 2^64 - 1 wraps to 0: a range that has every byte of
    the file available is refused. *)
Theorem range_last_byte_wraps :
  bytes_range (Some [(Included 0, Included u64_max)]) 10 = Err MkBadRangeError
  ∧ rfc_allows 10 (Included 0, Included u64_max)%Z (Ok (0, 10)%Z).
Proof. split; [reflexivity|]. apply (RfcInt 10 0 u64_max); unfold u64_max; lia. Qed.

(** A suffix of an empty file is refused, although it is satisfiable. *)
Theorem suffix_of_empty_refused :
  bytes_range (Some [(Unbounded, Included 5)]) 0 = Err MkBadRangeError
  ∧ rfc_allows 0 (Unbounded, Included 5)%Z (Ok (0, 0)%Z).
Proof. split; [reflexivity|]. apply (RfcSuffix 0 5). lia. Qed.

Lemma bytes_range_rfc_witness :
  rfc_allows 10 (Included 2, Included 50)%Z (bytes_range (Some [(Included 2, Included 50)]) 10).
Proof.
  apply (bytes_range_rfc 10 (Included 2) (Included 50)); vm_compute; intuition congruence.
Defined.

(** ** Theorems: responses *)

Section ResponseTheorems.
Context `{!HttpC, !HeadersC}.

Lemma conditionals_range_ok headers r :
  range (conditionals_new headers) = Some r → Forall (λ p, bound_ok p.1 ∧ bound_ok p.2) r.
Proof.
  simpl. unfold typed_get. destruct (hm_get_all headers H_RANGE); [done|].
  apply decode_range_bounds.
Qed.

(** The range that passes the conditionals has good bounds and selects bytes of
    the file. *)
Lemma checked_range headers lm len rng :
  is_u64 len → check (conditionals_new headers) lm = WithBody rng →
  match bytes_range rng len with
  | Ok (a, b) => (0 ≤ a ≤ b)%Z ∧ (b ≤ len)%Z
  | Err _ => True
  | Panic => False
  end.
Proof.
  intros Hl Hc. pose proof (check_cases (conditionals_new headers) lm) as Hk. rewrite Hc in Hk.
  pose proof (bytes_range_bounds rng len Hl) as Hb.
  destruct (bytes_range rng len) as [[a b]| |]; [|done|].
  - destruct Hb as (? & ? & _); [|done]. intros r ->.
    destruct Hk as [?|Hk]; [done|]. by apply (conditionals_range_ok headers).
  - destruct Hb. intros r ->.
    destruct Hk as [?|Hk]; [done|]. by apply (conditionals_range_ok headers).
Qed.

Lemma get_insert_file_headers len ct m resp k :
  get_header (insert_file_headers len ct m resp) k =
  if bool_decide (H_LAST_MODIFIED = k) then
    match m with Some lm => Some (last_modified_value lm) | None => get_header resp k end
  else if bool_decide (H_ACCEPT_RANGES = k) then Some accept_ranges_bytes
  else if bool_decide (H_CONTENT_TYPE = k) then Some (content_type_value ct)
  else if bool_decide (H_CONTENT_LENGTH = k) then Some (content_length_value len)
  else get_header resp k.
Proof.
  unfold insert_file_headers. destruct m; rewrite !get_header_put; [done|].
  destruct (bool_decide (H_LAST_MODIFIED = k)) eqn:E; [|done].
  apply bool_decide_eq_true in E as <-. by eval_names.
Qed.

Lemma status_insert_file_headers len ct m resp :
  resp_status (insert_file_headers len ct m resp) = resp_status resp
  ∧ resp_body (insert_file_headers len ct m resp) = resp_body resp.
Proof. by destruct m. Qed.

(** Status, headers and body of the response to the range [a..b). *)
Lemma range_response_spec a b len ct m body :
  range_response a b len ct m body = unsatisfied_response len
    ∧ (b - a)%Z ≠ len ∧ content_range_bytes a b len = None
  ∨ resp_status (range_response a b len ct m body)
      = (if decide ((b - a)%Z = len) then SC_OK else SC_PARTIAL_CONTENT)
    ∧ get_header (range_response a b len ct m body) H_CONTENT_LENGTH
      = Some (content_length_value (b - a))
    ∧ get_header (range_response a b len ct m body) H_CONTENT_RANGE
      = (if decide ((b - a)%Z = len) then None else content_range_bytes a b len)
    ∧ get_header (range_response a b len ct m body) H_CONTENT_TYPE
      = Some (content_type_value ct)
    ∧ get_header (range_response a b len ct m body) H_LAST_MODIFIED
      = last_modified_value <$> m
    ∧ resp_body (range_response a b len ct m body) = body.
Proof.
  unfold range_response. destruct (b - a =? len)%Z eqn:E; simpl.
  - apply Z.eqb_eq in E. right. rewrite !decide_True by done. rewrite !get_insert_file_headers.
    eval_names. cbv iota. rewrite !get_header_new. rewrite E.
    destruct (status_insert_file_headers len ct m (response_new body)) as [-> ->].
    by destruct m.
  - apply Z.eqb_neq in E. rewrite !decide_False by done.
    destruct (content_range_bytes a b len) as [v|] eqn:Hv; [right|by left].
    rewrite !get_insert_file_headers. eval_names. cbv iota.
    rewrite !get_header_put. eval_names. cbv iota.
    destruct (status_insert_file_headers (b - a) ct m
      (put_header H_CONTENT_RANGE v (set_status SC_PARTIAL_CONTENT (response_new body))))
      as [-> ->].
    rewrite get_header_set_status, get_header_new. by destruct m.
Qed.

Lemma file_body_stream path len ct m mc rd bsz :
  body_stream (file_body path len ct m mc rd bsz) = Some {| reader := rd; buf_size := bsz |}.
Proof. unfold file_body. by repeat case_goal. Qed.

(** Reading the stream of a range: every schedule of reads ends after at most
    [length data + 1] polls with exactly the bytes of the range. *)
Lemma stream_range wants fuel meta file data a b :
  of_data file = Some data → str_len data = meta_len meta →
  (0 ≤ a ≤ b)%Z → (b ≤ meta_len meta)%Z → (String.length data < fuel)%nat →
  ∃ cs, drain wants fuel
          {| reader := seek_take file a (b - a); buf_size := optimal_buf_size meta |}
        = Some (cs, true)
        ∧ concat_str cs = str_take (Z.to_nat (b - a)) (str_drop (Z.to_nat a) data)
        ∧ str_len (concat_str cs) = (b - a)%Z.
Proof.
  intros Hd Hlen Hab Hb Hf. unfold seek_take. rewrite Hd. simpl. unfold str_len in *.
  destruct (decide (meta_len meta = 0%Z)) as [Hz|Hz].
  - assert (b = 0 ∧ a = 0)%Z as [-> ->] by lia. exists [].
    assert (data = "") as -> by (apply str_length_0; lia).
    destruct fuel; [simpl in Hf; lia|]. done.
  - destruct (drain_spec wants fuel (str_drop (Z.to_nat a) data) (b - a) (optimal_buf_size meta))
      as (cs & Hcs & Hc & _).
    + unfold optimal_buf_size, get_block_size, DEFAULT_READ_BUF_SIZE. lia.
    + lia.
    + rewrite str_drop_length. lia.
    + exists cs. split_and!; [done|done|]. rewrite Hc, str_take_length, str_drop_length. lia.
Qed.

(** The response to the range [a..b) of a readable file. *)
Lemma range_delivers file path meta mc data a b :
  of_data file = Some data → str_len data = meta_len meta → (0 ≤ a ≤ b)%Z → (b ≤ meta_len meta)%Z →
  let ct := mime_guess_from_path path in
  let resp := range_response a b (meta_len meta) ct (last_modified_of meta)
                (file_body path (meta_len meta) ct (last_modified_of meta) mc
                   (seek_take file a (b - a)) (optimal_buf_size meta)) in
  resp = unsatisfied_response (meta_len meta) ∧ (b - a)%Z ≠ meta_len meta
    ∧ content_range_bytes a b (meta_len meta) = None
  ∨ resp_status resp = (if decide ((b - a)%Z = meta_len meta) then SC_OK else SC_PARTIAL_CONTENT)
    ∧ get_header resp H_CONTENT_LENGTH = Some (content_length_value (b - a))
    ∧ get_header resp H_CONTENT_RANGE
      = (if decide ((b - a)%Z = meta_len meta) then None else content_range_bytes a b (meta_len meta))
    ∧ get_header resp H_CONTENT_TYPE = Some (content_type_value ct)
    ∧ ∃ st, body_stream (resp_body resp) = Some st
      ∧ ∀ wants fuel, (String.length data < fuel)%nat →
        ∃ cs, drain wants fuel st = Some (cs, true)
          ∧ concat_str cs = str_take (Z.to_nat (b - a)) (str_drop (Z.to_nat a) data)
          ∧ str_len (concat_str cs) = (b - a)%Z.
Proof.
  intros Hd Hlen Hab Hb ct resp. unfold resp.
  destruct (range_response_spec a b (meta_len meta) ct (last_modified_of meta)
    (file_body path (meta_len meta) ct (last_modified_of meta) mc
       (seek_take file a (b - a)) (optimal_buf_size meta)))
    as [?|(-> & -> & -> & -> & _ & ->)]; [by left|right].
  split_and!; try done. eexists. split; [apply file_body_stream|].
  intros wants fuel Hf. by apply stream_range.
Qed.

(** C6. The response to a readable file: the conditionals decide between 304, 412
    and a body; a range that cannot be satisfied is answered 416 with the length;
    otherwise the status is 200 for the whole file and 206 for a part of it,
    [Content-Length] is the length of the range and the body streams exactly the
    bytes of the range, whatever the sizes of the reads. *)
Theorem response_body_spec file path meta headers mc data :
  of_data file = Some data → (∀ n, of_seek file n = true) →
  str_len data = meta_len meta → is_u64 (meta_len meta) →
  ∃ resp, response_body file path meta (conditionals_new headers) mc = Ok resp
  ∧ match check (conditionals_new headers) (last_modified_of meta) with
    | NoBody r => resp = r
    | WithBody rng =>
        match bytes_range rng (meta_len meta) with
        | Ok (a, b) =>
            resp = unsatisfied_response (meta_len meta)
              ∧ content_range_bytes a b (meta_len meta) = None
            ∨ resp_status resp
                = (if decide ((b - a)%Z = meta_len meta) then SC_OK else SC_PARTIAL_CONTENT)
              ∧ get_header resp H_CONTENT_LENGTH = Some (content_length_value (b - a))
              ∧ get_header resp H_CONTENT_RANGE
                = (if decide ((b - a)%Z = meta_len meta) then None
                   else content_range_bytes a b (meta_len meta))
              ∧ ∃ st, body_stream (resp_body resp) = Some st
                ∧ ∀ wants fuel, (String.length data < fuel)%nat →
                  ∃ cs, drain wants fuel st = Some (cs, true)
                    ∧ concat_str cs = str_take (Z.to_nat (b - a)) (str_drop (Z.to_nat a) data)
                    ∧ str_len (concat_str cs) = (b - a)%Z
        | _ => resp = unsatisfied_response (meta_len meta)
        end
    end.
Proof.
  intros Hd Hsk Hlen Hu. unfold response_body.
  destruct (check _ _) as [r|rng] eqn:Hc; [by eexists|].
  pose proof (checked_range headers _ _ _ Hu Hc) as Hr.
  destruct (bytes_range rng (meta_len meta)) as [[a b]|[]|]; [|by eexists|done].
  rewrite Hsk. simpl. eexists. split; [done|]. destruct Hr as [Hab Hb].
  pose proof (range_delivers file path meta mc data a b Hd Hlen Hab Hb). naive_solver.
Qed.

(** No range the decoder produces reaches the [unreachable!()]. *)
Lemma checked_range_no_panic headers lm len rng :
  check (conditionals_new headers) lm = WithBody rng → bytes_range rng len ≠ Panic.
Proof.
  intros Hc. pose proof (check_cases (conditionals_new headers) lm) as Hk. rewrite Hc in Hk.
  destruct rng as [[|[s e] r]|]; simpl; [done| |done].
  destruct Hk as [?|Hk]; [done|]. symmetry in Hk.
  pose proof (conditionals_range_ok headers _ Hk) as Hok. inversion_clear Hok as [|?? [Hs He] _].
  unfold range_of_bounds. destruct s, e; simpl in *; try done; by repeat case_goal.
Qed.

Lemma response_body_no_panic file path meta headers mc :
  response_body file path meta (conditionals_new headers) mc ≠ Panic.
Proof.
  unfold response_body. destruct (check _ _) as [r|rng] eqn:Hc; [done|].
  pose proof (checked_range_no_panic headers _ (meta_len meta) _ Hc) as Hr.
  destruct (bytes_range rng (meta_len meta)) as [[a b]|[]|]; [|done|done].
  by destruct (of_seek file a).
Qed.

(** Serving a file never panics and fails only when the seek fails. *)
Lemma response_body_errors file path meta headers mc :
  is_u64 (meta_len meta) →
  match response_body file path meta (conditionals_new headers) mc with
  | Ok _ => True
  | Err e => e = SC_INTERNAL_SERVER_ERROR ∧ ∃ n, of_seek file n = false
  | Panic => False
  end.
Proof.
  intros Hu. unfold response_body. destruct (check _ _) as [r|rng] eqn:Hc; [done|].
  pose proof (checked_range headers _ _ _ Hu Hc) as Hr.
  destruct (bytes_range rng (meta_len meta)) as [[a b]|[]|]; [|done|done].
  destruct (of_seek file a) eqn:Hs; simpl; [done|]. eauto.
Qed.

End ResponseTheorems.

(** A ten-byte file asked for its bytes 2 to 4. *)
Lemma response_body_witness :
  let file := {| of_seek := λ _, true; of_data := Some "0123456789" |} in
  let meta := node_meta (file_node "/r/a.txt" "0123456789" 5000000000) in
  let headers := hm_insert H_RANGE "bytes=2-4" hm_new in
  ∃ resp, response_body file "/r/a.txt" meta (conditionals_new headers) None = Ok resp
          ∧ resp_status resp = SC_PARTIAL_CONTENT
          ∧ get_header resp H_CONTENT_LENGTH = Some "3".
Proof.
  intros file meta headers.
  destruct (response_body_spec file "/r/a.txt" meta headers None "0123456789")
    as (resp & Hr & Hspec); try done.
  exists resp. split; [done|].
  assert (match check (conditionals_new headers) (last_modified_of meta) with
          | WithBody r => Some r
          | NoBody _ => None
          end = Some (Some [(Included 2, Included 4)])) as Hc by (vm_compute; reflexivity).
  destruct (check _ _) as [|rng]; [discriminate Hc|]. injection Hc as ->.
  assert (bytes_range (Some [(Included 2, Included 4)]) (meta_len meta) = Ok (2, 5)%Z) as Hb
    by (vm_compute; reflexivity).
  rewrite Hb in Hspec. destruct Hspec as [[_ Hno]|(-> & -> & _)]; [discriminate Hno|].
  split; vm_compute; reflexivity.
Defined.
