(* ===== verification/MemCache.v ===== *)
(** * The in-memory cache: [mem_cache/cache.rs] and [mem_cache/stream.rs]

    [CACHE_STORE] is a global that is set once; here it is explicit state.  The
    store is a crate ([mini_moka]): an entry may be evicted at any time, so the
    theorems about it hold for every subset of the entries that were inserted
    ([evict]).  The cache permit is acquired and dropped at once, and the
    semaphore is never closed, so acquiring it has no effect. *)

From S2P Require Import Prelude RustStr Logger RustPath Fs FsStream ContentCoding Http.
From S2P Require Import HttpInstances ConditionalHeaders Opts ErrorPage ResponseBody.

Section MemCache.
Context `{!HttpC, !HeadersC, !MatchC}.

Record MemFile : Type := {
  mf_data : string;
  mf_buf_size : Z;
  mf_content_type : Mime;
  mf_last_modified : option HttpDate
}.

Definition CacheStore : Type := gmap string MemFile.

(** [MemCacheOpts::new]: megabytes to bytes on 64 bits. *)
Definition mem_cache_opts_new (size : Z) : MemCacheOpts :=
  {| max_file_size := wrap_u64 (1024 * 1024 * size) |}.

(** [mem_cache::cache::init]: the global must not be set already.  The capacity and
    the two durations are the crate's concern. *)
Definition init (store : option CacheStore) (opts : RequestHandlerOpts)
    : Logged (option CacheStore * RequestHandlerOpts) :=
  match advanced_opts opts ≫= adv_memory_cache with
  | Some mc =>
      let capacity := default 256%Z (mc_capacity mc) in
      let ttl := default 3600%Z (mc_ttl mc) in
      let tti := default 300%Z (mc_tti mc) in
      let max_file_size := default 8192%Z (mc_max_file_size mc) in
      emit! server_info (concat_str ["in-memory cache (experimental): enabled=true, capacity="; dec capacity;
        ", ttl="; dec ttl; ", tti="; dec tti; ", max_file_size="; dec max_file_size]) in
      let mem_opts := mem_cache_opts_new max_file_size in
      match store with
      | Some _ => lift (Err "unable to initialize the in-memory cache store")
      | None => lret (Some ∅, set_memory_cache (Some mem_opts) opts)
      end
  | None =>
      emit! server_info "in-memory cache (experimental): enabled=false" in
      lret (store, opts)
  end.

(** [Cursor::new(data)], seek and [take] *)
Definition cursor_take (data : string) (start sub_len : Z) : Reader :=
  {| rd_data := Some (str_drop (Z.to_nat start) data); rd_limit := sub_len |}.

(** [MemFile::response_body]; seeking a cursor from the start cannot fail. *)
Definition mem_response_body (mem_file : MemFile) (headers : HeaderMap)
    : Result Response StatusCode :=
  let conditionals := conditionals_new headers in
  let modified := mf_last_modified mem_file in
  match check conditionals modified with
  | NoBody resp => Ok resp
  | WithBody range =>
      let len := str_len (mf_data mem_file) in
      match bytes_range range len with
      | Ok (start, end_) =>
          let body := BodyFile {| reader := cursor_take (mf_data mem_file) start (end_ - start);
                                  buf_size := mf_buf_size mem_file |} in
          Ok (range_response start end_ len (mf_content_type mem_file) modified body)
      | Err MkBadRangeError => Ok (unsatisfied_response len)
      | Panic => Panic
      end
  end.

(** [get_or_acquire]: [Ok None] lets the caller go on with the file; the
    [unwrap] of the global is a panic when the cache was not initialised. *)
Definition get_or_acquire (store : option CacheStore) (file_path : string) (headers : HeaderMap)
    : Result (option (Result Response StatusCode)) StatusCode :=
  match to_str file_path with
  | None => Ok None
  | Some file_path_str =>
      match store with
      | None => Panic
      | Some m =>
          match m !! file_path_str with
          | Some mem_file => Ok (Some (mem_response_body mem_file headers))
          | None => Ok None
          end
      end
  end.

(** The caching part of [MemCacheFileStream::poll_next]: append the chunk to
    the buffer and, when the buffer is as long as its capacity, store the file. *)
Definition cache_chunk (chunk : string) (st : MemCacheFileStream) (r : Reader)
    (store : option CacheStore) : Result (MemCacheFileStream * option CacheStore) Error :=
  match mem_opts st, mem_buf st with
  | Some opts, Some (buf, cap) =>
      let buf := buf +:+ chunk in
      if (str_len buf =? cap)%Z then
        let mem_file := {| mf_data := buf; mf_buf_size := ms_buf_size st;
                           mf_content_type := temp_content_type opts;
                           mf_last_modified := temp_last_modified opts |} in
        match store with
        | None => Panic
        | Some m =>
            Ok ({| ms_reader := r; ms_buf_size := ms_buf_size st; mem_opts := Some opts;
                   mem_buf := None |},
                Some (<[temp_file_path opts := mem_file]> m))
        end
      else Ok ({| ms_reader := r; ms_buf_size := ms_buf_size st; mem_opts := Some opts;
                  mem_buf := Some (buf, cap) |}, store)
  | _, _ => Ok ({| ms_reader := r; ms_buf_size := ms_buf_size st; mem_opts := mem_opts st;
                   mem_buf := mem_buf st |}, store)
  end.

(** [MemCacheFileStream::poll_next] *)
Definition mem_poll_next (want : nat) (st : MemCacheFileStream) (store : option CacheStore)
    : Result (Poll * MemCacheFileStream * option CacheStore) Error :=
  match read want (ms_buf_size st) (ms_reader st) with
  | Ok (chunk, r) =>
      if is_empty chunk then
        Ok (PollNone, {| ms_reader := r; ms_buf_size := ms_buf_size st;
                         mem_opts := mem_opts st; mem_buf := mem_buf st |}, store)
      else
        match cache_chunk chunk st r store with
        | Ok (st', store') => Ok (PollChunk chunk, st', store')
        | Err e => Err e
        | Panic => Panic
        end
  | _ => Ok (PollErr, st, store)
  end.

(** Polling a caching stream to its end. *)
Fixpoint mem_drain (wants : nat → nat) (fuel : nat) (st : MemCacheFileStream)
    (store : option CacheStore) : Result (option (list string * bool) * option CacheStore) Error :=
  match fuel with
  | O => Ok (None, store)
  | S fuel' =>
      match mem_poll_next (wants fuel') st store with
      | Ok (PollNone, _, store') => Ok (Some ([], true), store')
      | Ok (PollErr, _, store') => Ok (Some ([], false), store')
      | Ok (PollChunk c, st', store') =>
          match mem_drain wants fuel' st' store' with
          | Ok (Some (cs, ok), s) => Ok (Some (c :: cs, ok), s)
          | r => r
          end
      | Err e => Err e
      | Panic => Panic
      end
  end.

(** Entries may disappear: TTL, TTI, capacity. *)
Definition evict (m m' : CacheStore) : Prop := m' ⊆ m.

(** The cached form of a file as it is on disk. *)
Definition mem_file_of (path data : string) (meta : Metadata) : MemFile := {|
  mf_data := data;
  mf_buf_size := optimal_buf_size meta;
  mf_content_type := mime_guess_from_path path;
  mf_last_modified := last_modified_of meta
|}.

(** The plain stream behind a caching one. *)
Definition plain (st : MemCacheFileStream) : FileStream :=
  {| reader := ms_reader st; buf_size := ms_buf_size st |}.

End MemCache.

(** ** Theorems *)

Section Theorems.
Context `{!HttpC, !HeadersC, !MatchC}.

(** A file served from the cache and from the disk get the same answer: the
    same status and headers, and streams over the same bytes. *)
Lemma mem_response_equiv file path meta data headers mc :
  of_data file = Some data → (∀ n, of_seek file n = true) → str_len data = meta_len meta →
  match mem_response_body (mem_file_of path data meta) headers,
        response_body file path meta (conditionals_new headers) mc with
  | Ok r1, Ok r2 =>
      resp_status r1 = resp_status r2 ∧ resp_headers r1 = resp_headers r2
      ∧ body_stream (resp_body r1) = body_stream (resp_body r2)
  | Panic, Panic => True
  | _, _ => False
  end.
Proof.
  intros Hd Hsk Hlen. unfold mem_response_body, response_body. simpl. rewrite Hlen.
  destruct (check _ _) as [r|rng]; [done|].
  destruct (bytes_range rng (meta_len meta)) as [[a b]|[]|]; try done.
  rewrite Hsk. simpl. unfold range_response. destruct (negb _).
  - destruct (content_range_bytes a b (meta_len meta)); [|done]. unfold insert_file_headers.
    by destruct (last_modified_of meta); simpl;
      rewrite file_body_stream; unfold seek_take, cursor_take; rewrite Hd.
  - unfold insert_file_headers.
    by destruct (last_modified_of meta); simpl;
      rewrite file_body_stream; unfold seek_take, cursor_take; rewrite Hd.
Qed.

(** An answer from the cache does not cache again. *)
Lemma mem_response_body_plain mem_file headers resp :
  mem_response_body mem_file headers = Ok resp →
  resp_body resp = BodyEmpty ∨ ∃ st, resp_body resp = BodyFile st.
Proof.
  unfold mem_response_body.
  pose proof (check_cases (conditionals_new headers) (mf_last_modified mem_file)) as Hc.
  destruct (check _ _) as [r|rng]; [intros [= <-]; left; tauto|].
  destruct (bytes_range rng _) as [[a b]|[]|]; [|by intros [= <-]; left|done]. intros [= <-].
  match goal with |- resp_body (range_response _ _ _ _ _ ?body) = _ ∨ _ =>
    destruct (range_response_spec a b (str_len (mf_data mem_file)) (mf_content_type mem_file)
      (mf_last_modified mem_file) body) as [[-> _]|(_ & _ & _ & _ & _ & ->)] end; [by left|right; eauto].
Qed.

(** Nor does an answer from a file, without the cache. *)
Lemma response_body_plain file path meta headers resp :
  response_body file path meta (conditionals_new headers) None = Ok resp →
  resp_body resp = BodyEmpty ∨ ∃ st, resp_body resp = BodyFile st.
Proof.
  unfold response_body. pose proof (check_cases (conditionals_new headers) (last_modified_of meta)) as Hc.
  destruct (check _ _) as [r|rng]; [intros [= <-]; left; tauto|].
  destruct (bytes_range rng _) as [[a b]|[]|]; [|by intros [= <-]; left|done].
  destruct (negb _); [done|]. intros [= <-].
  match goal with |- resp_body (range_response _ _ _ _ _ ?body) = _ ∨ _ =>
    destruct (range_response_spec a b (meta_len meta) (mime_guess_from_path path)
      (last_modified_of meta) body) as [[-> _]|(_ & _ & _ & _ & _ & ->)] end; [by left|right; simpl; eauto].
Qed.

Lemma mem_response_no_panic mem_file headers : mem_response_body mem_file headers ≠ Panic.
Proof.
  unfold mem_response_body. destruct (check _ _) as [r|rng] eqn:Hc; [done|].
  pose proof (checked_range_no_panic headers _ (str_len (mf_data mem_file)) _ Hc) as Hr.
  by destruct (bytes_range rng (str_len (mf_data mem_file))) as [[a b]|[]|].
Qed.

(** Caching never changes what the client reads. *)
Lemma mem_drain_plain wants fuel st m :
  ∃ m', mem_drain wants fuel st (Some m) = Ok (drain wants fuel (plain st), Some m').
Proof.
  revert st m. induction fuel as [|fuel IH]; intros st m; simpl; [eauto|].
  unfold mem_poll_next, poll_next. simpl.
  destruct (read _ _ _) as [[c r]| |]; simpl; [|eauto|eauto].
  destruct (is_empty c); simpl; [eauto|].
  assert (∃ st' m1, cache_chunk c st r (Some m) = Ok (st', Some m1)
                    ∧ plain st' = {| reader := r; buf_size := ms_buf_size st |})
    as (st' & m1 & -> & <-).
  { unfold cache_chunk. destruct (mem_opts st); [|by do 2 eexists].
    destruct (mem_buf st) as [[]|]; [|by do 2 eexists].
    destruct (_ =? _)%Z; by do 2 eexists. }
  destruct (IH st' m1) as [m' ->]. destruct (drain wants fuel (plain st')) as [[]|]; eauto.
Qed.

(** Without a buffer the store is left alone. *)
Lemma mem_drain_no_buf wants fuel r bsz o m :
  (mem_drain wants fuel {| ms_reader := r; ms_buf_size := bsz; mem_opts := o; mem_buf := None |}
     (Some m))
  = Ok (drain wants fuel {| reader := r; buf_size := bsz |}, Some m).
Proof.
  revert r. induction fuel as [|fuel IH]; intros r; simpl; [done|].
  unfold mem_poll_next, poll_next. simpl.
  destruct (read _ _ _) as [[c r']| |]; simpl; [|done|done].
  destruct (is_empty c); simpl; [done|]. unfold cache_chunk. simpl.
  destruct o; simpl; rewrite IH; by destruct (drain _ _ _) as [[]|].
Qed.

(** With a buffer that holds [pre] and a capacity that the remaining bytes do
    not exceed: the file is stored when the capacity is reached, and only
    then. *)
Lemma mem_drain_store wants fuel d l bsz o pre cap m :
  (0 < bsz)%Z → (0 ≤ l ≤ str_len d)%Z → (String.length d < fuel)%nat →
  (str_len pre < cap)%Z → (str_len pre + l ≤ cap)%Z →
  mem_drain wants fuel
    {| ms_reader := {| rd_data := Some d; rd_limit := l |}; ms_buf_size := bsz;
       mem_opts := Some o; mem_buf := Some (pre, cap) |} (Some m)
  = Ok (drain wants fuel
          {| reader := {| rd_data := Some d; rd_limit := l |}; buf_size := bsz |},
        Some (if decide (str_len pre + l = cap)%Z
              then <[temp_file_path o :=
                       {| mf_data := pre +:+ str_take (Z.to_nat l) d; mf_buf_size := bsz;
                          mf_content_type := temp_content_type o;
                          mf_last_modified := temp_last_modified o |}]> m
              else m)).
Proof.
  intros Hb. revert d l pre. induction fuel as [|fuel IH]; intros d l pre Hl Hf Hp Hc; [lia|].
  simpl. unfold mem_poll_next, poll_next. simpl. unfold str_len in *.
  destruct (decide (l = 0%Z)) as [->|Hl0].
  { simpl. by rewrite decide_False by lia. }
  destruct (read_chunk (wants fuel) bsz d l ltac:(lia)) as (n & -> & Hn1 & Hn2 & Hn3).
  pose proof (str_take_length n d) as Ht. unfold str_len in *.
  destruct (is_empty (str_take n d)) eqn:He.
  { apply is_empty_true in He. rewrite He in Ht. simpl in Ht. lia. }
  unfold cache_chunk. simpl. unfold str_len. rewrite append_length, Ht, Nat.min_l by lia.
  destruct (_ =? cap)%Z eqn:Ecap.
  - rewrite mem_drain_no_buf. apply Z.eqb_eq in Ecap. rewrite decide_True by lia.
    replace (Z.to_nat l) with n by lia. by destruct (drain _ _ _) as [[]|].
  - apply Z.eqb_neq in Ecap. rewrite IH.
    + rewrite append_length, Ht, Nat.min_l by lia. rewrite append_assoc.
      replace (str_take (Z.to_nat l) d)
        with (str_take n d +:+ str_take (Z.to_nat (l - Z.of_nat n)) (str_drop n d)).
      2: { rewrite <- str_take_add. f_equal. lia. }
      destruct (decide (_ = cap)%Z) as [E1|E1]; destruct (decide (_ = cap)%Z) as [E2|E2];
        try lia; by destruct (drain _ _ _) as [[]|].
    + rewrite str_drop_length. lia.
    + rewrite str_drop_length. lia.
    + rewrite append_length, Ht. lia.
    + rewrite append_length, Ht. lia.
Qed.

(** Streaming the range [a..b) of a file: the client gets the bytes of the range,
    and the file enters the cache, whole, exactly when the range was the whole
    (non-empty) file.  A partial read is never cached as the file. *)
Lemma mem_stream_caches_whole_file wants fuel path data meta a b m :
  (0 ≤ a ≤ b)%Z → (b ≤ str_len data)%Z → str_len data = meta_len meta →
  (String.length data < fuel)%nat →
  let ct := mime_guess_from_path path in
  let lm := last_modified_of meta in
  let st := {|
    ms_reader := cursor_take data a (b - a);
    ms_buf_size := optimal_buf_size meta;
    mem_opts := Some {| temp_file_path := path; temp_content_type := ct;
                        temp_last_modified := lm |};
    mem_buf := Some ("", meta_len meta) |} in
  ∃ cs, mem_drain wants fuel st (Some m)
        = Ok (Some (cs, true),
              Some (if decide (0 < str_len data ∧ b - a = str_len data)%Z
                    then <[path := mem_file_of path data meta]> m else m))
        ∧ concat_str cs = str_take (Z.to_nat (b - a)) (str_drop (Z.to_nat a) data).
Proof.
  intros Hab Hb Hlen Hf ct lm st. unfold st, cursor_take. unfold str_len in *.
  destruct (decide (meta_len meta = 0%Z)) as [Hz|Hz].
  { assert (b = 0 ∧ a = 0)%Z as [-> ->] by lia. assert (data = "") as -> by (apply str_length_0; lia).
    exists []. destruct fuel; [simpl in Hf; lia|]. done. }
  assert (0 < optimal_buf_size meta)%Z as Hbs
    by (unfold optimal_buf_size, get_block_size, DEFAULT_READ_BUF_SIZE; lia).
  destruct (drain_spec wants fuel (str_drop (Z.to_nat a) data) (b - a) (optimal_buf_size meta))
    as (cs & Hcs & Hc & _); [done|lia|rewrite str_drop_length; lia|].
  exists cs. split; [|done]. rewrite mem_drain_store; [|done|..].
  - rewrite Hcs. change (str_len "") with 0%Z.
    destruct (decide (0 + (b - a) = meta_len meta)%Z) as [E|E].
    + rewrite (decide_True (P := (0 < _ ∧ _)%Z)) by lia. assert (a = 0%Z) as -> by lia.
      change (str_drop (Z.to_nat 0) data) with data. by rewrite str_take_all by lia.
    + by rewrite decide_False by lia.
  - unfold str_len. rewrite str_drop_length. lia.
  - rewrite str_drop_length. lia.
  - change (str_len "") with 0%Z. lia.
  - change (str_len "") with 0%Z. lia.
Qed.

End Theorems.
