(* ===== verification/DirectoryListing.v ===== *)
(** * Directory listings: [directory_listing.rs]

    The entries of a directory, their order and the two formats.  Dates, JSON,
    form decoding and HTML escaping come from crates and are the class
    [ListingC]; so is the Unicode table behind [str::to_lowercase], of which
    only the ASCII part is stated.  The HTML template is kept as a tree whose
    leaves say whether they are literals of the template or spliced values. *)

From S2P Require Import Prelude RustStr Logger RustPath Fs FsStream ContentCoding Http.
From S2P Require Import HttpInstances Opts FsPath ErrorPage.

(** ** Data *)

Inductive FileType : Type := FtDirectory | FtFile.

#[global] Instance FileType_eq_dec : EqDecision FileType.
Proof. solve_decision. Defined.

(** [mtime] is an instant in nanoseconds; its local and UTC forms are only
    formatting. *)
Record FileEntry : Type := {
  fe_name : string;
  fe_mtime : option Z;
  fe_size : option Z;
  fe_type : FileType;
  fe_uri : string
}.

Definition entry_is_dir (e : FileEntry) : bool := bool_decide (fe_type e = FtDirectory).

(** What [#[derive(Serialize)]] hands to the JSON writer for one entry: the name
    made valid UTF-8, the date in UTC, the size unless it is absent, the type
    in lower case; [uri] is skipped. *)
Record JsonEntry : Type := {
  je_name : string;
  je_mtime : string;
  je_size : option Z;
  je_type : string
}.

Record SortingAttr : Type := {
  sa_name : string;
  sa_last_modified : string;
  sa_size : string
}.

Fixpoint count_char (c : ascii) (s : string) : nat :=
  match s with
  | EmptyString => 0
  | String a s' => (if ascii_eqb a c then 1 else 0) + count_char c s'
  end.

Class ListingC : Type := {
  to_lowercase : string → string;
  form_urlencoded_parse : string → list (string * string);
  format_utc : Z → string;
  format_local : Z → string;
  serde_json_to_string : list JsonEntry → option string;
  (** [maud] escapes the text it splices. *)
  html_escape : string → string;
  html_escape_lt : ∀ s, has_char "<"%char (html_escape s) = false
}.

(** ** HTML *)

(** A literal of the template or an escaped value. *)
Inductive Piece : Type := Lit (s : string) | Esc (s : string).

Inductive Markup : Type :=
| Txt (p : Piece)
| Elem (tag : string) (attrs : list (string * list Piece)) (children : list Markup)
| Void (tag : string) (attrs : list (string * list Piece)).

(** ** Order of the entries *)

(** [Option] compares [None] first; [str] compares bytewise ([str_leb]). *)
Definition opt_leb (a b : option Z) : bool :=
  match a, b with
  | None, _ => true
  | Some _, None => false
  | Some x, Some y => (x <=? y)%Z
  end.

Section DirectoryListing.
Context `{!HttpC, !HeadersC, !MatchC, !PercentC, !ListingC}.

(** [directory_listing::init] *)
Definition format_debug (format : DirListFmt) : string :=
  match format with
  | Html => "Html"
  | Json => "Json"
  end.

Definition init (enabled : bool) (order : Z) (format : DirListFmt) (opts : RequestHandlerOpts)
    : Logged RequestHandlerOpts :=
  let opts := set_dir_listing enabled opts in
  emit! server_info (concat_str ["directory listing: enabled="; show_bool enabled]) in
  let opts := set_dir_listing_order order opts in
  emit! server_info (concat_str ["directory listing order code: "; dec order]) in
  let opts := set_dir_listing_format format opts in
  emit! server_info (concat_str ["directory listing format: "; format_debug (dir_listing_format opts)]) in
  lret opts.

Definition name_key (f : FileEntry) : string := to_lowercase (from_utf8_lossy (fe_name f)).

Definition name_leb (a b : FileEntry) : bool := str_leb (name_key a) (name_key b).

Definition mtime_leb (a b : FileEntry) : bool := opt_leb (fe_mtime a) (fe_mtime b).

Definition size_leb (a b : FileEntry) : bool := opt_leb (fe_size a) (fe_size b).

(** The slice is sorted in place: the sorted list comes first. *)
Definition sort_file_entries (files : list FileEntry) (order_code : Z)
    : list FileEntry * SortingAttr :=
  let name := "0" in
  let last_modified := "2" in
  let size := "4" in
  if (order_code =? 0)%Z || (order_code =? 1)%Z then
    let files := stable_sort name_leb files in
    if (order_code =? 1)%Z
    then (rev files, {| sa_name := name; sa_last_modified := last_modified; sa_size := size |})
    else (files, {| sa_name := "1"; sa_last_modified := last_modified; sa_size := size |})
  else if (order_code =? 2)%Z || (order_code =? 3)%Z then
    let files := stable_sort mtime_leb files in
    if (order_code =? 3)%Z
    then (rev files, {| sa_name := name; sa_last_modified := last_modified; sa_size := size |})
    else (files, {| sa_name := name; sa_last_modified := "3"; sa_size := size |})
  else if (order_code =? 4)%Z || (order_code =? 5)%Z then
    let files := stable_sort size_leb files in
    if (order_code =? 5)%Z
    then (rev files, {| sa_name := name; sa_last_modified := last_modified; sa_size := size |})
    else (files, {| sa_name := name; sa_last_modified := last_modified; sa_size := "5" |})
  else (files, {| sa_name := name; sa_last_modified := last_modified; sa_size := size |}).

(** ** File sizes *)

Definition UNITS : list string := ["B"; "KiB"; "MiB"; "GiB"; "TiB"; "PiB"].

(** The loop over the units after the first and before the last. *)
Fixpoint size_loop (size_tmp : Z) (unit : nat) (rest : nat) : Z * nat :=
  match rest with
  | O => (size_tmp, unit)
  | S rest' =>
      if (size_tmp <? 1024 * 1024)%Z then (size_tmp, unit)
      else size_loop (Z.shiftr size_tmp 10) (S unit) rest'
  end.

(** [{:.2}] of [t as f64 / 1024.0]: the quotient is exact in binary64 for
    [t < 2^53], the two decimals are rounded to nearest, ties to even. *)
Definition hundredths (t : Z) : Z :=
  let q := (100 * t / 1024)%Z in
  let r := ((100 * t) `mod` 1024)%Z in
  if (r <? 512)%Z then q
  else if (512 <? r)%Z then (q + 1)%Z
  else if Z.even q then q else (q + 1)%Z.

Definition two_digits (n : Z) : string :=
  if (n <? 10)%Z then "0" +:+ dec n else dec n.

Definition fixed2 (h : Z) : string :=
  concat_str [dec (h / 100); "."; two_digits (h `mod` 100)].

Definition format_file_size (size : Z) : string :=
  if (size <? 1024)%Z then concat_str [dec size; " "; "B"]
  else
    let (t, unit) := size_loop size 1 4 in
    concat_str [fixed2 (hundredths t); " "; default "" (UNITS !! unit)].

(** ** JSON *)

Definition json_entry (e : FileEntry) : JsonEntry := {|
  je_name := from_utf8_lossy (fe_name e);
  je_mtime := match fe_mtime e with Some dt => format_utc dt | None => "" end;
  je_size := fe_size e;
  je_type := if entry_is_dir e then "directory" else "file"
|}.

Definition json_auto_index (entries : list FileEntry) (order_code : Z) : Result string Error :=
  let (entries, _) := sort_file_entries entries order_code in
  ok_or (serde_json_to_string (json_entry <$> entries)) "json".

(** ** The HTML page *)

Definition STYLE : string :=
  "html{background-color:#fff;-moz-osx-font-smoothing:grayscale;-webkit-font-smoothing:antialiased;min-width:20rem;text-rendering:optimizeLegibility;-webkit-text-size-adjust:100%;-moz-text-size-adjust:100%;text-size-adjust:100%}:after,:before{box-sizing:border-box;}body{padding:1rem;font-family:Consolas,'Liberation Mono',Menlo,monospace;font-size:.75rem;max-width:70rem;margin:0 auto;color:#4a4a4a;font-weight:400;line-height:1.5}h1{margin:0;padding:0;font-size:1rem;line-height:1.25;margin-bottom:0.5rem;}table{width:100%;table-layout:fixed;border-spacing: 0;}hr{border-style: none;border-bottom: solid 1px gray;}table th,table td{padding:.15rem 0;white-space:nowrap;vertical-align:top}table th a,table td a{display:inline-block;white-space:nowrap;overflow:hidden;text-overflow:ellipsis;max-width:95%;vertical-align:top;}table tr:hover td{background-color:#f5f5f5}footer{padding-top:0.5rem}table tr th{text-align:left;}@media (max-width:30rem){table th:first-child{width:20rem;}}".

Definition lit (s : string) : Markup := Txt (Lit s).

Definition esc (s : string) : Markup := Txt (Esc s).

Definition render_piece (p : Piece) : string :=
  match p with
  | Lit s => s
  | Esc s => html_escape s
  end.

Definition render_attrs (attrs : list (string * list Piece)) : string :=
  concat_str ((λ a, concat_str
    [" "; a.1; "="; dquote; concat_str (render_piece <$> a.2); dquote]) <$> attrs).

Fixpoint render (m : Markup) : string :=
  match m with
  | Txt p => render_piece p
  | Elem tag attrs children =>
      concat_str ["<"; tag; render_attrs attrs; ">"; concat_str (map render children);
                  "</"; tag; ">"]
  | Void tag attrs => concat_str ["<"; tag; render_attrs attrs; ">"]
  end.

Definition html_head (current_path : string) : Markup :=
  Elem "head" []
    [Void "meta" [("charset", [Lit "utf-8"])];
     Void "meta" [("name", [Lit "viewport"]);
                  ("content", [Lit "width=device-width,minimum-scale=1,initial-scale=1"])];
     Elem "title" [] [lit "Index of "; esc current_path];
     Elem "style" [] [lit STYLE]].

Definition html_thead (sort_attrs : SortingAttr) : Markup :=
  Elem "thead" []
    [Elem "tr" []
       [Elem "th" []
          [Elem "a" [("href", [Lit "?sort="; Esc (sa_name sort_attrs)])] [lit "Name"]];
        Elem "th" [("style", [Lit "width:10rem;"])]
          [Elem "a" [("href", [Lit "?sort="; Esc (sa_last_modified sort_attrs)])]
             [lit "Last modified"]];
        Elem "th" [("style", [Lit "width:6rem;text-align:right;"])]
          [Elem "a" [("href", [Lit "?sort="; Esc (sa_size sort_attrs)])] [lit "Size"]]]].

Definition html_row (entry : FileEntry) : Markup :=
  Elem "tr" []
    [Elem "td" []
       [Elem "a" [("href", [Esc (fe_uri entry)])]
          (esc (from_utf8_lossy (fe_name entry)) :: (if entry_is_dir entry then [lit "/"] else []))];
     Elem "td" []
       [esc (match fe_mtime entry with Some dt => format_local dt | None => "-" end)];
     Elem "td" [("align", [Lit "right"])]
       [esc (match fe_size entry with Some n => format_file_size n | None => "-" end)]].

Definition html_page_markup (base_path current_path : string) (dirs_count files_count : Z)
    (entries : list FileEntry) (sort_attrs : SortingAttr) : Markup :=
  Elem "html" []
    [html_head current_path;
     Elem "body" []
       [Elem "h1" [] [lit "Index of "; esc current_path];
        Elem "p" []
          [Elem "small" []
             [lit "directories: "; esc (dec dirs_count); lit ", files: "; esc (dec files_count)]];
        Void "hr" [];
        Elem "div" [("style", [Lit "overflow-x: auto;"])]
          [Elem "table" []
             (html_thead sort_attrs
              :: (if str_eqb base_path "/" then []
                  else [Elem "tr" []
                          [Elem "td" [("colspan", [Lit "3"])]
                             [Elem "a" [("href", [Lit "../"])] [lit "../"]]]])
              ++ (html_row <$> entries))];
        Void "hr" [];
        Elem "footer" []
          [Elem "small" []
             [lit "Powered by Static Web Server (SWS) / static-web-server.net"]]]].

Definition html_auto_index (base_path : string) (dirs_count files_count : Z)
    (entries : list FileEntry) (order_code : Z) : string :=
  let (entries, sort_attrs) := sort_file_entries entries order_code in
  let current_path := from_utf8_lossy (percent_decode_str base_path) in
  "<!DOCTYPE html>"
  +:+ render (html_page_markup base_path current_path dirs_count files_count entries sort_attrs).

(** ** Reading the directory *)

(** [NON_ALPHANUMERIC] without the unreserved characters. *)
Definition PERCENT_ENCODE_SET (a : ascii) : bool :=
  byte_in 0 127 a
  && negb (byte_in 48 57 a || byte_in 65 90 a || byte_in 97 122 a)
  && negb (existsb (ascii_eqb a) ["_"; "-"; "."; "~"]%char).

Record DirListOpts : Type := {
  dl_method : Method;
  dl_current_path : string;
  dl_uri_query : option string;
  dl_filepath : string;
  dl_order : Z;
  dl_format : DirListFmt;
  dl_ignore_hidden_files : bool;
  dl_disable_symlinks : bool
}.

Record DirEntryOpts : Type := {
  dir_reader : list (Result DirEntry ErrorKind);
  base_path : string;
  deo_uri_query : option string;
  deo_is_head : bool;
  order_code : Z;
  content_format : DirListFmt;
  deo_ignore_hidden_files : bool;
  deo_disable_symlinks : bool
}.

(** Type and size of an entry; [None] skips it. *)
Definition entry_type (fs : FileSystem) (disable_symlinks : bool) (e : DirEntry) (meta : Metadata)
    : option (FileType * option Z) :=
  if kind_is_dir (meta_kind meta) then Some (FtDirectory, None)
  else if kind_is_file (meta_kind meta) then Some (FtFile, Some (meta_len meta))
  else if negb disable_symlinks && kind_is_symlink (meta_kind meta) then
    match fs_canonicalize fs (de_path e) with
    | Ok symlink =>
        match fs_symlink_metadata fs symlink with
        | Ok symlink_meta =>
            if kind_is_dir (meta_kind symlink_meta) then Some (FtDirectory, None)
            else Some (FtFile, Some (meta_len symlink_meta))
        | _ => None
        end
    | _ => None
    end
  else None.

Definition entry_uri (base_path name : string) (ty : FileType) : string :=
  let name_encoded := percent_encode PERCENT_ENCODE_SET name in
  let uri :=
    if negb (ends_with_char "/"%char base_path) && negb (is_empty base_path) then
      let parent := match rsplit_once "/"%char base_path with
                    | Some (_, parent) => parent
                    | None => base_path
                    end in
      concat_str [parent; "/"; name_encoded]
    else name_encoded in
  if bool_decide (ty = FtDirectory) then uri +:+ "/" else uri.

(** One iteration of the loop for an entry that could be read. *)
Definition file_entry (fs : FileSystem) (base_path : string) (ignore_hidden disable_symlinks : bool)
    (e : DirEntry) : option FileEntry :=
  match de_metadata e with
  | Ok meta =>
      let name := de_name e in
      if ignore_hidden && starts_with "." name then None
      else match entry_type fs disable_symlinks e meta with
           | Some (ty, size) =>
               Some {| fe_name := name; fe_mtime := meta_modified meta; fe_size := size;
                       fe_type := ty; fe_uri := entry_uri base_path name ty |}
           | None => None
           end
  | _ => None
  end.

(** The loop: an entry that cannot be read ends it with an error. *)
Fixpoint read_entries (fs : FileSystem) (base_path : string) (ignore_hidden disable_symlinks : bool)
    (l : list (Result DirEntry ErrorKind)) : Result (list FileEntry) Error :=
  match l with
  | [] => Ok []
  | Ok e :: l' =>
      match read_entries fs base_path ignore_hidden disable_symlinks l' with
      | Ok es =>
          match file_entry fs base_path ignore_hidden disable_symlinks e with
          | Some fe => Ok (fe :: es)
          | None => Ok es
          end
      | r => r
      end
  | Err _ :: _ => Err "unable to read directory entry"
  | Panic :: _ => Panic
  end.

Definition count_entries (is_dir : bool) (l : list FileEntry) : Z :=
  Z.of_nat (length (List.filter (λ e, Bool.eqb (entry_is_dir e) is_dir) l)).

(** The order code of the query [?sort=N], if it is the first pair. *)
Definition query_order (uri_query : option string) (order_code : Z) : Z :=
  match uri_query with
  | Some q =>
      match form_urlencoded_parse q with
      | (k, v) :: _ =>
          if str_eqb k "sort" && negb (is_empty (trim v)) then
            match parse_uint u8_max v with
            | Some code => code
            | None => order_code
            end
          else order_code
      | [] => order_code
      end
  | None => order_code
  end.

Definition read_dir_entries (fs : FileSystem) (opt : DirEntryOpts) : Result Response Error :=
  match read_entries fs (base_path opt) (deo_ignore_hidden_files opt) (deo_disable_symlinks opt)
          (dir_reader opt) with
  | Ok file_entries =>
      let dirs_count := count_entries true file_entries in
      let files_count := count_entries false file_entries in
      let code := query_order (deo_uri_query opt) (order_code opt) in
      let content_and_type :=
        match content_format opt with
        | Json =>
            match json_auto_index file_entries code with
            | Ok c => Ok (c, APPLICATION_JSON)
            | Err e => Err e
            | Panic => Panic
            end
        | Html => Ok (html_auto_index (base_path opt) dirs_count files_count file_entries code,
                      TEXT_HTML_UTF_8)
        end in
      match content_and_type with
      | Ok (content, mime) =>
          let resp := response_new BodyEmpty in
          let resp := put_header H_CONTENT_TYPE (content_type_value mime) resp in
          let resp := put_header H_CONTENT_LENGTH (content_length_value (str_len content)) resp in
          if deo_is_head opt then Ok resp else Ok (set_body (BodyBytes content) resp)
      | Err e => Err e
      | Panic => Panic
      end
  | Err e => Err e
  | Panic => Panic
  end.

Definition auto_index (fs : FileSystem) (opts : DirListOpts) : Result Response StatusCode :=
  let filepath := dl_filepath opts in
  let parent := default filepath (parent filepath) in
  match fs_read_dir fs parent with
  | Ok reader =>
      let dir_opts := {|
        dir_reader := reader;
        base_path := dl_current_path opts;
        deo_uri_query := dl_uri_query opts;
        deo_is_head := is_head (dl_method opts);
        order_code := dl_order opts;
        content_format := dl_format opts;
        deo_ignore_hidden_files := dl_ignore_hidden_files opts;
        deo_disable_symlinks := dl_disable_symlinks opts
      |} in
      match read_dir_entries fs dir_opts with
      | Ok resp => Ok resp
      | Err _ => Err SC_INTERNAL_SERVER_ERROR
      | Panic => Panic
      end
  | Err NotFound => Err SC_NOT_FOUND
  | Err PermissionDenied => Err SC_FORBIDDEN
  | Err OtherError => Err SC_INTERNAL_SERVER_ERROR
  | Panic => Panic
  end.

End DirectoryListing.

(** ** An instance for the witnesses *)

Definition lower_ascii (a : ascii) : ascii :=
  if byte_in 65 90 a then Ascii.ascii_of_nat (Ascii.nat_of_ascii a + 32) else a.

Fixpoint str_map (f : ascii → ascii) (s : string) : string :=
  match s with
  | EmptyString => EmptyString
  | String a s' => String (f a) (str_map f s')
  end.

(** [k=v] pairs, without percent-decoding. *)
Definition form_pairs (s : string) : list (string * string) :=
  omap (λ p, if is_empty p then None else Some (default (p, "") (split_once "="%char p)))
    (split "&"%char s).

Fixpoint drop_lt (s : string) : string :=
  match s with
  | EmptyString => EmptyString
  | String a s' => if ascii_eqb a "<"%char then "&lt;" +:+ drop_lt s' else String a (drop_lt s')
  end.

Lemma drop_lt_none s : has_char "<"%char (drop_lt s) = false.
Proof.
  induction s as [|a s IH]; simpl; [done|].
  destruct (ascii_eqb a "<"%char) eqn:E; [|by simpl; rewrite E, IH].
  by rewrite has_char_app, IH.
Qed.

#[export] Instance listing_simple : ListingC := {|
  to_lowercase := str_map lower_ascii;
  form_urlencoded_parse := form_pairs;
  format_utc := λ t, dec t;
  format_local := λ t, dec t;
  serde_json_to_string := λ l, Some (join "," (je_name <$> l));
  html_escape := drop_lt;
  html_escape_lt := drop_lt_none
|}.

(** ** Theorems: order *)

Lemma opt_leb_total a b : opt_leb a b = false → opt_leb b a = true.
Proof. destruct a, b; simpl; try done. intros ?%Z.leb_gt. apply Z.leb_le. lia. Qed.

Lemma opt_leb_trans a b c : opt_leb a b = true → opt_leb b c = true → opt_leb a c = true.
Proof. destruct a, b, c; simpl; try done. rewrite !Z.leb_le. lia. Qed.

Section SortTheorems.
Context `{!HttpC, !HeadersC, !MatchC, !PercentC, !ListingC}.

(** The order each code asks for, as a test between two entries. *)
Definition code_leb (code : Z) : FileEntry → FileEntry → bool :=
  if (code / 2 =? 0)%Z then name_leb else if (code / 2 =? 1)%Z then mtime_leb else size_leb.

Lemma sort_file_entries_cases files code :
  (0 ≤ code ≤ 5)%Z →
  (sort_file_entries files code).1
  = (if Z.odd code then rev (stable_sort (code_leb code) files)
     else stable_sort (code_leb code) files).
Proof.
  intros Hc. assert (code = 0 ∨ code = 1 ∨ code = 2 ∨ code = 3 ∨ code = 4 ∨ code = 5)%Z as Hcs by lia.
  by destruct Hcs as [->|[->|[->|[->|[->| ->]]]]].
Qed.

Lemma code_leb_total code a b : code_leb code a b = false → code_leb code b a = true.
Proof.
  unfold code_leb. repeat case_match; [apply str_leb_total|apply opt_leb_total..].
Qed.

Lemma code_leb_trans code a b c :
  code_leb code a b = true → code_leb code b c = true → code_leb code a c = true.
Proof.
  unfold code_leb. repeat case_match; [apply str_leb_trans|apply opt_leb_trans..].
Qed.

(** Two entries the order of a code does not separate. *)
Definition code_same (code : Z) (a b : FileEntry) : bool := code_leb code a b && code_leb code b a.

Lemma code_sort_stable code files x :
  List.filter (code_same code x) (stable_sort (code_leb code) files)
  = List.filter (code_same code x) files.
Proof.
  apply stable_sort_filter. intros y z [Hxy Hyx]%andb_prop Hyz.
  apply not_true_is_false. intros [Hxz _]%andb_prop.
  by rewrite (code_leb_trans _ _ _ _ Hyx Hxz) in Hyz.
Qed.

(** C30. Sorting the entries of a listing: a permutation of them; codes 0, 2 and 4
    order by name, date and size with equal entries in their original order;
    codes 1, 3 and 5 are exactly the reverse; any other code keeps the order of
    the directory. *)
Theorem sort_file_entries_spec files code :
  let sorted := (sort_file_entries files code).1 in
  sorted ≡ₚ files
  ∧ ((0 ≤ code ≤ 5)%Z →
     Sorted (λ a b, code_leb code a b = true) (if Z.odd code then rev sorted else sorted)
     ∧ (Z.odd code = true → sorted = rev (sort_file_entries files (code - 1)).1))
  ∧ (∀ x, (0 ≤ code ≤ 5)%Z → Z.odd code = false →
     List.filter (code_same code x) sorted = List.filter (code_same code x) files)
  ∧ ((code < 0 ∨ 5 < code)%Z → sorted = files).
Proof.
  intros sorted. unfold sorted.
  destruct (decide (0 ≤ code ≤ 5)%Z) as [Hc|Hc].
  - rewrite sort_file_entries_cases by done. split_and!.
    + destruct (Z.odd code); [rewrite <- Permutation_rev|]; apply stable_sort_perm.
    + intros _. split.
      * destruct (Z.odd code); rewrite ?rev_involutive; apply stable_sort_sorted; apply code_leb_total.
      * intros Ho. rewrite Ho.
        assert (code = 1 ∨ code = 3 ∨ code = 5)%Z as Hcs.
        { assert (code = 0 ∨ code = 1 ∨ code = 2 ∨ code = 3 ∨ code = 4 ∨ code = 5)%Z as Hx by lia.
          destruct Hx as [->|[->|[->|[->|[->| ->]]]]]; naive_solver. }
        by destruct Hcs as [->|[->| ->]].
    + intros x _ ->. apply code_sort_stable.
    + lia.
  - assert ((sort_file_entries files code).1 = files) as ->.
    { unfold sort_file_entries. repeat case_goal; try done; lia. }
    split_and!; try done; lia.
Qed.

(** The links of the table head ask for the other order of the column that is
    sorted and for the ascending order of the others. *)
Lemma sort_attrs_toggle files code :
  (0 ≤ code ≤ 5)%Z →
  (sort_file_entries files code).2 = {|
    sa_name := if decide (code = 0%Z) then "1" else "0";
    sa_last_modified := if decide (code = 2%Z) then "3" else "2";
    sa_size := if decide (code = 4%Z) then "5" else "4" |}.
Proof.
  intros Hc. assert (code = 0 ∨ code = 1 ∨ code = 2 ∨ code = 3 ∨ code = 4 ∨ code = 5)%Z as Hcs by lia.
  by destruct Hcs as [->|[->|[->|[->|[->| ->]]]]].
Qed.

End SortTheorems.

(** ** Theorems: sizes *)





(** The sizes of the unit tests. *)
Example format_file_size_examples :
  map format_file_size
    [128; 1024; 1048576; 1073741824; 1099511627776; 1125899906842624; 18446744073709551615]%Z
  = ["128 B"; "1.00 KiB"; "1.00 MiB"; "1.00 GiB"; "1.00 TiB"; "1.00 PiB"; "16384.00 PiB"].
Proof. vm_compute. reflexivity. Qed.

(** ** Theorems: entries and links *)

(** How a browser resolves a relative reference: it replaces what follows the
    last slash of the base. *)
Definition resolve_link (base ref : string) : string :=
  match rsplit_once SEP base with
  | Some (dir, _) => dir +:+ String SEP ref
  | None => ref
  end.

Section EntryTheorems.
Context `{!HttpC, !HeadersC, !MatchC, !PercentC, !ListingC}.

(** The line that a listing has for an entry of the directory: a directory, a
    regular file with its size, or, unless links are disabled, a link whose target
    exists, with the type and size of the target.  Its name does not start with a
    dot when hidden files are ignored. *)
Inductive line_of (fs : FileSystem) (bp : string) (ih ds : bool) (e : DirEntry) : FileEntry → Prop :=
| line_dir meta :
    de_metadata e = Ok meta → (ih = true → starts_with "." (de_name e) = false) → meta_kind meta = KDir →
    line_of fs bp ih ds e
      {| fe_name := de_name e; fe_mtime := meta_modified meta; fe_size := None;
         fe_type := FtDirectory; fe_uri := entry_uri bp (de_name e) FtDirectory |}
| line_file meta :
    de_metadata e = Ok meta → (ih = true → starts_with "." (de_name e) = false) → meta_kind meta = KFile →
    line_of fs bp ih ds e
      {| fe_name := de_name e; fe_mtime := meta_modified meta; fe_size := Some (meta_len meta);
         fe_type := FtFile; fe_uri := entry_uri bp (de_name e) FtFile |}
| line_link meta target tmeta :
    de_metadata e = Ok meta → (ih = true → starts_with "." (de_name e) = false) →
    meta_kind meta = KSymlink → ds = false →
    fs_canonicalize fs (de_path e) = Ok target → fs_symlink_metadata fs target = Ok tmeta →
    let ty := if kind_is_dir (meta_kind tmeta) then FtDirectory else FtFile in
    line_of fs bp ih ds e
      {| fe_name := de_name e; fe_mtime := meta_modified meta;
         fe_size := if kind_is_dir (meta_kind tmeta) then None else Some (meta_len tmeta);
         fe_type := ty; fe_uri := entry_uri bp (de_name e) ty |}.

(** The lines for the entries of a directory: in its order, one for each entry that
    has one, and nothing for the others. *)
Inductive listing_of (fs : FileSystem) (bp : string) (ih ds : bool) : list DirEntry → list FileEntry → Prop :=
| listing_nil : listing_of fs bp ih ds [] []
| listing_show e fe l es :
    line_of fs bp ih ds e fe → listing_of fs bp ih ds l es → listing_of fs bp ih ds (e :: l) (fe :: es)
| listing_skip e l es :
    (∀ fe, ¬ line_of fs bp ih ds e fe) → listing_of fs bp ih ds l es → listing_of fs bp ih ds (e :: l) es.

Lemma file_entry_line fs bp ih ds e fe :
  file_entry fs bp ih ds e = Some fe ↔ line_of fs bp ih ds e fe.
Proof.
  split.
  - unfold file_entry, entry_type. destruct (de_metadata e) as [meta| |] eqn:Hm; try done.
    destruct (ih && starts_with "." (de_name e)) eqn:Eh; [done|].
    assert (ih = true → starts_with "." (de_name e) = false) as Hh by (by intros ->).
    destruct (meta_kind meta) eqn:Ek; cbn; [by intros [= <-]; econstructor|by intros [= <-]; econstructor|..];
      destruct ds; try done; cbn.
    destruct (fs_canonicalize fs (de_path e)) as [target| |] eqn:Ec; try done.
    destruct (fs_symlink_metadata fs target) as [tmeta| |] eqn:Et; try done.
    pose proof (line_link fs bp ih false e meta target tmeta Hm Hh Ek eq_refl Ec Et) as Hl.
    destruct (meta_kind tmeta); cbn in Hl |- *; by intros [= <-].
  - unfold file_entry, entry_type.
    intros [meta Hm Hh Hk|meta Hm Hh Hk|meta target tmeta Hm Hh Hk -> Hc Ht ty]; rewrite Hm, Hk;
      (assert (ih && starts_with "." (de_name e) = false) as -> by (destruct ih; auto)); [done..|].
    cbn. rewrite Hc, Ht. unfold ty. by destruct (meta_kind tmeta).
Qed.

(** C37. What a listing is made of, on every outcome of reading the directory: when all
    its entries can be read, exactly the lines of the entries that have one, in
    the order of the directory; otherwise the error, after entries that were read. *)
Theorem listing_exact fs bp ih ds l :
  match read_entries fs bp ih ds l with
  | Ok es => ∃ entries, l = Ok <$> entries ∧ listing_of fs bp ih ds entries es
  | Err e => e = "unable to read directory entry" ∧ ∃ entries k rest, l = (Ok <$> entries) ++ Err k :: rest
  | Panic => Panic ∈ l
  end.
Proof.
  induction l as [|[e|k|] l IH]; cbn [read_entries].
  - exists []. split; [done|constructor].
  - destruct (read_entries fs bp ih ds l) as [es|msg|].
    + destruct IH as (entries & -> & Hl).
      destruct (file_entry fs bp ih ds e) as [fe|] eqn:E; (exists (e :: entries); split; [done|]).
      * constructor; [by apply file_entry_line|done].
      * apply listing_skip; [|done]. intros fe Hs%file_entry_line. congruence.
    + destruct IH as (-> & entries & k & rest & ->). split; [done|]. by exists (e :: entries), k, rest.
    + by right.
  - split; [done|]. by exists [], k, l.
  - by left.
Qed.

Lemma encode_name_facts name :
  valid_name name →
  let enc := percent_encode PERCENT_ENCODE_SET name in
  enc ≠ "" ∧ has_char SEP enc = false ∧ percent_decode_str enc = name.
Proof.
  intros (_ & Hne & _) enc.
  assert (percent_decode_str enc = name) as Hd by (by apply percent_decode_encode).
  split_and!; [|by apply percent_encode_slash|done].
  intros He. rewrite He, percent_decode_nil in Hd. by symmetry in Hd.
Qed.

(** The last part of a link: the encoded name, with a slash for a directory. *)
Lemma link_part_child q name ty :
  valid_name name →
  let enc := percent_encode PERCENT_ENCODE_SET name in
  let part := if bool_decide (ty = FtDirectory) then enc +:+ "/" else enc in
  normal_names (components (decode_tail_path (q +:+ String SEP part)))
  = normal_names (components (decode_tail_path q)) ++ [name].
Proof.
  intros Hn enc part. destruct (encode_name_facts name Hn) as (He & Hs & Hd). fold enc in He, Hs, Hd.
  apply tail_child; [done|..]; unfold part; case_bool_decide.
  - by destruct enc.
  - done.
  - rewrite trim_start_app, (trim_start_none _ enc Hs).
    by rewrite (proj2 (is_empty_false enc) He).
  - by apply trim_start_none.
  - right. change "/" with (String SEP ""). by rewrite percent_decode_slash, percent_decode_nil, Hd.
  - by left.
Qed.

(** C25. The link of an entry leads to the entry: whatever the name of the file and
    with or without a slash at the end of the request path, the link, resolved
    against the request path and sanitised, is the entry's path under the
    directory of the request. *)
Theorem entry_link_resolves root uri_path name ty p p' :
  starts_with "/" uri_path = true → valid_name name →
  sanitize_path root uri_path = Ok p →
  sanitize_path root (resolve_link uri_path (entry_uri uri_path name ty)) = Ok p' →
  components p' = components p ++ [Normal name].
Proof.
  intros [r Hr]%starts_with_true Hn Hp%sanitize_components Hp'%sanitize_components.
  rewrite Hp', Hp, <- app_assoc. f_equal.
  assert (normal_names (components (decode_tail_path
            (resolve_link uri_path (entry_uri uri_path name ty))))
          = normal_names (components (decode_tail_path uri_path)) ++ [name]) as ->;
    [|by rewrite fmap_app].
  unfold resolve_link, entry_uri. change "/"%char with SEP.
  assert (is_empty uri_path = false) as -> by (by rewrite Hr). rewrite andb_true_r.
  destruct (rsplit_once SEP uri_path) as [[dir last]|] eqn:Es.
  2: { apply rsplit_once_None in Es. by rewrite Hr in Es. }
  apply rsplit_once_Some in Es as [Es Hl].
  destruct (ends_with_char SEP uri_path) eqn:Ee; cbn [negb]; cbv iota.
  - assert (last = "") as ->.
    { apply ends_with_char_true in Ee as [q Hq]. rewrite Hq in Es.
      destruct (rsplit_once_Some SEP uri_path dir last) as [_ Ha].
      destruct (rsplit_once_Some SEP uri_path q "") as [_ Hb].
      specialize (Ha ltac:(by rewrite Hq)). specialize (Hb ltac:(by rewrite Hq)). congruence. }
    etrans; [apply (link_part_child dir name ty Hn)|]. f_equal.
    rewrite Es. unfold decode_tail_path. rewrite trim_start_app.
    destruct (is_empty (trim_start_matches SEP dir)) eqn:Ed.
    + apply is_empty_true in Ed. by rewrite Ed.
    + by rewrite percent_decode_slash, percent_decode_nil, normal_names_trailing.
  - etrans; [|apply (link_part_child uri_path name ty Hn)]. do 3 f_equal. rewrite Es.
    case_bool_decide; cbn [concat_str foldr];
      rewrite ?append_nil_r, ?append_assoc, ?append_cons, ?append_assoc, ?append_nil_l; done.
Qed.

End EntryTheorems.

(** ** Theorems: the page *)

(** Opening brackets of a tree, and a tree whose literals have none. *)
Fixpoint brackets (m : Markup) : nat :=
  match m with
  | Txt _ => 0
  | Elem _ _ children => 2 + list_sum (map brackets children)
  | Void _ _ => 1
  end.

Definition piece_clean (p : Piece) : bool :=
  match p with
  | Lit s => negb (has_char "<"%char s)
  | Esc _ => true
  end.

Definition attrs_clean (attrs : list (string * list Piece)) : bool :=
  forallb (λ a, negb (has_char "<"%char a.1) && forallb piece_clean a.2) attrs.

Fixpoint clean (m : Markup) : bool :=
  match m with
  | Txt p => piece_clean p
  | Elem tag attrs children =>
      negb (has_char "<"%char tag) && attrs_clean attrs && forallb clean children
  | Void tag attrs => negb (has_char "<"%char tag) && attrs_clean attrs
  end.

Lemma count_char_app c a b : count_char c (a +:+ b) = (count_char c a + count_char c b)%nat.
Proof. induction a as [|x a IH]; [done|]. rewrite append_cons. simpl. lia. Qed.

Lemma count_char_none c s : has_char c s = false → count_char c s = 0%nat.
Proof.
  induction s as [|x s IH]; [done|]. simpl. intros [-> Hs]%orb_false_iff. by apply IH.
Qed.

Lemma count_char_concat c l : count_char c (concat_str l) = list_sum (map (count_char c) l).
Proof. induction l as [|x l IH]; [done|]. simpl. by rewrite count_char_app, IH. Qed.

Lemma list_sum_zero {A} (f : A → nat) l :
  Forall (λ x, f x = 0%nat) l → list_sum (map f l) = 0%nat.
Proof. induction 1 as [|x l Hx _ IH]; simpl; lia. Qed.

Lemma table_brackets n (l1 l2 : list Markup) :
  list_sum (n :: map brackets (l1 ++ l2))
  = (n + (list_sum (map brackets l1) + list_sum (map brackets l2)))%nat.
Proof. simpl. by rewrite map_app, list_sum_app. Qed.

Section PageTheorems.
Context `{!HttpC, !HeadersC, !MatchC, !PercentC, !ListingC}.

Lemma piece_count p : piece_clean p = true → count_char "<"%char (render_piece p) = 0%nat.
Proof.
  destruct p as [s|s]; simpl; intros Hp; apply count_char_none.
  - by apply negb_true_iff.
  - apply html_escape_lt.
Qed.

Lemma attrs_count attrs :
  attrs_clean attrs = true → count_char "<"%char (render_attrs attrs) = 0%nat.
Proof.
  intros Ha. unfold render_attrs. rewrite count_char_concat. apply list_sum_zero.
  unfold attrs_clean in Ha. rewrite forallb_forall in Ha.
  apply Forall_forall. intros s (a & -> & Hin)%list_elem_of_fmap.
  apply list_elem_of_In, Ha, andb_true_iff in Hin as [Hk Hv].
  rewrite count_char_concat. simpl. rewrite (count_char_none _ a.1) by (by apply negb_true_iff).
  rewrite count_char_concat. rewrite list_sum_zero; [done|].
  apply Forall_forall. intros t (p & -> & Hp)%list_elem_of_fmap. apply piece_count.
  rewrite forallb_forall in Hv. by apply Hv, list_elem_of_In.
Qed.

(** In the text of a clean tree every opening bracket is that of a tag. *)
Lemma render_brackets m :
  clean m = true → count_char "<"%char (render m) = brackets m.
Proof.
  revert m. fix IH 1. intros [p|tag attrs children|tag attrs] Hc; simpl in Hc.
  - by apply piece_count.
  - apply andb_true_iff in Hc as [[Ht Ha]%andb_true_iff Hch].
    apply negb_true_iff, count_char_none in Ht. apply attrs_count in Ha.
    cbn [render brackets]. rewrite count_char_concat. simpl. rewrite Ht, Ha.
    rewrite count_char_concat. simpl.
    assert (list_sum (map (count_char "<"%char) (map render children))
            = list_sum (map brackets children)) as ->; [|lia].
    clear Ht Ha. induction children as [|m l IHl]; [done|]. simpl in Hch |- *.
    apply andb_true_iff in Hch as [Hm Hl]. rewrite (IH m Hm). by rewrite IHl.
  - apply andb_true_iff in Hc as [Ht Ha].
    apply negb_true_iff, count_char_none in Ht. apply attrs_count in Ha.
    cbn [render brackets]. rewrite count_char_concat. simpl. by rewrite Ht, Ha.
Qed.

Lemma rows_clean entries : forallb clean (html_row <$> entries) = true.
Proof.
  induction entries as [|e l IH]; [done|]. cbn [fmap list_fmap forallb]. rewrite IH, andb_true_r.
  unfold html_row. destruct (entry_is_dir e); reflexivity.
Qed.

Lemma rows_brackets entries : list_sum (map brackets (html_row <$> entries)) = (10 * length entries)%nat.
Proof.
  induction entries as [|e l IH]; [done|]. cbn [fmap list_fmap map]. simpl list_sum.
  rewrite IH. unfold html_row. destruct (entry_is_dir e); simpl; lia.
Qed.

(** C29. No file name, path or date can add markup to a listing: the number of
    opening brackets of the page depends only on the number of entries and on
    whether there is a row for the parent directory. *)
Theorem html_listing_no_injection bp dirs files entries code :
  count_char "<"%char (html_auto_index bp dirs files entries code)
  = (45 + (if str_eqb bp "/" then 0 else 6) + 10 * length entries)%nat.
Proof.
  unfold html_auto_index.
  destruct (sort_file_entries entries code) as [sorted attrs] eqn:Es.
  assert (length sorted = length entries) as <-.
  { unfold sort_file_entries in Es. repeat case_hyp Es; simplify_eq;
      rewrite ?length_rev, ?stable_sort_length; done. }
  rewrite count_char_app, render_brackets.
  - unfold html_page_markup. cbn [brackets map]. rewrite table_brackets, rows_brackets.
    destruct (str_eqb bp "/"); simpl; lia.
  - unfold html_page_markup. cbn [clean forallb]. rewrite forallb_app, rows_clean.
    destruct (str_eqb bp "/"); reflexivity.
Qed.

(** A listing is sent from memory. *)
Lemma auto_index_body fs opts resp :
  auto_index fs opts = Ok resp → resp_body resp = BodyEmpty ∨ ∃ content, resp_body resp = BodyBytes content.
Proof.
  unfold auto_index, read_dir_entries. intros Hr. unfold rbind in Hr. repeat case_hyp Hr; simplify_eq/=; eauto.
Qed.

Lemma auto_index_cases fs opts :
  fs_total fs →
  match auto_index fs opts with
  | Ok resp =>
      resp_status resp = SC_OK
      ∧ ∃ content, get_header resp H_CONTENT_LENGTH = Some (content_length_value (str_len content))
        ∧ resp_body resp = (if is_head (dl_method opts) then BodyEmpty else BodyBytes content)
        ∧ get_header resp H_CONTENT_TYPE
          = Some (content_type_value (match dl_format opts with
                                      | Json => APPLICATION_JSON | Html => TEXT_HTML_UTF_8 end))
  | Err s => s = SC_NOT_FOUND ∨ s = SC_FORBIDDEN ∨ s = SC_INTERNAL_SERVER_ERROR
  | Panic => False
  end.
Proof.
  intros Htot. unfold auto_index.
  set (d := default (dl_filepath opts) (parent (dl_filepath opts))).
  destruct (fs_read_dir fs d) as [l|k|] eqn:Hd.
  2: { destruct k; naive_solver. }
  2: { by apply (total_read_dir fs Htot) in Hd. }
  pose proof (total_entries fs Htot d l Hd) as Hl. unfold read_dir_entries. simpl.
  assert (read_entries fs (dl_current_path opts) (dl_ignore_hidden_files opts)
            (dl_disable_symlinks opts) l ≠ Panic) as Hnp.
  { clear Hd. induction Hl as [|e l He _ IHl]; [done|]. destruct e as [e|k|]; simpl; try done.
    destruct (read_entries _ _ _ _ l); [|done|done]. by destruct (file_entry _ _ _ _ e). }
  destruct (read_entries _ _ _ _ l) as [es| |]; [|naive_solver|done].
  destruct (dl_format opts).
  - destruct (is_head (dl_method opts)); (split; [done|]; eexists; split_and!;
      [headers; reflexivity|done|by headers]).
  - unfold json_auto_index. destruct (sort_file_entries es _) as [s ?].
    destruct (serde_json_to_string _); simpl; [|naive_solver].
    destruct (is_head (dl_method opts)); (split; [done|]; eexists; split_and!;
      [headers; reflexivity|done|by headers]).
Qed.

End PageTheorems.

(** A file whose name is a script element. *)
Lemma entry_link_witness :
  components "/srv/docs/a b%2f<i>.txt"
  = components "/srv/docs" ++ [Normal "a b%2f<i>.txt"].
Proof.
  apply (entry_link_resolves "/srv" "/docs" "a b%2f<i>.txt" FtFile); vm_compute; try reflexivity.
  split_and!; congruence.
Defined.

(** Dotfiles and links left out of a listing. *)
Example listing_filters :
  let e n k := {| de_name := n; de_path := "/d/" +:+ n;
                  de_metadata := Ok {| meta_kind := k; meta_len := 1; meta_modified := None;
                                       meta_blksize := 4096 |} |} in
  map fe_name <$> match read_entries (table_fs []) "/d/" true true
                          [Ok (e ".git" KDir); Ok (e "a" KFile); Ok (e "s" KSymlink)] with
                  | Ok es => Some es
                  | _ => None
                  end = Some ["a"].
Proof. vm_compute. reflexivity. Qed.
