(* ===== verification/StaticFiles.v ===== *)
(** * Static files: [static_files.rs]

    From a request to a file of the base directory: the cache, the composed
    metadata (index files, [.html] suffix, pre-compressed variants), redirects,
    [OPTIONS], directory listings and the reply. *)

From S2P Require Import Prelude RustStr RustPath Fs FsStream ContentCoding Http HttpInstances.
From S2P Require Import Opts FsPath FsMeta F32 QualityValue ErrorPage Compression.
From S2P Require Import CompressionStatic ConditionalHeaders ResponseBody MemCache.
From S2P Require Import DirectoryListing.

Open Scope sws_scope.

Definition DEFAULT_INDEX_FILES : list string := ["index.html"].

Section StaticFiles.
Context `{!HttpC, !HeadersC, !MatchC, !PercentC, !ListingC}.

Record HandleOpts : Type := {
  ho_method : Method;
  ho_memory_cache : option MemCacheOpts;
  ho_headers : HeaderMap;
  ho_base_path : string;
  ho_uri_path : string;
  ho_index_files : list string;
  ho_uri_query : option string;
  ho_dir_listing : bool;
  ho_dir_listing_order : Z;
  ho_dir_listing_format : DirListFmt;
  ho_redirect_trailing_slash : bool;
  ho_compression_static : bool;
  ho_ignore_hidden_files : bool;
  ho_disable_symlinks : bool
}.

Record StaticFileResponse : Type := {
  sf_resp : Response;
  sf_file_path : string
}.

(** The variant a path is served with, when static compression is on. *)
Definition static_variant (fs : FileSystem) (compression_static : bool) (file_path : string)
    (headers : HeaderMap) : option FileMetadata :=
  if compression_static then
    match precompressed_variant fs file_path headers with
    | Some p => Some {| fm_file_path := file_path; fm_metadata := cv_metadata p; fm_is_dir := false;
                        fm_precompressed_variant := Some (cv_file_path p, cv_encoding p) |}
    | None => None
    end
  else None.

(** How the loop over the index files ends: the [return] in it, or the path and
    metadata it leaves with the flag [index_found]. *)
Inductive IndexResult : Type :=
| IndexReturn (fm : FileMetadata)
| IndexDone (file_path : string) (metadata : Metadata) (index_found : bool).

Fixpoint index_loop (fs : FileSystem) (headers : HeaderMap) (compression_static : bool)
    (file_path : string) (metadata : Metadata) (index_files : list string) : IndexResult :=
  match index_files with
  | [] => IndexDone file_path metadata false
  | index :: rest =>
      let file_path := push file_path index in
      match static_variant fs compression_static file_path headers with
      | Some fm => IndexReturn fm
      | None =>
          match try_metadata fs file_path with
          | Ok (meta_res, _) => IndexDone file_path meta_res true
          | _ =>
              let file_path := pop file_path in
              let (file_path, new_meta) := try_metadata_with_html_suffix fs file_path in
              match new_meta with
              | Some new_meta => IndexDone file_path new_meta true
              | None => index_loop fs headers compression_static file_path metadata rest
              end
          end
      end
  end.

Definition get_composed_file_metadata (fs : FileSystem) (file_path : string) (headers : HeaderMap)
    (compression_static : bool) (index_files : list string) (disable_symlinks : bool)
    : Result FileMetadata StatusCode :=
  if disable_symlinks && path_is_symlink fs file_path then Err SC_FORBIDDEN
  else
    match try_metadata fs file_path with
    | Ok (metadata, is_dir) =>
        if is_dir then
          let index_files := match index_files with [] => DEFAULT_INDEX_FILES | l => l end in
          match index_loop fs headers compression_static file_path metadata index_files with
          | IndexReturn fm => Ok fm
          | IndexDone file_path metadata index_found =>
              let file_path :=
                match last index_files with
                | Some index => if negb index_found then push file_path index else file_path
                | None => file_path
                end in
              Ok {| fm_file_path := file_path; fm_metadata := metadata; fm_is_dir := is_dir;
                    fm_precompressed_variant := None |}
          end
        else
          match static_variant fs compression_static file_path headers with
          | Some fm => Ok fm
          | None => Ok {| fm_file_path := file_path; fm_metadata := metadata; fm_is_dir := is_dir;
                          fm_precompressed_variant := None |}
          end
    | Err err =>
        match static_variant fs compression_static file_path headers with
        | Some fm => Ok fm
        | None =>
            let (file_path, new_meta) := try_metadata_with_html_suffix fs file_path in
            match new_meta with
            | Some new_meta =>
                Ok {| fm_file_path := file_path; fm_metadata := new_meta; fm_is_dir := false;
                      fm_precompressed_variant := None |}
            | None =>
                match static_variant fs compression_static file_path headers with
                | Some fm => Ok fm
                | None => Err err
                end
            end
        end
    | Panic => Panic
    end.

Definition file_reply (fs : FileSystem) (headers : HeaderMap) (path : string) (meta : Metadata)
    (path_precompressed : option string) (memory_cache : option MemCacheOpts)
    : Result Response StatusCode :=
  let conditionals := conditionals_new headers in
  let file_path := default path path_precompressed in
  match fs_open fs file_path with
  | Ok file => response_body file path meta conditionals memory_cache
  | Err NotFound => Err SC_NOT_FOUND
  | Err PermissionDenied => Err SC_FORBIDDEN
  | Err OtherError => Err SC_INTERNAL_SERVER_ERROR
  | Panic => Panic
  end.

(** The redirect to the same path with a slash. *)
Definition slash_redirect (uri_path : string) : Result Response StatusCode :=
  match hv_from_str (concat_str [uri_path; "/"]) with
  | Some loc =>
      Ok (set_status SC_PERMANENT_REDIRECT (put_header H_LOCATION loc (response_new BodyEmpty)))
  | None => Err SC_INTERNAL_SERVER_ERROR
  end.

(** The answer to [OPTIONS]. *)
Definition options_response : Response :=
  put_header H_ACCEPT_RANGES accept_ranges_bytes
    (put_header H_ALLOW (allow_value HTTP_SUPPORTED_METHODS)
       (set_status SC_NO_CONTENT (response_new BodyEmpty))).

(** A pre-compressed file: the length is dropped and the coding announced. *)
Definition precompressed_reply (fs : FileSystem) (opts : HandleOpts) (file_path : string)
    (metadata : Metadata) (precomp_path : string) (precomp_encoding : ContentCoding)
    : Result Response StatusCode :=
  let? resp := file_reply fs (ho_headers opts) file_path metadata (Some precomp_path)
                 (ho_memory_cache opts) in
  let resp := del_header H_CONTENT_LENGTH resp in
  match hv_from_str (as_str precomp_encoding) with
  | Some encoding => Ok (put_header H_CONTENT_ENCODING encoding resp)
  | None => Err SC_INTERNAL_SERVER_ERROR
  end.

(** [handle] from the composed metadata on. *)
Definition reply (fs : FileSystem) (opts : HandleOpts) (fm : FileMetadata)
    : Result StaticFileResponse StatusCode :=
  let file_path := fm_file_path fm in
  let done_with resp := Ok {| sf_resp := resp; sf_file_path := file_path |} in
  if ho_ignore_hidden_files opts && is_hidden file_path then Err SC_NOT_FOUND
  else if fm_is_dir fm && ho_redirect_trailing_slash opts
          && negb (ends_with_char "/"%char (ho_uri_path opts)) then
    let? resp := slash_redirect (ho_uri_path opts) in done_with resp
  else if is_options (ho_method opts) then done_with options_response
  else if fm_is_dir fm && ho_dir_listing opts && negb (path_exists fs file_path) then
    let? resp := auto_index fs {|
      dl_method := ho_method opts;
      dl_current_path := ho_uri_path opts;
      dl_uri_query := ho_uri_query opts;
      dl_filepath := file_path;
      dl_order := ho_dir_listing_order opts;
      dl_format := ho_dir_listing_format opts;
      dl_ignore_hidden_files := ho_ignore_hidden_files opts;
      dl_disable_symlinks := ho_disable_symlinks opts
    |} in done_with resp
  else
    match fm_precompressed_variant fm with
    | Some (precomp_path, precomp_encoding) =>
        let? resp := precompressed_reply fs opts file_path (fm_metadata fm) precomp_path
                       precomp_encoding in done_with resp
    | None =>
        let? resp := file_reply fs (ho_headers opts) file_path (fm_metadata fm) None
                       (ho_memory_cache opts) in done_with resp
    end.

(** The cache lookup: the path it is done with, and the cached answer. *)
Definition cache_lookup (store : option CacheStore) (opts : HandleOpts) (file_path : string)
    : Result (string * option (Result Response StatusCode)) StatusCode :=
  match ho_memory_cache opts with
  | Some _ =>
      let file_path :=
        if ho_redirect_trailing_slash opts && ends_with_char "/"%char (ho_uri_path opts)
        then push file_path "index.html" else file_path in
      let? result := get_or_acquire store file_path (ho_headers opts) in
      Ok (file_path, result)
  | None => Ok (file_path, None)
  end.

(** [static_files::handle] *)
Definition handle (fs : FileSystem) (store : option CacheStore) (opts : HandleOpts)
    : Result StaticFileResponse StatusCode :=
  if negb (is_allowed (ho_method opts)) then Err SC_METHOD_NOT_ALLOWED
  else
    let? file_path := sanitize_path (ho_base_path opts) (ho_uri_path opts) in
    let? cached := cache_lookup store opts file_path in
    match cached with
    | (file_path, Some result) =>
        let? resp := result in Ok {| sf_resp := resp; sf_file_path := file_path |}
    | (file_path, None) =>
        let? fm := get_composed_file_metadata fs file_path (ho_headers opts)
                     (ho_compression_static opts) (ho_index_files opts)
                     (ho_disable_symlinks opts) in
        reply fs opts fm
    end.

End StaticFiles.

(** ** Theorems: confinement *)

(** A path strictly under a base directory, on components. *)
Definition strictly_under (base q : string) : Prop :=
  ∃ l, l ≠ [] ∧ components q = components base ++ l.

(** Two file systems that answer alike under a base directory, symbolic links
    there included: what a link resolves to looks alike too. *)
Record agree_under (base : string) (fs1 fs2 : FileSystem) : Prop := {
  agree_metadata : ∀ q, path_starts_with base q = true → fs_metadata fs1 q = fs_metadata fs2 q;
  agree_symlink : ∀ q,
    path_starts_with base q = true → fs_symlink_metadata fs1 q = fs_symlink_metadata fs2 q;
  agree_open : ∀ q, path_starts_with base q = true → fs_open fs1 q = fs_open fs2 q;
  agree_read_dir : ∀ q, path_starts_with base q = true → fs_read_dir fs1 q = fs_read_dir fs2 q;
  agree_entries : ∀ q l e, path_starts_with base q = true → fs_read_dir fs1 q = Ok l → Ok e ∈ l →
    fs_canonicalize fs1 (de_path e) = fs_canonicalize fs2 (de_path e)
    ∧ ∀ r, fs_canonicalize fs1 (de_path e) = Ok r →
        fs_symlink_metadata fs1 r = fs_symlink_metadata fs2 r
}.

Lemma strictly_under_starts base q : strictly_under base q → path_starts_with base q = true.
Proof. intros (l & _ & Hq). apply path_starts_with_true. by exists l. Qed.

Lemma strictly_under_eq base p q :
  strictly_under base p → components q = components p → strictly_under base q.
Proof. intros (l & Hl & Hp) Hq. exists l. by rewrite Hq. Qed.

Lemma strictly_under_push base p s :
  strictly_under base p → valid_name s → strictly_under base (push p s).
Proof.
  intros (l & Hl & Hp) Hs. exists (l ++ [Normal s]). split; [by destruct l|].
  by rewrite components_push_name, Hp, app_assoc.
Qed.

(** A file next to a path that is strictly under the base. *)
Lemma strictly_under_sibling base p q f g :
  strictly_under base p → file_name p = Some f →
  components q = components (pop p) ++ [g] → strictly_under base q.
Proof.
  intros (l & Hl & Hp) Hf Hq. destruct (file_name_Some _ _ Hf) as [_ Hc].
  destruct (exists_last Hl) as (l' & x & ->). rewrite Hp, app_assoc in Hc.
  apply app_inj_2 in Hc as [Hc _]; [|done].
  exists (l' ++ [g]). split; [by destruct l'|]. by rewrite Hq, <- Hc, app_assoc.
Qed.

Lemma file_name_eq p q : components q = components p → file_name q = file_name p.
Proof. unfold file_name. by intros ->. Qed.

(** The names next to a path that are tried in its place. *)
Definition SIBLING_SUFFIXES : list string := [".html"; ".gz"; ".br"; ".zst"].

(** [q] is next to [p], with the name of [p] and one of the suffixes. *)
Definition sibling (p q : string) : Prop :=
  ∃ f s, file_name p = Some f ∧ s ∈ SIBLING_SUFFIXES
    ∧ components q = components (pop p) ++ [Normal (f +:+ s)].

(** Two file systems that answer alike for the siblings of a base directory. *)
Definition agree_siblings (base : string) (fs1 fs2 : FileSystem) : Prop :=
  ∀ q, sibling base q → fs_metadata fs1 q = fs_metadata fs2 q ∧ fs_open fs1 q = fs_open fs2 q.

Lemma sibling_html p f : file_name p = Some f → sibling p (set_file_name p (f +:+ ".html")).
Proof.
  intros Hf. exists f, ".html". destruct (file_name_Some _ _ Hf) as [Hv _].
  split_and!; [done|set_solver|]. by eapply components_set_file_name; [|apply html_name].
Qed.

Lemma sibling_variant p f c ext q :
  file_name p = Some f → comp_ext c = Some ext →
  components q = components (pop p) ++ [Normal (concat_str [f; "."; ext])] → sibling p q.
Proof.
  intros Hf He Hq. exists f, ("." +:+ ext). simpl in Hq. rewrite append_nil_r in Hq.
  split_and!; [done| |done]. unfold SIBLING_SUFFIXES.
  destruct (comp_ext_cases _ _ He) as [-> |[-> | ->]]; set_solver.
Qed.

Lemma sibling_eq p p' q : components p = components p' → sibling p q → sibling p' q.
Proof.
  intros Hp (f & s & Hf & Hs & Hq). destruct (file_name_Some _ _ Hf) as [_ Hc].
  assert (file_name p' = Some f) as Hf' by (by rewrite <- (file_name_eq p' p)).
  destruct (file_name_Some _ _ Hf') as [_ Hc']. rewrite Hp, Hc' in Hc.
  apply app_inj_2 in Hc as [Hc _]; [|done]. exists f, s. by rewrite Hc.
Qed.

Section Confinement.
Context `{!HttpC, !HeadersC, !MatchC, !PercentC, !ListingC}.
Context (base : string) (fs1 fs2 : FileSystem) (Hag : agree_under base fs1 fs2).

(** A path that is looked up alike in the two file systems. *)
Definition same_file (q : string) : Prop :=
  fs_metadata fs1 q = fs_metadata fs2 q ∧ fs_open fs1 q = fs_open fs2 q.

(** The paths that are looked for: strictly under the base, or the base itself if
    its siblings look alike too. *)
Definition inside (p : string) : Prop :=
  strictly_under base p ∨ agree_siblings base fs1 fs2 ∧ components p = components base.

Lemma starts_same q : path_starts_with base q = true → same_file q.
Proof. intros Hq. split; [by apply (agree_metadata _ _ _ Hag)|by apply (agree_open _ _ _ Hag)]. Qed.

Lemma inside_starts p : inside p → path_starts_with base p = true.
Proof.
  intros [Hp|[_ Hp]]; [by apply strictly_under_starts|].
  apply path_starts_with_true. exists []. by rewrite app_nil_r.
Qed.

Lemma inside_same p : inside p → same_file p.
Proof. intros Hp. by apply starts_same, inside_starts. Qed.

Lemma inside_sibling p q : inside p → sibling p q → same_file q.
Proof.
  intros [Hp|[Hs Hp]] Hq.
  - destruct Hq as (f & s & Hf & _ & Hq). apply starts_same, strictly_under_starts.
    by eapply strictly_under_sibling.
  - apply Hs. by eapply sibling_eq.
Qed.

Lemma inside_eq p q : inside p → components q = components p → inside q.
Proof.
  intros [Hp|[Hs Hp]] Hq; [left; by eapply strictly_under_eq|right]. by rewrite Hq.
Qed.

Lemma inside_push p s : inside p → valid_name s → strictly_under base (push p s).
Proof.
  intros [Hp|[_ Hp]] Hs; [by apply strictly_under_push|].
  exists [Normal s]. split; [done|]. by rewrite components_push_name, Hp.
Qed.

Lemma try_metadata_agree q : same_file q → try_metadata fs1 q = try_metadata fs2 q.
Proof. intros [Hq _]. unfold try_metadata. by rewrite Hq. Qed.

Lemma html_suffix_agree p :
  inside p →
  try_metadata_with_html_suffix fs1 p = try_metadata_with_html_suffix fs2 p
  ∧ match try_metadata_with_html_suffix fs1 p with
    | (q, Some m) => same_file q ∧ fs_metadata fs1 q = Ok m
    | (q, None) => inside q
    end.
Proof.
  intros Hp. destruct (try_metadata_with_html_suffix fs1 p) as [q o] eqn:E.
  pose proof (html_suffix_spec _ _ _ _ E) as Hs. split.
  - rewrite <- E. unfold try_metadata_with_html_suffix. destruct (file_name p) as [f|] eqn:Hf; [|done].
    rewrite try_metadata_agree; [done|]. eapply inside_sibling; [done|by apply sibling_html].
  - destruct o as [m|]; [|by eapply inside_eq].
    destruct Hs as (f & Hf & _ & Hm & Hc). split; [|done].
    eapply inside_sibling; [done|]. exists f, ".html". split_and!; [done|set_solver|done].
Qed.

Lemma variant_agree p c : inside p → try_variant fs1 p c = try_variant fs2 p c.
Proof.
  intros Hp. unfold try_variant. destruct (comp_ext c) as [ext|] eqn:Hext; [|done].
  destruct (file_name p) as [f|] eqn:Hf; [|done]. simpl.
  destruct (to_str f) as [name|] eqn:Hn; [|done]. apply to_str_Some in Hn as ->.
  rewrite try_metadata_agree; [done|]. destruct (file_name_Some _ _ Hf) as [Hv _].
  eapply inside_sibling; [done|]. eapply sibling_variant; [done|done|].
  eapply components_set_file_name; [done|]. eapply variant_name_valid; [done|by eapply comp_ext_cases].
Qed.

(** What the composed metadata refer to looks alike. *)
Definition same_composed (fm : FileMetadata) : Prop :=
  same_file (fm_file_path fm)
  ∧ (fm_is_dir fm = true → strictly_under base (fm_file_path fm) ∨ path_exists fs1 (fm_file_path fm) = true)
  ∧ ∀ vp c, fm_precompressed_variant fm = Some (vp, c) → same_file vp.

Lemma static_variant_agree cs p headers :
  inside p →
  static_variant fs1 cs p headers = static_variant fs2 cs p headers
  ∧ ∀ fm, static_variant fs1 cs p headers = Some fm → same_composed fm.
Proof.
  intros Hp. unfold static_variant. destruct cs; [|done]. split.
  - unfold precompressed_variant.
    assert (∀ l, variant_loop fs1 p l = variant_loop fs2 p l) as ->; [|done].
    induction l as [|c l IH]; simpl; [done|]. by rewrite variant_agree, IH.
  - intros fm. destruct (precompressed_variant fs1 p headers) as [v|] eqn:Hv; [|done].
    intros [= <-]. split_and!; [by apply inside_same|done|]. intros vp c [= <- <-].
    apply precompressed_variant_Some in Hv as (_ & Hv & _).
    apply try_variant_Some in Hv as (name & ext & Hf & He & _ & _ & _ & Hc).
    eapply inside_sibling; [done|]. by eapply sibling_variant.
Qed.

Lemma index_loop_agree headers cs idx p m :
  inside p → Forall valid_name idx →
  index_loop fs1 headers cs p m idx = index_loop fs2 headers cs p m idx
  ∧ match index_loop fs1 headers cs p m idx with
    | IndexReturn fm => same_composed fm
    | IndexDone q _ true => same_file q ∧ path_exists fs1 q = true
    | IndexDone q _ false => inside q
    end.
Proof.
  intros Hp Hidx. revert p Hp. induction Hidx as [|i idx Hi _ IH]; intros p Hp; simpl; [done|].
  assert (inside (push p i)) as Hpi by (left; by apply inside_push).
  destruct (static_variant_agree cs (push p i) headers Hpi) as [<- Hsv].
  destruct (static_variant fs1 cs (push p i) headers) as [fm|]; [by split; [|apply Hsv]|].
  rewrite <- (try_metadata_agree _ (inside_same _ Hpi)).
  assert (inside (pop (push p i))) as Hpop by (apply (inside_eq p); [done|by apply components_pop_push]).
  destruct (html_suffix_agree _ Hpop) as (<- & Hu).
  destruct (try_metadata fs1 (push p i)) as [[mr d]| |] eqn:Et.
  { split; [done|]. split; [by apply inside_same|]. apply try_metadata_Ok in Et as [Et _].
    unfold path_exists. by rewrite Et. }
  all: destruct (try_metadata_with_html_suffix fs1 (pop (push p i))) as [q [nm|]]; [|by apply IH].
  all: split; [done|]; destruct Hu as [Hu Hm]; split; [done|]; unfold path_exists; by rewrite Hm.
Qed.

Lemma composed_agree headers cs idx ds p :
  inside p → Forall valid_name idx →
  get_composed_file_metadata fs1 p headers cs idx ds
  = get_composed_file_metadata fs2 p headers cs idx ds
  ∧ ∀ fm, get_composed_file_metadata fs1 p headers cs idx ds = Ok fm → same_composed fm.
Proof.
  intros Hp Hidx. unfold get_composed_file_metadata, path_is_symlink.
  rewrite <- (agree_symlink _ _ _ Hag p) by (by apply inside_starts).
  destruct (ds && _); [done|]. rewrite <- (try_metadata_agree p) by (by apply inside_same).
  destruct (static_variant_agree cs p headers Hp) as [<- Hsv].
  destruct (try_metadata fs1 p) as [[m d]|e|]; [|..|done].
  - set (idx' := match idx with [] => DEFAULT_INDEX_FILES | _ => idx end).
    assert (Forall valid_name idx') as Hidx'.
    { unfold idx'. destruct idx; [|done]. by repeat constructor. }
    destruct (index_loop_agree headers cs idx' p m Hp Hidx') as [<- Hil].
    destruct d.
    + destruct (index_loop fs1 headers cs p m idx') as [fm|q m' found].
      * split; [done|]. by intros ? [= <-].
      * split; [done|]. intros fm [= <-]. unfold same_composed. simpl. destruct found; simpl.
        { destruct Hil. destruct (last idx'); split_and!; auto; done. }
        destruct (last idx') as [i|] eqn:Hlast.
        { apply last_Some in Hlast as [l Hl]. rewrite Hl in Hidx'. apply Forall_app in Hidx' as [_ Hx].
          inversion Hx; subst. assert (strictly_under base (push q i)) as Hu by (by apply inside_push).
          split_and!; [by apply starts_same, strictly_under_starts|by left|done]. }
        apply last_None in Hlast. unfold idx' in Hlast. by destruct idx.
    + destruct (static_variant fs1 cs p headers) as [fm|].
      * split; [done|]. intros ? [= <-]. by apply Hsv.
      * split; [done|]. intros ? [= <-]. split_and!; [by apply inside_same|done|done].
  - destruct (static_variant fs1 cs p headers) as [fm|].
    + split; [done|]. intros ? [= <-]. by apply Hsv.
    + destruct (html_suffix_agree p Hp) as (<- & Hu).
      destruct (try_metadata_with_html_suffix fs1 p) as [q [nm|]]; simpl in *.
      * split; [done|]. intros ? [= <-]. destruct Hu. by split_and!.
      * destruct (static_variant_agree cs q headers Hu) as [<- Hsv'].
        destruct (static_variant fs1 cs q headers) as [fm|]; [|done].
        split; [done|]. intros ? [= <-]. by apply Hsv'.
Qed.

Lemma read_entries_agree bp ih ds q l :
  path_starts_with base q = true → fs_read_dir fs1 q = Ok l →
  read_entries fs1 bp ih ds l = read_entries fs2 bp ih ds l.
Proof.
  intros Hq Hl.
  assert (∀ e, Ok e ∈ l → file_entry fs1 bp ih ds e = file_entry fs2 bp ih ds e) as Hfe.
  { intros e He. destruct (agree_entries _ _ _ Hag q l e Hq Hl He) as [Hcan Hsym].
    unfold file_entry. destruct (de_metadata e); [|done|done].
    assert (entry_type fs1 ds e a = entry_type fs2 ds e a) as ->; [|done].
    unfold entry_type. rewrite <- Hcan.
    destruct (fs_canonicalize fs1 (de_path e)) as [r| |]; [|done|done].
    by rewrite (Hsym r eq_refl). }
  clear Hl. induction l as [|[e| |] l IH]; simpl; try done.
  rewrite IH by (intros e' He'; apply Hfe; by right). rewrite Hfe by left. done.
Qed.

Lemma auto_index_agree opts :
  strictly_under base (dl_filepath opts) → auto_index fs1 opts = auto_index fs2 opts.
Proof.
  intros Hq. unfold auto_index. set (d := default _ _).
  assert (path_starts_with base d = true) as Hd.
  { unfold d. destruct (parent (dl_filepath opts)) as [r|] eqn:Hr; simpl;
      [|by apply strictly_under_starts].
    apply parent_Some in Hr as [c Hc]. destruct Hq as (l & Hl & Hq). rewrite Hc in Hq.
    destruct (exists_last Hl) as (l' & x & ->). rewrite app_assoc in Hq.
    apply app_inj_2 in Hq as [Hq _]; [|done]. apply path_starts_with_true. by exists l'. }
  rewrite <- (agree_read_dir _ _ _ Hag d Hd).
  destruct (fs_read_dir fs1 d) as [l|k|] eqn:Hl; [|done|done].
  unfold read_dir_entries. simpl. by rewrite (read_entries_agree _ _ _ d l Hd Hl).
Qed.

Lemma reply_agree opts fm : same_composed fm → reply fs1 opts fm = reply fs2 opts fm.
Proof.
  intros ([Hm Ho] & Hd & Hv). unfold reply, precompressed_reply, file_reply.
  assert (path_exists fs2 (fm_file_path fm) = path_exists fs1 (fm_file_path fm)) as ->
    by (unfold path_exists; by rewrite Hm).
  destruct (_ && is_hidden _); [done|]. destruct (_ && _ && _); [done|]. destruct (is_options _); [done|].
  destruct (fm_is_dir fm && ho_dir_listing opts && negb (path_exists fs1 (fm_file_path fm))) eqn:El.
  - apply andb_true_iff in El as [[El _]%andb_true_iff Ee]. apply negb_true_iff in Ee.
    destruct (Hd El) as [Hu|Hu]; [|congruence]. by rewrite auto_index_agree.
  - destruct (fm_precompressed_variant fm) as [[vp c]|]; simpl; [|by rewrite Ho].
    by destruct (Hv vp c eq_refl) as [_ ->].
Qed.

End Confinement.

(** ** Theorems: the handler *)

Section HandleTheorems.
Context `{!HttpC, !HeadersC, !MatchC, !PercentC, !ListingC}.

(** The names of the request path. *)
Definition request_names (uri_path : string) : list string :=
  normal_names (components (decode_tail_path uri_path)).

Lemma sanitize_strict base uri_path p :
  request_names uri_path ≠ [] → sanitize_path base uri_path = Ok p → strictly_under base p.
Proof.
  intros Hn Hp%sanitize_components. eexists. split; [|done].
  unfold request_names in Hn. by destruct (normal_names _).
Qed.

Lemma cache_lookup_path store opts p q o :
  cache_lookup store opts p = Ok (q, o) →
  q = p ∨ is_Some (ho_memory_cache opts) ∧ q = push p "index.html".
Proof.
  unfold cache_lookup. destruct (ho_memory_cache opts); [|intros [= <- <-]; by left].
  intros (r & _ & [= <- <-])%rbind_Ok. destruct (_ && _); [by right|by left].
Qed.

Lemma index_html_valid : valid_name "index.html".
Proof. by vm_compute. Qed.

Lemma reply_path fs opts fm r : reply fs opts fm = Ok r → sf_file_path r = fm_file_path fm.
Proof.
  unfold reply, rbind. intros Hr. repeat case_hyp Hr; simplify_eq/=; done.
Qed.

(** Confinement: the answer does not depend on any file outside the base directory,
    its siblings apart for the requests of the base directory itself. *)
Lemma handle_confined fs1 fs2 store opts :
  agree_under (ho_base_path opts) fs1 fs2 →
  Forall valid_name (ho_index_files opts) →
  (request_names (ho_uri_path opts) = [] → agree_siblings (ho_base_path opts) fs1 fs2) →
  handle fs1 store opts = handle fs2 store opts.
Proof.
  intros Hag Hidx Hn. unfold handle. destruct (is_allowed _); cbn [negb]; cbv iota; [|done].
  destruct (sanitize_path _ _) as [p| |] eqn:Hp; cbn [rbind]; [|done|done].
  assert (inside (ho_base_path opts) fs1 fs2 p) as Hin.
  { pose proof (sanitize_components _ _ _ Hp) as Hc.
    destruct (request_names (ho_uri_path opts)) as [|x l] eqn:En.
    - right. split; [by apply Hn|]. unfold request_names in En. rewrite Hc, En. by rewrite app_nil_r.
    - left. apply (sanitize_strict _ (ho_uri_path opts)); [|done]. by rewrite En. }
  destruct (cache_lookup store opts p) as [[q o]| |] eqn:Hc; cbn [rbind]; [|done|done].
  assert (inside (ho_base_path opts) fs1 fs2 q) as Hsq.
  { destruct (cache_lookup_path _ _ _ _ _ Hc) as [->|[_ ->]]; [done|].
    left. by eapply inside_push, index_html_valid. }
  destruct o as [res|]; [done|].
  destruct (composed_agree _ fs1 fs2 Hag (ho_headers opts) (ho_compression_static opts)
    (ho_index_files opts) (ho_disable_symlinks opts) q Hsq Hidx) as [<- Hfm].
  destruct (get_composed_file_metadata fs1 q _ _ _ _) as [fm| |]; simpl; [|done|done].
  apply (reply_agree _ _ _ Hag). by apply Hfm.
Qed.

Lemma composed_no_panic fs p headers cs idx ds :
  get_composed_file_metadata fs p headers cs idx ds ≠ Panic.
Proof.
  unfold get_composed_file_metadata. pose proof (try_metadata_no_panic fs p) as Hm.
  repeat case_goal; simplify_eq/=; congruence.
Qed.

Lemma file_reply_no_panic fs headers p meta vp mc :
  fs_total fs → file_reply fs headers p meta vp mc ≠ Panic.
Proof.
  intros Ht. unfold file_reply. pose proof (total_open fs Ht (default p vp)) as Ho.
  destruct (fs_open fs (default p vp)) as [file|[]|]; try done.
  apply response_body_no_panic.
Qed.

Lemma reply_no_panic fs opts fm : fs_total fs → reply fs opts fm ≠ Panic.
Proof.
  intros Ht. unfold reply, precompressed_reply, slash_redirect.
  repeat match goal with
  | |- (if ?b then _ else _) ≠ Panic => destruct b; try done
  | |- rbind _ _ ≠ Panic => apply rbind_no_panic; [|done]
  | |- match hv_from_str ?s with _ => _ end ≠ Panic => destruct (hv_from_str s); try done
  | |- match ?o with Some _ => _ | None => _ end ≠ Panic => destruct o as [[]|]
  end.
  - match goal with |- auto_index _ ?o ≠ _ => pose proof (auto_index_cases fs o Ht) as Ha end.
    by destruct (auto_index _ _).
  - apply rbind_no_panic; [by apply file_reply_no_panic|]. intros a _. by destruct (hv_from_str _).
  - by apply file_reply_no_panic.
Qed.

(** The static-files handler never panics, for any request and file system, as
    long as the cache was initialised when it is enabled. *)
Lemma handle_no_panic fs store opts :
  fs_total fs → (is_Some (ho_memory_cache opts) → is_Some store) →
  handle fs store opts ≠ Panic.
Proof.
  intros Ht Hst. unfold handle. destruct (negb _); [done|]. simpl.
  apply rbind_no_panic.
  - unfold cache_lookup. destruct (ho_memory_cache opts) as [mc|]; [|done].
    apply rbind_no_panic; [|done]. unfold get_or_acquire.
    destruct (to_str _); [|done]. destruct store as [m|]; [by destruct (m !! _)|].
    destruct Hst as [? ?]; [by eexists|done].
  - intros [q [res|]] Hc.
    + apply rbind_no_panic; [|done]. intros ->.
      unfold cache_lookup in Hc. destruct (ho_memory_cache opts); [|done].
      apply rbind_Ok in Hc as (r & Hg & [= _ ->]). unfold get_or_acquire in Hg.
      destruct (to_str _); [|done]. destruct store as [m'|]; [|done].
      destruct (m' !! _); [|done]. injection Hg as Hg. by apply mem_response_no_panic in Hg.
    + apply rbind_no_panic; [apply composed_no_panic|]. intros fm _. by apply reply_no_panic.
Qed.

End HandleTheorems.

Section ServeTheorems.
Context `{!HttpC, !HeadersC, !MatchC, !PercentC, !ListingC}.

(** Headers that select or skip the body. *)
Definition unconditional (headers : HeaderMap) : Prop :=
  hm_get_all headers H_IF_MODIFIED_SINCE = [] ∧ hm_get_all headers H_IF_UNMODIFIED_SINCE = []
  ∧ hm_get_all headers H_IF_RANGE = [] ∧ hm_get_all headers H_RANGE = [].

Lemma unconditional_check headers lm :
  unconditional headers → check (conditionals_new headers) lm = WithBody None.
Proof.
  intros (H1' & H2' & H3' & H4'). unfold check, conditionals_new, typed_get. simpl.
  by rewrite H1', H2', H3', H4'.
Qed.

(** The composed metadata of a regular file is its own. *)
Lemma composed_regular fs p headers cs idx ds meta :
  (ds = true → path_is_symlink fs p = false) → static_variant fs cs p headers = None →
  fs_metadata fs p = Ok meta → meta_kind meta = KFile →
  get_composed_file_metadata fs p headers cs idx ds
  = Ok {| fm_file_path := p; fm_metadata := meta; fm_is_dir := false;
          fm_precompressed_variant := None |}.
Proof.
  intros Hds Hv Hm Hk. unfold get_composed_file_metadata, try_metadata. rewrite Hm, Hk. simpl. rewrite Hv.
  destruct ds; [|done]. by rewrite Hds.
Qed.

(** A [GET] of a readable regular file is answered by [response_body]. *)
Lemma handle_regular_file fs store opts p meta file :
  ho_method opts = GET → ho_memory_cache opts = None →
  sanitize_path (ho_base_path opts) (ho_uri_path opts) = Ok p →
  static_variant fs (ho_compression_static opts) p (ho_headers opts) = None →
  (ho_disable_symlinks opts = true → path_is_symlink fs p = false) →
  (ho_ignore_hidden_files opts = true → is_hidden p = false) →
  fs_metadata fs p = Ok meta → meta_kind meta = KFile → fs_open fs p = Ok file →
  handle fs store opts
  = let? resp := response_body file p meta (conditionals_new (ho_headers opts)) None in
    Ok {| sf_resp := resp; sf_file_path := p |}.
Proof.
  intros Hget Hmc Hp Hcs Hds Hih Hm Hk Ho.
  unfold handle. rewrite Hget, Hp. cbn [rbind is_allowed]. simpl negb. cbv iota.
  unfold cache_lookup. rewrite Hmc. cbn [rbind].
  rewrite (composed_regular _ _ _ _ _ _ meta) by done. cbn [rbind].
  unfold reply. cbn [fm_file_path fm_is_dir fm_precompressed_variant fm_metadata].
  assert (ho_ignore_hidden_files opts && is_hidden p = false) as ->
    by (destruct (ho_ignore_hidden_files opts); [by apply Hih|done]).
  rewrite Hget, Hmc. simpl andb. cbv iota. change (is_options GET) with false. cbv iota.
  unfold file_reply. simpl default. by rewrite Ho.
Qed.

(** With static compression, a pre-compressed variant of the file is served in its
    place, with the type of the file and without a length. *)
Lemma handle_file_variant fs store opts p meta v file :
  ho_method opts = GET → ho_memory_cache opts = None → ho_compression_static opts = true →
  sanitize_path (ho_base_path opts) (ho_uri_path opts) = Ok p →
  (ho_disable_symlinks opts = true → path_is_symlink fs p = false) →
  (ho_ignore_hidden_files opts = true → is_hidden p = false) →
  fs_metadata fs p = Ok meta → meta_kind meta = KFile →
  precompressed_variant fs p (ho_headers opts) = Some v → fs_open fs (cv_file_path v) = Ok file →
  handle fs store opts
  = let? resp := response_body file p (cv_metadata v) (conditionals_new (ho_headers opts)) None in
    Ok {| sf_resp := put_header H_CONTENT_ENCODING (as_str (cv_encoding v)) (del_header H_CONTENT_LENGTH resp);
          sf_file_path := p |}.
Proof.
  intros Hget Hmc Hcs Hp Hds Hih Hm Hk Hv Ho.
  unfold handle. rewrite Hget, Hp. cbn [rbind is_allowed]. simpl negb. cbv iota.
  unfold cache_lookup. rewrite Hmc. cbn [rbind].
  assert (get_composed_file_metadata fs p (ho_headers opts) (ho_compression_static opts) (ho_index_files opts)
            (ho_disable_symlinks opts)
          = Ok {| fm_file_path := p; fm_metadata := cv_metadata v; fm_is_dir := false;
                  fm_precompressed_variant := Some (cv_file_path v, cv_encoding v) |}) as ->.
  { unfold get_composed_file_metadata, try_metadata, static_variant. rewrite Hm, Hk, Hcs, Hv. simpl.
    destruct (ho_disable_symlinks opts); [|done]. by rewrite Hds. }
  cbn [rbind]. unfold reply. cbn [fm_file_path fm_is_dir fm_precompressed_variant fm_metadata].
  assert (ho_ignore_hidden_files opts && is_hidden p = false) as ->
    by (destruct (ho_ignore_hidden_files opts); [by apply Hih|done]).
  rewrite Hget. simpl andb. cbv iota. change (is_options GET) with false. cbv iota.
  unfold precompressed_reply, file_reply. simpl default. rewrite Ho, Hmc.
  destruct (response_body _ _ _ _ _) as [resp| |]; [|done..]. cbn [rbind].
  by rewrite hv_from_str_visible by (by destruct (cv_encoding v)).
Qed.

(** Serving a regular file: a [GET] of a path that is a readable regular file,
    without conditions or ranges, is answered 200 with the type guessed from the
    path, the length of the file, and a body that streams the bytes of the
    file. *)
Theorem handle_serves_file fs store opts p meta file data :
  ho_method opts = GET → ho_memory_cache opts = None → ho_compression_static opts = false →
  unconditional (ho_headers opts) →
  sanitize_path (ho_base_path opts) (ho_uri_path opts) = Ok p →
  (ho_disable_symlinks opts = true → path_is_symlink fs p = false) →
  (ho_ignore_hidden_files opts = true → is_hidden p = false) →
  fs_metadata fs p = Ok meta → meta_kind meta = KFile →
  fs_open fs p = Ok file → of_data file = Some data → (∀ n, of_seek file n = true) →
  str_len data = meta_len meta →
  ∃ r, handle fs store opts = Ok r
    ∧ sf_file_path r = p
    ∧ resp_status (sf_resp r) = SC_OK
    ∧ get_header (sf_resp r) H_CONTENT_LENGTH = Some (content_length_value (str_len data))
    ∧ get_header (sf_resp r) H_CONTENT_TYPE = Some (content_type_value (mime_guess_from_path p))
    ∧ ∃ st, body_stream (resp_body (sf_resp r)) = Some st
      ∧ ∀ wants fuel, (String.length data < fuel)%nat →
        ∃ cs, drain wants fuel st = Some (cs, true) ∧ concat_str cs = data.
Proof.
  intros Hget Hmc Hcs Hun Hp Hds Hih Hm Hk Ho Hd Hsk Hlen.
  rewrite (handle_regular_file _ _ _ p meta file) by (done || by rewrite Hcs). unfold response_body.
  rewrite unconditional_check by done. cbn [bytes_range]. rewrite Hsk. cbn [negb]. cbv iota.
  cbn [rbind]. eexists. split; [done|]. cbn [sf_file_path sf_resp].
  destruct (range_delivers file p meta None data 0 (meta_len meta) Hd Hlen)
    as [(_ & Hne & _)|(-> & -> & _ & -> & st & Hst & Hdr)]; [unfold str_len in Hlen; lia..|].
  rewrite decide_True by lia. rewrite Hlen.
  split_and!; [done|done|by rewrite Z.sub_0_r|done|]. exists st. split; [done|].
  intros wants fuel Hf. destruct (Hdr wants fuel Hf) as (cs & ? & Hc & _).
  exists cs. split; [done|]. rewrite Hc, Z.sub_0_r. change (str_drop (Z.to_nat 0) data) with data.
  apply str_take_all. unfold str_len in Hlen. lia.
Qed.

(** A directory asked for without the final slash is answered with a permanent
    redirect to the same path with the slash, unless a pre-compressed index file
    is served. *)
Theorem handle_redirects_directory fs store opts p meta :
  is_allowed (ho_method opts) = true → ho_memory_cache opts = None →
  ho_compression_static opts = false → ho_ignore_hidden_files opts = false →
  ho_disable_symlinks opts = false → ho_redirect_trailing_slash opts = true →
  sanitize_path (ho_base_path opts) (ho_uri_path opts) = Ok p →
  fs_metadata fs p = Ok meta → meta_kind meta = KDir →
  ends_with_char "/"%char (ho_uri_path opts) = false →
  str_forallb visible_byte (ho_uri_path opts) = true →
  ∃ r, handle fs store opts = Ok r
    ∧ resp_status (sf_resp r) = SC_PERMANENT_REDIRECT
    ∧ get_header (sf_resp r) H_LOCATION = Some (ho_uri_path opts +:+ "/")
    ∧ resp_body (sf_resp r) = BodyEmpty.
Proof.
  intros Hal Hmc Hcs Hih Hds Hrt Hp Hm Hk He Hvis.
  unfold handle. rewrite Hal, Hp. cbn [negb rbind]. cbv iota.
  unfold cache_lookup. rewrite Hmc. cbn [rbind]. rewrite Hcs.
  assert (∃ fm, get_composed_file_metadata fs p (ho_headers opts) false (ho_index_files opts)
                  (ho_disable_symlinks opts) = Ok fm ∧ fm_is_dir fm = true) as (fm & -> & Hdir).
  { unfold get_composed_file_metadata, try_metadata. rewrite Hds, Hm, Hk. simpl.
    assert (∀ idx q m0, ∃ q' m' f, index_loop fs (ho_headers opts) false q m0 idx = IndexDone q' m' f)
      as Hil.
    { induction idx as [|i idx IH]; intros q m0; simpl; [by repeat eexists|].
      destruct (try_metadata fs (push q i)) as [[]| |]; [by repeat eexists|..];
        (destruct (try_metadata_with_html_suffix fs _) as [? []]; [by repeat eexists|apply IH]). }
    match goal with |- context [index_loop fs _ _ p meta ?l] =>
      destruct (Hil l p meta) as (q' & m' & f & ->) end.
    eexists. split; [done|]. done. }
  cbn [rbind]. unfold reply. rewrite Hih, Hdir, Hrt, He. cbn [andb negb]. cbv iota.
  unfold slash_redirect. rewrite (hv_from_str_visible (concat_str [ho_uri_path opts; "/"])).
  - cbn [rbind]. eexists. split_and!; [done|done| |done]. cbn [sf_resp]. headers. simpl.
    by rewrite append_nil_r.
  - simpl. rewrite append_nil_r. clear -Hvis. induction (ho_uri_path opts) as [|a s IH]; [done|].
    rewrite append_cons. simpl in *. apply andb_true_iff in Hvis as [-> Hs]. by apply IH.
Qed.

End ServeTheorems.

(** ** Witnesses and concrete behaviours *)

Definition sample_opts (m : Method) (headers : HeaderMap) (uri : string) : HandleOpts := {|
  ho_method := m;
  ho_memory_cache := None;
  ho_headers := headers;
  ho_base_path := "/srv";
  ho_uri_path := uri;
  ho_index_files := ["index.html"];
  ho_uri_query := None;
  ho_dir_listing := false;
  ho_dir_listing_order := 6;
  ho_dir_listing_format := Html;
  ho_redirect_trailing_slash := true;
  ho_compression_static := false;
  ho_ignore_hidden_files := false;
  ho_disable_symlinks := false
|}.

Lemma table_fs_agree base n t :
  path_starts_with base (node_path n) = false →
  Forall (λ n, node_entries n = []) t → node_entries n = [] →
  agree_under base (table_fs t) (table_fs (n :: t)).
Proof.
  intros Hn Ht He.
  assert (∀ q, path_starts_with base q = true → node_at (n :: t) q = node_at t q) as Hat.
  { intros q Hq. unfold node_at. simpl. destruct (str_eqb (node_path n) q) eqn:E; [|done].
    apply str_eqb_eq in E as <-. congruence. }
  split; simpl; unfold node_answer.
  1-4: intros q Hq; by rewrite Hat.
  intros q l e Hq Hl Hin. unfold node_answer in Hl. destruct (node_at t q) as [n'|] eqn:E; [|done].
  injection Hl as <-. unfold node_at in E. apply find_first_Some in E as (l1 & l2 & -> & _).
  rewrite Forall_forall in Ht. rewrite (Ht n') in Hin by set_solver.
  by apply not_elem_of_nil in Hin.
Qed.

(** A node that is not next to the base changes nothing for its siblings. *)
Lemma table_fs_siblings base n t :
  node_entries n = [] → ¬ sibling base (node_path n) → agree_siblings base (table_fs t) (table_fs (n :: t)).
Proof.
  intros He Hn q Hq. simpl. unfold node_answer.
  assert (node_at (n :: t) q = node_at t q) as ->; [|done]. unfold node_at. simpl.
  destruct (str_eqb (node_path n) q) eqn:E; [|done]. by apply str_eqb_eq in E as <-.
Qed.

Lemma handle_serves_file_witness :
  let fs := table_fs [file_node "/srv/a.txt" "hello" 5000000000] in
  ∃ r, handle fs None (sample_opts GET hm_new "/a.txt") = Ok r
       ∧ resp_status (sf_resp r) = SC_OK
       ∧ get_header (sf_resp r) H_CONTENT_LENGTH = Some "5".
Proof.
  intros fs.
  destruct (handle_serves_file fs None (sample_opts GET hm_new "/a.txt") "/srv/a.txt"
    (node_meta (file_node "/srv/a.txt" "hello" 5000000000))
    {| of_seek := λ _, true; of_data := Some "hello" |} "hello")
    as (r & Hr & _ & Hs & Hl & _); try done.
  exists r. split_and!; [exact Hr|exact Hs|exact Hl].
Defined.

Lemma handle_redirects_witness :
  let fs := table_fs [dir_node "/srv/docs"] in
  ∃ r, handle fs None (sample_opts GET hm_new "/docs") = Ok r
       ∧ resp_status (sf_resp r) = SC_PERMANENT_REDIRECT
       ∧ get_header (sf_resp r) H_LOCATION = Some "/docs/".
Proof.
  intros fs.
  destruct (handle_redirects_directory fs None (sample_opts GET hm_new "/docs") "/srv/docs"
    (node_meta (dir_node "/srv/docs"))) as (r & Hr & Hs & Hl & _); try done.
  exists r. split_and!; [exact Hr|exact Hs|exact Hl].
Defined.

(** What a response says, without the types of its headers. *)
Definition summary (r : Result StaticFileResponse StatusCode)
    : option (Z * string * option string * option string) :=
  match r with
  | Ok r => Some (resp_status (sf_resp r), sf_file_path r,
                  get_header (sf_resp r) H_CONTENT_ENCODING,
                  match body_stream (resp_body (sf_resp r)) with
                  | Some st => rd_data (reader st)
                  | None => None
                  end)
  | _ => None
  end.

(** The request [/] can be answered with a file next to the base directory: when
    the base directory has no index file, [/srv.html] is served. *)
Theorem root_serves_html_sibling :
  let fs := table_fs [dir_node "/srv"; file_node "/srv.html" "outside" 5000000000] in
  summary (handle fs None (sample_opts GET hm_new "/"))
  = Some (200%Z, "/srv.html", None, Some "outside")
  ∧ path_starts_with "/srv" "/srv.html" = false.
Proof. vm_compute. done. Qed.

(** [disable_symlinks] looks at the last component only: a file in a linked
    directory is served. *)
Theorem symlinked_directory_is_followed :
  let link := {| node_path := "/srv/link"; node_meta := node_meta (dir_node "/srv/link");
                 node_link := true; node_data := None; node_entries := [] |} in
  let fs := table_fs [link; file_node "/srv/link/a.txt" "linked" 5000000000] in
  let o := sample_opts GET hm_new "/link/a.txt" in
  let opts := {| ho_method := ho_method o; ho_memory_cache := None; ho_headers := ho_headers o;
    ho_base_path := "/srv"; ho_uri_path := ho_uri_path o; ho_index_files := ho_index_files o;
    ho_uri_query := None; ho_dir_listing := false; ho_dir_listing_order := 6;
    ho_dir_listing_format := Html; ho_redirect_trailing_slash := true;
    ho_compression_static := false; ho_ignore_hidden_files := false;
    ho_disable_symlinks := true |} in
  path_is_symlink fs "/srv/link" = true
  ∧ summary (handle fs None opts) = Some (200%Z, "/srv/link/a.txt", None, Some "linked").
Proof. vm_compute. done. Qed.

(** With the cache and static compression on, a client that accepts gzip makes
    the server store the bytes of the [.gz] file under the name of the plain
    file; the next client, which accepts no coding, gets them without
    [Content-Encoding]. *)
Theorem cache_serves_compressed_bytes :
  let fs := table_fs [file_node "/srv/a.txt" "plain" 5000000000;
                      file_node "/srv/a.txt.gz" "GZ" 5000000000] in
  let opts headers := {| ho_method := GET; ho_memory_cache := Some {| max_file_size := 100 |};
    ho_headers := headers; ho_base_path := "/srv"; ho_uri_path := "/a.txt";
    ho_index_files := []; ho_uri_query := None; ho_dir_listing := false;
    ho_dir_listing_order := 6; ho_dir_listing_format := Html;
    ho_redirect_trailing_slash := true; ho_compression_static := true;
    ho_ignore_hidden_files := false; ho_disable_symlinks := false |} in
  let first := handle fs (Some ∅) (opts (hm_insert H_ACCEPT_ENCODING "gzip" hm_new)) in
  let store :=
    match first with
    | Ok r => match resp_body (sf_resp r) with
              | BodyMemFile st => match mem_drain (λ _, 100%nat) 10 st (Some ∅) with
                                  | Ok (_, s) => s
                                  | _ => None
                                  end
              | _ => None
              end
    | _ => None
    end in
  summary first = Some (200%Z, "/srv/a.txt", Some "gzip", Some "GZ")
  ∧ summary (handle fs store (opts hm_new)) = Some (200%Z, "/srv/a.txt", None, Some "GZ").
Proof. vm_compute. done. Qed.
