(* ===== verification/CacheProtocol.v ===== *)
(** * The cache under interleaved requests

    [static_files.rs], [mem_cache/cache.rs] and [mem_cache/stream.rs] seen as a
    transition system: the files, the store and the responses that are being
    streamed.  A request runs the whole static-files handler, which may open a
    caching stream (over the file asked for, or over its pre-compressed variant); the
    server polls the open streams in any order, clients may go away, the cache may
    evict entries, and the files may change between requests.  An open file keeps
    the contents it had when it was opened: files are replaced, not rewritten in
    place.  The invariant is that every entry of the store is a whole file, as it was
    at some moment. *)

From S2P Require Import Prelude RustStr RustPath Fs FsStream ContentCoding Http HttpInstances.
From S2P Require Import Opts FsPath FsMeta F32 QualityValue ErrorPage Compression.
From S2P Require Import CompressionStatic ConditionalHeaders ResponseBody MemCache.
From S2P Require Import DirectoryListing StaticFiles.

Open Scope sws_scope.


Section CacheProtocol.
Context `{!HttpC, !HeadersC, !MatchC, !PercentC, !ListingC}.


(** The files, those of earlier moments, the store and the streams in flight. *)
Record CacheState : Type := {
  cs_fs : FileSystem;
  cs_past : list FileSystem;
  cs_store : CacheStore;
  cs_streams : list MemCacheFileStream
}.









(** ** Theorems *)


(** *** What the handler opens *)






(** *** Streams *)










(** *** Transparency *)



















End CacheProtocol.

(** ** Witnesses *)

(** A table of files that are found by the components of their paths. *)
Definition spelled_at (t : list Node) (p : string) : option Node :=
  find_first (λ n, path_starts_with (node_path n) p && path_starts_with p (node_path n)) t.

Definition spelled_answer {A : Type} (t : list Node) (f : Node → A) (p : string) : Result A ErrorKind :=
  match spelled_at t p with
  | Some n => Ok (f n)
  | None => Err NotFound
  end.

Definition spelled_fs (t : list Node) : FileSystem := {|
  fs_metadata := spelled_answer t node_meta;
  fs_symlink_metadata := spelled_answer t node_meta;
  fs_open := spelled_answer t (λ n, {| of_seek := λ _, true; of_data := node_data n |});
  fs_read := λ p, default (Err NotFound) (Ok <$> (spelled_at t p ≫= node_data));
  fs_read_dir := spelled_answer t node_entries;
  fs_canonicalize := spelled_answer t node_path
|}.


(** A file with its gzip form. *)
Definition cache_nodes : list Node :=
  [file_node "/srv/a.txt" "hello" 5000000000; file_node "/srv/a.txt.gz" "GZ" 5000000000].

Definition cache_fs : FileSystem := spelled_fs cache_nodes.


Definition cache_meta : Metadata := node_meta (file_node "/srv/a.txt" "hello" 5000000000).

(** A request with the cache on. *)
Definition cached_opts (method : Method) (static : bool) (headers : HeaderMap) (uri_path : string) : HandleOpts := {|
  ho_method := method; ho_memory_cache := Some {| max_file_size := 100 |};
  ho_headers := headers; ho_base_path := "/srv"; ho_uri_path := uri_path;
  ho_index_files := []; ho_uri_query := None; ho_dir_listing := false; ho_dir_listing_order := 6;
  ho_dir_listing_format := Html; ho_redirect_trailing_slash := true; ho_compression_static := static;
  ho_ignore_hidden_files := true; ho_disable_symlinks := true |}.

(** A stream over a file after some reads. *)
Definition cache_stream (bsz : Z) (rest : string) (limit : Z) (buf : option (string * Z)) : MemCacheFileStream := {|
  ms_reader := {| rd_data := Some rest; rd_limit := limit |};
  ms_buf_size := bsz;
  mem_opts := Some {| temp_file_path := "/srv/a.txt";
                      temp_content_type := mime_guess_from_path "/srv/a.txt";
                      temp_last_modified := last_modified_of cache_meta |};
  mem_buf := buf
|}.

Definition cache_state (m : CacheStore) (streams : list MemCacheFileStream) : CacheState :=
  {| cs_fs := cache_fs; cs_past := []; cs_store := m; cs_streams := streams |}.

Definition cache_final : CacheState :=
  cache_state (<["/srv/a.txt" := mem_file_of "/srv/a.txt" "hello" cache_meta]> ∅) [cache_stream 5 "" 0 None].






(** [OPTIONS] on a cached file is answered with the file instead of 204. *)
Theorem options_on_cached_file :
  let opts := cached_opts OPTIONS false hm_new "/a.txt" in
  summary (StaticFiles.handle cache_fs (Some (cs_store cache_final)) opts)
  = Some (200%Z, "/srv/a.txt", None, Some "hello")
  ∧ summary (StaticFiles.handle cache_fs (Some ∅) opts) = Some (204%Z, "/srv/a.txt", None, None).
Proof. vm_compute. done. Qed.
