(* ===== verification/Cors.v ===== *)
(** * CORS: [cors.rs]

    Building the configuration, checking a request, and the headers of a
    response.  Illegal methods, headers and origins of the configuration panic
    at start-up, as in the source. *)

From S2P Require Import Prelude RustStr Logger RustPath Fs FsStream ContentCoding Http.
From S2P Require Import HttpInstances Opts ErrorPage.

Open Scope sws_scope.

(** [Origin::try_from_parts(scheme, host, None)] followed by [to_string()] *)
Class OriginC : Type := {
  origin_from_parts : string → string → option string
}.

(** [s.splitn(2, sep)] for a separator that occurs. *)
Fixpoint split_once_str (sep s : string) : option (string * string) :=
  match strip_prefix sep s with
  | Some r => Some (EmptyString, r)
  | None =>
      match s with
      | EmptyString => None
      | String a s' =>
          match split_once_str sep s' with
          | Some (l, r) => Some (String a l, r)
          | None => None
          end
      end
  end.

Section Cors.
Context `{!HttpC, !HeadersC, !MatchC, !OriginC}.

Definition cors_new : Cors := {|
  allowed_headers := ∅;
  exposed_headers := ∅;
  max_age := None;
  allowed_methods := ∅;
  origins := None
|}.

(** [extend] with a fallible conversion: the first failure panics. *)
Fixpoint extend_with {A : Type} `{Countable A} (conv : string → option A) (l : list string)
    (acc : gset A) : Result (gset A) Error :=
  match l with
  | [] => Ok acc
  | x :: l' => let? a := unwrap (conv x) in extend_with conv l' ({[a]} ∪ acc)
  end.

Definition allow_methods (methods : list string) (c : Cors) : Result Cors Error :=
  let? ms := extend_with method_from_bytes methods (allowed_methods c) in
  Ok {| allowed_headers := allowed_headers c; exposed_headers := exposed_headers c;
        max_age := max_age c; allowed_methods := ms; origins := origins c |}.

Definition allow_any_origin (c : Cors) : Cors :=
  {| allowed_headers := allowed_headers c; exposed_headers := exposed_headers c;
     max_age := max_age c; allowed_methods := allowed_methods c; origins := None |}.

(** [IntoOrigin for &str] and the conversion to a header value *)
Definition into_origin (s : string) : option string :=
  match split_once_str "://" s with
  | Some (scheme, rest) => origin_from_parts scheme rest ≫= hv_from_str
  | None => None
  end.

Definition allow_origins (os : list string) (c : Cors) : Result Cors Error :=
  let? s := extend_with into_origin os (default ∅ (origins c)) in
  Ok {| allowed_headers := allowed_headers c; exposed_headers := exposed_headers c;
        max_age := max_age c; allowed_methods := allowed_methods c; origins := Some s |}.

Definition allow_headers (headers : list string) (c : Cors) : Result Cors Error :=
  let? s := extend_with header_name_from_bytes headers (allowed_headers c) in
  Ok {| allowed_headers := s; exposed_headers := exposed_headers c;
        max_age := max_age c; allowed_methods := allowed_methods c; origins := origins c |}.

Definition expose_headers (headers : list string) (c : Cors) : Result Cors Error :=
  let? s := extend_with header_name_from_bytes headers (exposed_headers c) in
  Ok {| allowed_headers := allowed_headers c; exposed_headers := s;
        max_age := max_age c; allowed_methods := allowed_methods c; origins := origins c |}.

(** [Cors::build] *)
Definition build (c : Cors) : Configured := {|
  cors := c;
  cfg_allowed_headers := elements (allowed_headers c);
  cfg_exposed_headers := elements (exposed_headers c);
  cfg_methods_header := elements (allowed_methods c)
|}.

Definition header_list (s : string) : list string :=
  if is_empty s then ["origin"; "content-type"] else trim <$> split ","%char s.

(** [cors::new]; a split yields at least one piece, so the list of hosts is
    never empty. *)
Definition new (origins_str allow_headers_str expose_headers_str : string)
    : Result (option Configured) Error :=
  if is_empty origins_str then Ok None
  else
    let allow_headers_vec := header_list allow_headers_str in
    let expose_headers_vec := header_list expose_headers_str in
    let? c :=
      (if str_eqb origins_str "*" then Ok (allow_any_origin cors_new)
       else allow_origins (trim <$> split ","%char origins_str) cors_new) in
    let? c := allow_headers allow_headers_vec c in
    let? c := expose_headers expose_headers_vec c in
    let? c := allow_methods ["GET"; "HEAD"; "OPTIONS"] c in
    Ok (Some (build c)).

(** [cors::init] with the line [cors::new] logs when a configuration was built. *)
Definition init (allow_origins allow_headers expose_headers : string) (opts : RequestHandlerOpts)
    : Logged RequestHandlerOpts :=
  let origins_str := trim allow_origins in
  let allow_headers_str := trim allow_headers in
  let expose_headers_str := trim expose_headers in
  let! c := lift (new origins_str allow_headers_str expose_headers_str) in
  let! _ := log_if (negb (is_empty origins_str))
    (server_info (concat_str ["cors enabled=true, allow_methods=[GET,HEAD,OPTIONS], allow_origins=";
       origins_str; ", allow_headers=["; join "," (header_list allow_headers_str);
       "], expose_headers=["; join "," (header_list expose_headers_str); "]"])) in
  lret (set_opt_cors c opts).

Inductive Validated : Type :=
| Preflight (origin : string)
| Simple (origin : string)
| NotCors.

Inductive Forbidden : Type := ForbiddenOrigin | ForbiddenMethod | ForbiddenHeader.

Definition is_method_allowed (c : Configured) (header : string) : bool :=
  match method_from_bytes header with
  | Some method => bool_decide (method ∈ allowed_methods (cors c))
  | None => false
  end.

Definition is_header_allowed (c : Configured) (header : string) : bool :=
  if is_empty header then false
  else match header_name_from_bytes header with
       | Some h => bool_decide (h ∈ allowed_headers (cors c))
       | None => false
       end.

Definition is_origin_allowed (c : Configured) (origin : string) : bool :=
  if is_empty origin then false
  else match origins (cors c) with
       | Some allowed => bool_decide (origin ∈ allowed)
       | None => true
       end.

Definition append_preflight_headers (c : Configured) (headers : HeaderMap) : HeaderMap :=
  let headers := hm_insert H_AC_ALLOW_HEADERS (ac_header_names_value (cfg_allowed_headers c)) headers in
  let headers := hm_insert H_AC_EXPOSE_HEADERS (ac_header_names_value (cfg_exposed_headers c)) headers in
  let headers := hm_insert H_AC_ALLOW_METHODS (ac_allow_methods_value (cfg_methods_header c)) headers in
  match max_age (cors c) with
  | Some n => hm_insert H_AC_MAX_AGE (dec n) headers
  | None => headers
  end.

(** The headers of an accepted cross-origin request. *)
Definition cors_headers (c : Configured) (origin : string) : HeaderMap :=
  hm_insert H_AC_ALLOW_ORIGIN origin (append_preflight_headers c hm_new).

(** [Access-Control-Request-Headers]: every name of the list must be allowed. *)
Definition request_headers_allowed (c : Configured) (headers : HeaderMap) : bool :=
  match hm_get headers H_AC_REQUEST_HEADERS with
  | Some req_headers =>
      match hv_to_str req_headers with
      | Some val => forallb (λ h, is_header_allowed c (trim h)) (split ","%char val)
      | None => false
      end
  | None => true
  end.

Definition check_request (c : Configured) (method : Method) (headers : HeaderMap)
    : Result (HeaderMap * Validated) Forbidden :=
  match hm_get headers H_ORIGIN with
  | Some origin =>
      if is_options method then
        if negb (is_origin_allowed c origin) then Err ForbiddenOrigin
        else
          match hm_get headers H_AC_REQUEST_METHOD with
          | Some req_method =>
              if negb (is_method_allowed c req_method) then Err ForbiddenMethod
              else if negb (request_headers_allowed c headers) then Err ForbiddenHeader
              else Ok (cors_headers c origin, Preflight origin)
          | None => Err ForbiddenMethod
          end
      else if is_origin_allowed c origin then Ok (cors_headers c origin, Simple origin)
      else Err ForbiddenOrigin
  | None => Ok (hm_new, NotCors)
  end.

(** [cors::pre_process] *)
Definition pre_process (fs : FileSystem) (opts : RequestHandlerOpts) (req : Request)
    : option (Result Response Error) :=
  match opt_cors opts with
  | None => None
  | Some c =>
      match check_request c (req_method req) (req_headers req) with
      | Ok _ => None
      | Err _ => Some (error_response fs (req_uri req) (req_method req) SC_FORBIDDEN
                         (page404 opts) (page50x opts))
      | Panic => Some Panic
      end
  end.

(** [cors::post_process] *)
Definition post_process (opts : RequestHandlerOpts) (req : Request) (resp : Response)
    : Result Response Error :=
  match opt_cors opts with
  | Some c =>
      match check_request c (req_method req) (req_headers req) with
      | Ok (headers, _) =>
          if hm_is_empty headers then Ok resp
          else
            let resp := {| resp_status := resp_status resp;
                           resp_headers := hm_insert_all headers (resp_headers resp);
                           resp_body := resp_body resp |} in
            Ok (del_header H_ALLOW resp)
      | _ => Ok resp
      end
  | None => Ok resp
  end.

End Cors.

#[export] Instance origin_simple : OriginC := {|
  origin_from_parts := λ scheme host,
    Some (concat_str [scheme; "://"; match rsplit_once "/"%char host with Some (h, "") => h | _ => host end])
|}.

(** ** Theorems *)

Section Theorems.
Context `{!HttpC, !HeadersC, !MatchC, !OriginC}.


Lemma is_origin_allowed_spec c o :
  is_origin_allowed c o = true ↔
  o ≠ "" ∧ ∀ allowed, origins (cors c) = Some allowed → o ∈ allowed.
Proof.
  unfold is_origin_allowed. destruct (is_empty o) eqn:E.
  - apply is_empty_true in E. naive_solver.
  - apply is_empty_false in E. destruct (origins (cors c)); [|naive_solver].
    rewrite bool_decide_eq_true. naive_solver.
Qed.

Lemma is_method_allowed_spec c m :
  is_method_allowed c m = true ↔
  ∃ meth, method_from_bytes m = Some meth ∧ meth ∈ allowed_methods (cors c).
Proof.
  unfold is_method_allowed. destruct (method_from_bytes m); [|naive_solver].
  rewrite bool_decide_eq_true. naive_solver.
Qed.

Lemma is_header_allowed_spec c h :
  is_header_allowed c h = true ↔
  h ≠ "" ∧ ∃ name, header_name_from_bytes h = Some name ∧ name ∈ allowed_headers (cors c).
Proof.
  unfold is_header_allowed. destruct (is_empty h) eqn:E.
  - apply is_empty_true in E. naive_solver.
  - apply is_empty_false in E. destruct (header_name_from_bytes h); [|naive_solver].
    rewrite bool_decide_eq_true. naive_solver.
Qed.

(** The names of [Access-Control-Request-Headers]. *)
Definition requested_headers_ok (c : Configured) (headers : HeaderMap) : Prop :=
  ∀ v, hm_get headers H_AC_REQUEST_HEADERS = Some v →
    ∃ val, hv_to_str v = Some val ∧
      ∀ h, h ∈ split ","%char val → trim h ≠ ""
        ∧ ∃ name, header_name_from_bytes (trim h) = Some name
                  ∧ name ∈ allowed_headers (cors c).

Lemma request_headers_allowed_spec c headers :
  request_headers_allowed c headers = true ↔ requested_headers_ok c headers.
Proof.
  unfold request_headers_allowed, requested_headers_ok.
  destruct (hm_get headers H_AC_REQUEST_HEADERS) as [v|]; [|naive_solver].
  destruct (hv_to_str v) as [val|] eqn:Ev.
  - rewrite forallb_forall. setoid_rewrite is_header_allowed_spec.
    setoid_rewrite <- list_elem_of_In. split; [by intros Hall v' [= <-]; eauto|].
    intros Hv h Hh. destruct (Hv v eq_refl) as (val' & Hval & Hall).
    rewrite Ev in Hval. injection Hval as <-. by apply Hall.
  - split; [done|]. intros Hv. destruct (Hv v eq_refl) as (val & Hval & _). congruence.
Qed.

Lemma check_request_cases c m headers :
  match check_request c m headers with
  | Ok (hs, NotCors) => hm_get headers H_ORIGIN = None ∧ hs = hm_new
  | Ok (hs, Simple o) | Ok (hs, Preflight o) =>
      hm_get headers H_ORIGIN = Some o ∧ is_origin_allowed c o = true ∧ hs = cors_headers c o
  | Err _ => is_Some (hm_get headers H_ORIGIN)
  | Panic => False
  end.
Proof.
  unfold check_request. destruct (hm_get headers H_ORIGIN) as [o|]; [|done].
  repeat case_goal; simplify_eq/=; try done; split_and!; try done; by apply negb_false_iff.
Qed.

(** C20. Access control: a request is let through exactly when it is not a
    cross-origin one, or its origin is allowed and, for a preflight, the method it
    announces and every header it lists are allowed. *)
Theorem check_request_exact c m headers :
  is_ok (check_request c m headers) = true ↔
  hm_get headers H_ORIGIN = None ∨
  ∃ o, hm_get headers H_ORIGIN = Some o
    ∧ o ≠ "" ∧ (∀ allowed, origins (cors c) = Some allowed → o ∈ allowed)
    ∧ (m = OPTIONS →
       (∃ rm meth, hm_get headers H_AC_REQUEST_METHOD = Some rm
                   ∧ method_from_bytes rm = Some meth ∧ meth ∈ allowed_methods (cors c))
       ∧ requested_headers_ok c headers).
Proof.
  unfold check_request. destruct (hm_get headers H_ORIGIN) as [o|]; [|naive_solver].
  pose proof (is_origin_allowed_spec c o) as Ho. unfold is_options. case_bool_decide as Hm.
  - destruct (is_origin_allowed c o); simpl; [|naive_solver].
    destruct (hm_get headers H_AC_REQUEST_METHOD) as [rm|]; simpl; [|naive_solver].
    pose proof (is_method_allowed_spec c rm) as Hrm.
    destruct (is_method_allowed c rm); simpl; [|naive_solver].
    pose proof (request_headers_allowed_spec c headers) as Hrh.
    destruct (request_headers_allowed c headers); simpl; naive_solver.
  - destruct (is_origin_allowed c o); simpl; naive_solver.
Qed.

Lemma cors_headers_get c o :
  hm_get_all (cors_headers c o) H_AC_ALLOW_ORIGIN = [o]
  ∧ hm_get_all (cors_headers c o) H_AC_ALLOW_METHODS = [ac_allow_methods_value (cfg_methods_header c)]
  ∧ hm_get_all (cors_headers c o) H_AC_ALLOW_HEADERS = [ac_header_names_value (cfg_allowed_headers c)]
  ∧ hm_get_all (cors_headers c o) H_AC_EXPOSE_HEADERS = [ac_header_names_value (cfg_exposed_headers c)]
  ∧ hm_get_all (cors_headers c o) H_AC_MAX_AGE = match max_age (cors c) with Some n => [dec n] | None => [] end.
Proof.
  unfold cors_headers, append_preflight_headers.
  destruct (max_age (cors c)); split_and!; rewrite !hm_get_all_insert, ?hm_get_all_new; by eval_names.
Qed.

Lemma cors_headers_other c o k :
  k ∉ [H_AC_ALLOW_ORIGIN; H_AC_ALLOW_METHODS; H_AC_ALLOW_HEADERS; H_AC_EXPOSE_HEADERS; H_AC_MAX_AGE] →
  hm_get_all (cors_headers c o) k = [].
Proof.
  intros Hk. unfold cors_headers, append_preflight_headers.
  destruct (max_age (cors c)); rewrite !hm_get_all_insert, ?hm_get_all_new;
    repeat case_bool_decide; subst; try done; set_solver.
Qed.

Lemma cors_headers_not_empty c o : hm_is_empty (cors_headers c o) = false.
Proof.
  destruct (hm_is_empty _) eqn:E; [|done]. rewrite hm_is_empty_true in E.
  specialize (E H_AC_ALLOW_ORIGIN). by rewrite (proj1 (cors_headers_get c o)) in E.
Qed.

Lemma cors_post_cases opts req resp :
  ∃ resp', post_process opts req resp = Ok resp'
    ∧ resp_status resp' = resp_status resp ∧ resp_body resp' = resp_body resp
    ∧ match opt_cors opts, hm_get (req_headers req) H_ORIGIN with
      | Some c, Some o =>
          if is_ok (check_request c (req_method req) (req_headers req)) then
            is_origin_allowed c o = true
            ∧ resp' = del_header H_ALLOW
                {| resp_status := resp_status resp;
                   resp_headers := hm_insert_all (cors_headers c o) (resp_headers resp);
                   resp_body := resp_body resp |}
          else resp' = resp
      | _, _ => resp' = resp
      end.
Proof.
  unfold post_process. destruct (opt_cors opts) as [c|]; [|by exists resp].
  pose proof (check_request_cases c (req_method req) (req_headers req)) as Hc.
  destruct (check_request _ _ _) as [[hs v]| |]; [|by exists resp; case_match|done].
  destruct v as [o|o|].
  1,2: destruct Hc as (-> & Hal & ->); rewrite cors_headers_not_empty;
    eexists; split_and!; [done|done|done|by simpl].
  destruct Hc as [-> ->].
  assert (hm_is_empty hm_new = true) as -> by (apply hm_is_empty_true; apply hm_get_all_new).
  by exists resp.
Qed.

(** C21. The CORS headers of a response: a cross-origin request that passes the check
    gets them: the origin it sent (which is allowed) as the granted origin, the
    configured methods, the allowed and the exposed headers, each under its own
    name, and the maximal age if there is one; [Allow] is dropped and no other header
    changes.  Any other response is untouched. *)
Theorem cors_post_process_spec opts req resp :
  ∃ resp', post_process opts req resp = Ok resp'
    ∧ resp_status resp' = resp_status resp ∧ resp_body resp' = resp_body resp
    ∧ match opt_cors opts, hm_get (req_headers req) H_ORIGIN with
      | Some c, Some o =>
          if is_ok (check_request c (req_method req) (req_headers req)) then
            o ≠ "" ∧ (∀ allowed, origins (cors c) = Some allowed → o ∈ allowed)
            ∧ get_header resp' H_AC_ALLOW_ORIGIN = Some o
            ∧ get_header resp' H_AC_ALLOW_METHODS
              = Some (ac_allow_methods_value (cfg_methods_header c))
            ∧ get_header resp' H_AC_ALLOW_HEADERS = Some (ac_header_names_value (cfg_allowed_headers c))
            ∧ get_header resp' H_AC_EXPOSE_HEADERS = Some (ac_header_names_value (cfg_exposed_headers c))
            ∧ get_header resp' H_AC_MAX_AGE
              = match max_age (cors c) with Some n => Some (dec n) | None => get_header resp H_AC_MAX_AGE end
            ∧ get_header resp' H_ALLOW = None
            ∧ ∀ k, k ∉ [H_AC_ALLOW_ORIGIN; H_AC_ALLOW_METHODS; H_AC_ALLOW_HEADERS;
                        H_AC_EXPOSE_HEADERS; H_AC_MAX_AGE; H_ALLOW] →
                get_header resp' k = get_header resp k
          else resp' = resp
      | _, _ => resp' = resp
      end.
Proof.
  destruct (cors_post_cases opts req resp) as (resp' & -> & Hs & Hb & Hr).
  exists resp'. split_and!; [done|done|done|].
  destruct (opt_cors opts) as [c|]; [|done]. destruct (hm_get _ H_ORIGIN) as [o|]; [|done].
  destruct (is_ok _); [|done]. destruct Hr as [Hal ->].
  apply is_origin_allowed_spec in Hal as [Hne Hin].
  destruct (cors_headers_get c o) as (H1' & H2' & H3' & H4' & H5').
  split_and!; try done; rewrite ?get_header_del; eval_names; cbv iota.
  - by apply hm_insert_all_single.
  - by apply hm_insert_all_single.
  - by apply hm_insert_all_single.
  - by apply hm_insert_all_single.
  - destruct (max_age (cors c)); [by apply hm_insert_all_single|by apply hm_insert_all_other].
  - done.
  - intros k Hk. rewrite get_header_del. rewrite bool_decide_eq_false_2 by set_solver.
    apply hm_insert_all_other, cors_headers_other. set_solver.
Qed.




End Theorems.
