(* ===== verification/ControlHeaders.v ===== *)
(** * Cache-Control headers: [control_headers.rs] *)

From S2P Require Import Prelude RustStr Logger Fs FsStream ContentCoding Http HttpInstances Opts.
From S2P Require Import ErrorPage.

Open Scope sws_scope.

Definition MAX_AGE_ONE_HOUR : Z := 60 * 60.
Definition MAX_AGE_ONE_DAY : Z := 60 * 60 * 24.
Definition MAX_AGE_ONE_YEAR : Z := 60 * 60 * 24 * 365.

Definition CACHE_EXT_ONE_HOUR : list string := ["atom"; "json"; "rss"; "xml"].

Definition CACHE_EXT_ONE_YEAR : list string :=
  ["avif"; "bmp"; "bz2"; "css"; "doc"; "gif"; "gz"; "htc"; "ico"; "jpeg"; "jpg"; "js"; "jxl";
   "map"; "mjs"; "mp3"; "mp4"; "ogg"; "ogv"; "pdf"; "png"; "rar"; "rtf"; "tar"; "tgz"; "wav";
   "weba"; "webm"; "webp"; "woff"; "woff2"; "zip"].

(** The loop of [slice::binary_search]: [base] moves to the middle unless the
    element there is greater. *)
Fixpoint search_loop (l : list string) (x : string) (fuel base size : nat) : nat :=
  match fuel with
  | O => base
  | S fuel' =>
      if (size <=? 1)%nat then base
      else
        let half := (size / 2)%nat in
        let mid := (base + half)%nat in
        let base := if str_leb (nth mid l "") x then mid else base in
        search_loop l x fuel' base (size - half)
  end.

(** [slice.binary_search(&x).is_ok()] *)
Definition binary_search (l : list string) (x : string) : bool :=
  match l with
  | [] => false
  | _ => str_eqb (nth (search_loop l x (length l) 0 (length l)) l "") x
  end.

Definition get_file_extension (uri : string) : option string := snd <$> rsplit_once "."%char uri.

Definition get_max_age (uri : string) : Z :=
  match get_file_extension uri with
  | Some extension =>
      if binary_search CACHE_EXT_ONE_HOUR extension then MAX_AGE_ONE_HOUR
      else if binary_search CACHE_EXT_ONE_YEAR extension then MAX_AGE_ONE_YEAR
      else MAX_AGE_ONE_DAY
  | None => MAX_AGE_ONE_DAY
  end.

Section ControlHeaders.
Context `{!HttpC, !HeadersC, !MatchC}.

Definition append_headers (uri : string) (resp : Response) : Result Response Error :=
  let max_age := get_max_age uri in
  let? value := unwrap (hv_from_str (concat_str ["public, max-age="; dec (Z.min max_age u32_max)])) in
  Ok (put_header H_CACHE_CONTROL value resp).

(** [control_headers::init] *)
Definition init (enabled : bool) (opts : RequestHandlerOpts) : Logged RequestHandlerOpts :=
  emit! server_info (concat_str ["cache control headers: enabled="; show_bool enabled]) in
  lret (set_cache_control_headers enabled opts).

(** [control_headers::post_process] *)
Definition post_process (opts : RequestHandlerOpts) (req : Request) (resp : Response)
    : Result Response Error :=
  if cache_control_headers opts then append_headers (uri_path (req_uri req)) resp else Ok resp.

End ControlHeaders.

(** ** Theorems *)

Definition str_lt (a b : string) : Prop := str_leb a b = true ∧ a ≠ b.

(** In a strictly sorted list the order of two elements is that of their
    indices. *)
Lemma sorted_nth_le l i j :
  StronglySorted str_lt l → (i ≤ j)%nat → (j < length l)%nat →
  str_leb (nth i l "") (nth j l "") = true.
Proof.
  intros Hs. revert i j. induction Hs as [|x l Hs IH Hall]; intros i j Hij Hj; simpl in *; [lia|].
  destruct i as [|i], j as [|j]; [apply str_leb_refl| |lia|apply IH; lia].
  rewrite Forall_forall in Hall. apply Hall. apply list_elem_of_In, nth_In. lia.
Qed.

Lemma sorted_nth_inj l i j :
  StronglySorted str_lt l → (i < length l)%nat → (j < length l)%nat →
  nth i l "" = nth j l "" → i = j.
Proof.
  intros Hs. revert i j. induction Hs as [|x l Hs IH Hall]; intros i j Hi Hj E; simpl in *; [lia|].
  rewrite Forall_forall in Hall.
  destruct i as [|i], j as [|j]; [done|..].
  - destruct (Hall (nth j l "")) as [_ Hne]; [apply list_elem_of_In, nth_In; lia|done].
  - destruct (Hall (nth i l "")) as [_ Hne]; [apply list_elem_of_In, nth_In; lia|by symmetry in E].
  - f_equal. apply IH; [lia|lia|done].
Qed.

Lemma search_loop_spec l k fuel base size :
  StronglySorted str_lt l → (k < length l)%nat →
  (size ≤ fuel)%nat → (base ≤ k < base + size)%nat → (base + size ≤ length l)%nat →
  search_loop l (nth k l "") fuel base size = k.
Proof.
  intros Hs Hk. revert base size. induction fuel as [|fuel IH]; intros base size Hf Hb Hl; [lia|].
  cbn [search_loop]. destruct (size <=? 1)%nat eqn:E.
  { apply Nat.leb_le in E. lia. }
  apply Nat.leb_gt in E. pose proof (Nat.div_mod size 2 ltac:(lia)) as Hd.
  pose proof (Nat.mod_upper_bound size 2 ltac:(lia)) as Hm.
  set (half := (size / 2)%nat) in *.
  destruct (str_leb (nth (base + half) l "") (nth k l "")) eqn:Ec; apply IH; try lia.
  - split; [|lia]. destruct (decide (base + half ≤ k)%nat) as [|Hlt]; [done|].
    pose proof (sorted_nth_le l k (base + half) Hs ltac:(lia) ltac:(lia)) as Hle.
    pose proof (str_leb_antisym _ _ Ec Hle) as Heq.
    apply sorted_nth_inj in Heq; [lia|done|lia|lia].
  - split; [lia|]. destruct (decide (k < base + (size - half))%nat) as [|Hge]; [done|].
    pose proof (sorted_nth_le l (base + half) k Hs ltac:(lia) ltac:(lia)) as Hle. congruence.
Qed.

(** On a strictly sorted array, the binary search finds exactly the elements. *)
Lemma binary_search_spec l x :
  StronglySorted str_lt l → binary_search l x = true ↔ x ∈ l.
Proof.
  intros Hs. unfold binary_search. destruct l as [|y l']; [set_solver|].
  set (l := y :: l') in *. rewrite str_eqb_eq. split.
  - intros Hx. rewrite <- Hx.
    destruct (decide (search_loop l x (length l) 0 (length l) < length l)%nat) as [Hlt|Hge].
    + by apply list_elem_of_In, nth_In.
    + exfalso. apply Hge.
      assert (∀ fuel base size, (0 < size)%nat → (base + size ≤ length l)%nat →
                search_loop l x fuel base size < length l)%nat as Hb.
      { induction fuel as [|fuel IH]; intros base size H0 H1; cbn [search_loop]; [lia|].
        destruct (size <=? 1)%nat eqn:E; [lia|]. apply Nat.leb_gt in E.
        pose proof (Nat.div_lt size 2 ltac:(lia) ltac:(lia)).
        case_match; apply IH; lia. }
      apply Hb; simpl; lia.
  - intros Hx%list_elem_of_In. apply (In_nth _ _ "") in Hx as (k & Hk & <-).
    rewrite search_loop_spec; [done|done|done|lia|lia|lia].
Qed.

(** The arrays of the source are sorted, as the binary search needs. *)
Fixpoint sorted_strb (l : list string) : bool :=
  match l with
  | x :: (y :: _) as l' => str_leb x y && negb (str_eqb x y) && sorted_strb l'
  | _ => true
  end.

Lemma sorted_strb_spec l : sorted_strb l = true → StronglySorted str_lt l.
Proof.
  intros Hl. apply Sorted_StronglySorted.
  - intros a b c [H1 N1] [H2 N2]. split; [by eapply str_leb_trans|]. intros ->.
    apply N1. by apply str_leb_antisym.
  - induction l as [|x [|y l] IH]; [constructor|by repeat constructor|].
    simpl in Hl. apply andb_true_iff in Hl as [[H1 H2]%andb_true_iff H3].
    constructor; [by apply IH|]. constructor. split; [done|].
    apply negb_true_iff, str_eqb_ne in H2. done.
Qed.

Lemma max_age_cases uri :
  get_max_age uri = MAX_AGE_ONE_HOUR ∨ get_max_age uri = MAX_AGE_ONE_YEAR
  ∨ get_max_age uri = MAX_AGE_ONE_DAY.
Proof. unfold get_max_age. repeat case_match; auto. Qed.

(** The max-age of a URI: the part after its last dot decides, by membership in
    the two lists of extensions. *)
Lemma get_max_age_spec uri :
  get_max_age uri =
  match rsplit_once "."%char uri with
  | Some (_, ext) =>
      if bool_decide (ext ∈ CACHE_EXT_ONE_HOUR) then MAX_AGE_ONE_HOUR
      else if bool_decide (ext ∈ CACHE_EXT_ONE_YEAR) then MAX_AGE_ONE_YEAR
      else MAX_AGE_ONE_DAY
  | None => MAX_AGE_ONE_DAY
  end.
Proof.
  unfold get_max_age, get_file_extension. destruct (rsplit_once _ uri) as [[l ext]|]; [|done].
  simpl fmap. cbv iota beta. simpl snd.
  assert (∀ arr, sorted_strb arr = true → binary_search arr ext = bool_decide (ext ∈ arr)) as Hb.
  { intros arr Ha. apply sorted_strb_spec in Ha. pose proof (binary_search_spec arr ext Ha).
    case_bool_decide; destruct (binary_search arr ext); naive_solver. }
  by rewrite !Hb by (vm_compute; reflexivity).
Qed.

Section Theorems.
Context `{!HttpC, !HeadersC, !MatchC}.

(** Adding the header cannot fail: its value is always a valid header value, so
    the [unwrap] is safe, and the value is one of the three durations. *)
Lemma cache_control_append_Ok uri resp :
  append_headers uri resp
  = Ok (put_header H_CACHE_CONTROL
          (concat_str ["public, max-age="; dec (get_max_age uri)]) resp).
Proof.
  unfold append_headers.
  assert (Z.min (get_max_age uri) u32_max = get_max_age uri) as ->
    by (by destruct (max_age_cases uri) as [->|[->| ->]]).
  rewrite hv_from_str_visible; [done|].
  destruct (max_age_cases uri) as [->|[->| ->]]; vm_compute; reflexivity.
Qed.

Lemma cache_control_post_Ok opts req resp :
  ∃ resp', post_process opts req resp = Ok resp'
    ∧ resp_status resp' = resp_status resp ∧ resp_body resp' = resp_body resp.
Proof.
  unfold post_process. destruct (cache_control_headers opts); [|by eexists].
  rewrite cache_control_append_Ok. by eexists.
Qed.

(** C38. Cache-Control, on every branch: with the feature off the response is unchanged;
    with it on, every response gets the header, with an hour, a year or a day by
    the list that holds the text after the last dot of the path (a day when none
    does, or when there is no dot); status, body and other headers are kept. *)
Theorem cache_control_spec opts req resp :
  ∃ resp', post_process opts req resp = Ok resp'
    ∧ (cache_control_headers opts = false → resp' = resp)
    ∧ (cache_control_headers opts = true →
       resp_status resp' = resp_status resp ∧ resp_body resp' = resp_body resp
       ∧ (∀ k, k ≠ H_CACHE_CONTROL → get_header resp' k = get_header resp k)
       ∧ get_header resp' H_CACHE_CONTROL
         = Some match rsplit_once "."%char (uri_path (req_uri req)) with
                | Some (_, ext) =>
                    if bool_decide (ext ∈ CACHE_EXT_ONE_HOUR) then "public, max-age=3600"
                    else if bool_decide (ext ∈ CACHE_EXT_ONE_YEAR) then "public, max-age=31536000"
                    else "public, max-age=86400"
                | None => "public, max-age=86400"
                end).
Proof.
  unfold post_process. destruct (cache_control_headers opts); [|by eexists].
  rewrite cache_control_append_Ok, get_max_age_spec. eexists. split_and!; [done..|]. intros _.
  split_and!; [done..| |].
  - intros k Hk. rewrite get_header_put. by case_bool_decide.
  - rewrite get_header_put. case_bool_decide; [|done].
    destruct (rsplit_once _ _) as [[]|]; repeat case_bool_decide; reflexivity.
Qed.

End Theorems.
