(* ===== verification/SecurityHeaders.v ===== *)
(** * Security headers: [security_headers.rs] *)

From S2P Require Import Prelude RustStr Logger Fs FsStream ContentCoding Http HttpInstances Opts.
From S2P Require Import ErrorPage.

Open Scope sws_scope.

Section SecurityHeaders.
Context `{!HttpC, !HeadersC, !MatchC}.

(** Each value is parsed and unwrapped. *)
Definition append_headers (resp : Response) : Result Response Error :=
  let? hsts := unwrap (hv_from_str "max-age=63072000; includeSubDomains; preload") in
  let resp := put_header H_STRICT_TRANSPORT_SECURITY hsts resp in
  let? frame := unwrap (hv_from_str "DENY") in
  let resp := put_header H_X_FRAME_OPTIONS frame resp in
  let? nosniff := unwrap (hv_from_str "nosniff") in
  let resp := put_header H_X_CONTENT_TYPE_OPTIONS nosniff resp in
  let? csp := unwrap (hv_from_str "frame-ancestors 'self'") in
  Ok (put_header H_CONTENT_SECURITY_POLICY csp resp).

(** [security_headers::init] *)
Definition init (enabled : bool) (opts : RequestHandlerOpts) : Logged RequestHandlerOpts :=
  emit! server_info (concat_str ["security headers: enabled="; show_bool enabled]) in
  lret (set_security_headers enabled opts).

(** [security_headers::post_process] *)
Definition post_process (opts : RequestHandlerOpts) (req : Request) (resp : Response)
    : Result Response Error :=
  if security_headers opts then append_headers resp else Ok resp.

(** ** Theorems *)

Lemma security_append_Ok resp :
  append_headers resp
  = Ok (put_header H_CONTENT_SECURITY_POLICY "frame-ancestors 'self'"
          (put_header H_X_CONTENT_TYPE_OPTIONS "nosniff"
             (put_header H_X_FRAME_OPTIONS "DENY"
                (put_header H_STRICT_TRANSPORT_SECURITY
                   "max-age=63072000; includeSubDomains; preload" resp)))).
Proof. unfold append_headers. by rewrite !hv_from_str_visible by (vm_compute; reflexivity). Qed.

Lemma security_post_Ok opts req resp :
  ∃ resp', post_process opts req resp = Ok resp'
    ∧ resp_status resp' = resp_status resp ∧ resp_body resp' = resp_body resp.
Proof.
  unfold post_process. destruct (security_headers opts); [|by eexists].
  rewrite security_append_Ok. by eexists.
Qed.

(** With the feature on, the four headers are present with their values, whatever
    the response had, and nothing else changes. *)
Theorem security_headers_spec opts req resp :
  security_headers opts = true →
  ∃ resp', post_process opts req resp = Ok resp'
    ∧ resp_status resp' = resp_status resp ∧ resp_body resp' = resp_body resp
    ∧ get_header resp' H_STRICT_TRANSPORT_SECURITY
      = Some "max-age=63072000; includeSubDomains; preload"
    ∧ get_header resp' H_X_FRAME_OPTIONS = Some "DENY"
    ∧ get_header resp' H_X_CONTENT_TYPE_OPTIONS = Some "nosniff"
    ∧ get_header resp' H_CONTENT_SECURITY_POLICY = Some "frame-ancestors 'self'"
    ∧ ∀ k, k ∉ [H_STRICT_TRANSPORT_SECURITY; H_X_FRAME_OPTIONS; H_X_CONTENT_TYPE_OPTIONS;
                H_CONTENT_SECURITY_POLICY] → get_header resp' k = get_header resp k.
Proof.
  intros Hs. unfold post_process. rewrite Hs, security_append_Ok. eexists. split; [done|].
  split_and!; try done; try (by headers).
  intros k Hk. rewrite !get_header_put. repeat case_bool_decide; subst; set_solver.
Qed.

End SecurityHeaders.

Lemma security_headers_witness :
  let opts := {|
    root_dir := "/srv"; memory_cache := None; compression := true; compression_level := LevelDefault;
    compression_static := false; dir_listing := false; dir_listing_order := 6;
    dir_listing_format := Html; opt_cors := None; security_headers := true;
    cache_control_headers := true; page404 := ""; page50x := ""; page_fallback := "";
    basic_auth := ""; index_files := []; log_remote_address := false; log_forwarded_for := false;
    trusted_proxies := []; redirect_trailing_slash := true; ignore_hidden_files := false;
    disable_symlinks := false; health := false; experimental_metrics := false;
    maintenance_mode := false; maintenance_mode_status := SC_SERVICE_UNAVAILABLE;
    maintenance_mode_file := ""; advanced_opts := None |} in
  let req := {| req_method := GET;
                req_uri := {| uri_scheme := None; uri_authority := None; uri_path_and_query := None |};
                req_headers := hm_new |} in
  ∃ resp', post_process opts req (response_new BodyEmpty) = Ok resp'
           ∧ get_header resp' H_X_FRAME_OPTIONS = Some "DENY".
Proof.
  intros opts req.
  destruct (security_headers_spec opts req (response_new BodyEmpty)) as (r & Hr & _ & _ & _ & Hf & _);
    [reflexivity|].
  exists r. split; [exact Hr|exact Hf].
Defined.
