(* ===== verification/Health.v ===== *)
(** * The health endpoint: [health.rs] *)

From S2P Require Import Prelude RustStr Logger Fs FsStream ContentCoding Http Opts ErrorPage.

Section Health.
Context `{!HttpC, !HeadersC, !MatchC}.

Definition is_health_endpoint (req : Request) : bool := str_eqb (uri_path (req_uri req)) "/health".

(** [health::init] *)
Definition init (enabled : bool) (opts : RequestHandlerOpts) : Logged RequestHandlerOpts :=
  emit! server_info (concat_str ["health endpoint: enabled="; show_bool enabled]) in
  lret (set_health enabled opts).

(** [health::pre_process]: [None] lets the request go on. *)
Definition pre_process (opts : RequestHandlerOpts) (req : Request)
    : option (Result Response Error) :=
  if negb (health opts) then None
  else if negb (is_health_endpoint req) then None
  else
    let reply body := Some (Ok (put_header H_CONTENT_TYPE (content_type_value TEXT_HTML)
                                  (response_new body))) in
    match req_method req with
    | HEAD => reply BodyEmpty
    | GET => reply (BodyBytes "OK")
    | _ => None
    end.

(** ** Lemmas *)

Lemma health_pre_Some opts req r :
  pre_process opts req = Some r →
  health opts = true ∧ uri_path (req_uri req) = "/health"
  ∧ (req_method req = GET ∨ req_method req = HEAD)
  ∧ ∃ resp, r = Ok resp ∧ resp_status resp = SC_OK.
Proof.
  unfold pre_process, is_health_endpoint. destruct (health opts); simpl; [|done].
  destruct (str_eqb _ _) eqn:E; simpl; [|done]. apply str_eqb_eq in E.
  destruct (req_method req); try done; intros [= <-]; eauto 8.
Qed.

End Health.
