(* ===== verification/Metrics.v ===== *)
(** * The metrics endpoint: [metrics.rs]

    The text is produced by the [prometheus] crate from process-wide counters:
    it is an argument, [gathered], with [None] where encoding or UTF-8
    conversion fails (both are unwrapped). *)

From S2P Require Import Prelude RustStr Logger Fs FsStream ContentCoding Http Opts ErrorPage.

Section Metrics.
Context `{!HttpC, !HeadersC, !MatchC}.

(** [metrics::init]; [registered] tells whether the collector is registered with the
    process-wide registry, which refuses it the second time (unwrapped). *)
Definition init (registered enabled : bool) (opts : RequestHandlerOpts) : Logged (bool * RequestHandlerOpts) :=
  let opts := set_experimental_metrics enabled opts in
  emit! server_info (concat_str ["metrics endpoint (experimental): enabled="; show_bool enabled]) in
  if enabled then
    if registered then lift Panic else lret (true, opts)
  else lret (registered, opts).

(** [metrics::pre_process] *)
Definition pre_process (gathered : option string) (opts : RequestHandlerOpts) (req : Request)
    : option (Result Response Error) :=
  if negb (experimental_metrics opts) then None
  else if negb (str_eqb (uri_path (req_uri req)) "/metrics") then None
  else
    let method := req_method req in
    if negb (is_get method) && negb (is_head method) then None
    else
      let reply body := Ok (put_header H_CONTENT_TYPE (content_type_value TEXT_PLAIN_UTF_8)
                              (response_new body)) in
      if is_get method then
        match gathered with
        | Some data => Some (reply (BodyBytes data))
        | None => Some Panic
        end
      else Some (reply BodyEmpty).

(** ** Lemmas *)

Lemma metrics_pre_Some data opts req r :
  pre_process (Some data) opts req = Some r →
  experimental_metrics opts = true ∧ uri_path (req_uri req) = "/metrics"
  ∧ (req_method req = GET ∨ req_method req = HEAD)
  ∧ ∃ resp, r = Ok resp ∧ resp_status resp = SC_OK.
Proof.
  unfold pre_process. destruct (experimental_metrics opts); simpl; [|done].
  destruct (str_eqb _ _) eqn:E; simpl; [|done]. apply str_eqb_eq in E.
  unfold is_get, is_head. repeat case_bool_decide; simpl; try done; intros [= <-]; eauto 8.
Qed.

(** The endpoint answers, or the text cannot be had. *)
Lemma metrics_pre_outcome gathered opts req r :
  pre_process gathered opts req = Some r →
  match r with
  | Ok _ => True
  | Err _ => False
  | Panic => gathered = None ∧ experimental_metrics opts = true
             ∧ req_method req = GET ∧ uri_path (req_uri req) = "/metrics"
  end.
Proof.
  unfold pre_process. destruct (experimental_metrics opts); simpl; [|done].
  destruct (str_eqb _ _) eqn:E; simpl; [|done]. apply str_eqb_eq in E.
  unfold is_get, is_head. destruct gathered; repeat case_bool_decide; simpl; try done; by intros [= <-].
Qed.

End Metrics.
