(* ===== verification/MaintenanceMode.v ===== *)
(** * Maintenance mode: [maintenance_mode.rs] *)

From S2P Require Import Prelude RustStr Logger RustPath Fs FsStream ContentCoding Http Opts.
From S2P Require Import ErrorPage.

Definition DEFAULT_BODY_CONTENT : string := "The server is in maintenance mode.".

Section MaintenanceMode.
Context `{!HttpC, !HeadersC, !MatchC}.

(** [Display] of a status code *)
Definition status_display (s : StatusCode) : string :=
  concat_str [dec s; " "; default "<unknown status code>" (canonical_reason s)].

Definition maintenance_content (fs : FileSystem) (status_code : StatusCode) (file_path : string)
    : string :=
  if path_is_file fs file_path then trim (from_utf8_lossy (read_bytes_default fs file_path))
  else concat_str ["<html><head><title>"; status_display status_code;
                   "</title></head><body><center><h1>"; DEFAULT_BODY_CONTENT;
                   "</h1></center></body></html>"].

Definition get_response (fs : FileSystem) (method : Method) (status_code : StatusCode)
    (file_path : string) : Result Response Error :=
  Ok (html_page method status_code (maintenance_content fs status_code file_path)).

(** [maintenance_mode::init] *)
Definition init (maintenance_mode : bool) (status : StatusCode) (file : string) (opts : RequestHandlerOpts)
    : Logged RequestHandlerOpts :=
  let opts := set_maintenance_mode_file file (set_maintenance_mode_status status
                (set_maintenance_mode maintenance_mode opts)) in
  emit! server_info (concat_str ["maintenance mode: enabled="; show_bool maintenance_mode]) in
  emit! server_info (concat_str ["maintenance mode status: "; dec status]) in
  emit! server_info (concat_str ["maintenance mode file: "; dquote; show_path file; dquote]) in
  lret opts.

(** [maintenance_mode::pre_process] *)
Definition pre_process (fs : FileSystem) (opts : RequestHandlerOpts) (req : Request)
    : option (Result Response Error) :=
  if maintenance_mode opts then
    Some (get_response fs (req_method req) (maintenance_mode_status opts)
            (maintenance_mode_file opts))
  else None.

(** ** Lemmas *)

Lemma maintenance_pre_on fs opts req :
  maintenance_mode opts = true →
  pre_process fs opts req =
  Some (Ok (html_page (req_method req) (maintenance_mode_status opts)
              (maintenance_content fs (maintenance_mode_status opts) (maintenance_mode_file opts)))).
Proof. unfold pre_process. by intros ->. Qed.

End MaintenanceMode.
