(* ===== verification/FallbackPage.v ===== *)
(** * Fallback page: [fallback_page.rs] *)

From S2P Require Import Prelude RustStr Logger Fs FsStream ContentCoding Http Opts ErrorPage.

Section FallbackPage.
Context `{!HttpC, !HeadersC, !MatchC}.

(** [fallback_page::init] *)
Definition init (fs : FileSystem) (path : string) (opts : RequestHandlerOpts) : Logged RequestHandlerOpts :=
  let opts := set_page_fallback (read_bytes_default fs path) opts in
  emit! server_info (concat_str ["fallback page: enabled="; show_bool (negb (is_empty (page_fallback opts)));
                                 ", value="; dquote; show_path path; dquote]) in
  lret opts.

Definition fallback_response (page_fallback : string) : Response :=
  let resp := set_status SC_OK (response_new (BodyBytes page_fallback)) in
  let resp := put_header H_CONTENT_LENGTH (content_length_value (str_len page_fallback)) resp in
  let resp := put_header H_CONTENT_TYPE (content_type_value TEXT_HTML_UTF_8) resp in
  put_header H_ACCEPT_RANGES accept_ranges_bytes resp.

(** [fallback_page::post_process] *)
Definition post_process (opts : RequestHandlerOpts) (req : Request) (resp : Response)
    : Result Response Error :=
  Ok (if is_get (req_method req) && (resp_status resp =? SC_NOT_FOUND)%Z
         && negb (is_empty (page_fallback opts))
      then fallback_response (page_fallback opts)
      else resp).

(** ** Lemmas *)

(** The fallback page replaces exactly the 404 answers to [GET], when one is
    configured; every other response is untouched.  So with a page configured no
    [GET] is answered 404. *)
Lemma fallback_spec opts req resp :
  ∃ resp', post_process opts req resp = Ok resp'
    ∧ (req_method req = GET → page_fallback opts ≠ "" → resp_status resp' ≠ SC_NOT_FOUND)
    ∧ (resp' = resp
       ∨ req_method req = GET ∧ resp_status resp = SC_NOT_FOUND ∧ page_fallback opts ≠ ""
         ∧ resp_status resp' = SC_OK ∧ resp_body resp' = BodyBytes (page_fallback opts)
         ∧ get_header resp' H_CONTENT_LENGTH
           = Some (content_length_value (str_len (page_fallback opts)))).
Proof.
  unfold post_process, is_get. eexists. split; [done|].
  case_bool_decide as Hg; simpl; [|by split; [|left]].
  destruct (resp_status resp =? SC_NOT_FOUND)%Z eqn:Es; simpl.
  - apply Z.eqb_eq in Es. destruct (is_empty (page_fallback opts)) eqn:Ee; simpl.
    + apply is_empty_true in Ee. split; [done|by left].
    + apply is_empty_false in Ee. split; [done|]. right. split_and!; try done.
      unfold fallback_response. by headers.
  - apply Z.eqb_neq in Es. split; [done|by left].
Qed.

End FallbackPage.
