(* ===== verification/VirtualHosts.v ===== *)
(** * Virtual hosts: [virtual_hosts.rs] *)

From S2P Require Import Prelude RustStr Fs FsStream ContentCoding Http Opts.

Section VirtualHosts.
Context `{!HttpC, !HeadersC, !MatchC}.

Fixpoint vhost_loop (host_str : string) (vhosts : list VirtualHosts) : option string :=
  match vhosts with
  | [] => None
  | vhost :: rest =>
      if str_eqb (vh_host vhost) host_str then Some (vh_root vhost) else vhost_loop host_str rest
  end.

Definition get_real_root (req : Request) (vhosts_opts : option (list VirtualHosts))
    : option string :=
  match vhosts_opts with
  | Some vhosts =>
      match hm_get (req_headers req) H_HOST with
      | None => None
      | Some v => match hv_to_str v with
                  | Some host_str => vhost_loop host_str vhosts
                  | None => None
                  end
      end
  | None => None
  end.

(** ** Theorems *)

Lemma vhost_loop_spec host vhosts :
  match vhost_loop host vhosts with
  | Some root => ∃ l1 vh l2, vhosts = l1 ++ vh :: l2 ∧ vh_host vh = host ∧ vh_root vh = root
                             ∧ Forall (λ x, vh_host x ≠ host) l1
  | None => Forall (λ x, vh_host x ≠ host) vhosts
  end.
Proof.
  induction vhosts as [|x l IH]; simpl; [constructor|].
  destruct (str_eqb (vh_host x) host) eqn:E.
  - apply str_eqb_eq in E. by exists [], x, l.
  - apply str_eqb_ne in E. destruct (vhost_loop host l); [|by constructor].
    destruct IH as (l1 & vh & l2 & -> & ? & ? & ?). exists (x :: l1), vh, l2.
    split_and!; try done. by constructor.
Qed.

(** C39. The root is that of the first virtual host whose name is byte for byte the
    value of [Host]; there is none exactly when there are no virtual hosts, no
    [Host] header of visible ASCII characters, or no virtual host of that name. *)
Theorem get_real_root_spec req vhosts :
  match get_real_root req vhosts with
  | Some root =>
      ∃ host l1 vh l2, hm_get (req_headers req) H_HOST = Some host ∧ hv_to_str host = Some host
        ∧ vhosts = Some (l1 ++ vh :: l2) ∧ vh_host vh = host ∧ vh_root vh = root
        ∧ Forall (λ v, vh_host v ≠ host) l1
  | None =>
      ∀ l host, vhosts = Some l → hm_get (req_headers req) H_HOST = Some host → hv_to_str host = Some host →
        Forall (λ v, vh_host v ≠ host) l
  end.
Proof.
  unfold get_real_root. destruct vhosts as [l|]; [|done].
  destruct (hm_get _ _) as [v|]; [|naive_solver]. destruct (hv_to_str v) as [host|] eqn:Hv; [|naive_solver].
  pose proof (hv_to_str_bytes _ _ Hv) as ->. pose proof (vhost_loop_spec v l) as Hl.
  destruct (vhost_loop v l) as [root|]; [|naive_solver].
  destruct Hl as (l1 & vh & l2 & -> & ? & ? & ?). by exists v, l1, vh, l2.
Qed.

End VirtualHosts.
