(* ===== verification/CustomHeaders.v ===== *)
(** * Custom headers: [custom_headers.rs] *)

From S2P Require Import Prelude RustStr RustPath Fs FsStream ContentCoding Http HttpInstances.
From S2P Require Import Opts ErrorPage.

Section CustomHeaders.
Context `{!HttpC, !HeadersC, !MatchC}.

(** The path the patterns are matched with: for a directory request, the path of
    the file that was served. *)
Definition match_path (uri_path : string) (file_path : option string) : string :=
  match file_path with
  | Some p =>
      if ends_with_char "/"%char uri_path then
        match file_name p ≫= to_str with
        | Some name =>
            if str_eqb uri_path "/" then concat_str [uri_path; name]
            else concat_str [uri_path; "/"; name]
        | None => uri_path
        end
      else uri_path
  | None => uri_path
  end.

(** The inner loop: every header of a matching entry is inserted. *)
Definition insert_headers (headers : HeaderMap) (resp : Response) : Response :=
  foldl (λ r kv, put_header kv.1 kv.2 r) resp (hm_iter headers).

Definition append_headers (uri_path : string) (headers_opts : option (list Headers))
    (resp : Response) (file_path : option string) : Response :=
  match headers_opts with
  | Some headers_vec =>
      let uri_path := match_path uri_path file_path in
      foldl (λ r entry, if glob_is_match (hdr_source entry) uri_path
                        then insert_headers (hdr_headers entry) r else r)
        resp headers_vec
  | None => resp
  end.

(** [custom_headers::post_process] *)
Definition post_process (opts : RequestHandlerOpts) (req : Request) (resp : Response)
    (file_path : option string) : Result Response Error :=
  Ok (match advanced_opts opts with
      | Some advanced => append_headers (uri_path (req_uri req)) (adv_headers advanced) resp file_path
      | None => resp
      end).

(** ** Theorems *)

(** The pairs inserted for a path, in the order they are inserted. *)
Definition inserted_pairs (path : string) (headers_vec : list Headers) : list (string * string) :=
  headers_vec ≫= (λ entry, if glob_is_match (hdr_source entry) path
                           then hm_iter (hdr_headers entry) else []).

Lemma insert_pairs_get (l : list (string * string)) resp k :
  get_header (foldl (λ r kv, put_header kv.1 kv.2 r) resp l) k
  = match last (List.filter (λ kv, bool_decide (kv.1 = k)) l) with
    | Some (_, v) => Some v
    | None => get_header resp k
    end.
Proof.
  revert resp. induction l as [|[k' v'] l IH]; intros resp; cbn [foldl List.filter fst snd]; [done|].
  rewrite IH. destruct (bool_decide (k' = k)) eqn:Hk; rewrite get_header_put, Hk; [|done].
  rewrite last_cons. by destruct (last (List.filter _ l)) as [[]|].
Qed.

Lemma insert_pairs_fold (l : list (string * string)) resp :
  resp_status (foldl (λ r kv, put_header kv.1 kv.2 r) resp l) = resp_status resp
  ∧ resp_body (foldl (λ r kv, put_header kv.1 kv.2 r) resp l) = resp_body resp.
Proof. revert resp. induction l as [|kv l IH]; intros resp; simpl; [done|]. by rewrite !(proj1 (IH _)), !(proj2 (IH _)). Qed.

Lemma append_headers_pairs uri_path vec resp file_path :
  append_headers uri_path (Some vec) resp file_path
  = foldl (λ r kv, put_header kv.1 kv.2 r) resp (inserted_pairs (match_path uri_path file_path) vec).
Proof.
  unfold append_headers, inserted_pairs. set (path := match_path uri_path file_path).
  revert resp. induction vec as [|e vec IH]; intros resp; simpl; [done|].
  rewrite IH, foldl_app. by destruct (glob_is_match (hdr_source e) path).
Qed.

(** Custom headers: a header gets the last value that an entry matching the path
    has for it; a header no matching entry names keeps its value; status and body
    never change. *)
Theorem custom_headers_spec uri_path vec resp file_path k :
  let resp' := append_headers uri_path (Some vec) resp file_path in
  resp_status resp' = resp_status resp ∧ resp_body resp' = resp_body resp
  ∧ get_header resp' k
    = match last (List.filter (λ kv, bool_decide (kv.1 = k))
                    (inserted_pairs (match_path uri_path file_path) vec)) with
      | Some (_, v) => Some v
      | None => get_header resp k
      end.
Proof.
  intros resp'. unfold resp'. rewrite append_headers_pairs.
  destruct (insert_pairs_fold (inserted_pairs (match_path uri_path file_path) vec) resp) as [-> ->].
  split_and!; [done|done|apply insert_pairs_get].
Qed.

Lemma custom_post_Ok opts req resp file_path :
  ∃ resp', post_process opts req resp file_path = Ok resp'
    ∧ resp_status resp' = resp_status resp ∧ resp_body resp' = resp_body resp.
Proof.
  unfold post_process. eexists. split; [done|]. destruct (advanced_opts opts) as [a|]; [|done].
  destruct (adv_headers a) as [vec|]; [|done]. rewrite append_headers_pairs.
  apply insert_pairs_fold.
Qed.

End CustomHeaders.

(** A pattern for the index file of a directory other than the root does not
    match: the path is built with two slashes. *)
Theorem directory_index_path_doubles_slash :
  match_path "/docs/" (Some "/srv/docs/index.html") = "/docs//index.html"
  ∧ match_path "/" (Some "/srv/index.html") = "/index.html".
Proof. vm_compute. done. Qed.
