(* ===== verification/BasicAuth.v ===== *)
(** * Basic authentication: [basic_auth.rs]

    Password hashing is the [bcrypt] crate: [bcrypt_verify password hash] is
    [None] when the hash is malformed. *)

From S2P Require Import Prelude RustStr Logger RustPath Fs FsStream ContentCoding Http.
From S2P Require Import HttpInstances Opts ErrorPage.

Open Scope sws_scope.

Class BcryptC : Type := {
  bcrypt_verify : string → string → option bool
}.

Definition AUTHENTICATE_VALUE : string :=
  concat_str ["Basic realm="; dquote; "Static Web Server"; dquote; ", charset="; dquote; "UTF-8"; dquote].

Section BasicAuth.
Context `{!HttpC, !HeadersC, !MatchC, !BcryptC}.

Definition check_request (headers : HeaderMap) (userid password : string) : Result unit StatusCode :=
  let? credentials := ok_or (typed_get decode_basic_auth H_AUTHORIZATION headers) SC_UNAUTHORIZED in
  if negb (str_eqb credentials.1 userid) then Err SC_UNAUTHORIZED
  else
    match bcrypt_verify credentials.2 password with
    | Some valid => if valid then Ok () else Err SC_UNAUTHORIZED
    | None => Err SC_UNAUTHORIZED
    end.

(** [basic_auth::init] *)
Definition init (credentials : string) (opts : RequestHandlerOpts) : Logged RequestHandlerOpts :=
  let opts := set_basic_auth (trim credentials) opts in
  emit! server_info (concat_str ["basic authentication: enabled=";
                                 show_bool (negb (is_empty (basic_auth opts)))]) in
  lret opts.

(** [basic_auth::pre_process] *)
Definition pre_process (fs : FileSystem) (opts : RequestHandlerOpts) (req : Request)
    : option (Result Response Error) :=
  if is_empty (basic_auth opts) then None
  else if is_options (req_method req) then None
  else
    match split_once ":"%char (basic_auth opts) with
    | Some (user_id, password) =>
        match check_request (req_headers req) user_id password with
        | Ok _ => None
        | Err _ =>
            Some (
              let? resp := error_response fs (req_uri req) (req_method req) SC_UNAUTHORIZED
                             (page404 opts) (page50x opts) in
              let? value := unwrap (hv_from_str AUTHENTICATE_VALUE) in
              Ok (put_header H_WWW_AUTHENTICATE value resp))
        | Panic => Some Panic
        end
    | None =>
        Some (error_response fs (req_uri req) (req_method req) SC_INTERNAL_SERVER_ERROR
                (page404 opts) (page50x opts))
    end.

(** ** Theorems *)

(** The credentials a request must present. *)
Definition authenticated (auth : string) (headers : HeaderMap) : Prop :=
  ∃ user hash password,
    split_once ":"%char auth = Some (user, hash)
    ∧ typed_get decode_basic_auth H_AUTHORIZATION headers = Some (user, password)
    ∧ bcrypt_verify password hash = Some true.

Lemma check_request_Ok headers user hash :
  check_request headers user hash = Ok () ↔
  ∃ password, typed_get decode_basic_auth H_AUTHORIZATION headers = Some (user, password)
              ∧ bcrypt_verify password hash = Some true.
Proof.
  unfold check_request. destruct (typed_get _ _ _) as [[u p]|]; simpl; [|naive_solver].
  destruct (str_eqb u user) eqn:E; simpl.
  - apply str_eqb_eq in E as ->. destruct (bcrypt_verify p hash) as [[]|] eqn:Hb; naive_solver.
  - apply str_eqb_ne in E. naive_solver.
Qed.

Lemma check_request_no_panic headers user hash : check_request headers user hash ≠ Panic.
Proof.
  unfold check_request. destruct (typed_get _ _ _) as [[u p]|]; simpl; [|done].
  destruct (str_eqb u user); simpl; [|done]. by destruct (bcrypt_verify p hash) as [[]|].
Qed.

(** What an authentication failure looks like. *)
Lemma auth_pre_cases fs opts req :
  match pre_process fs opts req with
  | None => basic_auth opts = "" ∨ req_method req = OPTIONS
            ∨ authenticated (basic_auth opts) (req_headers req)
  | Some r => ∃ resp, r = Ok resp ∧ basic_auth opts ≠ "" ∧ req_method req ≠ OPTIONS
      ∧ ¬ authenticated (basic_auth opts) (req_headers req)
      ∧ match split_once ":"%char (basic_auth opts) with
        | Some _ => resp_status resp = SC_UNAUTHORIZED
                    ∧ get_header resp H_WWW_AUTHENTICATE = Some AUTHENTICATE_VALUE
        | None => resp_status resp = SC_INTERNAL_SERVER_ERROR
        end
  end.
Proof.
  unfold pre_process. destruct (is_empty (basic_auth opts)) eqn:E.
  { apply is_empty_true in E. auto. }
  apply is_empty_false in E. unfold is_options. case_bool_decide as Ho; [auto|].
  destruct (split_once ":"%char (basic_auth opts)) as [[user hash]|] eqn:Hsp.
  - pose proof (check_request_Ok (req_headers req) user hash) as Hok.
    pose proof (check_request_no_panic (req_headers req) user hash) as Hnp.
    destruct (check_request (req_headers req) user hash) as [[]|e|]; [|..|done].
    + right; right. destruct (proj1 Hok eq_refl) as (p & ? & ?). by exists user, hash, p.
    + rewrite error_response_Ok. cbn [rbind]. rewrite hv_from_str_visible by (vm_compute; reflexivity).
      cbn [unwrap rbind]. eexists. do 3 (split; [done|]). split.
      * intros (u & h & p & Hs & Ht & Hb). rewrite Hsp in Hs. injection Hs as <- <-.
        assert (Err e = Ok ()) by (apply Hok; eauto). done.
      * split; [done|]. rewrite get_header_put. by case_bool_decide.
  - eexists. split_and!; [apply error_response_Ok|done|done| |done].
    intros (u & h & p & Hs & _). congruence.
Qed.

(** C32. Authentication: a request is let through exactly when no credentials are
    configured, or it is an [OPTIONS] request, or it presents the configured user
    and a password that matches the hash; any other request is answered 401 with
    the challenge, or 500 when the configured credentials have no colon. *)
Theorem basic_auth_exact fs opts req :
  (pre_process fs opts req = None ↔
   basic_auth opts = "" ∨ req_method req = OPTIONS
   ∨ authenticated (basic_auth opts) (req_headers req))
  ∧ ∀ r, pre_process fs opts req = Some r →
      ∃ resp, r = Ok resp
        ∧ match split_once ":"%char (basic_auth opts) with
          | Some _ => resp_status resp = SC_UNAUTHORIZED
                      ∧ get_header resp H_WWW_AUTHENTICATE = Some AUTHENTICATE_VALUE
          | None => resp_status resp = SC_INTERNAL_SERVER_ERROR
          end.
Proof.
  pose proof (auth_pre_cases fs opts req) as Hc.
  destruct (pre_process fs opts req) as [r|] eqn:E; [|naive_solver].
  destruct Hc as (resp & -> & Hne & Hop & Hna & Hs). split.
  - split; [done|]. naive_solver.
  - intros ? [= <-]. exists resp. split; [done|]. by destruct (split_once _ _).
Qed.

End BasicAuth.

(** An instance: the hash of a password is the password after [h$]. *)
#[export] Instance bcrypt_plain : BcryptC := {|
  bcrypt_verify := λ password hash,
    match strip_prefix "h$" hash with
    | Some p => Some (str_eqb p password)
    | None => None
    end
|}.
