(* ===== verification/Redirects.v ===== *)
(** * Redirects: [redirects.rs] *)

From S2P Require Import Prelude RustStr RustPath Fs FsStream ContentCoding Http HttpInstances.
From S2P Require Import Opts ErrorPage.

Open Scope sws_scope.

Section Redirects.
Context `{!HttpC, !HeadersC, !MatchC}.

(** [$0], [$1], ... *)
Definition placeholder (i : nat) : string := concat_str ["$"; dec (Z.of_nat i)].

Definition replace_placeholders (orig_uri : string) (regex : Regex) (dest_uri : string)
    : Result string Error :=
  match regex_captures regex orig_uri with
  | None => Err "regex didn't match, extracting captures failed"
  | Some regex_caps =>
      let caps := default "" <$> regex_caps in
      let patterns := placeholder <$> seq 0 (length regex_caps) in
      match ac_new patterns with
      | None => Err "failed creating Aho-Corasick matcher"
      | Some ac => ok_or (ac_try_replace_all ac dest_uri caps) "failed replacing captures"
      end
  end.

Definition handle_error (fs : FileSystem) (opts : RequestHandlerOpts) (req : Request)
    : option (Result Response Error) :=
  Some (error_response fs (req_uri req) (req_method req) SC_INTERNAL_SERVER_ERROR
          (page404 opts) (page50x opts)).

(** The test of one entry: its host, when it has one, then its pattern. *)
Definition redirect_matches (uri_host uri_path : string) (entry : Redirects) : bool :=
  match rd_host entry with
  | Some host => if negb (str_eqb host uri_host) then false
                 else regex_is_match (rd_source entry) uri_path
  | None => regex_is_match (rd_source entry) uri_path
  end.

Definition get_redirection (uri_host uri_path : string) (redirects_opts : option (list Redirects))
    : option Redirects :=
  match redirects_opts with
  | Some redirects_vec => find_first (redirect_matches uri_host uri_path) redirects_vec
  | None => None
  end.

(** The host of a request: that of the URI, or the [Host] header, and the port of
    the URI. *)
Definition request_host (req : Request) : string :=
  let uri := req_uri req in
  let host := default "" (hm_get (req_headers req) H_HOST ≫= hv_to_str) in
  let uri_host := default host (uri_host uri) in
  match uri_port_u16 uri with
  | Some uri_port => concat_str [uri_host; ":"; dec uri_port]
  | None => uri_host
  end.

Definition redirect_response (status : StatusCode) (loc : string) : Response :=
  set_status status (put_header H_LOCATION loc (response_new BodyEmpty)).

(** [redirects::pre_process] *)
Definition pre_process (fs : FileSystem) (opts : RequestHandlerOpts) (req : Request)
    : option (Result Response Error) :=
  match advanced_opts opts ≫= adv_redirects with
  | None => None
  | Some redirects =>
      let uri_path := uri_path (req_uri req) in
      match get_redirection (request_host req) uri_path (Some redirects) with
      | None => None
      | Some matched =>
          match replace_placeholders uri_path (rd_source matched) (rd_destination matched) with
          | Ok dest =>
              match hv_from_str dest with
              | Some loc => Some (Ok (redirect_response (rd_kind matched) loc))
              | None => handle_error fs opts req
              end
          | Err _ => handle_error fs opts req
          | Panic => Some Panic
          end
      end
  end.

(** ** Theorems *)

Lemma replace_placeholders_no_panic orig regex dest : replace_placeholders orig regex dest ≠ Panic.
Proof. unfold replace_placeholders, ok_or. by repeat case_goal. Qed.

(** On a matching URI the captures exist, so the first error cannot happen. *)
Lemma replace_placeholders_match orig regex dest e :
  regex_is_match regex orig = true → replace_placeholders orig regex dest = Err e →
  e = "failed creating Aho-Corasick matcher" ∨ e = "failed replacing captures".
Proof.
  intros (g & gs & Hg)%regex_captures_match. unfold replace_placeholders. rewrite Hg.
  destruct (ac_new _); [|naive_solver]. destruct (ac_try_replace_all _ _ _); naive_solver.
Qed.

Lemma redirects_pre_cases fs opts req :
  match pre_process fs opts req with
  | None => True
  | Some r => ∃ resp, r = Ok resp
      ∧ ((∃ matched dest, resp = redirect_response (rd_kind matched) dest)
         ∨ resp_status resp = SC_INTERNAL_SERVER_ERROR)
  end.
Proof.
  unfold pre_process. destruct (advanced_opts opts ≫= adv_redirects); [|done].
  destruct (get_redirection _ _ _) as [m|]; [|done].
  pose proof (replace_placeholders_no_panic (uri_path (req_uri req)) (rd_source m) (rd_destination m)) as Hnp.
  destruct (replace_placeholders _ _ _) as [dest|e|]; [|..|done].
  - destruct (hv_from_str dest); eexists; (split; [done|]); [left; by repeat eexists|by right].
  - eexists. split; [done|]. by right.
Qed.

(** The host a request names: the host of its URI, or else its [Host] header as it
    is (nothing when it is missing or no text), with the port of the URI, if any. *)
Definition names_host (req : Request) (host : string) : Prop :=
  ∃ name, host = name +:+ match uri_port_u16 (req_uri req) with Some p => ":" +:+ dec p | None => "" end
    ∧ match uri_host (req_uri req) with
      | Some h => name = h
      | None => match hm_get (req_headers req) H_HOST with
                | Some v => name = default "" (hv_to_str v)
                | None => name = ""
                end
      end.

(** A rule that concerns a request. *)
Definition rule_applies (req : Request) (e : Redirects) : Prop :=
  regex_is_match (rd_source e) (uri_path (req_uri req)) = true
  ∧ ∀ host, rd_host e = Some host → names_host req host.

(** The destination with [$0], [$1], ... replaced by the text that the whole pattern
    and its groups match in the path (nothing for a group that takes no part). *)
Definition filled (path : string) (r : Regex) (template dest : string) : Prop :=
  ∃ groups ac, regex_captures r path = Some groups
    ∧ ac_new ((λ i, "$" +:+ dec (Z.of_nat i)) <$> seq 0 (length groups)) = Some ac
    ∧ ac_try_replace_all ac template (default "" <$> groups) = Some dest.

Lemma request_host_names req host : host = request_host req ↔ names_host req host.
Proof.
  unfold request_host, names_host.
  assert (∀ s p, concat_str [s; ":"; p] = s +:+ ":" +:+ p) as Hc.
  { intros s p. simpl. by rewrite append_nil_r. }
  destruct (uri_host (req_uri req)) as [h|], (hm_get (req_headers req) H_HOST) as [v|],
    (uri_port_u16 (req_uri req)) as [p|]; cbn [option_bind mbind default]; rewrite ?Hc;
    (split; [intros ->; eexists; (split; [|reflexivity]); by rewrite ?append_nil_r
            |intros (? & -> & ->); by rewrite ?append_nil_r]).
Qed.

Lemma redirect_matches_applies req e :
  redirect_matches (request_host req) (uri_path (req_uri req)) e = true ↔ rule_applies req e.
Proof.
  unfold redirect_matches, rule_applies. destruct (rd_host e) as [host|].
  - pose proof (request_host_names req host) as Hn. destruct (str_eqb host (request_host req)) eqn:E; cbn [negb].
    + apply str_eqb_eq in E. split; [|by intros [? _]]. intros Hm. split; [done|]. intros ? [= <-]. by apply Hn.
    + apply str_eqb_ne in E. split; [done|]. intros [_ Hh]. destruct E. by apply Hn, Hh.
  - split; [by split|]. by intros [? _].
Qed.

Lemma replace_placeholders_filled path r template dest :
  replace_placeholders path r template = Ok dest ↔ filled path r template dest.
Proof.
  unfold replace_placeholders, filled.
  destruct (regex_captures r path) as [groups|]; [|naive_solver].
  assert (placeholder <$> seq 0 (length groups) = (λ i, "$" +:+ dec (Z.of_nat i)) <$> seq 0 (length groups)) as Hp.
  { apply list_fmap_ext. intros i x _. unfold placeholder. simpl. by rewrite append_nil_r. }
  rewrite Hp. split.
  - destruct (ac_new _) as [ac|] eqn:Hac; [|done]. destruct (ac_try_replace_all _ _ _) as [d|] eqn:Hd; [|done].
    intros [= <-]. by exists groups, ac.
  - intros (? & ac & [= <-] & -> & ->). done.
Qed.

(** C33. Redirects: the first rule whose host (if it has one) is the one the request names
    and whose pattern matches the path decides.  The answer is a redirect with the
    rule's status to its destination, filled from the path; or 500 when the
    destination cannot be filled or is no header value.  Without such a rule the
    request goes on. *)
Theorem redirects_spec fs opts req :
  let rules := default [] (advanced_opts opts ≫= adv_redirects) in
  match pre_process fs opts req with
  | None => Forall (λ e, ¬ rule_applies req e) rules
  | Some r =>
      ∃ l1 e l2 resp, rules = l1 ++ e :: l2 ∧ rule_applies req e ∧ Forall (λ e', ¬ rule_applies req e') l1
        ∧ r = Ok resp
        ∧ let location dest := filled (uri_path (req_uri req)) (rd_source e) (rd_destination e) dest
                               ∧ hv_from_str dest = Some dest in
          ((∃ dest, location dest ∧ resp_status resp = rd_kind e
              ∧ get_header resp H_LOCATION = Some dest ∧ resp_body resp = BodyEmpty)
           ∨ (¬ ∃ dest, location dest) ∧ resp_status resp = SC_INTERNAL_SERVER_ERROR)
  end.
Proof.
  intros rules. subst rules. unfold pre_process.
  destruct (advanced_opts opts ≫= adv_redirects) as [redirects|]; [|done]. cbn [default get_redirection].
  assert (∀ l, Forall (λ e, redirect_matches (request_host req) (uri_path (req_uri req)) e = false) l →
               Forall (λ e, ¬ rule_applies req e) l) as Hnot.
  { intros l Hl. eapply Forall_impl; [done|]. intros e He Ha%redirect_matches_applies. congruence. }
  destruct (find_first _ redirects) as [e|] eqn:Hf; [|apply find_first_None in Hf; by apply Hnot].
  apply find_first_Some in Hf as (l1 & l2 & -> & He%redirect_matches_applies & Hl1%Hnot).
  pose proof (replace_placeholders_filled (uri_path (req_uri req)) (rd_source e) (rd_destination e)) as Hfill.
  pose proof (replace_placeholders_no_panic (uri_path (req_uri req)) (rd_source e) (rd_destination e)) as Hnp.
  destruct (replace_placeholders _ _ _) as [dest|err|]; [|..|done].
  - destruct (hv_from_str dest) as [loc|] eqn:Hv.
    + pose proof (hv_from_str_bytes _ _ Hv) as ->. do 4 eexists. split_and!; [done|done|done|done|].
      left. exists dest. split; [split; [by apply Hfill|done]|]. split_and!; [done| |done].
      unfold redirect_response. by headers.
    + do 4 eexists. split_and!; [done|done|done|done|]. right. split; [|done].
      intros (d & [= <-]%Hfill & Hd). congruence.
  - do 4 eexists. split_and!; [done|done|done|done|]. right. split; [|done]. by intros (d & ?%Hfill & _).
Qed.

End Redirects.
