(* ===== verification/Rewrites.v ===== *)
(** * Rewrites: [rewrites.rs]

    [pre_process] may change the request: the result has the request that the
    next steps see. *)

From S2P Require Import Prelude RustStr RustPath Fs FsStream ContentCoding Http HttpInstances.
From S2P Require Import Opts ErrorPage Redirects.

Open Scope sws_scope.

Section Rewrites.
Context `{!HttpC, !HeadersC, !MatchC}.

Definition rewrite_uri_path (uri_path : string) (rewrites_opts : option (list Rewrites))
    : option Rewrites :=
  match rewrites_opts with
  | Some rewrites_vec => find_first (λ e, regex_is_match (rw_source e) uri_path) rewrites_vec
  | None => None
  end.

(** The parts of the new URI, completed by those of the original one; the query
    is kept when the new URI has none. *)
Definition merge_uris (orig_uri : Uri) (new_uri : string) : Result Uri Error :=
  let? parts := ok_or (uri_parse new_uri) "invalid uri" in
  let scheme := match uri_scheme parts with None => uri_scheme orig_uri | s => s end in
  let authority := match uri_authority parts with None => uri_authority orig_uri | a => a end in
  let path_and_query :=
    match uri_path_and_query parts with None => uri_path_and_query orig_uri | p => p end in
  let? path_and_query :=
    match path_and_query with
    | Some pq =>
        match pq_query pq, uri_query orig_uri with
        | None, Some query =>
            let? p := ok_or (pq_parse (concat_str [pq_as_str pq; "?"; query])) "invalid uri" in
            Ok (Some p)
        | _, _ => Ok (Some pq)
        end
    | None => Ok None
    end in
  ok_or (uri_from_parts {| uri_scheme := scheme; uri_authority := authority;
                           uri_path_and_query := path_and_query |}) "invalid uri parts".

Definition set_uri (u : Uri) (req : Request) : Request :=
  {| req_method := req_method req; req_uri := u; req_headers := req_headers req |}.

(** The [Host] header follows the host of the new URI. *)
Definition adjust_host (req : Request) : Request :=
  match uri_host (req_uri req) with
  | Some host =>
      let host := match uri_port_u16 (req_uri req) with
                  | Some port => concat_str [host; ":"; dec port]
                  | None => host
                  end in
      match hv_from_str host with
      | Some v => {| req_method := req_method req; req_uri := req_uri req;
                     req_headers := hm_insert H_HOST v (req_headers req) |}
      | None => req
      end
  | None => req
  end.

Definition rewrite_status (k : RedirectsKind) : StatusCode :=
  match k with
  | Permanent => SC_MOVED_PERMANENTLY
  | Temporary => SC_FOUND
  end.

(** [rewrites::pre_process] *)
Definition pre_process (fs : FileSystem) (opts : RequestHandlerOpts) (req : Request)
    : option (Result Response Error) * Request :=
  match advanced_opts opts ≫= adv_rewrites with
  | None => (None, req)
  | Some rewrites =>
      let path := uri_path (req_uri req) in
      match rewrite_uri_path path (Some rewrites) with
      | None => (None, req)
      | Some matched =>
          match replace_placeholders path (rw_source matched) (rw_destination matched) with
          | Ok dest =>
              match rw_redirect matched with
              | Some redirect_type =>
                  match hv_from_str dest with
                  | Some loc => (Some (Ok (redirect_response (rewrite_status redirect_type) loc)), req)
                  | None => (handle_error fs opts req, req)
                  end
              | None =>
                  match merge_uris (req_uri req) dest with
                  | Ok uri => (None, adjust_host (set_uri uri req))
                  | Err _ => (handle_error fs opts req, req)
                  | Panic => (Some Panic, req)
                  end
              end
          | Err _ => (handle_error fs opts req, req)
          | Panic => (Some Panic, req)
          end
      end
  end.

(** ** Theorems *)

Lemma merge_uris_no_panic u s : merge_uris u s ≠ Panic.
Proof. unfold merge_uris, ok_or, rbind. by repeat case_goal. Qed.

Lemma adjust_host_keeps req :
  req_method (adjust_host req) = req_method req ∧ req_uri (adjust_host req) = req_uri req.
Proof. unfold adjust_host. by repeat case_goal. Qed.

(** What [pre_process] leaves: an answer, or a request with the same method. *)
Lemma rewrites_pre_cases fs opts req :
  match pre_process fs opts req with
  | (Some r, _) => ∃ resp, r = Ok resp
      ∧ (resp_status resp = SC_INTERNAL_SERVER_ERROR
         ∨ ∃ k loc, resp = redirect_response (rewrite_status k) loc)
  | (None, req') => req_method req' = req_method req
      ∧ (∀ k, k ≠ H_HOST → hm_get (req_headers req') k = hm_get (req_headers req) k)
  end.
Proof.
  unfold pre_process. destruct (advanced_opts opts ≫= adv_rewrites); [|done].
  destruct (rewrite_uri_path _ _) as [m|]; [|done].
  pose proof (replace_placeholders_no_panic (uri_path (req_uri req)) (rw_source m) (rw_destination m)) as Hnp.
  destruct (replace_placeholders _ _ _) as [dest|e|]; [|eexists; split; [done|by left]|done].
  destruct (rw_redirect m) as [k|].
  { destruct (hv_from_str dest) as [v|]; eexists; (split; [done|]); [right; by repeat eexists|by left]. }
  pose proof (merge_uris_no_panic (req_uri req) dest) as Hm.
  destruct (merge_uris (req_uri req) dest) as [u|e|]; [|eexists; split; [done|by left]|done].
  split; [by rewrite (proj1 (adjust_host_keeps _))|]. intros k Hk. unfold adjust_host.
  destruct (uri_host _); [|done]. destruct (hv_from_str _); [|done]. simpl.
  rewrite hm_get_insert. by rewrite bool_decide_eq_false_2 by done.
Qed.

(** The URI that a rewritten request has: the scheme, authority, path and query of the
    destination, each taken from the original one where the destination has none; in
    particular the original query is kept unless the destination has its own. *)
Definition merged_query (u parts : Uri) (pq : option PathAndQuery) : Prop :=
  match match uri_path_and_query parts with None => uri_path_and_query u | x => x end with
  | None => pq = None
  | Some p =>
      match pq_query p, uri_query u with
      | None, Some query => ∃ p', pq_parse (pq_as_str p +:+ "?" +:+ query) = Some p' ∧ pq = Some p'
      | _, _ => pq = Some p
      end
  end.

Definition merged (u : Uri) (dest : string) (u' : Uri) : Prop :=
  ∃ parts pq, uri_parse dest = Some parts ∧ merged_query u parts pq
    ∧ uri_from_parts {| uri_scheme := match uri_scheme parts with None => uri_scheme u | x => x end;
                        uri_authority := match uri_authority parts with None => uri_authority u | x => x end;
                        uri_path_and_query := pq |} = Some u'.

Lemma merge_uris_merged u dest u' : merge_uris u dest = Ok u' ↔ merged u dest u'.
Proof.
  unfold merge_uris, merged. destruct (uri_parse dest) as [parts|]; cbn [ok_or rbind]; [|naive_solver].
  assert (∀ (r : Result (option PathAndQuery) Error) k,
    (∀ pq, r = Ok pq ↔ merged_query u parts pq) → r ≠ Panic →
    rbind r (λ pq, ok_or (k pq) "invalid uri parts") = Ok u'
    ↔ ∃ parts' pq, Some parts = Some parts' ∧ merged_query u parts' pq ∧ k pq = Some u') as Hbind.
  { intros r k Hr Hnp. split.
    - intros (pq & Hpq & Hk)%rbind_Ok. exists parts, pq. split_and!; [done|by apply Hr|].
      destruct (k pq); naive_solver.
    - intros (? & pq & [= <-] & ->%Hr & Hk). cbn [rbind]. by rewrite Hk. }
  rewrite (Hbind _ (λ pq, uri_from_parts {|
    uri_scheme := match uri_scheme parts with None => uri_scheme u | x => x end;
    uri_authority := match uri_authority parts with None => uri_authority u | x => x end;
    uri_path_and_query := pq |})).
  - split; intros (? & pq & [= <-] & ?); by exists parts, pq.
  - intros pq. unfold merged_query.
    destruct (match uri_path_and_query parts with None => uri_path_and_query u | x => x end) as [p|]; [|naive_solver].
    destruct (pq_query p); [naive_solver|]. destruct (uri_query u) as [q|]; [|naive_solver].
    assert (concat_str [pq_as_str p; "?"; q] = pq_as_str p +:+ "?" +:+ q) as ->
      by (simpl; by rewrite append_nil_r).
    destruct (pq_parse _); cbn [ok_or rbind]; naive_solver.
  - unfold ok_or, rbind. by repeat case_goal.
Qed.

(** The request that goes on after a rewrite to [dest]: the merged URI, the method and
    the headers it had, [Host] apart, which follows the host and port of the new URI
    when it has one (and they make a header value). *)
Definition rewritten (req : Request) (dest : string) (req' : Request) : Prop :=
  merged (req_uri req) dest (req_uri req')
  ∧ req_method req' = req_method req
  ∧ (∀ k, k ≠ H_HOST → hm_get (req_headers req') k = hm_get (req_headers req) k)
  ∧ hm_get (req_headers req') H_HOST
    = match uri_host (req_uri req') with
      | Some h =>
          let host := h +:+ match uri_port_u16 (req_uri req') with Some p => ":" +:+ dec p | None => "" end in
          match hv_from_str host with
          | Some v => Some v
          | None => hm_get (req_headers req) H_HOST
          end
      | None => hm_get (req_headers req) H_HOST
      end.

Lemma adjust_host_rewritten req dest u :
  merged (req_uri req) dest u → rewritten req dest (adjust_host (set_uri u req)).
Proof.
  intros Hu. unfold rewritten. destruct (adjust_host_keeps (set_uri u req)) as [-> ->]. cbn [set_uri req_uri req_method].
  split_and!; [done|done|..]; unfold adjust_host; cbn [set_uri req_uri]; destruct (uri_host u) as [h|]; try done;
    assert (∀ p, concat_str [h; ":"; p] = h +:+ ":" +:+ p) as Hc by (intros p; simpl; by rewrite append_nil_r);
    destruct (uri_port_u16 u) as [p|]; rewrite ?Hc, ?append_nil_r; destruct (hv_from_str _); try done;
    cbn [req_headers]; intros; rewrite hm_get_insert; by case_bool_decide.
Qed.

(** C34. Rewrites: the first rule whose pattern matches the path decides.  With a redirect
    kind the client is redirected (301 or 302) to the filled destination; without
    one the request goes on with the destination as its URI, keeping its own query
    when the destination has none.  It is 500 when the destination cannot be filled,
    is no header value for a redirect, or makes no URI.  Without such a rule the
    request goes on unchanged. *)
Theorem rewrites_spec fs opts req :
  let rules := default [] (advanced_opts opts ≫= adv_rewrites) in
  let path := uri_path (req_uri req) in
  let first l1 e l2 := rules = l1 ++ e :: l2 ∧ regex_is_match (rw_source e) path = true
                       ∧ Forall (λ e', regex_is_match (rw_source e') path = false) l1 in
  let target e dest := filled path (rw_source e) (rw_destination e) dest in
  match pre_process fs opts req with
  | (None, req') =>
      req' = req ∧ Forall (λ e, regex_is_match (rw_source e) path = false) rules
      ∨ ∃ l1 e l2 dest, first l1 e l2 ∧ rw_redirect e = None ∧ target e dest ∧ rewritten req dest req'
  | (Some r, req') =>
      req' = req ∧ ∃ l1 e l2 resp, first l1 e l2 ∧ r = Ok resp
        ∧ match rw_redirect e with
          | Some k =>
              (∃ dest, target e dest ∧ hv_from_str dest = Some dest
                 ∧ resp_status resp = (match k with Permanent => 301 | Temporary => 302 end)%Z
                 ∧ get_header resp H_LOCATION = Some dest ∧ resp_body resp = BodyEmpty)
              ∨ (¬ ∃ dest, target e dest ∧ hv_from_str dest = Some dest)
                ∧ resp_status resp = SC_INTERNAL_SERVER_ERROR
          | None => (¬ ∃ dest u, target e dest ∧ merged (req_uri req) dest u)
                    ∧ resp_status resp = SC_INTERNAL_SERVER_ERROR
          end
  end.
Proof.
  intros rules path first target. subst rules. unfold pre_process. fold path.
  destruct (advanced_opts opts ≫= adv_rewrites) as [rewrites|]; [|by left]. cbn [default rewrite_uri_path] in *.
  destruct (find_first _ rewrites) as [e|] eqn:Hf; [|apply find_first_None in Hf; by left].
  apply find_first_Some in Hf as (l1 & l2 & Hl & He & Hl1). assert (first l1 e l2) as Hfirst by (by split_and!).
  pose proof (replace_placeholders_filled path (rw_source e) (rw_destination e)) as Hfill.
  pose proof (replace_placeholders_no_panic path (rw_source e) (rw_destination e)) as Hnp.
  destruct (replace_placeholders _ _ _) as [dest|err|]; [|..|done].
  - assert (∀ d, target e d ↔ d = dest) as Ht.
    { intros d. unfold target. rewrite <- Hfill. naive_solver. }
    destruct (rw_redirect e) as [k|] eqn:Hk.
    + destruct (hv_from_str dest) as [v|] eqn:Hv.
      * pose proof (hv_from_str_bytes _ _ Hv) as ->. split; [done|]. exists l1, e, l2. eexists.
        split_and!; [done|done|]. rewrite Hk. left. exists dest. unfold redirect_response.
        split_and!; [by apply Ht|done|by destruct k|by headers|done].
      * split; [done|]. exists l1, e, l2. eexists. split_and!; [done|done|]. rewrite Hk. right. split; [|done].
        intros (d & ->%Ht & Hd). congruence.
    + pose proof (merge_uris_no_panic (req_uri req) dest) as Hm.
      pose proof (merge_uris_merged (req_uri req) dest) as Hmm.
      destruct (merge_uris (req_uri req) dest) as [u|er|]; [|..|done].
      * right. exists l1, e, l2, dest. split_and!; [done|done|by apply Ht|].
        by apply adjust_host_rewritten, Hmm.
      * split; [done|]. exists l1, e, l2. eexists. split_and!; [done|done|]. rewrite Hk. split; [|done].
        by intros (d & u & ->%Ht & ?%Hmm).
  - split; [done|]. exists l1, e, l2. eexists. split_and!; [done|done|].
    assert (∀ d, ¬ target e d) as Ht by (by intros d ?%Hfill).
    destruct (rw_redirect e); [right|]; (split; [|done]); [by intros (d & ?%Ht & _)|by intros (d & u & ?%Ht & _)].
Qed.

End Rewrites.

(** [/app/x] is rewritten to [/static/x] and keeps its query. *)
Example rewrite_keeps_query :
  let e := {| rw_source := "/app/"; rw_destination := "/static/$1"; rw_redirect := None |} in
  let opts := opts_with_advanced {| adv_headers := None; adv_rewrites := Some [e];
                adv_redirects := None; adv_virtual_hosts := None; adv_memory_cache := None |} in
  let req := {| req_method := GET;
                req_uri := {| uri_scheme := None; uri_authority := None;
                  uri_path_and_query := Some {| pq_path := "/app/x"; pq_query := Some "v=1" |} |};
                req_headers := hm_new |} in
  uri_path_and_query (req_uri (pre_process (table_fs []) opts req).2)
  = Some {| pq_path := "/static/x"; pq_query := Some "v=1" |}.
Proof. vm_compute. reflexivity. Qed.
