(* ===== verification/HttpsRedirect.v ===== *)
(** * HTTP to HTTPS redirect: [https_redirect.rs] *)

From S2P Require Import Prelude RustStr RustPath Fs FsStream ContentCoding Http HttpInstances.

Open Scope sws_scope.

Record RedirectOpts : Type := {
  https_hostname : string;
  https_port : Z;
  allowed_hosts : list string
}.

Section HttpsRedirect.
Context `{!HttpC, !HeadersC}.

(** The [unwrap] of the location is a panic when it is no header value. *)
Definition redirect_to_https (req : Request) (opts : RedirectOpts) : Result Response StatusCode :=
  match typed_get decode_host H_HOST (req_headers req) with
  | Some from_hostname =>
      if negb (existsb (λ s, str_eqb s from_hostname) (allowed_hosts opts)) then Err SC_BAD_REQUEST
      else
        let url := concat_str ["https://"; https_hostname opts; ":"; dec (https_port opts);
                               uri_to_string (req_uri req)] in
        let resp := set_status SC_MOVED_PERMANENTLY (response_new BodyEmpty) in
        let? loc := unwrap (hv_from_str url) in
        Ok (put_header H_LOCATION loc resp)
  | None => Err SC_BAD_REQUEST
  end.

(** ** Theorems *)

(** A request over HTTP is redirected exactly when its [Host] is one of the allowed
    hosts, and always to the configured host: a forged [Host] header cannot choose
    the target.  Everything else is refused with 400.  The one other outcome is the
    panic of the [unwrap], when the location of an allowed request is no header
    value. *)
Theorem redirect_to_https_spec req opts :
  let location := concat_str ["https://"; https_hostname opts; ":"; dec (https_port opts);
                              uri_to_string (req_uri req)] in
  let allowed := ∃ host, typed_get decode_host H_HOST (req_headers req) = Some host ∧ host ∈ allowed_hosts opts in
  match redirect_to_https req opts with
  | Ok resp => allowed ∧ resp_status resp = SC_MOVED_PERMANENTLY ∧ resp_body resp = BodyEmpty
      ∧ get_header resp H_LOCATION = Some location
  | Err s => s = SC_BAD_REQUEST ∧ ¬ allowed
  | Panic => allowed ∧ hv_from_str location = None
  end.
Proof.
  intros location allowed. subst allowed. unfold redirect_to_https. fold location.
  destruct (typed_get decode_host H_HOST (req_headers req)) as [host|]; [|naive_solver].
  assert (existsb (λ s, str_eqb s host) (allowed_hosts opts) = true ↔ host ∈ allowed_hosts opts) as Hex.
  { rewrite existsb_exists. setoid_rewrite str_eqb_eq. setoid_rewrite <- list_elem_of_In. naive_solver. }
  destruct (existsb _ _) eqn:E; cbn [negb]; cbv iota zeta; [|naive_solver].
  destruct (hv_from_str location) as [v|] eqn:Hl; [|naive_solver]. pose proof (hv_from_str_bytes _ _ Hl) as ->.
  cbn [unwrap rbind]. split_and!; [naive_solver|done|done|]. rewrite get_header_put. by case_bool_decide.
Qed.

End HttpsRedirect.

Lemma redirect_to_https_witness :
  let req := {| req_method := GET;
                req_uri := {| uri_scheme := None; uri_authority := None;
                              uri_path_and_query := Some {| pq_path := "/a"; pq_query := None |} |};
                req_headers := hm_insert H_HOST "localhost:80" hm_new |} in
  let opts := {| https_hostname := "example.com"; https_port := 443; allowed_hosts := ["localhost"] |} in
  match redirect_to_https req opts with
  | Ok resp => resp_status resp = SC_MOVED_PERMANENTLY
               ∧ get_header resp H_LOCATION = Some "https://example.com:443/a"
  | _ => False
  end.
Proof.
  intros req opts. pose proof (redirect_to_https_spec req opts) as Hs.
  assert (is_ok (redirect_to_https req opts) = true) as Hok by (vm_compute; reflexivity).
  destruct (redirect_to_https req opts) as [resp|s|]; [|discriminate Hok..].
  destruct Hs as (_ & Hs & _ & Hl). split; [exact Hs|]. rewrite Hl. vm_compute. reflexivity.
Qed.
