(* ===== verification/LogAddr.v ===== *)
(** * Remote addresses in the log: [log_addr.rs]

    The log line of a request, with the address of the peer and the address a
    trusted proxy reports for the client.  How the [http] crate prints a method
    and a URI is an argument. *)

From S2P Require Import Prelude RustStr Logger IpAddr RustPath Fs FsStream ContentCoding Http.
From S2P Require Import HttpInstances Opts ErrorPage Health.

Section LogAddr.
Context `{!HttpC, !HeadersC, !MatchC}.
Context (method_display : Method → string) (uri_display : Uri → string).

(** Whether [X-Forwarded-For] is believed. *)
Definition trusts_forwarded (opts : RequestHandlerOpts) (remote_addr : option SocketAddr) : bool :=
  log_forwarded_for opts
  && (match trusted_proxies opts with [] => true | _ => false end
      || match remote_addr with
         | Some addr => existsb (λ ip, bool_decide (ip = sa_ip addr)) (trusted_proxies opts)
         | None => false
         end).

(** The first address of [X-Forwarded-For]. *)
Definition real_remote_ip (req : Request) : option IpAddr :=
  match hm_get (req_headers req) H_X_FORWARDED_FOR ≫= hv_to_str with
  | Some s => head (split ","%char s) ≫= (λ p, ip_parse (trim p))
  | None => None
  end.

Definition remote_addrs (opts : RequestHandlerOpts) (req : Request)
    (remote_addr : option SocketAddr) : string :=
  let a :=
    if log_remote_address opts then
      match remote_addr with
      | Some addr => concat_str [" remote_addr="; addr_display addr]
      | None => ""
      end
    else "" in
  let b :=
    if trusts_forwarded opts remote_addr then
      match real_remote_ip req with
      | Some real_ip => concat_str [" real_remote_ip="; ip_display real_ip]
      | None => ""
      end
    else "" in
  a +:+ b.

(** [log_addr::init]; the addresses are printed by [Debug], which is [Display] for
    an address and brackets with commas for a vector. *)
Definition init (enabled : bool) (opts : RequestHandlerOpts) : Logged RequestHandlerOpts :=
  let opts := set_log_remote_address enabled opts in
  let trusted :=
    match trusted_proxies opts with
    | [] => "all"
    | ips => concat_str ["["; join ", " (ip_display <$> ips); "]"]
    end in
  emit! server_info (concat_str ["log requests with remote IP addresses: enabled="; show_bool enabled]) in
  emit! server_info (concat_str ["log X-Forwarded-For real remote IP addresses: enabled=";
                                 show_bool (log_forwarded_for opts)]) in
  emit! server_info (concat_str ["trusted IPs for X-Forwarded-For: "; trusted]) in
  lret opts.

(** [log_addr::pre_process]: the one line it logs for a request, before the handler
    looks at it; requests of the health endpoint are less verbose. *)
Definition pre_process (opts : RequestHandlerOpts) (req : Request) (remote_addr : option SocketAddr)
    : Event :=
  let line := concat_str ["incoming request: method="; method_display (req_method req); " uri=";
                          uri_display (req_uri req); remote_addrs opts req remote_addr] in
  if health opts && is_health_endpoint req then tracing DEBUG "log_addr" line
  else tracing INFO "log_addr" line.

(** ** Lemmas *)

Lemma trusts_forwarded_spec opts remote_addr :
  trusts_forwarded opts remote_addr = true ↔
  log_forwarded_for opts = true
  ∧ (trusted_proxies opts = []
     ∨ ∃ addr, remote_addr = Some addr ∧ sa_ip addr ∈ trusted_proxies opts).
Proof.
  unfold trusts_forwarded. rewrite andb_true_iff. apply and_iff_compat_l.
  destruct (trusted_proxies opts) as [|ip l] eqn:E; [naive_solver|]. rewrite orb_false_l.
  destruct remote_addr as [addr|]; [|naive_solver].
  rewrite existsb_exists. setoid_rewrite bool_decide_eq_true. setoid_rewrite <- list_elem_of_In. naive_solver.
Qed.

(** ** Theorems *)

(** The address that a request is logged with besides that of its peer: the option
    is on, the peer is a trusted proxy when proxies are listed, and the text of
    [X-Forwarded-For] up to its first comma is, between spaces, an address. *)
Definition forwarded (opts : RequestHandlerOpts) (req : Request) (remote_addr : option SocketAddr)
    (ip : IpAddr) : Prop :=
  log_forwarded_for opts = true
  ∧ (trusted_proxies opts = [] ∨ ∃ addr, remote_addr = Some addr ∧ sa_ip addr ∈ trusted_proxies opts)
  ∧ ∃ value text first,
      hm_get (req_headers req) H_X_FORWARDED_FOR = Some value ∧ hv_to_str value = Some text
      ∧ has_char ","%char first = false ∧ (text = first ∨ ∃ rest, text = first +:+ String ","%char rest)
      ∧ ip_parse (trim first) = Some ip.

Lemma real_remote_ip_spec req ip :
  real_remote_ip req = Some ip ↔
  ∃ value text first,
    hm_get (req_headers req) H_X_FORWARDED_FOR = Some value ∧ hv_to_str value = Some text
    ∧ has_char ","%char first = false ∧ (text = first ∨ ∃ rest, text = first +:+ String ","%char rest)
    ∧ ip_parse (trim first) = Some ip.
Proof.
  unfold real_remote_ip. destruct (hm_get _ _) as [v|]; cbn [mbind option_bind]; [|naive_solver].
  destruct (hv_to_str v) as [s|] eqn:Hs; [|naive_solver]. split.
  - intros (first & Hf & Hip)%bind_Some. apply split_head in Hf as [??]. by exists v, s, first.
  - intros (? & ? & first & [= <-] & [= <-]%(eq_trans (eq_sym Hs)) & ? & ? & Hip).
    apply bind_Some. exists first. by rewrite split_head.
Qed.

Lemma forwarded_spec opts req remote_addr ip :
  forwarded opts req remote_addr ip ↔
  trusts_forwarded opts remote_addr = true ∧ real_remote_ip req = Some ip.
Proof. rewrite trusts_forwarded_spec, real_remote_ip_spec. unfold forwarded. tauto. Qed.

(** C26. The line of a request, in full.  Its level is [INFO], or [DEBUG] for a request
    of an enabled health endpoint; its text has the method, the URI, the address of
    the peer when that is asked for, and then exactly this: when the request has a
    [forwarded] address, the printed form of that address, which reads back as the
    address; otherwise nothing.  So of [X-Forwarded-For] no text of the client's
    own is logged, and nothing at all unless the option is on and the peer is
    trusted. *)
Theorem forwarded_in_log opts req remote_addr :
  let line := pre_process opts req remote_addr in
  let peer := match remote_addr with
              | Some addr => if log_remote_address opts then " remote_addr=" +:+ addr_display addr else ""
              | None => ""
              end in
  ev_level line = (if health opts && is_health_endpoint req then DEBUG else INFO)
  ∧ ∃ real,
      ev_text line
      = concat_str ["incoming request: method="; method_display (req_method req); " uri=";
                    uri_display (req_uri req); peer; real]
      ∧ ((real = "" ∧ ∀ ip, ¬ forwarded opts req remote_addr ip)
         ∨ ∃ ip, forwarded opts req remote_addr ip ∧ real = " real_remote_ip=" +:+ ip_display ip
                 ∧ ip_parse (ip_display ip) = Some ip).
Proof.
  intros line peer. split; [unfold line, pre_process; by destruct (health opts && _)|].
  exists (if trusts_forwarded opts remote_addr then
            match real_remote_ip req with
            | Some real_ip => " real_remote_ip=" +:+ ip_display real_ip
            | None => ""
            end
          else "").
  split.
  - unfold line, pre_process, remote_addrs, peer, concat_str. cbn [foldr].
    destruct (health opts && _), (log_remote_address opts), remote_addr, (trusts_forwarded _ _),
      (real_remote_ip req); cbn [ev_text tracing]; by rewrite ?append_nil_r.
  - setoid_rewrite forwarded_spec. destruct (trusts_forwarded opts remote_addr); [|naive_solver].
    destruct (real_remote_ip req) as [ip|] eqn:Hip; [|naive_solver]. right. exists ip. split_and!; [done..|].
    apply real_remote_ip_spec in Hip as (? & ? & ? & ? & ? & ? & ? & ?). by eapply ip_parse_normal.
Qed.

End LogAddr.
