(* ===== verification/UnitTests.v ===== *)
(** * The unit tests of the crate, run on the model

    The [mod tests] of the source files, translated test by test.  A test is a
    computation: [assert!] and [unwrap] panic, so a test passes when it returns
    [Ok ()].  The tests call the functions of the model where the Rust tests call
    those of the crate.  What they need to know of other crates (that ["/health"]
    parses as a path, that a regular expression matches a text, that a password
    fits a hash) is the class [TestAnswers]; every test passes
    for every implementation of the crates that answers so. *)

From S2P Require Import Prelude RustStr Logger RustPath Fs FsStream ContentCoding Http.
From S2P Require Import HttpInstances Opts Settings FsPath F32 QualityValue ErrorPage.
From S2P Require Import Cors ControlHeaders Health Metrics MaintenanceMode FallbackPage.
From S2P Require Import BasicAuth Redirects Rewrites Tls DirectoryListing.

Open Scope sws_scope.

(** ** The test harness *)

Definition Test : Type := Result unit Error.

(** [assert!] *)
Definition assert (b : bool) : Test := if b then Ok () else Panic.

(** [assert_eq!] and [assert_ne!] *)
Definition assert_eq {A : Type} `{EqDecision A} (x y : A) : Test := assert (bool_decide (x = y)).
Definition assert_ne {A : Type} `{EqDecision A} (x y : A) : Test := assert (negb (bool_decide (x = y))).

Definition is_none {A : Type} (o : option A) : bool := match o with Some _ => false | None => true end.
Definition is_some {A : Type} (o : option A) : bool := match o with Some _ => true | None => false end.
Definition is_err {A E : Type} (r : Result A E) : bool := match r with Err _ => true | _ => false end.

#[global] Instance Authority_eq_dec : EqDecision Authority.
Proof. solve_decision. Defined.

#[global] Instance PathAndQuery_eq_dec : EqDecision PathAndQuery.
Proof. solve_decision. Defined.

#[global] Instance Uri_eq_dec : EqDecision Uri.
Proof. solve_decision. Defined.

Section Tests.
Context `{!HttpC, !HeadersC, !MatchC, !PercentC, !OriginC, !BcryptC, !ConfigC, Htls : !TlsC}.
Context (fs : FileSystem).

(** [Request::builder().method(..).uri(..).header(..).body(..).unwrap()], with at most
    one header. *)
Definition build_request (method uri : string) (header : option (string * string))
    : Result Request Error :=
  let? m := unwrap (method_from_bytes method) in
  let? u := unwrap (uri_parse uri) in
  let? h := match header with
            | Some (name, value) =>
                let? n := unwrap (header_name_from_bytes name) in
                let? v := unwrap (hv_from_str value) in
                Ok (hm_insert n v hm_new)
            | None => Ok hm_new
            end in
  Ok {| req_method := m; req_uri := u; req_headers := h |}.

(** A header that is set unless its value is empty. *)
Definition unless_empty (name value : string) : option (string * string) :=
  if is_empty value then None else Some (name, value).

(** ** [health.rs] and [metrics.rs] *)

Definition health_make_request (method uri : string) : Result Request Error :=
  build_request method uri None.

Definition health_test_health_disabled : Test :=
  let? req := health_make_request "GET" "/health" in
  assert (is_none (Health.pre_process (set_health false opts_default) req)).

Definition health_test_wrong_uri : Test :=
  let? req := health_make_request "GET" "/health2" in
  assert (is_none (Health.pre_process (set_health true opts_default) req)).

Definition health_test_wrong_method : Test :=
  let? req := health_make_request "POST" "/health" in
  assert (is_none (Health.pre_process (set_health true opts_default) req)).

Definition health_test_correct_request : Test :=
  let? req := health_make_request "GET" "/health" in
  assert (is_some (Health.pre_process (set_health true opts_default) req)).

Definition metrics_make_request (method uri : string) : Result Request Error :=
  build_request method uri None.

Definition metrics_test_metrics_disabled (gathered : option string) : Test :=
  let? req := metrics_make_request "GET" "/metrics" in
  assert (is_none (Metrics.pre_process gathered (set_experimental_metrics false opts_default) req)).

Definition metrics_test_wrong_uri (gathered : option string) : Test :=
  let? req := metrics_make_request "GET" "/metrics2" in
  assert (is_none (Metrics.pre_process gathered (set_experimental_metrics true opts_default) req)).

Definition metrics_test_wrong_method (gathered : option string) : Test :=
  let? req := metrics_make_request "POST" "/metrics" in
  assert (is_none (Metrics.pre_process gathered (set_experimental_metrics true opts_default) req)).

Definition metrics_test_correct_request (gathered : option string) : Test :=
  let? req := metrics_make_request "GET" "/metrics" in
  assert (is_some (Metrics.pre_process gathered (set_experimental_metrics true opts_default) req)).

(** ** [maintenance_mode.rs] *)

Definition maintenance_make_request : Result Request Error := build_request "GET" "/" None.

Definition get_status (result : option (Result Response Error)) : option StatusCode :=
  match result with
  | Some (Ok response) => Some (resp_status response)
  | _ => None
  end.

Definition maintenance_test_disabled : Test :=
  let? req := maintenance_make_request in
  assert (is_none (MaintenanceMode.pre_process fs (set_maintenance_mode false opts_default) req)).

Definition maintenance_test_default : Test :=
  let? req := maintenance_make_request in
  assert_eq (get_status (MaintenanceMode.pre_process fs (set_maintenance_mode true opts_default) req))
            (Some SC_SERVICE_UNAVAILABLE).

Definition SC_IM_A_TEAPOT : StatusCode := 418.

Definition maintenance_test_custom_status : Test :=
  let? req := maintenance_make_request in
  let opts := set_maintenance_mode true (set_maintenance_mode_status SC_IM_A_TEAPOT opts_default) in
  assert_eq (get_status (MaintenanceMode.pre_process fs opts req)) (Some SC_IM_A_TEAPOT).

(** ** [fallback_page.rs] *)

Definition fallback_make_request (method : string) : Result Request Error :=
  build_request method "/" None.

Definition fallback_make_response (status : StatusCode) : Result Response Error :=
  let? uri := unwrap (uri_parse "/") in
  match error_response fs uri GET status "" "" with
  | Ok resp => Ok resp
  | _ => Panic
  end.

(** [vec![1, 2, 3]] *)
Definition PAGE : string := String "001" (String "002" (String "003" "")).

(** [resp.headers().get("Content-Length").map(|v| v.to_str().unwrap()).unwrap_or("3")] *)
Definition content_length_or_3 (resp : Response) : Result string Error :=
  match get_header resp H_CONTENT_LENGTH with
  | Some v => unwrap (hv_to_str v)
  | None => Ok "3"
  end.

Definition fallback_test_success_code : Test :=
  let opts := set_page_fallback PAGE opts_default in
  let? req := fallback_make_request "GET" in
  let? resp := fallback_make_response SC_OK in
  let? resp := FallbackPage.post_process opts req resp in
  let? _ := assert_eq (resp_status resp) SC_OK in
  let? len := content_length_or_3 resp in
  assert_ne len "3".

Definition fallback_test_wrong_error : Test :=
  let opts := set_page_fallback PAGE opts_default in
  let? req := fallback_make_request "GET" in
  let? resp := fallback_make_response SC_INTERNAL_SERVER_ERROR in
  let? resp := FallbackPage.post_process opts req resp in
  let? _ := assert_eq (resp_status resp) SC_INTERNAL_SERVER_ERROR in
  let? len := content_length_or_3 resp in
  assert_ne len "3".

Definition fallback_test_wrong_method : Test :=
  let opts := set_page_fallback PAGE opts_default in
  let? req := fallback_make_request "POST" in
  let? resp := fallback_make_response SC_NOT_FOUND in
  let? resp := FallbackPage.post_process opts req resp in
  let? _ := assert_eq (resp_status resp) SC_NOT_FOUND in
  let? len := content_length_or_3 resp in
  assert_ne len "3".

Definition fallback_test_unconfigured : Test :=
  let opts := set_page_fallback "" opts_default in
  let? req := fallback_make_request "GET" in
  let? resp := fallback_make_response SC_NOT_FOUND in
  let? resp := FallbackPage.post_process opts req resp in
  assert_eq (resp_status resp) SC_NOT_FOUND.

Definition fallback_test_fallback : Test :=
  let opts := set_page_fallback PAGE opts_default in
  let? req := fallback_make_request "GET" in
  let? resp := fallback_make_response SC_NOT_FOUND in
  let? resp := FallbackPage.post_process opts req resp in
  let? _ := assert_eq (resp_status resp) SC_OK in
  let? len := content_length_or_3 resp in
  assert_eq len "3".

(** ** [basic_auth.rs] *)

Definition auth_make_request (method auth_header : string) : Result Request Error :=
  build_request method "/" (unless_empty "Authorization" auth_header).

Definition is_401 (result : option (Result Response Error)) : bool :=
  match result with
  | Some (Ok response) =>
      (resp_status response =? SC_UNAUTHORIZED)%Z && is_some (get_header response H_WWW_AUTHENTICATE)
  | _ => false
  end.

Definition is_500 (result : option (Result Response Error)) : bool :=
  match result with
  | Some (Ok response) => (resp_status response =? SC_INTERNAL_SERVER_ERROR)%Z
  | _ => false
  end.

Definition JQ_HASH : string := "$2y$05$32zazJ1yzhlDHnt26L3MFOgY0HVqPmDUvG0KUx6cjf9RDiUGp/M9q".

(** [headers.insert("Authorization", value.parse().unwrap())] on an empty map *)
Definition auth_headers (value : string) : Result HeaderMap Error :=
  let? v := unwrap (hv_from_str value) in
  Ok (hm_insert H_AUTHORIZATION v hm_new).

(** [assert!(is_401(pre_process(opts with the credentials, make_request("GET", header))))] *)
Definition assert_401 (credentials header : string) : Test :=
  let? req := auth_make_request "GET" header in
  assert (is_401 (BasicAuth.pre_process fs (set_basic_auth credentials opts_default) req)).

Definition auth_test_auth_disabled : Test :=
  let? req := auth_make_request "GET" "Basic anE6anE=" in
  assert (is_none (BasicAuth.pre_process fs (set_basic_auth "" opts_default) req)).

Definition auth_test_invalid_auth_configuration : Test :=
  let? req := auth_make_request "GET" "Basic anE6anE=" in
  assert (is_500 (BasicAuth.pre_process fs (set_basic_auth "xyz" opts_default) req)).

Definition auth_test_options_request : Test :=
  let? req := auth_make_request "OPTIONS" "" in
  assert (is_none (BasicAuth.pre_process fs (set_basic_auth ("jq:" +:+ JQ_HASH) opts_default) req)).

Definition auth_test_valid_auth : Test :=
  let? headers := auth_headers "Basic anE6anE=" in
  let? _ := assert (is_ok (BasicAuth.check_request headers "jq" JQ_HASH)) in
  let? req := auth_make_request "GET" "Basic anE6anE=" in
  assert (is_none (BasicAuth.pre_process fs (set_basic_auth ("jq:" +:+ JQ_HASH) opts_default) req)).

Definition auth_test_invalid_auth_header : Test :=
  let? _ := assert (is_err (BasicAuth.check_request hm_new "jq" "")) in
  assert_401 "jq:" "".

Definition auth_test_invalid_auth_pairs : Test :=
  let? headers := auth_headers "Basic anE6anE=" in
  let? _ := assert (is_err (BasicAuth.check_request headers "xyz" "")) in
  assert_401 "xyz:" "Basic anE6anE=".

Definition auth_test_invalid_auth : Test :=
  let? headers := auth_headers "Basic anE6anE=" in
  let? _ := assert (is_err (BasicAuth.check_request headers "abc" JQ_HASH)) in
  let? _ := assert (is_err (BasicAuth.check_request headers "jq" "password")) in
  let? _ := assert (is_err (BasicAuth.check_request headers "" "password")) in
  let? _ := assert (is_err (BasicAuth.check_request headers "jq" "")) in
  let? _ := assert_401 ("abc:" +:+ JQ_HASH) "Basic anE6anE=" in
  let? _ := assert_401 "jq:password" "Basic anE6anE=" in
  let? _ := assert_401 ":password" "Basic anE6anE=" in
  assert_401 "jq:" "Basic anE6anE=".

Definition auth_test_invalid_auth_encoding : Test :=
  let? headers := auth_headers "Basic xyz" in
  let? _ := assert (is_err (BasicAuth.check_request headers "jq" JQ_HASH)) in
  assert_401 ("jq:" +:+ JQ_HASH) "Basic xyz".

Definition auth_test_invalid_auth_encoding2 : Test :=
  let? headers := auth_headers "abcd" in
  let? _ := assert (is_err (BasicAuth.check_request headers "jq" JQ_HASH)) in
  assert_401 ("jq:" +:+ JQ_HASH) "abcd".

(** ** [control_headers.rs] *)

(** One round of the tests: the header that [append_headers] sets; the response is
    returned, as the tests reuse it. *)
Definition check_max_age (uri : string) (age : Z) (resp : Response) : Result Response Error :=
  let? resp := append_headers uri resp in
  let? cache_control := unwrap (get_header resp H_CACHE_CONTROL) in
  let? _ := assert_eq (resp_status resp) SC_OK in
  let? text := unwrap (hv_to_str cache_control) in
  let? _ := assert_eq text (concat_str ["public, max-age="; dec age]) in
  Ok resp.

Fixpoint check_max_ages (exts : list string) (age : Z) (resp : Response) : Test :=
  match exts with
  | [] => Ok ()
  | ext :: exts' =>
      let? resp := check_max_age (concat_str ["/some."; ext]) age resp in
      check_max_ages exts' age resp
  end.

(** [Response::new(Body::empty())] with the status set *)
Definition ok_response : Response := set_status SC_OK (response_new BodyEmpty).

Definition control_headers_one_hour : Test :=
  check_max_ages CACHE_EXT_ONE_HOUR MAX_AGE_ONE_HOUR ok_response.

Definition control_headers_one_day_default : Test :=
  let? _ := check_max_age "/" MAX_AGE_ONE_DAY ok_response in Ok ().

Definition control_headers_one_year : Test :=
  check_max_ages CACHE_EXT_ONE_YEAR MAX_AGE_ONE_YEAR ok_response.

Definition control_find_uri_extension : Test :=
  let? _ := assert_eq (get_file_extension "/potato.zip") (Some "zip") in
  let? _ := assert_eq (get_file_extension "/potato.") (Some "") in
  assert_eq (get_file_extension "/") None.

(** ** [headers_ext] *)

(** [values.next()] until [None]: the iterator yields exactly these items. *)
Definition yields {A : Type} `{EqDecision A} (values expected : list A) : Test :=
  assert_eq values expected.

Definition quality_multiple_qualities : Test :=
  yields (quality_iter "gzip;q=1, br;q=0.8") ["gzip"; "br"].

Definition quality_multiple_qualities_wrong_order : Test :=
  yields (quality_iter "br;q=0.8, gzip;q=1.0") ["gzip"; "br"].

Definition quality_multiple_values : Test :=
  yields (quality_iter "deflate, gzip;q=1, br;q=0.8") ["deflate"; "gzip"; "br"].

Definition quality_multiple_values_whitespace : Test :=
  yields (quality_iter "deflate  ;q=0.9, br;   q=0.001 ,gzip  ;  q=0.8") ["deflate"; "gzip"; "br"].

Definition quality_multiple_values_wrong_order : Test :=
  yields (quality_iter "deflate, br;q=0.8, gzip;q=1, *;q=0.1") ["deflate"; "gzip"; "br"; "*"].

Definition accept_encoding_from_static : Test :=
  yields (sorted_encodings "deflate, zstd;q=0.7, gzip;q=1.0, br;q=0.9") [DEFLATE; GZIP; BROTLI; ZSTD].

Definition coding_as_str : Test := assert_eq (as_str GZIP) "gzip".

Definition coding_to_string : Test := assert_eq (coding_display DEFLATE) "deflate".

Definition coding_test_from : Test :=
  let? _ := assert_eq (coding_from "br") BROTLI in
  let? _ := assert_eq (coding_from "GZIP") GZIP in
  let? _ := assert_eq (coding_from "zstd") ZSTD in
  assert_eq (coding_from "blah blah") IDENTITY.

Definition coding_test_from_str : Test :=
  let? _ := assert_eq (from_str "br") (Some BROTLI) in
  let? _ := assert_eq (from_str "zstd") (Some ZSTD) in
  assert_eq (from_str "blah blah") None.

(** ** [cors.rs] *)

Definition cors_make_request (method origin : string) : Result Request Error :=
  build_request method "/" (unless_empty "Origin" origin).

(** [Response::builder().body(Body::empty()).unwrap()] *)
Definition cors_make_response : Response := response_new BodyEmpty.

Definition make_cors_config : Result Configured Error :=
  let? c := allow_origins ["https://example.com/"] cors_new in
  let? c := allow_headers ["X-Allowed"] c in
  let? c := allow_methods ["GET"; "HEAD"] c in
  Ok (Cors.build c).

Definition get_allowed_origin (resp : Response) : option string :=
  get_header resp H_AC_ALLOW_ORIGIN ≫= hv_to_str.

Definition is_403 (result : option (Result Response Error)) : bool :=
  match result with
  | Some (Ok response) => (resp_status response =? SC_FORBIDDEN)%Z
  | _ => false
  end.

(** [req.headers_mut().insert(name, value.try_into().unwrap())] *)
Definition insert_header (name value : string) (req : Request) : Result Request Error :=
  let? v := unwrap (hv_from_str value) in
  Ok {| req_method := req_method req; req_uri := req_uri req;
        req_headers := hm_insert name v (req_headers req) |}.

Definition cors_test_cors_disabled : Test :=
  let opts := set_opt_cors None opts_default in
  let? req := cors_make_request "GET" "https://example.com/" in
  let? _ := assert (is_none (Cors.pre_process fs opts req)) in
  let? resp := Cors.post_process opts req cors_make_response in
  assert_eq (get_allowed_origin resp) None.

Definition cors_test_non_cors_request : Test :=
  let? config := make_cors_config in
  let opts := set_opt_cors (Some config) opts_default in
  let? req := cors_make_request "GET" "" in
  let? _ := assert (is_none (Cors.pre_process fs opts req)) in
  let? resp := Cors.post_process opts req cors_make_response in
  assert_eq (get_allowed_origin resp) None.

Definition cors_test_forbidden_request : Test :=
  let? config := make_cors_config in
  let opts := set_opt_cors (Some config) opts_default in
  let? req := cors_make_request "GET" "https://example.info" in
  let? _ := assert (is_403 (Cors.pre_process fs opts req)) in
  let? req := cors_make_request "OPTIONS" "https://example.com" in
  let? _ := assert (is_403 (Cors.pre_process fs opts req)) in
  let? req := cors_make_request "OPTIONS" "https://example.com" in
  let? req := insert_header H_AC_REQUEST_METHOD "POST" req in
  let? _ := assert (is_403 (Cors.pre_process fs opts req)) in
  let? req := cors_make_request "OPTIONS" "https://example.com" in
  let? req := insert_header H_AC_REQUEST_METHOD "GET" req in
  let? req := insert_header H_AC_REQUEST_HEADERS "X-Forbidden" req in
  assert (is_403 (Cors.pre_process fs opts req)).

Definition cors_test_allowed_request : Test :=
  let? config := make_cors_config in
  let opts := set_opt_cors (Some config) opts_default in
  let? req := cors_make_request "GET" "https://example.com" in
  let? _ := assert (is_none (Cors.pre_process fs opts req)) in
  let? resp := Cors.post_process opts req cors_make_response in
  let? _ := assert_eq (get_allowed_origin resp) (Some "https://example.com") in
  let? req := cors_make_request "GET" "https://example.com" in
  let? req := insert_header H_AC_REQUEST_METHOD "GET" req in
  let? req := insert_header H_AC_REQUEST_HEADERS "X-Allowed" req in
  let? _ := assert (is_none (Cors.pre_process fs opts req)) in
  let? resp := Cors.post_process opts req cors_make_response in
  assert_eq (get_allowed_origin resp) (Some "https://example.com").

(** ** [fs/path.rs] *)

(** [assert_eq!(sanitize_path(base, tail).unwrap(), root_dir().join(name))]: paths are
    compared by their components. *)
Definition path_root_dir : string := "docker/public/".

Definition assert_sanitized (base tail name : string) : Test :=
  match sanitize_path base tail with
  | Ok p => assert_eq (components p) (components (path_join path_root_dir name))
  | _ => Panic
  end.

Definition path_test_sanitize_path : Test :=
  let base_dir := "docker/public" in
  let? _ := assert_sanitized base_dir "/index.html" "index.html" in
  let? _ := assert_sanitized base_dir "/../foo.html" "foo.html" in
  let? _ := assert_sanitized base_dir "/../W�foo.html" "W�foo.html" in
  let? _ := assert_sanitized base_dir "/%EF%BF%BD/../bar.html" "�/bar.html" in
  let? _ := assert_sanitized base_dir "àí/é%20/öüñ" "àí/é /öüñ" in
  assert_sanitized base_dir "/C:\/foo.html" "C:\/foo.html".

(** ** [directory_listing.rs] *)

Definition listing_handle_byte : Test := assert_eq "128 B" (format_file_size 128).
Definition listing_handle_kibibyte : Test := assert_eq "1.00 KiB" (format_file_size 1024).
Definition listing_handle_mebibyte : Test := assert_eq "1.00 MiB" (format_file_size 1048576).
Definition listing_handle_gibibyte : Test := assert_eq "1.00 GiB" (format_file_size 1073741824).
Definition listing_handle_tebibyte : Test := assert_eq "1.00 TiB" (format_file_size 1099511627776).
Definition listing_handle_pebibyte : Test := assert_eq "1.00 PiB" (format_file_size 1125899906842624).
Definition listing_handle_large : Test := assert_eq "16384.00 PiB" (format_file_size u64_max).

(** ** [redirects.rs] *)

Definition redirects_make_request (host uri : string) : Result Request Error :=
  build_request "GET" uri (unless_empty "Host" host).

Definition get_redirects : Result (list Redirects) Error :=
  let? s1 := unwrap (regex_new "/source1$") in
  let? s2 := unwrap (regex_new "/source2$") in
  let? s3 := unwrap (regex_new "/(prefix/)?(source3)/(.*)") in
  Ok [{| rd_host := None; rd_source := s1; rd_destination := "/destination1"; rd_kind := SC_FOUND |};
      {| rd_host := Some "example.com"; rd_source := s2; rd_destination := "/destination2";
         rd_kind := SC_MOVED_PERMANENTLY |};
      {| rd_host := Some "example.info"; rd_source := s3; rd_destination := "/destination3/$2/$3";
         rd_kind := SC_MOVED_PERMANENTLY |}].

Definition with_redirects (r : option (list Redirects)) : RequestHandlerOpts :=
  opts_with_advanced {| adv_headers := None; adv_rewrites := None; adv_redirects := r;
                        adv_virtual_hosts := None; adv_memory_cache := None |}.

(** The status and the location; a location that is not text panics. *)
Definition is_redirect (result : option (Result Response Error))
    : Result (option (StatusCode * string)) Error :=
  match result with
  | Some (Ok response) =>
      match get_header response H_LOCATION with
      | Some v => let? location := unwrap (hv_to_str v) in Ok (Some (resp_status response, location))
      | None => Ok None
      end
  | _ => Ok None
  end.

Definition redirects_test_no_redirects : Test :=
  let? req := redirects_make_request "" "/" in
  let? _ := assert (is_none (Redirects.pre_process fs (set_advanced_opts None opts_default) req)) in
  let? req := redirects_make_request "" "/" in
  assert (is_none (Redirects.pre_process fs (with_redirects None) req)).

Definition redirects_test_no_match : Test :=
  let? redirects := get_redirects in
  let? req := redirects_make_request "example.com" "/source2/whatever" in
  let? _ := assert (is_none (Redirects.pre_process fs (with_redirects (Some redirects)) req)) in
  let? req := redirects_make_request "" "/source2" in
  assert (is_none (Redirects.pre_process fs (with_redirects (Some redirects)) req)).

Definition redirects_test_match : Test :=
  let? redirects := get_redirects in
  let opts := with_redirects (Some redirects) in
  let? req := redirects_make_request "" "/source1" in
  let? got := is_redirect (Redirects.pre_process fs opts req) in
  let? _ := assert_eq got (Some (SC_FOUND, "/destination1")) in
  let? req := redirects_make_request "example.com" "/source2" in
  let? got := is_redirect (Redirects.pre_process fs opts req) in
  let? _ := assert_eq got (Some (SC_MOVED_PERMANENTLY, "/destination2")) in
  let? req := redirects_make_request "example.info" "/source3/whatever" in
  let? got := is_redirect (Redirects.pre_process fs opts req) in
  assert_eq got (Some (SC_MOVED_PERMANENTLY, "/destination3/source3/whatever")).

(** ** [rewrites.rs] *)

Definition rewrites_make_request (host uri : string) : Result Request Error :=
  build_request "GET" uri (unless_empty "Host" host).

Definition get_rewrites : Result (list Rewrites) Error :=
  let? s1 := unwrap (regex_new "/source1$") in
  let? s2 := unwrap (regex_new "/source2$") in
  let? s3 := unwrap (regex_new "/(prefix/)?(source3)/(.*)") in
  let? s4 := unwrap (regex_new "/(source4)/(.*)") in
  Ok [{| rw_source := s1; rw_destination := "/destination1"; rw_redirect := None |};
      {| rw_source := s2; rw_destination := "/destination2"; rw_redirect := Some Temporary |};
      {| rw_source := s3; rw_destination := "/destination3/$2/$3"; rw_redirect := Some Permanent |};
      {| rw_source := s4; rw_destination := "http://example.net:1234/destination4/$1?$2";
         rw_redirect := None |}].

Definition with_rewrites (r : option (list Rewrites)) : RequestHandlerOpts :=
  opts_with_advanced {| adv_headers := None; adv_rewrites := r; adv_redirects := None;
                        adv_virtual_hosts := None; adv_memory_cache := None |}.

(** [assert_eq!(req.uri(), text)]: the URI is the one the text denotes. *)
Definition assert_uri (req : Request) (text : string) : Test :=
  assert_eq (uri_parse text) (Some (req_uri req)).

Definition rewrites_test_no_rewrites : Test :=
  let? req := rewrites_make_request "" "/" in
  let (answer, req) := Rewrites.pre_process fs (set_advanced_opts None opts_default) req in
  let? _ := assert (is_none answer) in
  let? _ := assert_uri req "/" in
  let? req := rewrites_make_request "" "/" in
  let (answer, req) := Rewrites.pre_process fs (with_rewrites None) req in
  let? _ := assert (is_none answer) in
  assert_uri req "/".

Definition rewrites_test_no_match : Test :=
  let? rewrites := get_rewrites in
  let? req := rewrites_make_request "example.com" "/source2/whatever" in
  let (answer, req) := Rewrites.pre_process fs (with_rewrites (Some rewrites)) req in
  let? _ := assert (is_none answer) in
  assert_uri req "/source2/whatever".

Definition rewrites_test_match : Test :=
  let? rewrites := get_rewrites in
  let opts := with_rewrites (Some rewrites) in
  let? req := rewrites_make_request "" "/source1?query" in
  let (answer, req) := Rewrites.pre_process fs opts req in
  let? _ := assert (is_none answer) in
  let? _ := assert_uri req "/destination1?query" in
  let? req := rewrites_make_request "" "/source2" in
  let (answer, _) := Rewrites.pre_process fs opts req in
  let? got := is_redirect answer in
  let? _ := assert_eq got (Some (SC_FOUND, "/destination2")) in
  let? req := rewrites_make_request "" "/source3/whatever" in
  let (answer, _) := Rewrites.pre_process fs opts req in
  let? got := is_redirect answer in
  let? _ := assert_eq got (Some (SC_MOVED_PERMANENTLY, "/destination3/source3/whatever")) in
  let? req := rewrites_make_request "example.com" "/source4/whatever?query" in
  let (answer, req) := Rewrites.pre_process fs opts req in
  let? _ := assert (is_none answer) in
  let? _ := assert_uri req "http://example.net:1234/destination4/source4?whatever" in
  let? host := match hm_get (req_headers req) H_HOST with
               | Some h => unwrap (hv_to_str h)
               | None => Ok ""
               end in
  assert_eq host "example.net:1234".

(** ** [tls.rs] *)

(** [include_str!] is the content of a file of the repository; [fuel] bounds the
    reads of a file. *)
Section TlsTests.
Context (include_str : string → string) (bufs : nat → nat * nat) (fuel : nat).

(** [.build().unwrap()] *)
Definition build_unwrap (b : TlsConfigBuilder) : Test :=
  match Tls.build fs bufs fuel b with
  | Some (Ok _) => Ok ()
  | _ => Panic
  end.

Definition tls_file_cert_key_rsa_pkcs1 : Test :=
  build_unwrap (key_path "tests/tls/local.dev_key.rsa_pkcs1.pem"
                  (cert_path "tests/tls/local.dev_cert.rsa_pkcs1.pem" builder_new)).

Definition tls_bytes_cert_key_rsa_pkcs1 : Test :=
  let cert := include_str "tests/tls/local.dev_cert.rsa_pkcs1.pem" in
  let key := include_str "tests/tls/local.dev_key.rsa_pkcs1.pem" in
  build_unwrap (cert_bytes cert (key_bytes key builder_new)).

Definition tls_file_cert_key_pkcs8 : Test :=
  build_unwrap (key_path "tests/tls/local.dev_key.pkcs8.pem"
                  (cert_path "tests/tls/local.dev_cert.pkcs8.pem" builder_new)).

Definition tls_bytes_cert_key_pkcs8 : Test :=
  let cert := include_str "tests/tls/local.dev_cert.pkcs8.pem" in
  let key := include_str "tests/tls/local.dev_key.pkcs8.pem" in
  build_unwrap (cert_bytes cert (key_bytes key builder_new)).

Definition tls_file_cert_key_sec1_ec : Test :=
  build_unwrap (key_path "tests/tls/local.dev_key.sec1_ec.pem"
                  (cert_path "tests/tls/local.dev_cert.sec1_ec.pem" builder_new)).

Definition tls_bytes_cert_key_sec1_ec : Test :=
  let cert := include_str "tests/tls/local.dev_cert.sec1_ec.pem" in
  let key := include_str "tests/tls/local.dev_key.sec1_ec.pem" in
  build_unwrap (cert_bytes cert (key_bytes key builder_new)).

End TlsTests.

(** ** All of them *)

Definition health_tests : list Test :=
  [health_test_health_disabled; health_test_wrong_uri; health_test_wrong_method;
   health_test_correct_request].

Definition metrics_tests (gathered : option string) : list Test :=
  [metrics_test_metrics_disabled gathered; metrics_test_wrong_uri gathered; metrics_test_wrong_method
   gathered; metrics_test_correct_request gathered].

Definition maintenance_tests : list Test :=
  [maintenance_test_disabled; maintenance_test_default; maintenance_test_custom_status].

Definition fallback_tests : list Test :=
  [fallback_test_success_code; fallback_test_wrong_error; fallback_test_wrong_method;
   fallback_test_unconfigured; fallback_test_fallback].

Definition auth_tests : list Test :=
  [auth_test_auth_disabled; auth_test_invalid_auth_configuration; auth_test_options_request;
   auth_test_valid_auth; auth_test_invalid_auth_header; auth_test_invalid_auth_pairs;
   auth_test_invalid_auth; auth_test_invalid_auth_encoding; auth_test_invalid_auth_encoding2].

Definition control_tests : list Test :=
  [control_headers_one_hour; control_headers_one_day_default; control_headers_one_year;
   control_find_uri_extension].

Definition headers_ext_tests : list Test :=
  [quality_multiple_qualities; quality_multiple_qualities_wrong_order; quality_multiple_values;
   quality_multiple_values_whitespace; quality_multiple_values_wrong_order;
   accept_encoding_from_static; coding_as_str; coding_to_string; coding_test_from; coding_test_from_str].

Definition cors_tests : list Test :=
  [cors_test_cors_disabled; cors_test_non_cors_request; cors_test_forbidden_request;
   cors_test_allowed_request].

Definition path_tests : list Test :=
  [path_test_sanitize_path].

Definition listing_tests : list Test :=
  [listing_handle_byte; listing_handle_kibibyte; listing_handle_mebibyte; listing_handle_gibibyte;
   listing_handle_tebibyte; listing_handle_pebibyte; listing_handle_large].

Definition redirects_tests : list Test :=
  [redirects_test_no_redirects; redirects_test_no_match; redirects_test_match].

Definition rewrites_tests : list Test :=
  [rewrites_test_no_rewrites; rewrites_test_no_match; rewrites_test_match].

Definition tls_tests (include_str : string → string) (bufs : nat → nat * nat) (fuel : nat) : list Test :=
  [tls_file_cert_key_rsa_pkcs1 bufs fuel; tls_bytes_cert_key_rsa_pkcs1 include_str bufs fuel;
   tls_file_cert_key_pkcs8 bufs fuel; tls_bytes_cert_key_pkcs8 include_str bufs fuel;
   tls_file_cert_key_sec1_ec bufs fuel; tls_bytes_cert_key_sec1_ec include_str bufs fuel].

Definition unit_tests (gathered : option string) (include_str : string → string) (bufs : nat → nat * nat)
    (fuel : nat) : list Test :=
  health_tests ++ metrics_tests gathered ++ maintenance_tests ++ fallback_tests ++ auth_tests
  ++ control_tests ++ headers_ext_tests ++ cors_tests ++ path_tests ++ listing_tests
  ++ redirects_tests ++ rewrites_tests ++ tls_tests include_str bufs fuel.

End Tests.
