(* ===== verification/TestsPass.v ===== *)
(** * The unit tests pass

    The answers that the tests need of other crates, each on the tests' own inputs
    ([TestAnswers]: a table of regular expressions, replacements, decodings and
    hashes, and the certificates of the repository), and that every test of
    [UnitTests] passes with them.  This validates the model against the authors'
    expectations; it says nothing about other inputs. *)

From S2P Require Import Prelude RustStr Logger RustPath Fs FsStream ContentCoding Http.
From S2P Require Import HttpInstances Opts Settings FsPath F32 QualityValue ErrorPage.
From S2P Require Import Cors ControlHeaders Health Metrics MaintenanceMode FallbackPage.
From S2P Require Import BasicAuth Redirects Rewrites Tls DirectoryListing UnitTests.

Open Scope sws_scope.

(** ** The facts *)

(** Bytes of a header name, and of a path without an escape or a query. *)
Definition name_byte (a : ascii) : bool := byte_in 65 90 a || byte_in 97 122 a || ascii_eqb a "-"%char.

Definition path_byte (a : ascii) : bool :=
  byte_in 97 122 a || byte_in 48 57 a || ascii_eqb a "/"%char.

(** A URI in origin form: a path and a query. *)
Definition origin_form (path : string) (query : option string) : Uri :=
  {| uri_scheme := None; uri_authority := None;
     uri_path_and_query := Some {| pq_path := path; pq_query := query |} |}.

Definition EXAMPLE_NET : string := "http://example.net:1234/destination4/source4?whatever".

Definition example_net : Uri :=
  {| uri_scheme := Some "http";
     uri_authority := Some {| auth_host := "example.net"; auth_port := Some 1234%Z |};
     uri_path_and_query := Some {| pq_path := "/destination4/source4"; pq_query := Some "whatever" |} |}.

(** The captures of a regular expression on a text. *)
Definition regex_table : list (string * string * option (list (option string))) :=
  [("/source1$", "/source1", Some [Some "/source1"]);
   ("/source1$", "/source2", None);
   ("/source1$", "/source2/whatever", None);
   ("/source1$", "/source3/whatever", None);
   ("/source1$", "/source4/whatever", None);
   ("/source2$", "/source2", Some [Some "/source2"]);
   ("/source2$", "/source2/whatever", None);
   ("/source2$", "/source3/whatever", None);
   ("/source2$", "/source4/whatever", None);
   ("/(prefix/)?(source3)/(.*)", "/source2/whatever", None);
   ("/(prefix/)?(source3)/(.*)", "/source4/whatever", None);
   ("/(prefix/)?(source3)/(.*)", "/source3/whatever",
    Some [Some "/source3/whatever"; None; Some "source3"; Some "whatever"]);
   ("/(source4)/(.*)", "/source2/whatever", None);
   ("/(source4)/(.*)", "/source4/whatever",
    Some [Some "/source4/whatever"; Some "source4"; Some "whatever"])].

(** Patterns, text, replacements and the text with every pattern replaced. *)
Definition replace_table : list (list string * string * list string * string) :=
  [(["$0"], "/destination1", ["/source1"], "/destination1");
   (["$0"], "/destination2", ["/source2"], "/destination2");
   (["$0"; "$1"; "$2"; "$3"], "/destination3/$2/$3", ["/source3/whatever"; ""; "source3"; "whatever"],
    "/destination3/source3/whatever");
   (["$0"; "$1"; "$2"], "http://example.net:1234/destination4/$1?$2",
    ["/source4/whatever"; "source4"; "whatever"], EXAMPLE_NET)].

Definition percent_table : list (string * string) :=
  [("index.html", "index.html"); ("../foo.html", "../foo.html"); ("../W�foo.html", "../W�foo.html");
   ("%EF%BF%BD/../bar.html", "�/../bar.html"); ("àí/é%20/öüñ", "àí/é /öüñ"); ("C:\/foo.html", "C:\/foo.html")].

Section Facts.
Context `{!HttpC, !HeadersC, !MatchC, !PercentC, !OriginC, !BcryptC, !ConfigC, Htls : !TlsC}.

(** The files of [tests/tls] hold a certificate and a key that go together. *)
Definition key_pair (fs : FileSystem) (include_str : string → string) (fuel : nat) (cert key : string) : Prop :=
  ∃ f1 f2 certs i k base,
    fs_open fs cert = Ok f1 ∧ of_data f1 = Some (include_str cert)
    ∧ fs_open fs key = Ok f2 ∧ of_data f2 = Some (include_str key)
    ∧ (String.length (include_str cert) < fuel)%nat ∧ (String.length (include_str key) < fuel)%nat
    ∧ pem_certs (include_str cert) = Some certs ∧ sections (include_str key) [i] true
    ∧ item_key i = Some k ∧ with_single_cert certs k = inl base.

(** What the other crates answer on the inputs of the tests. *)
Class TestAnswers (fs : FileSystem) (include_str : string → string) (fuel : nat) : Prop := {
  (** the empty path names no file *)
  doc_no_file : path_is_file fs "" = false;
  doc_fs_total : fs_total fs;
  (** [http]: methods, names in lower case, origin and absolute form, reasons *)
  doc_post : method_from_bytes "POST" = Some POST;
  doc_header_name : ∀ s, is_empty s = false → str_forallb name_byte s = true →
    header_name_from_bytes s = Some (to_ascii_lowercase s);
  doc_uri_path : ∀ p, starts_with "/" p = true → str_forallb path_byte p = true →
    uri_parse p = Some (origin_form p None);
  doc_uri_query : ∀ s p q, split_once "?"%char s = Some (p, q) → starts_with "/" p = true →
    str_forallb path_byte p = true → str_forallb path_byte q = true →
    uri_parse s = Some (origin_form p (Some q))
    ∧ pq_parse s = Some {| pq_path := p; pq_query := Some q |};
  doc_uri_absolute : uri_parse EXAMPLE_NET = Some example_net;
  doc_uri_from_parts : ∀ p q, uri_from_parts (origin_form p q) = Some (origin_form p q);
  doc_uri_from_parts_absolute : uri_from_parts example_net = Some example_net;
  doc_reasons : canonical_reason SC_OK = Some "OK" ∧ canonical_reason SC_NOT_FOUND = Some "Not Found"
    ∧ canonical_reason SC_INTERNAL_SERVER_ERROR = Some "Internal Server Error";
  (** [headers] *)
  doc_content_length : ∀ n, content_length_value n = dec n;
  doc_basic_auth : decode_basic_auth ["Basic anE6anE="] = Some ("jq", "jq")
    ∧ decode_basic_auth ["Basic xyz"] = None ∧ decode_basic_auth ["abcd"] = None;
  doc_origin : origin_from_parts "https" "example.com/" = Some "https://example.com";
  (** [bcrypt]: the hash of the tests; what is not a hash is an error *)
  doc_bcrypt : bcrypt_verify "jq" JQ_HASH = Some true
    ∧ bcrypt_verify "jq" "" = None ∧ bcrypt_verify "jq" "password" = None;
  (** [regex], [aho_corasick], [percent_encoding] *)
  doc_regex : Forall (λ '(pattern, text, caps),
    ∃ r, regex_new pattern = Some r ∧ regex_captures r text = caps) regex_table;
  doc_replace : Forall (λ '(patterns, text, reps, result),
    ∃ ac, ac_new patterns = Some ac ∧ ac_try_replace_all ac text reps = Some result) replace_table;
  doc_percent : Forall (λ '(text, decoded), percent_decode_str text = decoded) percent_table;
  (** the files of [tests/tls] *)
  doc_tls : Forall (λ kind, key_pair fs include_str fuel
    (concat_str ["tests/tls/local.dev_cert."; kind; ".pem"]) (concat_str ["tests/tls/local.dev_key."; kind; ".pem"]))
    ["rsa_pkcs1"; "pkcs8"; "sec1_ec"]
}.

End Facts.

(** ** The tests *)

Section Pass.
Context `{!HttpC, !HeadersC, !MatchC, !PercentC, !OriginC, !BcryptC, !ConfigC, Htls : !TlsC}.
Context (fs : FileSystem) (include_str : string → string) (fuel : nat) (bufs : nat → nat * nat).
Context `{Hdoc : !TestAnswers fs include_str fuel}.

Definition passes (t : Test) : Prop := t = Ok ().

(** A request of the tests is built. *)
Lemma build_request_plain method m path :
  method_from_bytes method = Some m → starts_with "/" path = true → str_forallb path_byte path = true →
  build_request method path None
  = Ok {| req_method := m; req_uri := origin_form path None; req_headers := hm_new |}.
Proof. intros Hm Hs Hp. unfold build_request. by rewrite Hm, (doc_uri_path _ Hs Hp). Qed.

Lemma build_request_header method m path name value :
  method_from_bytes method = Some m → starts_with "/" path = true → str_forallb path_byte path = true →
  is_empty name = false → str_forallb name_byte name = true → str_forallb visible_byte value = true →
  build_request method path (Some (name, value))
  = Ok {| req_method := m; req_uri := origin_form path None;
          req_headers := hm_insert (to_ascii_lowercase name) value hm_new |}.
Proof.
  intros Hm Hs Hp Hn Hn' Hv. unfold build_request.
  by rewrite Hm, (doc_uri_path _ Hs Hp), (doc_header_name _ Hn Hn'), (hv_from_str_visible _ Hv).
Qed.

Lemma method_GET : method_from_bytes "GET" = Some GET.
Proof. apply method_from_bytes_supported. Qed.

Lemma method_OPTIONS : method_from_bytes "OPTIONS" = Some OPTIONS.
Proof. apply method_from_bytes_supported. Qed.

(** Build the first request of a test. *)
Ltac request :=
  lazymatch goal with
  | |- context [build_request ?m ?p None] =>
      rewrite (build_request_plain m _ p) by
        (first [exact method_GET | exact method_OPTIONS | exact doc_post | reflexivity])
  | |- context [build_request ?m ?p (Some (?n, ?v))] =>
      rewrite (build_request_header m _ p n v) by
        (first [exact method_GET | exact method_OPTIONS | exact doc_post | reflexivity])
  end; cbn [rbind].

(** Each test of a list, opened. *)
Ltac head_of t := lazymatch t with ?f _ => head_of f | _ => t end.

Ltac each_test :=
  repeat apply Forall_cons_2; [..|apply Forall_nil_2];
  lazymatch goal with |- passes ?t => let h := head_of t in unfold passes, h end.

Lemma health_tests_pass : Forall passes health_tests.
Proof. each_test; unfold health_make_request; request; reflexivity. Qed.

Lemma metrics_tests_pass gathered : Forall passes (metrics_tests gathered).
Proof. each_test; unfold metrics_make_request; request; by destruct gathered. Qed.

Lemma maintenance_tests_pass : Forall passes (maintenance_tests fs).
Proof. each_test; unfold maintenance_make_request; request; reflexivity. Qed.

(** The length of an error page, as the tests of the fallback page make it. *)
Lemma fallback_make_response_ok status reason :
  canonical_reason status = Some reason →
  ∃ resp, fallback_make_response fs status = Ok resp ∧ resp_status resp = status
    ∧ get_header resp H_CONTENT_LENGTH
      = Some (dec (str_len (concat_str
          ["<html><head><title>"; dec status; " "; reason; "</title></head><body><center><h1>"; dec status; " ";
           reason; "</h1></center></body></html>"]))).
Proof.
  intros Hr. unfold fallback_make_response. rewrite (doc_uri_path "/") by done. cbn [unwrap rbind].
  eexists. split; [done|]. split; [done|]. unfold html_page. rewrite !get_header_put.
  cbn. rewrite doc_content_length. unfold page_content, page_file_content, generic_page.
  rewrite doc_no_file, Hr. by repeat case_goal.
Qed.

(** The value of a header that is visible text. *)
Lemma content_length_text resp v :
  get_header resp H_CONTENT_LENGTH = Some v → str_forallb visible_byte v = true →
  content_length_or_3 resp = Ok v.
Proof. intros Hv Ht. unfold content_length_or_3. by rewrite Hv, (hv_to_str_visible _ Ht). Qed.

(** A response of the tests that the step leaves alone: its length is not 3. *)
Lemma fallback_kept opts req resp status v :
  resp_status resp = status → get_header resp H_CONTENT_LENGTH = Some v →
  is_get (req_method req) && (status =? SC_NOT_FOUND)%Z && negb (is_empty (page_fallback opts)) = false →
  str_forallb visible_byte v && negb (str_eqb v "3") = true →
  (let? resp' := FallbackPage.post_process opts req resp in
   let? _ := assert_eq (resp_status resp') status in
   let? len := content_length_or_3 resp' in
   assert_ne len "3") = Ok ().
Proof.
  intros Hst Hv Hc [Ht Hne%negb_true_iff%str_eqb_ne]%andb_true_iff.
  unfold FallbackPage.post_process. rewrite Hst, Hc. cbn [rbind]. unfold assert_eq, assert_ne.
  rewrite bool_decide_eq_true_2 by done. cbn [rbind assert].
  rewrite (content_length_text _ _ Hv Ht). cbn [rbind]. by rewrite bool_decide_eq_false_2.
Qed.

(** A response that the page replaces: its length is that of the page. *)
Lemma fallback_used opts req resp :
  is_get (req_method req) && (resp_status resp =? SC_NOT_FOUND)%Z && negb (is_empty (page_fallback opts)) = true →
  ∃ resp', FallbackPage.post_process opts req resp = Ok resp' ∧ resp_status resp' = SC_OK
    ∧ get_header resp' H_CONTENT_LENGTH = Some (dec (str_len (page_fallback opts))).
Proof.
  intros Hc. unfold FallbackPage.post_process. rewrite Hc. eexists. split; [done|]. split; [done|].
  unfold FallbackPage.fallback_response. rewrite !get_header_put. cbn. by rewrite doc_content_length.
Qed.

Ltac error_page status :=
  let resp := fresh "resp" in
  destruct (fallback_make_response_ok status _ ltac:(apply doc_reasons)) as (resp & -> & Hst & Hlen);
  cbn [rbind].

Lemma fallback_tests_pass : Forall passes (fallback_tests fs).
Proof.
  each_test; unfold fallback_make_request; cbv zeta; request.
  - error_page SC_OK. by apply (fallback_kept _ _ _ _ _ Hst Hlen).
  - error_page SC_INTERNAL_SERVER_ERROR. by apply (fallback_kept _ _ _ _ _ Hst Hlen).
  - error_page SC_NOT_FOUND. by apply (fallback_kept _ _ _ _ _ Hst Hlen).
  - error_page SC_NOT_FOUND. unfold FallbackPage.post_process. rewrite andb_false_r. cbn [rbind].
    by rewrite Hst.
  - error_page SC_NOT_FOUND.
    destruct (fallback_used (set_page_fallback PAGE opts_default)
                {| req_method := GET; req_uri := origin_form "/" None; req_headers := hm_new |} resp)
      as (resp' & -> & Hst' & Hlen'); [by rewrite Hst|].
    cbn [rbind]. rewrite Hst', (content_length_text _ _ Hlen') by done. reflexivity.
Qed.

(** ** Credentials *)

Lemma typed_get_insert {A} (d : list string → option A) k v m : typed_get d k (hm_insert k v m) = d [v].
Proof. unfold typed_get. by rewrite hm_get_all_insert, bool_decide_eq_true_2. Qed.

Lemma auth_headers_ok v : str_forallb visible_byte v = true → auth_headers v = Ok (hm_insert H_AUTHORIZATION v hm_new).
Proof. intros Hv. unfold auth_headers. by rewrite (hv_from_str_visible _ Hv). Qed.

(** What [check_request] answers to the headers of the tests. *)
Lemma check_jq user hash :
  BasicAuth.check_request (hm_insert H_AUTHORIZATION "Basic anE6anE=" hm_new) user hash
  = if negb (str_eqb "jq" user) then Err SC_UNAUTHORIZED
    else if default false (bcrypt_verify "jq" hash) then Ok () else Err SC_UNAUTHORIZED.
Proof.
  unfold BasicAuth.check_request. rewrite typed_get_insert, (proj1 doc_basic_auth). cbn [ok_or rbind fst snd].
  by destruct (negb _), (bcrypt_verify "jq" hash) as [[]|].
Qed.

Lemma check_undecoded v user hash :
  decode_basic_auth [v] = None →
  BasicAuth.check_request (hm_insert H_AUTHORIZATION v hm_new) user hash = Err SC_UNAUTHORIZED.
Proof. intros Hv. unfold BasicAuth.check_request. by rewrite typed_get_insert, Hv. Qed.

Lemma check_missing user hash : BasicAuth.check_request hm_new user hash = Err SC_UNAUTHORIZED.
Proof. unfold BasicAuth.check_request. by rewrite typed_get_new. Qed.

(** A request that [check_request] refuses is answered 401. *)
Lemma refused_401 credentials user hash req e :
  is_empty credentials = false → split_once ":"%char credentials = Some (user, hash) →
  is_options (req_method req) = false →
  BasicAuth.check_request (req_headers req) user hash = Err e →
  is_401 (BasicAuth.pre_process fs (set_basic_auth credentials opts_default) req) = true.
Proof.
  intros He Hs Ho Hc. unfold BasicAuth.pre_process. cbn [basic_auth set_basic_auth].
  rewrite He, Ho, Hs, Hc. unfold error_response. cbn [rbind].
  rewrite (hv_from_str_visible AUTHENTICATE_VALUE) by reflexivity. cbn [unwrap rbind].
  unfold is_401. by rewrite get_header_put, bool_decide_eq_true_2.
Qed.

Lemma assert_401_ok credentials header user hash e :
  (is_empty credentials = false ∧ split_once ":"%char credentials = Some (user, hash)
   ∧ str_forallb visible_byte header = true) →
  BasicAuth.check_request (if is_empty header then hm_new else hm_insert H_AUTHORIZATION header hm_new) user hash
  = Err e →
  assert_401 fs credentials header = Ok ().
Proof.
  intros (He & Hs & Hv) Hc. unfold assert_401, auth_make_request, unless_empty.
  destruct (is_empty header).
  - request. by erewrite refused_401.
  - rewrite (build_request_header "GET" _ "/" "Authorization" header method_GET) by done.
    cbn [rbind]. by erewrite refused_401.
Qed.

(** The checks of a test on credentials, in order. *)
Ltac auth_checks :=
  repeat (first
    [ rewrite auth_headers_ok by reflexivity
    | rewrite check_jq | rewrite check_missing
    | rewrite check_undecoded by apply doc_basic_auth
    | erewrite assert_401_ok by
        (first [repeat split; reflexivity
               | cbn [is_empty]; rewrite ?check_jq, ?check_missing, ?check_undecoded by apply doc_basic_auth;
                 rewrite ?(proj1 (proj2 doc_bcrypt)), ?(proj2 (proj2 doc_bcrypt)); reflexivity])
    | progress cbn [rbind] ]).

Lemma auth_tests_pass : Forall passes (auth_tests fs).
Proof.
  destruct doc_bcrypt as (Hjq & Hempty & Hpass).
  each_test; auth_checks; rewrite ?Hjq, ?Hempty, ?Hpass; try reflexivity;
    change (assert (is_ok _)) with (@Ok unit Error ()); cbn [rbind];
    unfold auth_make_request; cbn [unless_empty is_empty]; request; try reflexivity.
  set (req := {| req_method := GET |}).
  assert (BasicAuth.check_request (req_headers req) "jq" JQ_HASH = Ok ()) as Hc
    by by rewrite check_jq, Hjq.
  unfold BasicAuth.pre_process. cbn [basic_auth set_basic_auth].
  change (split_once _ _) with (Some ("jq", JQ_HASH)). cbv iota. by rewrite Hc.
Qed.

(** ** Headers and codings *)

(** The response after one round, and the tests that repeat it. *)
Lemma check_max_age_ok uri age resp :
  get_max_age uri = age → resp_status resp = SC_OK →
  ∃ resp', check_max_age uri age resp = Ok resp' ∧ resp_status resp' = SC_OK.
Proof.
  intros <- Hs. unfold check_max_age. rewrite cache_control_append_Ok. cbn [rbind].
  rewrite get_header_put, bool_decide_eq_true_2 by done. cbn [unwrap rbind resp_status put_header].
  unfold assert_eq. rewrite Hs, bool_decide_eq_true_2 by done. cbn [assert rbind].
  rewrite hv_to_str_visible by (destruct (max_age_cases uri) as [->|[->| ->]]; vm_compute; reflexivity).
  cbn [unwrap rbind]. rewrite bool_decide_eq_true_2 by done. by eexists.
Qed.

Lemma check_max_ages_ok exts age resp :
  Forall (λ ext, get_max_age (concat_str ["/some."; ext]) = age) exts → resp_status resp = SC_OK →
  check_max_ages exts age resp = Ok ().
Proof.
  intros Hall. revert resp. induction Hall as [|ext exts He _ IH]; intros resp Hs; cbn [check_max_ages]; [done|].
  destruct (check_max_age_ok _ _ resp He Hs) as (resp' & -> & Hs'). by apply IH.
Qed.

Lemma control_tests_pass : Forall passes control_tests.
Proof.
  each_test.
  - apply check_max_ages_ok; [|done]. by repeat constructor.
  - by destruct (check_max_age_ok "/" MAX_AGE_ONE_DAY ok_response) as (? & -> & _).
  - apply check_max_ages_ok; [|done]. repeat apply Forall_cons_2; [..|apply Forall_nil_2]; vm_compute; reflexivity.
  - reflexivity.
Qed.

(** The items of a header value that is visible text. *)
Lemma quality_iter_text v :
  str_forallb visible_byte v = true → quality_iter v = data <$> stable_sort meta_leb (quality_items v).
Proof. intros Hv. unfold quality_iter, quality_sorted. by rewrite (hv_to_str_visible _ Hv). Qed.

Lemma headers_ext_tests_pass : Forall passes headers_ext_tests.
Proof.
  each_test; unfold sorted_encodings; rewrite ?quality_iter_text by reflexivity; vm_compute; reflexivity.
Qed.

(** ** CORS *)

Definition tests_cors : Cors := {|
  allowed_headers := {["x-allowed"]} ∪ ∅;
  exposed_headers := ∅;
  max_age := None;
  allowed_methods := {[HEAD]} ∪ ({[GET]} ∪ ∅);
  origins := Some ({["https://example.com"]} ∪ ∅)
|}.

Lemma make_cors_config_ok : make_cors_config = Ok (Cors.build tests_cors).
Proof.
  unfold make_cors_config, allow_origins, allow_headers, allow_methods. cbn [extend_with].
  change (into_origin "https://example.com/") with (origin_from_parts "https" "example.com/" ≫= hv_from_str).
  rewrite doc_origin. cbn [mbind option_bind]. rewrite hv_from_str_visible by reflexivity.
  cbn [unwrap rbind allowed_headers exposed_headers max_age allowed_methods origins cors_new default].
  rewrite doc_header_name by reflexivity. cbn [unwrap rbind allowed_headers exposed_headers max_age allowed_methods origins].
  rewrite method_GET, (proj1 (proj2 method_from_bytes_supported)). reflexivity.
Qed.

(** What the configuration of the tests answers. *)
Lemma tests_origin o : is_origin_allowed (Cors.build tests_cors) o = str_eqb o "https://example.com".
Proof.
  apply eq_bool_prop_intro. rewrite !Is_true_true, is_origin_allowed_spec, str_eqb_eq. cbn. split.
  - intros [_ Ho]. specialize (Ho _ eq_refl). set_solver.
  - intros ->. split; [done|]. intros ? [= <-]. set_solver.
Qed.

Lemma tests_method text m :
  method_from_bytes text = Some m →
  is_method_allowed (Cors.build tests_cors) text = is_get m || is_head m.
Proof.
  intros Hm. unfold is_method_allowed. rewrite Hm. unfold is_get, is_head. cbn.
  repeat case_bool_decide; set_solver.
Qed.

Lemma tests_header name :
  is_empty name = false → str_forallb name_byte name = true →
  is_header_allowed (Cors.build tests_cors) name = str_eqb (to_ascii_lowercase name) "x-allowed".
Proof.
  intros He Hn. unfold is_header_allowed. rewrite He, (doc_header_name _ He Hn). unfold str_eqb. cbn.
  repeat case_bool_decide; set_solver.
Qed.

(** The requests of the tests. *)
Definition cors_request (m : Method) (headers : HeaderMap) : Request :=
  {| req_method := m; req_uri := origin_form "/" None; req_headers := headers |}.

Lemma insert_header_ok name value m headers :
  str_forallb visible_byte value = true →
  insert_header name value (cors_request m headers) = Ok (cors_request m (hm_insert name value headers)).
Proof. intros Hv. unfold insert_header. by rewrite (hv_from_str_visible _ Hv). Qed.

Lemma cors_make_request_ok method m origin :
  method_from_bytes method = Some m → is_empty origin = false → str_forallb visible_byte origin = true →
  cors_make_request method origin = Ok (cors_request m (hm_insert H_ORIGIN origin hm_new)).
Proof.
  intros Hm He Hv. unfold cors_make_request, unless_empty. rewrite He.
  by apply (build_request_header method m "/" "Origin" origin).
Qed.

Definition cors_opts : RequestHandlerOpts := set_opt_cors (Some (Cors.build tests_cors)) opts_default.

(** A refused request is answered 403, an accepted one goes on and its response
    carries the origin. *)
Lemma cors_refused m headers e :
  Cors.check_request (Cors.build tests_cors) m headers = Err e →
  is_403 (Cors.pre_process fs cors_opts (cors_request m headers)) = true.
Proof.
  intros Hc. unfold Cors.pre_process, cors_opts.
  cbn [opt_cors set_opt_cors req_method req_headers cors_request]. by rewrite Hc.
Qed.

Lemma cors_accepted m headers o r :
  hm_get headers H_ORIGIN = Some o → str_forallb visible_byte o = true →
  Cors.check_request (Cors.build tests_cors) m headers = Ok r →
  is_none (Cors.pre_process fs cors_opts (cors_request m headers)) = true
  ∧ ∃ resp, Cors.post_process cors_opts (cors_request m headers) cors_make_response = Ok resp
      ∧ get_allowed_origin resp = Some o.
Proof.
  intros Ho Hv Hc. split.
  { unfold Cors.pre_process, cors_opts. cbn [opt_cors set_opt_cors req_method req_headers cors_request].
    by rewrite Hc. }
  destruct (cors_post_cases cors_opts (cors_request m headers) cors_make_response) as (resp & Hp & _ & _ & Hr).
  exists resp. split; [done|]. unfold cors_opts in Hr.
  cbn [opt_cors set_opt_cors req_method req_headers cors_request] in Hr.
  rewrite Ho, Hc in Hr. cbn [is_ok] in Hr. destruct Hr as [_ ->]. unfold get_allowed_origin.
  rewrite get_header_del. unfold get_header at 1. cbn -[hm_get hv_to_str].
  rewrite (hm_insert_all_single _ _ _ o) by apply cors_headers_get. cbn. by apply hv_to_str_visible.
Qed.

(** Without a configuration or an origin nothing happens. *)
Lemma cors_untouched opts m headers :
  match opt_cors opts with Some _ => hm_get headers H_ORIGIN = None | None => True end →
  is_none (Cors.pre_process fs opts (cors_request m headers)) = true
  ∧ Cors.post_process opts (cors_request m headers) cors_make_response = Ok cors_make_response
  ∧ get_allowed_origin cors_make_response = None.
Proof.
  intros Ho. split_and!.
  - unfold Cors.pre_process, Cors.check_request. destruct (opt_cors opts); [|done]. cbn [req_headers cors_request].
    by rewrite Ho.
  - destruct (cors_post_cases opts (cors_request m headers) cors_make_response) as (resp & -> & _ & _ & Hr).
    destruct (opt_cors opts); [|by rewrite Hr]. cbn [req_headers cors_request] in Hr. rewrite Ho in Hr. by rewrite Hr.
  - unfold get_allowed_origin, cors_make_response. by rewrite get_header_new.
Qed.

(** Compute the comparisons of constants. *)
Ltac compare :=
  repeat match goal with
  | |- context [bool_decide (?x = ?y)] =>
      let b := eval vm_compute in (bool_decide (x = y)) in change (bool_decide (x = y)) with b
  end; cbv iota.

Ltac cors_check :=
  unfold Cors.check_request, request_headers_allowed; rewrite !hm_get_insert, ?hm_get_new; compare;
  rewrite ?tests_origin, ?(tests_method _ _ method_GET), ?(tests_method _ _ doc_post),
    ?hv_to_str_visible by reflexivity;
  try match goal with |- context [forallb ?f (split ?c ?s)] => change (forallb f (split c s)) with (f s && true) end;
  cbv beta; rewrite ?tests_header by reflexivity; reflexivity.

Lemma cors_tests_pass : Forall passes (cors_tests fs).
Proof.
  each_test; cbv zeta; rewrite ?make_cors_config_ok; cbn [rbind];
    rewrite ?(cors_make_request_ok _ _ _ method_GET), ?(cors_make_request_ok _ _ _ method_OPTIONS) by reflexivity;
    cbn [rbind]; fold cors_opts; rewrite ?insert_header_ok by reflexivity; cbn [rbind];
    rewrite ?insert_header_ok by reflexivity; cbn [rbind].
  - destruct (cors_untouched (set_opt_cors None opts_default) GET (hm_insert H_ORIGIN "https://example.com/" hm_new) I)
      as (-> & -> & Hg). cbn [assert rbind]. by rewrite Hg.
  - unfold cors_make_request; cbn [unless_empty is_empty]; request.
    destruct (cors_untouched cors_opts GET hm_new (hm_get_new _)) as (Hp & Hr & Hg).
    fold (cors_request GET hm_new). rewrite Hp, Hr. cbn [assert rbind]. by rewrite Hg.
  - erewrite !cors_refused; [reflexivity|..]; cors_check.
  - edestruct (cors_accepted GET (hm_insert H_ORIGIN "https://example.com" hm_new))
      as (-> & resp & -> & Hg); [by rewrite hm_get_insert|reflexivity|cors_check|].
    cbn [assert rbind]. rewrite Hg. unfold assert_eq at 1. compare. cbn [assert rbind].
    edestruct (cors_accepted GET (hm_insert H_AC_REQUEST_HEADERS "X-Allowed"
                 (hm_insert H_AC_REQUEST_METHOD "GET" (hm_insert H_ORIGIN "https://example.com" hm_new))))
      as (-> & resp' & -> & Hg'); [by rewrite !hm_get_insert|reflexivity|cors_check|].
    cbn [assert rbind]. by rewrite Hg'.
Qed.

(** ** Paths and sizes *)

Lemma assert_sanitized_ok base tail name decoded :
  percent_decode_str (trim_start_matches SEP tail) = decoded →
  bool_decide (components (foldl sanitize_step base (components decoded))
               = components (path_join path_root_dir name)) = true →
  assert_sanitized base tail name = Ok ().
Proof.
  intros Hd Hc. unfold assert_sanitized, sanitize_path, decode_tail_path, assert_eq.
  by rewrite Hd, Hc.
Qed.

Lemma path_tests_pass : Forall passes path_tests.
Proof.
  each_test. pose proof doc_percent as Hp. repeat apply Forall_cons in Hp as [?Hp Hp].
  cbv zeta.
  repeat (erewrite assert_sanitized_ok; [|eassumption|vm_compute; reflexivity]; cbn [rbind]).
  reflexivity.
Qed.

Lemma listing_tests_pass : Forall passes listing_tests.
Proof. each_test; vm_compute; reflexivity. Qed.

(** ** Redirects and rewrites *)

(** A regular expression of the tests on a text of the tests. *)
Lemma regex_fact p t caps :
  bool_decide ((p, t, caps) ∈ regex_table) = true →
  ∃ r, regex_new p = Some r ∧ regex_captures r t = caps
    ∧ regex_is_match r t = match caps with Some (_ :: _) => true | _ => false end.
Proof.
  intros Hin%bool_decide_eq_true. pose proof doc_regex as Hr. rewrite Forall_forall in Hr.
  destruct (Hr _ Hin) as (r & Hn & Hc). exists r. split; [done|]. split; [done|].
  pose proof (regex_captures_match r t) as Hm. rewrite Hc in Hm.
  destruct (regex_is_match r t), caps as [[|g gs]|]; try done.
  - by destruct (proj1 Hm eq_refl) as (? & ? & ?).
  - by destruct (proj1 Hm eq_refl) as (? & ? & ?).
  - by apply Hm; eexists _, _.
Qed.

(** The four patterns compile; what a compiled pattern answers. *)
Lemma regex_known p t caps r :
  regex_new p = Some r → bool_decide ((p, t, caps) ∈ regex_table) = true →
  regex_captures r t = caps
  ∧ regex_is_match r t = match caps with Some (_ :: _) => true | _ => false end.
Proof. intros Hr (r' & Hr' & Hc & Hm)%regex_fact. by simplify_eq. Qed.

Lemma replace_known uri r dest caps result :
  regex_captures r uri = Some caps →
  bool_decide ((placeholder <$> seq 0 (length caps), dest, default "" <$> caps, result) ∈ replace_table) = true →
  replace_placeholders uri r dest = Ok result.
Proof.
  intros Hc Hin%bool_decide_eq_true. pose proof doc_replace as Hr. rewrite Forall_forall in Hr.
  destruct (Hr _ Hin) as (ac & Hn & Ha). unfold replace_placeholders. by rewrite Hc, Hn, Ha.
Qed.

Lemma patterns_compile : ∃ s1 s2 s3 s4,
  regex_new "/source1$" = Some s1 ∧ regex_new "/source2$" = Some s2
  ∧ regex_new "/(prefix/)?(source3)/(.*)" = Some s3 ∧ regex_new "/(source4)/(.*)" = Some s4.
Proof.
  destruct (regex_fact "/source1$" "/source2" None) as (s1 & ? & _); [vm_compute; reflexivity|].
  destruct (regex_fact "/source2$" "/source2/whatever" None) as (s2 & ? & _); [vm_compute; reflexivity|].
  destruct (regex_fact "/(prefix/)?(source3)/(.*)" "/source2/whatever" None) as (s3 & ? & _); [vm_compute; reflexivity|].
  destruct (regex_fact "/(source4)/(.*)" "/source2/whatever" None) as (s4 & ? & _); [vm_compute; reflexivity|].
  by exists s1, s2, s3, s4.
Qed.

(** The answer of a redirect of the tests. *)
Lemma redirect_location status dest :
  str_forallb visible_byte dest = true →
  is_redirect (Some (Ok (redirect_response status dest))) = Ok (Some (status, dest)).
Proof.
  intros Hv. unfold is_redirect, redirect_response. rewrite get_header_set_status, get_header_put.
  compare. by rewrite (hv_to_str_visible _ Hv).
Qed.

(** The host of a request in origin form is that of its header. *)
Lemma request_host_header path headers host :
  str_forallb visible_byte (match host with Some h => h | None => "" end) = true →
  hm_get headers H_HOST = host →
  request_host {| req_method := GET; req_uri := origin_form path None; req_headers := headers |} = default "" host.
Proof.
  intros Hv Hh. unfold request_host. cbn. rewrite Hh. destruct host; [|done]. cbn. by rewrite (hv_to_str_visible _ Hv).
Qed.

Lemma redirects_matched rs host path headers entry caps dest :
  str_forallb visible_byte (match host with Some h => h | None => "" end) = true →
  hm_get headers H_HOST = host →
  find_first (redirect_matches (default "" host) path) rs = Some entry →
  regex_captures (rd_source entry) path = Some caps →
  bool_decide ((placeholder <$> seq 0 (length caps), rd_destination entry, default "" <$> caps, dest)
               ∈ replace_table) = true →
  str_forallb visible_byte dest = true →
  is_redirect (Redirects.pre_process fs (with_redirects (Some rs))
    {| req_method := GET; req_uri := origin_form path None; req_headers := headers |})
  = Ok (Some (rd_kind entry, dest)).
Proof.
  intros Hv Hh Hf Hc Hin Hd. unfold Redirects.pre_process, with_redirects, opts_with_advanced.
  cbn [advanced_opts set_advanced_opts mbind option_bind adv_redirects].
  rewrite (request_host_header path headers host Hv Hh).
  cbn [get_redirection req_uri uri_path uri_path_and_query origin_form pq_path]. rewrite Hf.
  rewrite (replace_known _ _ _ _ _ Hc Hin), (hv_from_str_visible _ Hd). by apply redirect_location.
Qed.

Lemma redirects_unmatched rs host path headers :
  str_forallb visible_byte (match host with Some h => h | None => "" end) = true →
  hm_get headers H_HOST = host →
  find_first (redirect_matches (default "" host) path) rs = None →
  is_none (Redirects.pre_process fs (with_redirects (Some rs))
    {| req_method := GET; req_uri := origin_form path None; req_headers := headers |}) = true.
Proof.
  intros Hv Hh Hf. unfold Redirects.pre_process, with_redirects, opts_with_advanced.
  cbn [advanced_opts set_advanced_opts mbind option_bind adv_redirects].
  rewrite (request_host_header path headers host Hv Hh).
  cbn [get_redirection req_uri uri_path uri_path_and_query origin_form pq_path]. by rewrite Hf.
Qed.

(** Find the entry: the answers of the patterns are known. *)
Definition known_captures (p t : string) : option (list (option string)) :=
  match find_first (λ e, str_eqb e.1.1 p && str_eqb e.1.2 t) regex_table with
  | Some e => e.2
  | None => None
  end.

Ltac assertion := cbn [rbind]; unfold assert_eq at 1; compare; cbn [assert rbind].

Ltac find_entry :=
  cbn [find_first redirect_matches rd_host rd_source rw_source default];
  unfold str_eqb; compare; cbn [negb];
  repeat match goal with
  | Hr : regex_new ?p = Some ?r |- context [regex_is_match ?r ?t] =>
      let c := eval vm_compute in (known_captures p t) in
      rewrite (proj2 (regex_known p t c r Hr ltac:(vm_compute; reflexivity)))
  end; reflexivity.

Ltac known_regex :=
  match goal with
  | Hr : regex_new ?p = Some ?r |- regex_captures ?r' ?t = Some _ =>
      unify r r';
      let c := eval vm_compute in (known_captures p t) in
      exact (proj1 (regex_known p t c r Hr ltac:(vm_compute; reflexivity)))
  end.

Lemma redirects_tests_pass : Forall passes (redirects_tests fs).
Proof.
  destruct patterns_compile as (s1 & s2 & s3 & s4 & Hs1 & Hs2 & Hs3 & Hs4).
  each_test; unfold get_redirects; rewrite ?Hs1, ?Hs2, ?Hs3; cbn [unwrap rbind]; unfold redirects_make_request;
    cbn [unless_empty is_empty]; cbv zeta; repeat request.
  - reflexivity.
  - rewrite (redirects_unmatched _ (Some "example.com")), (redirects_unmatched _ None);
      first [reflexivity | by rewrite hm_get_insert | apply hm_get_new | find_entry].
  - erewrite (redirects_matched _ None _ _ _ _ "/destination1"); [|reflexivity|apply hm_get_new|find_entry|known_regex|
      vm_compute; reflexivity|reflexivity].
    assertion.
    erewrite (redirects_matched _ (Some "example.com") _ _ _ _ "/destination2");
      [|reflexivity|by rewrite hm_get_insert|find_entry|known_regex|vm_compute; reflexivity|reflexivity].
    assertion.
    erewrite (redirects_matched _ (Some "example.info") _ _ _ _ "/destination3/source3/whatever");
      [|reflexivity|by rewrite hm_get_insert|find_entry|known_regex|vm_compute; reflexivity|reflexivity].
    reflexivity.
Qed.

(** A rewrite of the tests: no entry, a redirect, or a new URI. *)
Local Notation get_request path query headers :=
  {| req_method := GET; req_uri := origin_form path query; req_headers := headers |} (only parsing).

Lemma rewrites_unmatched rs path query headers :
  find_first (λ e, regex_is_match (rw_source e) path) rs = None →
  Rewrites.pre_process fs (with_rewrites (Some rs)) (get_request path query headers)
  = (None, get_request path query headers).
Proof.
  intros Hf. unfold Rewrites.pre_process, with_rewrites, opts_with_advanced.
  cbn [advanced_opts set_advanced_opts mbind option_bind adv_rewrites rewrite_uri_path req_uri
       uri_path uri_path_and_query origin_form pq_path]. by rewrite Hf.
Qed.

Lemma rewrites_matched rs path query headers entry caps dest :
  find_first (λ e, regex_is_match (rw_source e) path) rs = Some entry →
  regex_captures (rw_source entry) path = Some caps →
  bool_decide ((placeholder <$> seq 0 (length caps), rw_destination entry, default "" <$> caps, dest)
               ∈ replace_table) = true →
  str_forallb visible_byte dest = true →
  Rewrites.pre_process fs (with_rewrites (Some rs)) (get_request path query headers)
  = match rw_redirect entry with
    | Some kind => (Some (Ok (redirect_response (rewrite_status kind) dest)), get_request path query headers)
    | None =>
        match merge_uris (origin_form path query) dest with
        | Ok uri => (None, adjust_host (set_uri uri (get_request path query headers)))
        | Err _ => (handle_error fs (with_rewrites (Some rs)) (get_request path query headers),
                    get_request path query headers)
        | Panic => (Some Panic, get_request path query headers)
        end
    end.
Proof.
  intros Hf Hc Hin Hd. unfold Rewrites.pre_process, with_rewrites, opts_with_advanced.
  cbn [advanced_opts set_advanced_opts mbind option_bind adv_rewrites rewrite_uri_path req_uri
       uri_path uri_path_and_query origin_form pq_path].
  rewrite Hf, (replace_known _ _ _ _ _ Hc Hin). by rewrite (hv_from_str_visible _ Hd).
Qed.

(** The requests of the tests, with a query or a host. *)
Lemma build_request_query uri path query header headers :
  split_once "?"%char uri = Some (path, query) → starts_with "/" path = true →
  str_forallb path_byte path = true → str_forallb path_byte query = true →
  build_request "GET" path header = Ok (get_request path None headers) →
  build_request "GET" uri header = Ok (get_request path (Some query) headers).
Proof.
  intros Hs Hst Hp Hq. unfold build_request. rewrite method_GET, (doc_uri_path _ Hst Hp).
  rewrite (proj1 (doc_uri_query _ _ _ Hs Hst Hp Hq)). cbn [unwrap rbind].
  destruct (match header with Some _ => _ | None => _ end) as [h| |]; cbn [rbind]; [|done..].
  by intros [= ->].
Qed.

(** The new URI keeps the query of the old one; an absolute one replaces it. *)
Lemma merge_query orig path query uri :
  starts_with "/" path = true → str_forallb path_byte path = true → str_forallb path_byte query = true →
  concat_str [path; "?"; query] = uri → split_once "?"%char uri = Some (path, query) →
  merge_uris (origin_form orig (Some query)) path = Ok (origin_form path (Some query)).
Proof.
  intros Hst Hp Hq Hu Hs. unfold merge_uris. rewrite (doc_uri_path _ Hst Hp). cbn [ok_or rbind uri_scheme
    uri_authority uri_path_and_query origin_form pq_query uri_query mbind option_bind].
  change (pq_as_str _) with path. rewrite Hu, (proj2 (doc_uri_query _ _ _ Hs Hst Hp Hq)). cbn [ok_or rbind].
  fold (origin_form path (Some query)). by rewrite doc_uri_from_parts.
Qed.

Lemma merge_absolute orig query : merge_uris (origin_form orig query) EXAMPLE_NET = Ok example_net.
Proof.
  unfold merge_uris. rewrite doc_uri_absolute. cbn [ok_or rbind uri_scheme uri_authority uri_path_and_query
    example_net pq_query].
  change {| uri_scheme := _; uri_authority := _; uri_path_and_query := _ |} with example_net.
  by rewrite doc_uri_from_parts_absolute.
Qed.

Ltac rewrite_entry path dest :=
  erewrite (rewrites_matched _ path _ _ _ _ dest);
  [|find_entry|known_regex|vm_compute; reflexivity|reflexivity]; cbn [rw_redirect].

Lemma rewrites_tests_pass : Forall passes (rewrites_tests fs).
Proof.
  destruct patterns_compile as (s1 & s2 & s3 & s4 & Hs1 & Hs2 & Hs3 & Hs4).
  each_test; unfold get_rewrites; rewrite ?Hs1, ?Hs2, ?Hs3, ?Hs4; cbn [unwrap rbind]; unfold rewrites_make_request;
    cbn [unless_empty is_empty]; cbv zeta.
  - repeat request. cbn. unfold assert_uri. rewrite !(doc_uri_path "/") by reflexivity. reflexivity.
  - repeat request. rewrite (rewrites_unmatched _ "/source2/whatever" None) by find_entry. cbn.
    unfold assert_uri. rewrite (doc_uri_path "/source2/whatever") by reflexivity. reflexivity.
  - rewrite (build_request_query "/source1?query" "/source1" "query" None hm_new) by
      (first [reflexivity|by apply build_request_plain; [apply method_GET|..]]). cbn [rbind].
    rewrite_entry "/source1" "/destination1". rewrite (merge_query _ _ _ "/destination1?query") by reflexivity.
    cbn [is_none assert rbind adjust_host set_uri req_uri uri_host uri_authority origin_form fmap option_fmap option_map].
    unfold assert_uri at 1. rewrite (proj1 (doc_uri_query "/destination1?query" _ _ eq_refl eq_refl eq_refl eq_refl)).
    cbn [req_uri]. unfold assert_eq at 1. rewrite bool_decide_eq_true_2 by reflexivity. cbn [assert rbind].
    request. rewrite_entry "/source2" "/destination2". rewrite redirect_location by reflexivity. assertion.
    request. rewrite_entry "/source3/whatever" "/destination3/source3/whatever".
    rewrite redirect_location by reflexivity. assertion.
    rewrite (build_request_query "/source4/whatever?query" "/source4/whatever" "query" _
               (hm_insert H_HOST "example.com" hm_new)) by
      (first [reflexivity|by apply (build_request_header "GET" GET _ "Host"); [apply method_GET|..]]).
    cbn [rbind]. rewrite_entry "/source4/whatever" EXAMPLE_NET. rewrite merge_absolute. unfold adjust_host.
    change (uri_host _) with (Some "example.net"). change (uri_port_u16 _) with (Some 1234%Z). cbv iota.
    rewrite (hv_from_str_visible (concat_str ["example.net"; ":"; dec 1234])) by (vm_compute; reflexivity).
    cbn [is_none assert rbind].
    unfold assert_uri. fold EXAMPLE_NET. rewrite doc_uri_absolute. unfold assert_eq at 1.
    rewrite bool_decide_eq_true_2 by reflexivity. cbn [assert rbind req_headers].
    rewrite hm_get_insert. compare. rewrite hv_to_str_visible by (vm_compute; reflexivity).
    vm_compute. reflexivity.
Qed.

(** ** TLS *)

(** A pair of files that go together makes a configuration, read from the disk or
    from memory. *)
Lemma key_pair_builds cert key b :
  key_pair fs include_str fuel cert key →
  tb_cert b ∈ [SFile {| lz_path := cert; lz_file := None |}; SCursor (include_str cert)] →
  tb_key b ∈ [SFile {| lz_path := key; lz_file := None |}; SCursor (include_str key)] →
  build_unwrap fs bufs fuel b = Ok ().
Proof.
  intros (f1 & f2 & certs & i & k & base & Ho1 & Hd1 & Ho2 & Hd2 & Hl1 & Hl2 & Hc & Hs & Hi & Hw) Hb1 Hb2.
  assert (source_data fs (tb_cert b) = Ok (include_str cert)) as Hcd.
  { apply elem_of_cons in Hb1 as [E|E%list_elem_of_singleton]; rewrite E; [|done]. cbn. by rewrite Ho1, Hd1. }
  assert (source_data fs (tb_key b) = Ok (include_str key)) as Hkd.
  { apply elem_of_cons in Hb2 as [E|E%list_elem_of_singleton]; rewrite E; [|done]. cbn. by rewrite Ho2, Hd2. }
  assert (identity fs b certs k) as Hid.
  { exists (include_str cert), (include_str key), [i], [k]. split_and!; try done. by rewrite fmap_cons, Hi. }
  destruct (build_outcome fs bufs fuel b doc_fs_total) as (r & Hr & Hcase).
  { split_and!; [by rewrite Hcd; intros d [= <-]|by rewrite Hkd; intros d [= <-]|lia]. }
  unfold build_unwrap. rewrite Hr. destruct r as [cfg|e|]; [done| |done].
  destruct (build_error_excludes _ _ _ _ _ _ Hcase Hid Hw).
Qed.

Lemma tls_tests_pass : Forall passes (tls_tests fs include_str bufs fuel).
Proof.
  pose proof doc_tls as Hk. repeat apply Forall_cons in Hk as [?Hk Hk].
  each_test; cbv zeta;
    match goal with H : key_pair _ _ _ _ _ |- _ =>
      by eapply (key_pair_builds _ _ _ H); first [left; reflexivity|right; left] end.
Qed.

(** The model runs the unit tests as the authors expect the code to, whenever the
    other crates answer as listed on the inputs of the tests. *)
Lemma unit_tests_pass gathered : Forall passes (unit_tests fs gathered include_str bufs fuel).
Proof.
  unfold unit_tests. rewrite !Forall_app. split_and!; auto using health_tests_pass, metrics_tests_pass,
    maintenance_tests_pass, fallback_tests_pass, auth_tests_pass, control_tests_pass, headers_ext_tests_pass,
    cors_tests_pass, path_tests_pass, listing_tests_pass, redirects_tests_pass, rewrites_tests_pass, tls_tests_pass.
Qed.

End Pass.

(** ** Witness

    The instances of the other files, with the patterns, the hash and the files of
    the tests. *)

Definition table_match (p t : string) : bool :=
  match known_captures p t with
  | Some (_ :: _) => true
  | _ => false
  end.

Lemma table_match_captures p t :
  table_match p t = true ↔ ∃ g gs, known_captures p t = Some (g :: gs).
Proof. unfold table_match. destruct (known_captures p t) as [[|g gs]|]; naive_solver. Qed.

Definition match_table : MatchC := {|
  Regex := string;
  regex_is_match := table_match;
  regex_captures := known_captures;
  regex_captures_match := table_match_captures;
  GlobMatcher := string;
  glob_is_match := str_eqb;
  AhoCorasick := list string;
  ac_new := Some;
  ac_try_replace_all := λ ps s rs, Some (replace_fuel (String.length s) ps rs s)
|}.

Definition config_table : @ConfigC http_gmap match_table :=
  @Build_ConfigC http_gmap match_table string Some (λ _, None) Some Some Some to_ascii_lowercase.

Definition bcrypt_table : BcryptC := {|
  bcrypt_verify := λ password hash, if str_eqb hash JQ_HASH then Some (str_eqb password "jq") else None
|}.

Definition pem_of (path : string) : string :=
  if starts_with "tests/tls/local.dev_cert." path then "CERT" else "KEY k".

Definition pem_node (kind : string) : list Node :=
  [file_node (concat_str ["tests/tls/local.dev_cert."; kind; ".pem"]) "CERT" 0;
   file_node (concat_str ["tests/tls/local.dev_key."; kind; ".pem"]) "KEY k" 0].

Definition tests_fs : FileSystem := table_fs (["rsa_pkcs1"; "pkcs8"; "sec1_ec"] ≫= pem_node).

Lemma lower_names s : lower s = to_ascii_lowercase s.
Proof. induction s as [|a s IH]; [done|]. cbn. by rewrite IH. Qed.

(** A path without a question mark has no query. *)
Lemma path_no_query p : str_forallb path_byte p = true → split_once "?"%char p = None.
Proof.
  intros Hp. destruct (split_once "?"%char p) as [[l r]|] eqn:E; [|done].
  apply split_once_Some in E as [-> _]. exfalso. induction l as [|a l IH]; [done|].
  apply IH. rewrite append_cons in Hp. cbn in Hp. by apply andb_true_iff in Hp as [_ ?].
Qed.

Lemma uri_of_path s : starts_with "/" s = true →
  uri_of_string s = Some {| uri_scheme := None; uri_authority := None; uri_path_and_query := Some (path_of_string s) |}.
Proof.
  intros Hs. unfold uri_of_string. rewrite Hs. apply starts_with_true in Hs as [r ->]. done.
Qed.

Lemma tests_documented :
  @TestAnswers http_gmap headers_simple match_table percent_hex origin_simple bcrypt_table config_table tls_sample
    tests_fs pem_of 100.
Proof.
  constructor.
  - reflexivity.
  - apply table_fs_total. by repeat constructor.
  - reflexivity.
  - intros s He _. cbn. unfold name_of_bytes. rewrite He, lower_names. done.
  - intros p Hs Hp. cbn. rewrite (uri_of_path _ Hs). unfold path_of_string. by rewrite (path_no_query _ Hp).
  - intros s p q Hsp Hs _ _.
    assert (starts_with "/" s = true) as Hs'.
    { apply split_once_Some in Hsp as [-> _]. apply starts_with_true in Hs as [r ->]. done. }
    cbn -[starts_with]. rewrite (uri_of_path _ Hs'), Hs'. unfold path_of_string. by rewrite Hsp.
  - reflexivity.
  - reflexivity.
  - reflexivity.
  - repeat split; reflexivity.
  - reflexivity.
  - repeat split; reflexivity.
  - reflexivity.
  - repeat split; reflexivity.
  - repeat apply Forall_cons_2; [..|apply Forall_nil_2]; eexists; split; reflexivity.
  - repeat apply Forall_cons_2; [..|apply Forall_nil_2]; eexists; (split; [reflexivity|]);
      cbn [ac_try_replace_all match_table]; reflexivity.
  - repeat apply Forall_cons_2; [..|apply Forall_nil_2]; vm_compute; reflexivity.
  - repeat apply Forall_cons_2; [..|apply Forall_nil_2];
      (eexists _, _, ["CERT"], (Pkcs8Key "k"), "k", (["CERT"], "k"); split_and!;
       [vm_compute; reflexivity..|apply Nat.ltb_lt; vm_compute; reflexivity|
        apply Nat.ltb_lt; vm_compute; reflexivity|vm_compute; reflexivity| |vm_compute; reflexivity|vm_compute; reflexivity];
       eapply sections_cons; [vm_compute; reflexivity|apply sections_end; vm_compute; reflexivity]).
Qed.

Lemma unit_tests_witness :
  Forall passes (@unit_tests http_gmap headers_simple match_table percent_hex origin_simple bcrypt_table config_table
                   tls_sample tests_fs (Some "metrics") pem_of (λ n, (n, 7%nat)) 100).
Proof.
  exact (@unit_tests_pass http_gmap headers_simple match_table percent_hex origin_simple bcrypt_table config_table
           tls_sample tests_fs pem_of 100 (λ n, (n, 7%nat)) tests_documented (Some "metrics")).
Defined.
