(* ===== verification/Handler.v ===== *)
(** * The request handler: [handler.rs]

    The steps of [RequestHandler::handle] in their order: the checks that may
    answer at once, the rewriting of the request, the choice of the root, the
    static files, and the steps that complete the response.  What the handler
    reads of its surroundings is the [World]: the file system, the cache store and
    the gathered metrics.  The log line ([LogAddr]) does not influence the
    answer. *)

From S2P Require Import Prelude RustStr RustPath Fs FsStream ContentCoding Http HttpInstances.
From S2P Require Import Opts FsPath FsMeta F32 QualityValue ErrorPage Compression.
From S2P Require Import CompressionStatic ConditionalHeaders ResponseBody MemCache.
From S2P Require Import DirectoryListing StaticFiles Cors ControlHeaders SecurityHeaders Health.
From S2P Require Import Metrics MaintenanceMode FallbackPage VirtualHosts CustomHeaders BasicAuth.
From S2P Require Import Redirects Rewrites.

Open Scope sws_scope.

Section Handler.
Context `{!HttpC, !HeadersC, !MatchC, !PercentC, !ListingC, !OriginC, !BcryptC}.

Record World : Type := {
  w_fs : FileSystem;
  w_store : option CacheStore;
  w_metrics : option string
}.

(** [if let Some(result) = pre { return result; } k] *)
Definition or_else (pre : option (Result Response Error)) (k : Result Response Error)
    : Result Response Error :=
  match pre with
  | Some result => result
  | None => k
  end.

(** The root directory: that of a matching virtual host, or the configured one. *)
Definition base_path_of (opts : RequestHandlerOpts) (req : Request) : string :=
  match advanced_opts opts with
  | Some advanced => default (root_dir opts) (get_real_root req (adv_virtual_hosts advanced))
  | None => root_dir opts
  end.

(** The options of the static-files handler. *)
Definition handle_opts_of (opts : RequestHandlerOpts) (req : Request) : HandleOpts := {|
  ho_method := req_method req;
  ho_memory_cache := memory_cache opts;
  ho_headers := req_headers req;
  ho_base_path := base_path_of opts req;
  ho_uri_path := uri_path (req_uri req);
  ho_index_files := index_files opts;
  ho_uri_query := uri_query (req_uri req);
  ho_dir_listing := dir_listing opts;
  ho_dir_listing_order := dir_listing_order opts;
  ho_dir_listing_format := dir_listing_format opts;
  ho_redirect_trailing_slash := redirect_trailing_slash opts;
  ho_compression_static := compression_static opts;
  ho_ignore_hidden_files := ignore_hidden_files opts;
  ho_disable_symlinks := disable_symlinks opts
|}.

(** The static files, with errors turned into error pages. *)
Definition static_response (w : World) (opts : RequestHandlerOpts) (req : Request)
    : Result (Response * option string) Error :=
  match StaticFiles.handle (w_fs w) (w_store w) (handle_opts_of opts req) with
  | Ok result => Ok (sf_resp result, Some (sf_file_path result))
  | Err status =>
      let? resp := error_response (w_fs w) (req_uri req) (req_method req) status
                     (page404 opts) (page50x opts) in
      Ok (resp, None)
  | Panic => Panic
  end.

(** The steps after the static files. *)
Definition post_process (fs : FileSystem) (opts : RequestHandlerOpts) (req : Request)
    (resp : Response) (file_path : option string) : Result Response Error :=
  let? resp := FallbackPage.post_process opts req resp in
  let? resp := Cors.post_process opts req resp in
  let? resp := CompressionStatic.post_process opts req resp in
  let? resp := Compression.post_process fs opts req resp in
  let? resp := ControlHeaders.post_process opts req resp in
  let? resp := SecurityHeaders.post_process opts req resp in
  CustomHeaders.post_process opts req resp file_path.

(** [handle] from the static files on. *)
Definition serve (w : World) (opts : RequestHandlerOpts) (req : Request) : Result Response Error :=
  let? r := static_response w opts req in
  post_process (w_fs w) opts req r.1 r.2.

(** [RequestHandler::handle] *)
Definition handle (w : World) (opts : RequestHandlerOpts) (req : Request) : Result Response Error :=
  if negb (is_allowed (req_method req)) then
    error_response (w_fs w) (req_uri req) (req_method req) SC_METHOD_NOT_ALLOWED
      (page404 opts) (page50x opts)
  else
    or_else (Health.pre_process opts req) (
    or_else (Metrics.pre_process (w_metrics w) opts req) (
    or_else (Cors.pre_process (w_fs w) opts req) (
    or_else (BasicAuth.pre_process (w_fs w) opts req) (
    or_else (MaintenanceMode.pre_process (w_fs w) opts req) (
    or_else (Redirects.pre_process (w_fs w) opts req) (
    match Rewrites.pre_process (w_fs w) opts req with
    | (Some result, _) => result
    | (None, req) => serve w opts req
    end)))))).

(** ** Theorems *)

(** What the handler may rely on: the operating system answers, the cache was
    initialised when it is used, and the metrics can be encoded. *)
Record world_ok (opts : RequestHandlerOpts) (w : World) : Prop := {
  wok_fs : fs_total (w_fs w);
  wok_store : is_Some (memory_cache opts) → is_Some (w_store w);
  wok_metrics : experimental_metrics opts = true → is_Some (w_metrics w)
}.

(** The steps after the static files never fail and keep the status that the
    fallback page leaves. *)
Lemma handler_post_Ok fs opts req resp file_path :
  ∃ resp', post_process fs opts req resp file_path = Ok resp'
    ∧ (resp_status resp' = resp_status resp
       ∨ req_method req = GET ∧ resp_status resp = SC_NOT_FOUND ∧ resp_status resp' = SC_OK)
    ∧ (req_method req = GET → page_fallback opts ≠ "" → resp_status resp' ≠ SC_NOT_FOUND).
Proof.
  unfold post_process.
  destruct (FallbackPage.fallback_spec opts req resp) as (r1 & -> & Hf1 & Hs1). cbn [rbind].
  destruct (Cors.cors_post_cases opts req r1) as (r2 & -> & Hs2 & _). cbn [rbind].
  assert (∃ r3, CompressionStatic.post_process opts req r2 = Ok r3 ∧ resp_status r3 = resp_status r2)
    as (r3 & -> & Hs3).
  { unfold CompressionStatic.post_process. destruct (compression_static opts); by eexists. }
  cbn [rbind].
  destruct (Compression.compression_post_status fs opts req r3) as (r4 & -> & Hs4). cbn [rbind].
  destruct (ControlHeaders.cache_control_post_Ok opts req r4) as (r5 & -> & Hs5 & _). cbn [rbind].
  destruct (SecurityHeaders.security_post_Ok opts req r5) as (r6 & -> & Hs6 & _). cbn [rbind].
  destruct (CustomHeaders.custom_post_Ok opts req r6 file_path) as (r7 & -> & Hs7 & _).
  exists r7. split; [done|]. rewrite Hs7, Hs6, Hs5, Hs4, Hs3, Hs2. split; [|done].
  destruct Hs1 as [->|(? & ? & _ & ? & _)]; [by left|by right].
Qed.

Lemma static_response_Ok w opts req :
  fs_total (w_fs w) → (is_Some (memory_cache opts) → is_Some (w_store w)) →
  ∃ r, static_response w opts req = Ok r.
Proof.
  intros Hfs Hst. unfold static_response.
  pose proof (handle_no_panic (w_fs w) (w_store w) (handle_opts_of opts req) Hfs Hst) as Hnp.
  destruct (StaticFiles.handle _ _ _); [by eexists|by eexists|done].
Qed.

Lemma serve_Ok w opts req :
  fs_total (w_fs w) → (is_Some (memory_cache opts) → is_Some (w_store w)) →
  ∃ resp, serve w opts req = Ok resp.
Proof.
  intros Hfs Hst. unfold serve. destruct (static_response_Ok w opts req Hfs Hst) as [[r p] ->]. cbn [rbind fst snd].
  destruct (handler_post_Ok (w_fs w) opts req r p) as (resp & -> & _). by eexists.
Qed.

(** The answers of the checks before the static files. *)
Lemma metrics_Ok w opts req r :
  world_ok opts w → Metrics.pre_process (w_metrics w) opts req = Some r →
  ∃ resp, r = Ok resp ∧ experimental_metrics opts = true ∧ uri_path (req_uri req) = "/metrics"
    ∧ resp_status resp = SC_OK.
Proof.
  intros [_ _ Hm] Hr. destruct (w_metrics w) as [data|] eqn:Hd.
  - destruct (Metrics.metrics_pre_Some _ _ _ _ Hr) as (? & ? & _ & resp & -> & ?). eauto 6.
  - unfold Metrics.pre_process in Hr. destruct (experimental_metrics opts); [|done].
    destruct (Hm eq_refl); done.
Qed.

Lemma cors_pre_Some fs opts req r :
  Cors.pre_process fs opts req = Some r →
  r = Ok (html_page (req_method req) SC_FORBIDDEN
            (page_content fs SC_FORBIDDEN (page404 opts) (page50x opts)))
  ∧ is_Some (hm_get (req_headers req) H_ORIGIN).
Proof.
  unfold Cors.pre_process. destruct (opt_cors opts) as [c|]; [|done].
  pose proof (check_request_cases c (req_method req) (req_headers req)) as Hc.
  destruct (Cors.check_request _ _ _) as [[]| |]; [done| |done]. intros [= <-].
  split; [apply error_response_Ok|done].
Qed.

(** The outcome of the pipeline: a response, unless the metrics cannot be encoded
    where they are asked for. *)
Lemma handle_outcome w opts req :
  fs_total (w_fs w) → (is_Some (memory_cache opts) → is_Some (w_store w)) →
  match handle w opts req with
  | Ok _ => True
  | Err _ => False
  | Panic => w_metrics w = None ∧ experimental_metrics opts = true
             ∧ req_method req = GET ∧ uri_path (req_uri req) = "/metrics"
  end.
Proof.
  intros Hfs Hst. unfold handle. destruct (negb _); [done|]. unfold or_else.
  destruct (Health.pre_process opts req) as [r|] eqn:H1'.
  { by destruct (Health.health_pre_Some _ _ _ H1') as (_ & _ & _ & resp & -> & _). }
  destruct (Metrics.pre_process _ opts req) as [r|] eqn:H2'.
  { pose proof (Metrics.metrics_pre_outcome _ _ _ _ H2') as Hm. by destruct r. }
  destruct (Cors.pre_process _ opts req) as [r|] eqn:H3'.
  { by destruct (cors_pre_Some _ _ _ _ H3') as [-> _]. }
  pose proof (BasicAuth.auth_pre_cases (w_fs w) opts req) as H4'.
  destruct (BasicAuth.pre_process _ opts req) as [r|]; [by destruct H4' as (resp & -> & _)|].
  destruct (MaintenanceMode.pre_process _ opts req) as [r|] eqn:H5'.
  { unfold MaintenanceMode.pre_process in H5'. destruct (maintenance_mode opts); [|done].
    by injection H5' as <-. }
  pose proof (Redirects.redirects_pre_cases (w_fs w) opts req) as H6'.
  destruct (Redirects.pre_process _ opts req) as [r|]; [by destruct H6' as (resp & -> & _)|].
  pose proof (Rewrites.rewrites_pre_cases (w_fs w) opts req) as H7'.
  destruct (Rewrites.pre_process _ opts req) as [[r|] req'].
  - by destruct H7' as (resp & -> & _).
  - by destruct (serve_Ok w opts req' Hfs Hst) as [resp ->].
Qed.

(** Totality: every request gets an answer when the metrics can be encoded. *)
Lemma handle_total w opts req :
  world_ok opts w → ∃ resp, handle w opts req = Ok resp.
Proof.
  intros [Hfs Hst Hm]. pose proof (handle_outcome w opts req Hfs Hst) as Ho.
  destruct (handle w opts req); [eauto|done|]. destruct Ho as (Hn & He & _).
  rewrite Hn in Hm. by destruct (Hm He).
Qed.

(** A method other than [GET], [HEAD] and [OPTIONS] is refused with 405 before
    anything else is looked at. *)
Lemma handle_method_not_allowed w opts req :
  is_allowed (req_method req) = false →
  handle w opts req
  = Ok (html_page (req_method req) SC_METHOD_NOT_ALLOWED
          (page_content (w_fs w) SC_METHOD_NOT_ALLOWED (page404 opts) (page50x opts))).
Proof. intros Hm. unfold handle. rewrite Hm. apply error_response_Ok. Qed.

Lemma html_page_no_stream m s c : body_stream (resp_body (html_page m s c)) = None.
Proof. unfold html_page. by destruct (is_head m). Qed.

(** The answers of the checks are never read from a file of the root. *)
Lemma health_no_stream opts req resp :
  Health.pre_process opts req = Some (Ok resp) → body_stream (resp_body resp) = None.
Proof. unfold Health.pre_process. intros Hr. repeat case_hyp Hr; by simplify_eq/=. Qed.

Lemma metrics_no_stream m opts req resp :
  Metrics.pre_process m opts req = Some (Ok resp) → body_stream (resp_body resp) = None.
Proof. unfold Metrics.pre_process. intros Hr. repeat case_hyp Hr; by simplify_eq/=. Qed.

Lemma auth_no_stream fs opts req resp :
  BasicAuth.pre_process fs opts req = Some (Ok resp) → body_stream (resp_body resp) = None.
Proof.
  unfold BasicAuth.pre_process. rewrite !error_response_Ok. cbn [rbind]. unfold rbind, unwrap.
  intros Hr. repeat case_hyp Hr; simplify_eq; apply html_page_no_stream.
Qed.

Lemma redirects_no_stream fs opts req resp :
  Redirects.pre_process fs opts req = Some (Ok resp) → body_stream (resp_body resp) = None.
Proof.
  unfold Redirects.pre_process, handle_error, error_response. intros Hr.
  repeat case_hyp Hr; simplify_eq; first [apply html_page_no_stream|done].
Qed.

Lemma rewrites_no_stream fs opts req resp req' :
  Rewrites.pre_process fs opts req = (Some (Ok resp), req') → body_stream (resp_body resp) = None.
Proof.
  unfold Rewrites.pre_process, handle_error, error_response. intros Hr.
  repeat case_hyp Hr; simplify_eq; first [apply html_page_no_stream|done].
Qed.

(** Without the cache the static files answer [OPTIONS] with no body. *)
Lemma static_options_no_stream w opts req r :
  req_method req = OPTIONS → memory_cache opts = None → static_response w opts req = Ok r →
  body_stream (resp_body r.1) = None.
Proof.
  intros Ho Hmc. unfold static_response, error_response. cbn [rbind].
  destruct (StaticFiles.handle _ _ _) as [sf|st|] eqn:E; intros Hr; simplify_eq; [|apply html_page_no_stream].
  unfold StaticFiles.handle, cache_lookup in E. cbn [ho_method ho_memory_cache handle_opts_of] in E.
  rewrite Ho, Hmc in E. cbn [is_allowed negb rbind] in E. simpl negb in E. cbv iota in E.
  apply rbind_Ok in E as (p & _ & E). cbn [rbind] in E. apply rbind_Ok in E as (fm & _ & E).
  unfold reply, slash_redirect in E. cbn [ho_method handle_opts_of] in E. rewrite Ho in E.
  change (is_options OPTIONS) with true in E. unfold rbind in E. repeat case_hyp E; by simplify_eq/=.
Qed.

(** The last steps leave the body of an answer to [OPTIONS] alone. *)
Lemma post_options_body fs opts req resp file_path resp' :
  req_method req = OPTIONS → post_process fs opts req resp file_path = Ok resp' →
  resp_body resp' = resp_body resp.
Proof.
  intros Ho. unfold post_process.
  destruct (FallbackPage.fallback_spec opts req resp) as (r1 & -> & _ & Hb1). cbn [rbind].
  assert (r1 = resp) as -> by (destruct Hb1 as [->|[Hg _]]; [done|congruence]).
  destruct (Cors.cors_post_cases opts req resp) as (r2 & -> & _ & Hb2 & _). cbn [rbind].
  assert (∃ r3, CompressionStatic.post_process opts req r2 = Ok r3 ∧ resp_body r3 = resp_body r2)
    as (r3 & -> & Hb3).
  { unfold CompressionStatic.post_process. destruct (compression_static opts); by eexists. }
  cbn [rbind]. destruct (Compression.compression_post_options fs opts req r3 Ho) as (r4 & -> & Hb4). cbn [rbind].
  destruct (ControlHeaders.cache_control_post_Ok opts req r4) as (r5 & -> & _ & Hb5). cbn [rbind].
  destruct (SecurityHeaders.security_post_Ok opts req r5) as (r6 & -> & _ & Hb6). cbn [rbind].
  destruct (CustomHeaders.custom_post_Ok opts req r6 file_path) as (r7 & -> & _ & Hb7).
  intros [= <-]. congruence.
Qed.

(** C2. The authentication guard: with credentials configured, a request that does not
    present them gets no file.  With a method other than [OPTIONS] it is answered by
    an enabled endpoint that needs no authentication (health, metrics), or refused:
    405, 403 by CORS, 401, or 500 when the configured credentials have no colon.  [OPTIONS]
    requests are exempt from authentication; without the in-memory cache they get no
    file either (with it they do: [CacheProtocol.options_on_cached_file]). *)
Theorem handle_auth_guard w opts req :
  world_ok opts w → basic_auth opts ≠ "" → ¬ authenticated (basic_auth opts) (req_headers req) →
  (req_method req = OPTIONS → memory_cache opts = None) →
  ∃ resp, handle w opts req = Ok resp
    ∧ body_stream (resp_body resp) = None
    ∧ (req_method req ≠ OPTIONS →
       resp_status resp = SC_OK ∧ health opts = true ∧ uri_path (req_uri req) = "/health"
       ∨ resp_status resp = SC_OK ∧ experimental_metrics opts = true ∧ uri_path (req_uri req) = "/metrics"
       ∨ resp_status resp = SC_METHOD_NOT_ALLOWED ∧ req_method req ∉ [GET; HEAD]
       ∨ resp_status resp = SC_FORBIDDEN ∧ is_Some (hm_get (req_headers req) H_ORIGIN)
       ∨ resp_status resp = SC_UNAUTHORIZED
       ∨ resp_status resp = SC_INTERNAL_SERVER_ERROR
         ∧ split_once ":"%char (basic_auth opts) = None).
Proof.
  intros Hw Hne Hna Hopt. destruct (is_allowed (req_method req)) eqn:Hal.
  2: { rewrite handle_method_not_allowed by done. eexists. split_and!; [done|apply html_page_no_stream|].
       intros _. right; right; left. split; [done|]. intros Hin.
       assert (req_method req = GET ∨ req_method req = HEAD) as [Hm|Hm] by set_solver;
         by rewrite Hm in Hal. }
  destruct (handle_total w opts req Hw) as [resp Hr]. exists resp. split; [done|]. revert Hr.
  unfold handle. rewrite Hal. cbn [negb]. cbv iota. unfold or_else.
  destruct (Health.pre_process opts req) as [r|] eqn:H1'.
  { intros ->. split; [by eapply health_no_stream|]. intros _. left.
    by destruct (Health.health_pre_Some _ _ _ H1') as (? & ? & _ & ? & [= <-] & ?). }
  destruct (Metrics.pre_process _ opts req) as [r|] eqn:H2'.
  { intros ->. split; [by eapply metrics_no_stream|]. intros _. right; left.
    by destruct (metrics_Ok _ _ _ _ Hw H2') as (? & [= <-] & ? & ? & ?). }
  destruct (Cors.pre_process _ opts req) as [r|] eqn:H3'.
  { destruct (cors_pre_Some _ _ _ _ H3') as [-> Ho]. intros [= <-]. split; [apply html_page_no_stream|].
    intros _. by right; right; right; left. }
  pose proof (BasicAuth.auth_pre_cases (w_fs w) opts req) as H4'.
  destruct (BasicAuth.pre_process _ opts req) as [r|] eqn:E4.
  { intros ->. split; [by eapply auth_no_stream|]. destruct H4' as (? & [= <-] & _ & _ & _ & Hst).
    intros _. do 4 right. destruct (split_once _ _); [left; naive_solver|right; done]. }
  assert (req_method req = OPTIONS) as Ho by naive_solver. clear H4'. specialize (Hopt Ho).
  intros Hr. split; [|done]. revert Hr.
  unfold MaintenanceMode.pre_process, MaintenanceMode.get_response.
  destruct (maintenance_mode opts); [intros [= <-]; apply html_page_no_stream|].
  destruct (Redirects.pre_process _ opts req) as [r|] eqn:E5; [intros ->; by eapply redirects_no_stream|].
  pose proof (Rewrites.rewrites_pre_cases (w_fs w) opts req) as H6'.
  destruct (Rewrites.pre_process _ opts req) as [[r|] req'] eqn:E6; [intros ->; by eapply rewrites_no_stream|].
  unfold serve. intros (r & Hs & Hp)%rbind_Ok.
  assert (req_method req' = OPTIONS) as Ho' by (destruct H6'; congruence).
  rewrite (post_options_body _ _ _ _ _ _ Ho' Hp). by eapply static_options_no_stream.
Qed.

(** Maintenance mode: a request that no earlier check answers is answered with the
    maintenance page and status, whatever it asks for; no redirect, rewrite or file
    is used. *)
Theorem handle_maintenance w opts req :
  world_ok opts w → is_allowed (req_method req) = true → maintenance_mode opts = true →
  Health.pre_process opts req = None → Metrics.pre_process (w_metrics w) opts req = None →
  Cors.pre_process (w_fs w) opts req = None → BasicAuth.pre_process (w_fs w) opts req = None →
  ∃ resp, handle w opts req = Ok resp
    ∧ resp_status resp = maintenance_mode_status opts
    ∧ resp_body resp
      = (if is_head (req_method req) then BodyEmpty
         else BodyBytes (maintenance_content (w_fs w) (maintenance_mode_status opts)
                           (maintenance_mode_file opts))).
Proof.
  intros Hw Hal Hm H1' H2' H3' H4'. unfold handle. rewrite Hal, H1', H2', H3', H4'.
  rewrite maintenance_pre_on by done. cbn. by eexists.
Qed.

(** *** Confinement of the whole handler *)

(** The roots a request can be served from. *)
Definition roots (opts : RequestHandlerOpts) : list string :=
  root_dir opts ::
  match advanced_opts opts ≫= adv_virtual_hosts with
  | Some vhosts => vh_root <$> vhosts
  | None => []
  end.

(** The configured pages look alike. *)
Definition agree_pages (opts : RequestHandlerOpts) (fs1 fs2 : FileSystem) : Prop :=
  Forall (λ p, fs_metadata fs1 p = fs_metadata fs2 p ∧ fs_read fs1 p = fs_read fs2 p)
    [page404 opts; page50x opts; maintenance_mode_file opts].

Lemma vhost_loop_root host vhosts root :
  vhost_loop host vhosts = Some root → root ∈ vh_root <$> vhosts.
Proof.
  induction vhosts as [|v l IH]; simpl; [done|]. destruct (str_eqb _ _).
  - intros [= <-]. left.
  - intros ?%IH. by right.
Qed.

Lemma base_path_in_roots opts req : base_path_of opts req ∈ roots opts.
Proof.
  unfold base_path_of, roots. destruct (advanced_opts opts) as [adv|]; [|left]. simpl.
  unfold get_real_root. destruct (adv_virtual_hosts adv) as [vh|]; [|left].
  destruct (hm_get _ _) as [v|]; [|left]. destruct (hv_to_str v) as [h|]; [|left].
  destruct (vhost_loop h vh) as [root|] eqn:E; [|left]. right. by eapply vhost_loop_root.
Qed.

Section Agree.
Context (opts : RequestHandlerOpts) (fs1 fs2 : FileSystem) (Hp : agree_pages opts fs1 fs2).

Lemma page_agree p :
  p = page404 opts ∨ p = page50x opts ∨ p = maintenance_mode_file opts →
  page_file_content fs1 p = page_file_content fs2 p ∧ path_is_file fs1 p = path_is_file fs2 p
  ∧ read_bytes_default fs1 p = read_bytes_default fs2 p.
Proof.
  intros Hin. unfold agree_pages in Hp. rewrite Forall_forall in Hp.
  destruct (Hp p) as [Hm Hr]; [set_solver|].
  unfold page_file_content, path_is_file, read_bytes_default. by rewrite Hm, Hr.
Qed.

Lemma error_response_agree uri m s :
  error_response fs1 uri m s (page404 opts) (page50x opts)
  = error_response fs2 uri m s (page404 opts) (page50x opts).
Proof.
  rewrite !error_response_Ok. unfold page_content.
  destruct (page_agree (page404 opts)) as [-> _]; [auto|].
  by destruct (page_agree (page50x opts)) as [-> _]; [auto|].
Qed.

Lemma pre_process_agree req :
  Cors.pre_process fs1 opts req = Cors.pre_process fs2 opts req
  ∧ BasicAuth.pre_process fs1 opts req = BasicAuth.pre_process fs2 opts req
  ∧ MaintenanceMode.pre_process fs1 opts req = MaintenanceMode.pre_process fs2 opts req
  ∧ Redirects.pre_process fs1 opts req = Redirects.pre_process fs2 opts req
  ∧ Rewrites.pre_process fs1 opts req = Rewrites.pre_process fs2 opts req.
Proof.
  split_and!.
  - unfold Cors.pre_process. by rewrite error_response_agree.
  - unfold BasicAuth.pre_process. by rewrite !error_response_agree.
  - unfold MaintenanceMode.pre_process, get_response, maintenance_content.
    by destruct (page_agree (maintenance_mode_file opts)) as (_ & -> & ->); [auto|].
  - unfold Redirects.pre_process, handle_error. by rewrite error_response_agree.
  - unfold Rewrites.pre_process, handle_error. by rewrite error_response_agree.
Qed.

Lemma post_process_agree req resp file_path :
  post_process fs1 opts req resp file_path = post_process fs2 opts req resp file_path.
Proof.
  unfold post_process.
  assert (∀ r, Compression.post_process fs1 opts req r = Compression.post_process fs2 opts req r) as Hc.
  { intros r. unfold Compression.post_process. by rewrite error_response_agree. }
  destruct (FallbackPage.post_process _ _ _); [|done|done]. cbn [rbind].
  destruct (Cors.post_process _ _ _); [|done|done]. cbn [rbind].
  destruct (CompressionStatic.post_process _ _ _); [|done|done]. cbn [rbind]. by rewrite Hc.
Qed.

End Agree.

(** C1. Confinement of the server: the answer to a request does not depend on any file
    outside the root it is served from and the configured pages.  If two file
    systems agree under that root (the one of the virtual host that the request
    names, else the main one; the other hosts' files do not matter) and on the
    error and maintenance pages, the whole handler gives the same answer.  The index
    names are taken to be plain file names.  A request that, after rewriting, names
    the root itself is where the code looks outside: it tries the root's name with
    [.html] or the extension of a coding added, so there the two file systems have
    to agree on those siblings too. *)
Theorem handle_reads_only_roots fs1 fs2 store metrics opts req :
  let req' := (Rewrites.pre_process fs1 opts req).2 in
  agree_under (base_path_of opts req') fs1 fs2 →
  agree_pages opts fs1 fs2 → Forall valid_name (index_files opts) →
  (request_names (uri_path (req_uri req')) = [] → agree_siblings (base_path_of opts req') fs1 fs2) →
  handle {| w_fs := fs1; w_store := store; w_metrics := metrics |} opts req
  = handle {| w_fs := fs2; w_store := store; w_metrics := metrics |} opts req.
Proof.
  intros req' Hr Hp Hidx Hn. subst req'. unfold handle. cbn [w_fs w_metrics].
  rewrite (error_response_agree opts fs1 fs2 Hp).
  destruct (pre_process_agree opts fs1 fs2 Hp req) as (<- & <- & <- & <- & <-).
  destruct (Rewrites.pre_process fs1 opts req) as [[r|] req']; [done|]. simpl in Hr, Hn.
  unfold serve, static_response. cbn [w_fs w_store].
  assert (StaticFiles.handle fs1 store (handle_opts_of opts req')
          = StaticFiles.handle fs2 store (handle_opts_of opts req')) as <-.
  { by apply handle_confined. }
  destruct (StaticFiles.handle fs1 store _) as [r|s|]; cbn [rbind]; [|..|done].
  - by rewrite (post_process_agree opts fs1 fs2 Hp).
  - rewrite (error_response_agree opts fs1 fs2 Hp), !error_response_Ok. cbn [rbind].
    by rewrite (post_process_agree opts fs1 fs2 Hp).
Qed.

(** With a fallback page, a [GET] is never answered 404 (no advanced options, not
    in maintenance): single-page applications always get their page. *)
Theorem handle_fallback_never_404 w opts req :
  world_ok opts w → req_method req = GET → page_fallback opts ≠ "" →
  advanced_opts opts = None → maintenance_mode opts = false →
  ∃ resp, handle w opts req = Ok resp ∧ resp_status resp ≠ SC_NOT_FOUND.
Proof.
  intros Hw Hg Hf Ha Hm. unfold handle, or_else. rewrite Hg. cbn [negb is_allowed]. simpl negb. cbv iota.
  destruct (Health.pre_process opts req) as [r|] eqn:H1'.
  { destruct (Health.health_pre_Some _ _ _ H1') as (_ & _ & _ & r' & -> & Hs).
    exists r'. by rewrite Hs. }
  destruct (Metrics.pre_process _ opts req) as [r|] eqn:H2'.
  { destruct (metrics_Ok _ _ _ _ Hw H2') as (r' & -> & _ & _ & Hs). exists r'. by rewrite Hs. }
  destruct (Cors.pre_process _ opts req) as [r|] eqn:H3'.
  { destruct (cors_pre_Some _ _ _ _ H3') as [-> _]. by eexists. }
  pose proof (BasicAuth.auth_pre_cases (w_fs w) opts req) as H4'.
  destruct (BasicAuth.pre_process _ opts req) as [r|].
  { destruct H4' as (r' & -> & _ & _ & _ & Hs). exists r'. split; [done|].
    destruct (split_once _ _); [destruct Hs as [-> _]|rewrite Hs]; done. }
  unfold MaintenanceMode.pre_process, Redirects.pre_process, Rewrites.pre_process.
  rewrite Hm, Ha. simpl mbind. cbv iota. unfold serve.
  destruct (static_response_Ok w opts req (wok_fs _ _ Hw) (wok_store _ _ Hw)) as [[r p] ->]. cbn [rbind fst snd].
  destruct (handler_post_Ok (w_fs w) opts req r p) as (r' & -> & _ & Hnf). eauto.
Qed.

End Handler.

(** ** Witnesses *)

Definition get_request (path : string) (headers : HeaderMap) : Request := {|
  req_method := GET;
  req_uri := {| uri_scheme := None; uri_authority := None;
                uri_path_and_query := Some {| pq_path := path; pq_query := None |} |};
  req_headers := headers
|}.

(** The default options with a root, and some features. *)
Definition sample_handler_opts (auth fallback : string) (maintenance : bool) : RequestHandlerOpts := {|
  root_dir := "/srv"; memory_cache := None; compression := true; compression_level := LevelDefault;
  compression_static := false; dir_listing := true; dir_listing_order := 6;
  dir_listing_format := Html; opt_cors := None; security_headers := true;
  cache_control_headers := true; page404 := "/pages/404.html"; page50x := "/pages/50x.html";
  page_fallback := fallback; basic_auth := auth; index_files := ["index.html"];
  log_remote_address := false; log_forwarded_for := false; trusted_proxies := [];
  redirect_trailing_slash := true; ignore_hidden_files := true; disable_symlinks := false;
  health := true; experimental_metrics := false; maintenance_mode := maintenance;
  maintenance_mode_status := SC_SERVICE_UNAVAILABLE; maintenance_mode_file := "/pages/down.html";
  advanced_opts := None
|}.

Definition sample_world (t : list Node) : World :=
  {| w_fs := table_fs t; w_store := None; w_metrics := Some "" |}.

Lemma sample_world_ok auth fallback maintenance t :
  Forall (λ n, node_entries n = []) t →
  world_ok (sample_handler_opts auth fallback maintenance) (sample_world t).
Proof.
  intros Ht. split; [|by intros []|done].
  apply table_fs_total. eapply Forall_impl; [done|]. intros n ->. done.
Qed.

(** Two virtual hosts: a request for the first does not see a file of the second. *)
Definition vhosts_opts : RequestHandlerOpts :=
  set_advanced_opts (Some {| adv_headers := None; adv_rewrites := None; adv_redirects := None;
    adv_virtual_hosts := Some [{| vh_host := "a.com"; vh_root := "/a" |}; {| vh_host := "b.com"; vh_root := "/b" |}];
    adv_memory_cache := None |}) (sample_handler_opts "" "" false).

Lemma handle_reads_only_roots_witness :
  let t := [file_node "/a/x.txt" "hello" 5000000000] in
  let answer t path :=
    handle {| w_fs := table_fs t; w_store := None; w_metrics := None |} vhosts_opts
      (get_request path (hm_insert H_HOST "a.com" hm_new)) in
  let secret := file_node "/b/x.txt" "secret" 1 in
  answer t "/..%2f../b/x.txt" = answer (secret :: t) "/..%2f../b/x.txt"
  ∧ answer t "/" = answer (secret :: t) "/".
Proof.
  intros t answer secret. split; apply handle_reads_only_roots.
  1,5: apply table_fs_agree; [vm_compute; reflexivity|by repeat constructor|done].
  1,4: repeat constructor.
  1,3: repeat constructor; vm_compute; congruence.
  - vm_compute. congruence.
  - intros _. apply table_fs_siblings; [done|]. intros (f & s & Hf & _ & Hc).
    change (Some "a" = Some f) in Hf. injection Hf as <-. discriminate Hc.
Defined.

(** A wrong password: nothing of the file is served. *)
Lemma handle_auth_guard_witness :
  let req := get_request "/a.txt" (hm_insert H_AUTHORIZATION "Basic YWRtaW46Z3Vlc3M=" hm_new) in
  let w := sample_world [file_node "/srv/a.txt" "hello" 5000000000] in
  ∃ resp, handle w (sample_handler_opts "admin:h$secret" "" false) req = Ok resp
          ∧ body_stream (resp_body resp) = None.
Proof.
  intros req w.
  destruct (handle_auth_guard w (sample_handler_opts "admin:h$secret" "" false) req)
    as (resp & Hr & Hb & _); [apply sample_world_ok; by repeat constructor|done| |done|].
  - intros (user & hash & password & Hs & Ht & Hv).
    change (Some ("admin", "h$secret") = Some (user, hash)) in Hs. injection Hs as <- <-.
    change (Some ("admin", "guess") = Some ("admin", password)) in Ht. injection Ht as <-.
    discriminate Hv.
  - exists resp. split; [exact Hr|exact Hb].
Defined.

Lemma handle_maintenance_witness :
  let w := sample_world [file_node "/srv/a.txt" "hello" 5000000000] in
  ∃ resp, handle w (sample_handler_opts "" "" true) (get_request "/a.txt" hm_new) = Ok resp
          ∧ resp_status resp = SC_SERVICE_UNAVAILABLE.
Proof.
  intros w.
  destruct (handle_maintenance w (sample_handler_opts "" "" true) (get_request "/a.txt" hm_new))
    as (resp & Hr & Hs & _); try reflexivity; [apply sample_world_ok; by repeat constructor|].
  exists resp. split; [exact Hr|exact Hs].
Defined.

Lemma handle_fallback_witness :
  let w := sample_world [file_node "/srv/index.html" "app" 5000000000] in
  ∃ resp, handle w (sample_handler_opts "" "<app>" false) (get_request "/some/route" hm_new) = Ok resp
    ∧ resp_status resp ≠ SC_NOT_FOUND.
Proof.
  intros w. apply handle_fallback_never_404; try reflexivity; [|done].
  apply sample_world_ok. by repeat constructor.
Defined.
