(* ===== verification/Service.v ===== *)
(** * The Hyper service: [service.rs]

    A router service makes one request service per connection, with the peer
    address of the connection; a request service logs the request and delegates
    to the request handler.  A connection is anything of the class [Transport],
    so that the service is proved for plain and for TLS connections at once. *)

From S2P Require Import Prelude RustStr Logger IpAddr RustPath Fs FsStream ContentCoding Http.
From S2P Require Import HttpInstances Opts FsPath ErrorPage MemCache DirectoryListing StaticFiles Cors.
From S2P Require Import BasicAuth LogAddr Handler Transport Tls.

Open Scope sws_scope.

Section Service.
Context `{!HttpC, !HeadersC, !MatchC, !PercentC, !ListingC, !OriginC, !BcryptC}.
Context (method_display : Method → string) (uri_display : Uri → string).

(** [Arc<RequestHandler>] is its options, which never change. *)
Record RequestServiceBuilder : Type := { rb_handler : RequestHandlerOpts }.

Record RequestService : Type := {
  rs_handler : RequestHandlerOpts;
  rs_remote_addr : option SocketAddr
}.

Record RouterService : Type := { ro_builder : RequestServiceBuilder }.

Definition service_builder_new (handler : RequestHandlerOpts) : RequestServiceBuilder :=
  {| rb_handler := handler |}.

(** [RequestServiceBuilder::build] *)
Definition service_build (b : RequestServiceBuilder) (remote_addr : option SocketAddr) : RequestService :=
  {| rs_handler := rb_handler b; rs_remote_addr := remote_addr |}.

(** [RouterService::new] *)
Definition router_new (handler : RequestHandlerOpts) : RouterService :=
  {| ro_builder := service_builder_new handler |}.

(** [poll_ready] of both services *)
Definition service_poll_ready : Poll (Result unit Error) := Ready (Ok ()).

(** [<RouterService as Service<&T>>::call] *)
Definition router_call {Cx T} `{!Transport Cx T} (r : RouterService) (conn : T) : RequestService :=
  service_build (ro_builder r) (remote_addr conn).

(** [<RequestService as Service<Request<Body>>>::call]: the line that is logged and
    the answer of the handler. *)
Definition request_call (w : World) (s : RequestService) (req : Request)
    : Event * Result Response Error :=
  (LogAddr.pre_process method_display uri_display (rs_handler s) req (rs_remote_addr s),
   Handler.handle w (rs_handler s) req).

(** ** TLS connections *)

Section Connection.
Context `{Htls : !TlsC}.

Lemma poll_op_remote_addr cx op (t : TlsStream) o t' :
  poll_op cx op t = Ok (o, t') → ts_remote_addr t' = ts_remote_addr t.
Proof.
  intros Hp. destruct op; cbn in Hp; apply rbind_Ok in Hp as ([r t1] & Hp & Heq); simplify_eq/=;
    unfold tls_poll_read, tls_poll_write, tls_poll_flush, tls_poll_shutdown, after_handshake in Hp;
    repeat (case_hyp Hp || (apply rbind_Ok in Hp as (? & ? & Hp))); by simplify_eq.
Qed.

Lemma run_remote_addr ops (t : TlsStream) os t' :
  run ops t = Ok (os, t') → ts_remote_addr t' = ts_remote_addr t.
Proof.
  revert t os. induction ops as [|[cx op] ops IH]; intros t os Hr; cbn in Hr; [by simplify_eq|].
  apply rbind_Ok in Hr as ([o t1] & Ho & Hr). apply rbind_Ok in Hr as ([os' t2] & Hos & Hr). simplify_eq/=.
  rewrite (IH _ _ Hos). by eapply poll_op_remote_addr.
Qed.

(** Requests over TLS are answered by the handler with the address of the TCP
    peer: at any point of the connection (during the handshake or after any
    operations), the service made for it logs that address when the option is on,
    and its answer is the handler's. *)
Lemma tls_requests_reach_handler sock config ops os t opts w req :
  run ops (tls_stream_new sock config) = Ok (os, t) →
  let out := request_call w (router_call (router_new opts) t) req in
  out.2 = Handler.handle w opts req
  ∧ (log_remote_address opts = true →
     ∃ rest, ev_text out.1 = concat_str ["incoming request: method="; method_display (req_method req); " uri=";
                                   uri_display (req_uri req); " remote_addr=";
                                   addr_display (addr_remote_addr sock); rest]).
Proof.
  intros Hr%run_remote_addr out. split; [done|]. intros Hl.
  exists (if trusts_forwarded opts (Some (addr_remote_addr sock)) then
            match real_remote_ip req with
            | Some real_ip => concat_str [" real_remote_ip="; ip_display real_ip]
            | None => ""
            end
          else "").
  unfold out, request_call, LogAddr.pre_process, remote_addrs. cbn [fst rs_handler rs_remote_addr
    router_call service_build ro_builder router_new service_builder_new rb_handler].
  cbn [remote_addr TlsStream_transport]. rewrite Hr. cbn [ts_remote_addr tls_stream_new]. rewrite Hl.
  destruct (health opts && _); cbn [ev_text tracing concat_str foldr]; by rewrite ?append_assoc, ?append_nil_r.
Qed.

End Connection.

End Service.

Lemma tls_requests_witness :
  let peer := {| sa_ip := V4 {| oct_a := 1; oct_b := 2; oct_c := 3; oct_d := 4 |};
                 sa_port := 5; sa_scope_id := 0 |} in
  let cfg := Build_ServerConfig (Htls := tls_sample) ([], "k") [] in
  let opts := sample_handler_opts "" "" false in
  let w := sample_world [dir_node "/srv"; file_node "/srv/a.txt" "hello" 5000000000] in
  (request_call (λ _, "GET") (λ _, "/") w
     (router_call (router_new opts) (tls_stream_new (Htls := tls_sample) peer cfg))
     (get_request "/a.txt" hm_new)).2
  = Handler.handle w opts (get_request "/a.txt" hm_new).
Proof.
  intros peer cfg opts w.
  apply (tls_requests_reach_handler (Htls := tls_sample) (λ _, "GET") (λ _, "/") peer cfg [] []).
  reflexivity.
Defined.
