(* ===== verification/Server.v ===== *)
(** * Starting the server: [server.rs]

    [Server::new] and the part of [start_server] that turns the settings into the
    options of the request handler, with the [init] functions of the features it
    calls, and the service that redirects HTTP to HTTPS.  The process-wide state
    they touch is [Globals]: the store of the in-memory cache and whether the
    runtime collector is registered with the metrics registry.  The listener and
    the services are in [StartServer]. *)

From S2P Require Import Prelude RustStr Logger RustPath Fs FsStream ContentCoding Http HttpInstances.
From S2P Require Import Opts Settings FsPath FsMeta ErrorPage Compression CompressionStatic MemCache.
From S2P Require Import DirectoryListing StaticFiles Cors ControlHeaders SecurityHeaders Health Metrics.
From S2P Require Import MaintenanceMode FallbackPage VirtualHosts BasicAuth HttpsRedirect LogAddr Handler.

Open Scope sws_scope.

Section Server.
Context `{!HttpC, !HeadersC, !MatchC, !PercentC, !ListingC, !OriginC, !BcryptC, !ConfigC, !TracingC}.

Record Server : Type := {
  sv_opts : Settings;
  sv_worker_threads : Z;
  sv_max_blocking_threads : Z
}.

(** [Server::new]; [cpus] is the answer of [available_parallelism]. *)
Definition server_new (cpus : option Z) (opts : Settings) : Result Server Error :=
  let? cpus := ok_or cpus "unable to get current platform cpus" in
  let n := g_threads_multiplier (s_general opts) in
  let worker_threads := if ((n =? 0) || (n =? 1))%Z then cpus else wrap_u64 (cpus * n) in
  Ok {| sv_opts := opts; sv_worker_threads := worker_threads;
        sv_max_blocking_threads := g_max_blocking_threads (s_general opts) |}.

Record Globals : Type := {
  gl_store : option CacheStore;
  gl_collector : bool
}.

(** An error page given by a relative path is looked up in the root directory. *)
Definition page_path (root_dir page : string) : string :=
  if is_relative page && negb (path_starts_with root_dir page) then path_join root_dir page
  else page.

(** A comma-separated option: index files, hosts to redirect from. *)
Definition comma_list (s : string) : list string := trim <$> split ","%char s.

(** [start_server] from the check of the root to the router service: the options
    with the settings that belong to no feature, then the [init] of every feature,
    which fills in its own. *)
Definition handler_opts (fs : FileSystem) (gl : Globals) (settings : Settings)
    : Logged (Globals * RequestHandlerOpts) :=
  let general := s_general settings in
  let! root := lift match get_valid_dirpath fs (g_root general) with
                    | Ok root => Ok root
                    | Err _ => Err "root directory was not found or inaccessible"
                    | Panic => Panic
                    end in
  let p404 := page_path root (g_page404 general) in
  let! _ := log_if (negb (path_is_file fs p404))
    (tracing DEBUG "server" (concat_str ["404 file path not found or not a regular file: "; show_path p404])) in
  let p50x := page_path root (g_page50x general) in
  let! _ := log_if (negb (path_is_file fs p50x))
    (tracing DEBUG "server" (concat_str ["50x file path not found or not a regular file: "; show_path p50x])) in
  emit! server_info (concat_str ["redirect trailing slash: enabled=";
                                 show_bool (g_redirect_trailing_slash general)]) in
  emit! server_info (concat_str ["ignore hidden files: enabled="; show_bool (g_ignore_hidden_files general)]) in
  emit! server_info (concat_str ["disable symlinks: enabled="; show_bool (g_disable_symlinks general)]) in
  emit! server_info (concat_str ["grace period before graceful shutdown: "; dec (g_grace_period general); "s"]) in
  let indexes := comma_list (g_index_files general) in
  if bool_decide (indexes = []) then
    lift (Err "index files list is empty, provide at least one index file")
  else
    emit! server_info (concat_str ["index files: "; g_index_files general]) in
    let d := opts_default in
    let opts := {|
      root_dir := root; memory_cache := memory_cache d; compression := compression d;
      compression_level := compression_level d; compression_static := compression_static d;
      dir_listing := dir_listing d; dir_listing_order := dir_listing_order d;
      dir_listing_format := dir_listing_format d; opt_cors := opt_cors d;
      security_headers := security_headers d; cache_control_headers := cache_control_headers d;
      page404 := p404; page50x := p50x; page_fallback := page_fallback d; basic_auth := basic_auth d;
      index_files := indexes;
      log_remote_address := g_log_remote_address general;
      log_forwarded_for := g_log_forwarded_for general;
      trusted_proxies := g_trusted_proxies general;
      redirect_trailing_slash := g_redirect_trailing_slash general;
      ignore_hidden_files := g_ignore_hidden_files general;
      disable_symlinks := g_disable_symlinks general;
      health := health d; experimental_metrics := experimental_metrics d;
      maintenance_mode := maintenance_mode d; maintenance_mode_status := maintenance_mode_status d;
      maintenance_mode_file := maintenance_mode_file d;
      advanced_opts := s_advanced settings
    |} in
    let! opts := DirectoryListing.init (g_directory_listing general) (g_directory_listing_order general)
                   (g_directory_listing_format general) opts in
    let! opts := FallbackPage.init fs (g_page_fallback general) opts in
    let! opts := Health.init (g_health general) opts in
    let! opts := LogAddr.init (g_log_remote_address general) opts in
    let! r := Metrics.init (gl_collector gl) (g_experimental_metrics general) opts in
    let! opts := Cors.init (g_cors_allow_origins general) (g_cors_allow_headers general)
                   (g_cors_expose_headers general) r.2 in
    let! opts := BasicAuth.init (g_basic_auth general) opts in
    let! opts := MaintenanceMode.init (g_maintenance_mode general) (g_maintenance_mode_status general)
                   (g_maintenance_mode_file general) opts in
    let! opts := CompressionStatic.init (g_compression_static general) opts in
    let! opts := Compression.init (g_compression general) (g_compression_level general) opts in
    let! opts := ControlHeaders.init (g_cache_control_headers general) opts in
    let! opts := SecurityHeaders.init (g_security_headers general) opts in
    let! m := MemCache.init (gl_store gl) opts in
    lret ({| gl_store := m.1; gl_collector := r.1 |}, m.2).

(** The options of the redirect server. *)
Definition redirect_opts (general : General) : Result RedirectOpts Error :=
  let hosts := comma_list (g_https_redirect_from_hosts general) in
  if bool_decide (hosts = []) then Err "https redirect allowed hosts is empty"
  else Ok {| https_hostname := g_https_redirect_host general; https_port := g_port general;
             allowed_hosts := hosts |}.

(** The service of the redirect server: the redirect, or an error page. *)
Definition redirect_service (fs : FileSystem) (opts : RedirectOpts) (page404 page50x : string)
    (req : Request) : Result Response Error :=
  match redirect_to_https req opts with
  | Ok resp => Ok resp
  | Err status => error_response fs (req_uri req) (req_method req) status page404 page50x
  | Panic => Panic
  end.

(** ** Theorems *)

Lemma comma_list_not_nil s : comma_list s ≠ [].
Proof.
  unfold comma_list. pose proof (split_not_nil ","%char s). by destruct (split _ s).
Qed.

(** The options before the cache is set up, from the settings and what was read. *)
Definition features_opts (fs : FileSystem) (settings : Settings) (cors : option Configured)
    : RequestHandlerOpts :=
  let general := s_general settings in
  let root := g_root general in {|
    root_dir := root;
    memory_cache := None;
    compression := g_compression general;
    compression_level := g_compression_level general;
    compression_static := g_compression_static general;
    dir_listing := g_directory_listing general;
    dir_listing_order := g_directory_listing_order general;
    dir_listing_format := g_directory_listing_format general;
    opt_cors := cors;
    security_headers := g_security_headers general;
    cache_control_headers := g_cache_control_headers general;
    page404 := page_path root (g_page404 general);
    page50x := page_path root (g_page50x general);
    page_fallback := read_bytes_default fs (g_page_fallback general);
    basic_auth := trim (g_basic_auth general);
    index_files := comma_list (g_index_files general);
    log_remote_address := g_log_remote_address general;
    log_forwarded_for := g_log_forwarded_for general;
    trusted_proxies := g_trusted_proxies general;
    redirect_trailing_slash := g_redirect_trailing_slash general;
    ignore_hidden_files := g_ignore_hidden_files general;
    disable_symlinks := g_disable_symlinks general;
    health := g_health general;
    experimental_metrics := g_experimental_metrics general;
    maintenance_mode := g_maintenance_mode general;
    maintenance_mode_status := g_maintenance_mode_status general;
    maintenance_mode_file := g_maintenance_mode_file general;
    advanced_opts := s_advanced settings
  |}.

Lemma valid_dirpath_cases fs p :
  match get_valid_dirpath fs p with
  | Ok root => Ok root
  | Err _ => Err "root directory was not found or inaccessible"
  | Panic => Panic
  end = if path_is_dir fs p then Ok p else Err "root directory was not found or inaccessible".
Proof.
  unfold get_valid_dirpath. destruct (path_is_dir fs p) eqn:Hd.
  - by rewrite path_is_dir_exists.
  - by destruct (path_exists fs p).
Qed.

(** What the sequence of [init] calls amounts to: every option is the setting of the
    same name, whatever the defaults were; only the root, CORS, the metrics
    collector and the cache store can stop the start. *)
Lemma handler_opts_outcome fs gl settings :
  let general := s_general settings in
  outcome (handler_opts fs gl settings) =
  if negb (path_is_dir fs (g_root general)) then Err "root directory was not found or inaccessible"
  else if g_experimental_metrics general && gl_collector gl then Panic
  else
    let? cors := Cors.new (trim (g_cors_allow_origins general)) (trim (g_cors_allow_headers general))
                   (trim (g_cors_expose_headers general)) in
    let? m := outcome (MemCache.init (gl_store gl) (features_opts fs settings cors)) in
    Ok ({| gl_store := m.1; gl_collector := g_experimental_metrics general || gl_collector gl |}, m.2).
Proof.
  intros general. unfold handler_opts. fold general. rewrite outcome_bind. cbn [outcome lift snd]. rewrite valid_dirpath_cases.
  destruct (path_is_dir fs (g_root general)); [|done]. cbn [negb rbind]. rewrite !outcome_log_if.
  run_steps. rewrite bool_decide_false by apply comma_list_not_nil. unfold Metrics.init, Cors.init.
  destruct (g_experimental_metrics general) eqn:Hme, (gl_collector gl); cbn [andb orb];
    run_steps; [done|..];
    (destruct (Cors.new _ _ _) as [cors| |]; [|done..]);
    destruct (negb (is_empty (trim (g_cors_allow_origins general))));
    run_steps; rewrite outcome_bind; unfold features_opts; fold general; by rewrite Hme.
Qed.

(** The cache set-up touches no other option. *)
Lemma mem_init_Ok store opts r :
  outcome (MemCache.init store opts) = Ok r → memory_cache opts = None →
  (∃ mc, r = (Some ∅, set_memory_cache (Some mc) opts) ∧ is_Some (advanced_opts opts ≫= adv_memory_cache))
  ∨ r = (store, opts) ∧ advanced_opts opts ≫= adv_memory_cache = None.
Proof.
  intros Hi Hn. unfold MemCache.init in Hi. destruct (advanced_opts opts ≫= adv_memory_cache) as [mc|].
  - destruct store; [done|]. injection Hi as <-. left. eauto.
  - injection Hi as <-. by right.
Qed.

(** What starting establishes: the options are those of the features, with the cache
    when it is configured. *)
Lemma handler_opts_started fs gl settings gl' opts :
  outcome (handler_opts fs gl settings) = Ok (gl', opts) →
  path_is_dir fs (g_root (s_general settings)) = true
  ∧ ∃ cors, let f := features_opts fs settings cors in
      (∃ mc, opts = set_memory_cache (Some mc) f ∧ gl_store gl' = Some ∅
             ∧ is_Some (s_advanced settings ≫= adv_memory_cache))
      ∨ opts = f ∧ gl_store gl' = gl_store gl ∧ s_advanced settings ≫= adv_memory_cache = None.
Proof.
  rewrite handler_opts_outcome. cbv zeta. destruct (path_is_dir _ _); [|done]. cbn [negb].
  destruct (_ && _); [done|]. intros (cors & _ & Hr)%rbind_Ok. apply rbind_Ok in Hr as (m & Hm & Hr).
  injection Hr as <- <-. split; [done|]. exists cors.
  apply mem_init_Ok in Hm as [(mc & -> & ?)|[-> ?]]; [left; eauto|by right|done].
Qed.

Lemma handler_opts_Ok fs gl settings gl' opts :
  outcome (handler_opts fs gl settings) = Ok (gl', opts) →
  path_is_dir fs (root_dir opts) = true ∧ root_dir opts = g_root (s_general settings)
  ∧ advanced_opts opts = s_advanced settings ∧ index_files opts ≠ []
  ∧ page404 opts = page_path (root_dir opts) (g_page404 (s_general settings))
  ∧ page50x opts = page_path (root_dir opts) (g_page50x (s_general settings))
  ∧ (is_Some (memory_cache opts) ↔ is_Some (s_advanced settings ≫= adv_memory_cache))
  ∧ (is_Some (memory_cache opts) → gl_store gl' = Some ∅).
Proof.
  intros (Hd & cors & [(mc & -> & Hg & Ha)|(-> & _ & Ha)])%handler_opts_started; cbn.
  - split_and!; try done. apply comma_list_not_nil.
  - rewrite Ha. split_and!; try done. apply comma_list_not_nil.
Qed.

Lemma handler_opts_security fs gl settings gl' opts :
  outcome (handler_opts fs gl settings) = Ok (gl', opts) →
  security_headers opts = g_security_headers (s_general settings).
Proof. by intros (_ & cors & [(mc & -> & _)|(-> & _)])%handler_opts_started. Qed.

(** Without a cache the options are those of the features. *)
Lemma handler_opts_uncached fs gl settings gl' opts :
  outcome (handler_opts fs gl settings) = Ok (gl', opts) → s_advanced settings ≫= adv_memory_cache = None →
  ∃ cors, opts = features_opts fs settings cors.
Proof.
  intros (_ & cors & [(mc & _ & _ & Ha)|(-> & _)])%handler_opts_started Hn; [|eauto].
  rewrite Hn in Ha. by destruct Ha.
Qed.

(** C3. A server that starts answers every request: from settings the start accepts,
    whatever the files have become and whatever the cache holds by then, the handler
    returns a response for whatever it is asked.  The one exception is a [GET] of
    the metrics endpoint when the metrics crate cannot produce its text, which is
    unwrapped. *)
Theorem started_server_total fs gl settings gl' opts fs' store metrics req :
  outcome (handler_opts fs gl settings) = Ok (gl', opts) →
  fs_total fs' → (is_Some (gl_store gl') → is_Some store) →
  match Handler.handle {| w_fs := fs'; w_store := store; w_metrics := metrics |} opts req with
  | Ok _ => True
  | Err _ => False
  | Panic => metrics = None ∧ experimental_metrics opts = true
             ∧ req_method req = GET ∧ uri_path (req_uri req) = "/metrics"
  end.
Proof.
  intros Hs Hfs Hst'. apply (handle_outcome {| w_fs := fs' |}); [done|].
  apply handler_opts_Ok in Hs as (_ & _ & _ & _ & _ & _ & _ & Hst).
  intros Hmc. apply Hst'. rewrite (Hst Hmc). by eexists.
Qed.

Lemma page_path_located root page :
  is_absolute (page_path root page) = true ∨ path_starts_with root (page_path root page) = true.
Proof.
  unfold page_path, is_relative. destruct (is_absolute page) eqn:Ha; simpl; [by left|].
  destruct (path_starts_with root page) eqn:Hs; simpl; [by right|right].
  apply path_starts_with_true. unfold path_join.
  destruct (decide (root = "")) as [->|Hr]; [done|].
  eexists. by apply components_push_gen.
Qed.

(** C10. A server that starts is well configured: every root it can serve from (its
    own and those of the virtual hosts) is a directory, it has an index file name,
    the error pages are absolute or lie under the root, and the cache is in use
    exactly when it is configured, with an empty store. *)
Theorem started_configuration fs log_init cli settings gl gl' opts :
  outcome (read_settings fs log_init cli) = Ok settings →
  outcome (handler_opts fs gl settings) = Ok (gl', opts) →
  Forall (λ root, path_is_dir fs root = true) (roots opts)
  ∧ index_files opts ≠ []
  ∧ Forall (λ page, is_absolute page = true ∨ path_starts_with (root_dir opts) page = true)
      [page404 opts; page50x opts]
  ∧ (is_Some (memory_cache opts) ↔ is_Some (s_advanced settings ≫= adv_memory_cache))
  ∧ (is_Some (memory_cache opts) → gl_store gl' = Some ∅).
Proof.
  intros Hr Hs. apply handler_opts_Ok in Hs as (Hd & _ & Ha & Hi & H4' & H5' & Hm & Hst).
  split_and!; [|done| |done|done].
  - unfold roots. rewrite Ha. constructor; [done|].
    destruct (s_advanced settings) as [adv|] eqn:Hadv; simpl; [|constructor].
    destruct (adv_virtual_hosts adv) as [vs|] eqn:Hv; simpl; [|constructor].
    apply Forall_fmap. by eapply read_settings_vhosts.
  - rewrite H4', H5'. constructor; [apply page_path_located|].
    constructor; [apply page_path_located|constructor].
Qed.

End Server.

(** ** Witnesses *)

Definition sample_globals : Globals := {| gl_store := None; gl_collector := false |}.

(** With the cache configured, a file that is in the store is answered. *)
Lemma started_server_witness :
  let fs := table_fs [dir_node "/srv"] in
  let adv := {| adv_headers := None; adv_rewrites := None; adv_redirects := None; adv_virtual_hosts := None;
    adv_memory_cache := Some {| mc_capacity := None; mc_ttl := None; mc_tti := None; mc_max_file_size := None |} |} in
  let settings := {| s_general := sample_general "/etc/none.toml" "/srv"; s_advanced := Some adv |} in
  let store : CacheStore := {["/srv/a.txt" := mem_file_of "/srv/a.txt" "hello" (node_meta (file_node "/srv/a.txt" "hello" 1))]} in
  ∃ gl' opts resp, outcome (handler_opts fs sample_globals settings) = Ok (gl', opts)
    ∧ gl_store gl' = Some ∅
    ∧ Handler.handle {| w_fs := table_fs []; w_store := Some store; w_metrics := None |} opts
        (get_request "/a.txt" hm_new) = Ok resp.
Proof.
  intros fs adv settings store.
  destruct (outcome (handler_opts fs sample_globals settings)) as [[gl' opts]| |] eqn:E; [|discriminate E..].
  pose proof (started_server_total fs sample_globals settings gl' opts (table_fs []) (Some store) None
                (get_request "/a.txt" hm_new) E) as Ht.
  destruct (Handler.handle _ opts _) as [resp| |] eqn:Er.
  - exists gl', opts, resp. split; [done|]. split; [|exact Er].
    apply handler_opts_Ok in E as (_ & _ & _ & _ & _ & _ & Hm & Hst). apply Hst, Hm. by eexists.
  - destruct Ht; [apply table_fs_total; constructor|by eexists].
  - destruct Ht as (_ & _ & _ & Hp); [apply table_fs_total; constructor|by eexists|discriminate Hp].
Defined.

Lemma started_configuration_witness :
  let fs := table_fs [dir_node "/srv"; file_node "/srv/a.txt" "hello" 5000000000] in
  let cli := sample_general "/etc/none.toml" "/srv" in
  ∃ settings gl' opts, outcome (read_settings fs true cli) = Ok settings
    ∧ outcome (handler_opts fs sample_globals settings) = Ok (gl', opts)
    ∧ Forall (λ root, path_is_dir fs root = true) (roots opts).
Proof.
  intros fs cli. destruct (outcome (read_settings fs true cli)) as [settings| |] eqn:Hs; [|discriminate Hs..].
  assert (settings = {| s_general := cli; s_advanced := None |}) as -> by by injection Hs as <-.
  destruct (outcome (handler_opts fs sample_globals {| s_general := cli; s_advanced := None |}))
    as [[gl' opts]| |] eqn:E; [|discriminate E..].
  exists {| s_general := cli; s_advanced := None |}, gl', opts. split; [done|]. split; [done|].
  exact (proj1 (started_configuration fs true cli _ sample_globals gl' opts Hs E)).
Defined.
