(* ===== verification/StartServer.v ===== *)
(** * Starting to listen: [start_server] of [server.rs]

    The whole of [Server::start_server]: the listener (an inherited file
    descriptor or an address to bind), the options of the handler
    ([Server.handler_opts]), and the services that are started: HTTP/1 in clear,
    or HTTP/2 over TLS with, on request, the server that redirects from HTTP.
    Sockets and the registration of signals are the class [NetC]. *)

From S2P Require Import Prelude RustStr Logger IpAddr RustPath Fs FsStream ContentCoding Http.
From S2P Require Import HttpInstances Opts Settings FsPath FsMeta ErrorPage MemCache DirectoryListing StaticFiles.
From S2P Require Import Cors VirtualHosts BasicAuth HttpsRedirect LogAddr Handler Transport Tls.
From S2P Require Import Service Server Cli.

Open Scope sws_scope.

(** ** Sockets *)

(** [take_tcp_listener] is the [listenfd] crate, [from_std] is
    [tokio::net::TcpListener::from_std], [from_listener] is
    [AddrIncoming::from_listener], [hyper_from_tcp] is [HyperServer::from_tcp],
    whose failure panics. *)
Class NetC `{!TlsC} : Type := {
  TcpListener : Type;
  take_tcp_listener : Z → Result (option TcpListener) Error;
  tcp_bind : SocketAddr → option TcpListener;
  set_nonblocking : TcpListener → bool;
  TokioListener : Type;
  from_std : TcpListener → option TokioListener;
  from_listener : TokioListener → option AddrIncoming;
  hyper_from_tcp : TcpListener → bool;
  create_signals : bool
}.

Section StartServer.
Context `{!HttpC, !HeadersC, !MatchC, !PercentC, !ListingC, !OriginC, !BcryptC, !ConfigC, !TracingC}.
Context `{Htls : !TlsC, Hnet : !NetC}.

(** A service that is listening. *)
Inductive Listening : Type :=
| TlsService (acceptor : TlsAcceptor) (router : RouterService)
| PlainService (listener : TcpListener) (router : RouterService)
| RedirectService (listener : TcpListener) (opts : RedirectOpts) (page404 page50x : string).

(** [general.host.parse()], [SocketAddr::from((ip, port))] *)
Definition host_addr (host : string) (port : Z) : Result SocketAddr Error :=
  let? ip := ok_or (ip_parse host) (concat_str ["failed to parse "; host; " address"]) in
  Ok {| sa_ip := ip; sa_port := port; sa_scope_id := 0 |}.

(** [TcpListener::bind(addr)] *)
Definition bind_addr (addr : SocketAddr) : Result TcpListener Error :=
  ok_or (tcp_bind addr) (concat_str ["failed to bind to "; addr_display addr; " address"]).

Definition bind_host (host : string) (port : Z) : Result TcpListener Error :=
  let? addr := host_addr host port in bind_addr addr.

(** The listener, the inherited descriptor or the address, and how it is printed. *)
Definition tcp_listener (general : General) : Logged (TcpListener * string) :=
  match g_fd general with
  | Some fd =>
      let addr_str := concat_str ["@FD("; dec fd; ")"] in
      let! taken := lift (take_tcp_listener fd) in
      let! l := lift (ok_or taken "failed to convert inherited 'fd' into a 'tcp' listener") in
      emit! server_info (concat_str ["converted inherited file descriptor "; dec fd; " to a 'tcp' listener"]) in
      lret (l, addr_str)
  | None =>
      let! addr := lift (host_addr (g_host general) (g_port general)) in
      let! l := lift (bind_addr addr) in
      let addr_str := addr_display addr in
      emit! server_info (concat_str ["server bound to tcp socket "; addr_str]) in
      lret (l, addr_str)
  end.

Definition nonblocking (l : TcpListener) : Result unit Error :=
  if set_nonblocking l then Ok () else Err "failed to set TCP non-blocking mode".

Definition register_signals : Result unit Error :=
  if create_signals then Ok () else Err "failed to register termination signals".

(** [HyperServer::from_tcp(listener).unwrap()] *)
Definition hyper_server (l : TcpListener) : Result unit Error :=
  if hyper_from_tcp l then Ok () else Panic.

(** The reads of the two files of the TLS configuration, with enough fuel. *)
Definition tls_builder (cert key : string) : TlsConfigBuilder :=
  key_path key (cert_path cert builder_new).

Definition data_length (r : Result string IoError) : nat :=
  match r with Ok d => String.length d | _ => 0 end.

Definition tls_config (fs : FileSystem) (bufs : nat → nat * nat) (cert key : string)
    : Result ServerConfig Error :=
  let b := tls_builder cert key in
  match build fs bufs (S (data_length (source_data fs (tb_cert b)) + data_length (source_data fs (tb_key b)))) b with
  | Some (Ok config) => Ok config
  | Some Panic => Panic
  | _ => Err "failed to initialize TLS probably because invalid cert or key file"
  end.

(** HTTP/2 over TLS. *)
Definition start_http2 (fs : FileSystem) (bufs : nat → nat * nat) (general : General)
    (l : TcpListener) (addr_str : string) (opts : RequestHandlerOpts) : Logged Listening :=
  emit! server_info (concat_str ["http to https redirect: enabled="; show_bool (g_https_redirect general)]) in
  emit! server_info (concat_str ["http to https redirect host: "; g_https_redirect_host general]) in
  emit! server_info (concat_str ["http to https redirect from port: ";
                                 dec (g_https_redirect_from_port general)]) in
  emit! server_info (concat_str ["http to https redirect from hosts: ";
                                 g_https_redirect_from_hosts general]) in
  let! _ := lift (nonblocking l) in
  let! listener := lift (ok_or (from_std l) "failed to create tokio::net::TcpListener") in
  let! incoming := lift (ok_or (from_listener listener)
    "failed to create an AddrIncoming from the current tokio::net::TcpListener") in
  let! cert := lift (ok_or (g_http2_tls_cert general)
    "failed to initialize TLS because cert file missing") in
  let! key := lift (ok_or (g_http2_tls_key general) "failed to initialize TLS because key file missing") in
  let! tls := lift (tls_config fs bufs cert key) in
  let! _ := lift register_signals in
  emit! server_info (concat_str ["http2 server is listening on https://"; addr_str]) in
  lret (TlsService (acceptor_new tls incoming) (router_new opts)).

(** The server that redirects from HTTP, with the error pages of the handler. *)
Definition start_redirect (general : General) (opts : RequestHandlerOpts) : Logged Listening :=
  let! addr := lift (host_addr (g_host general) (g_https_redirect_from_port general)) in
  let! l := lift (bind_addr addr) in
  emit! server_info (concat_str ["http1 redirect server is listening on http://"; addr_display addr]) in
  let! _ := lift (nonblocking l) in
  let! _ := lift register_signals in
  let! ro := lift (redirect_opts general) in
  let! _ := lift (hyper_server l) in
  lret (RedirectService l ro (page404 opts) (page50x opts)).

(** HTTP/1 in clear. *)
Definition start_http1 (l : TcpListener) (addr_str : string) (opts : RequestHandlerOpts) : Logged Listening :=
  let! _ := lift register_signals in
  let! _ := lift (nonblocking l) in
  let! _ := lift (hyper_server l) in
  emit! server_info (concat_str ["http1 server is listening on http://"; addr_str]) in
  lret (PlainService l (router_new opts)).

(** [CARGO_PKG_NAME] and [CARGO_PKG_VERSION] *)
Definition CARGO_PKG : string := "static-web-server 2.34.0".

(** [Server::start_server], up to the point where the services are awaited;
    [threads] is the number of workers of the server. *)
Definition start_server (fs : FileSystem) (bufs : nat → nat * nat) (gl : Globals) (threads : Z)
    (settings : Settings) : Logged (Globals * list Listening) :=
  let general := s_general settings in
  emit! tracing Logger.TRACE "server" "starting web server" in
  emit! server_info CARGO_PKG in
  emit! server_info (concat_str ["log level: "; g_log_level general]) in
  emit! (if path_is_file fs (g_config_file general)
         then server_info (concat_str ["config file used: "; show_path (g_config_file general)])
         else tracing DEBUG "server" (concat_str ["config file path not found or not a regular file: ";
                                                  show_path (g_config_file general)])) in
  let! l := tcp_listener general in
  emit! server_info (concat_str ["runtime worker threads: "; dec threads]) in
  emit! server_info (concat_str ["runtime max blocking threads: "; dec (g_max_blocking_threads general)]) in
  let! r := handler_opts fs gl settings in
  if g_http2 general then
    let! http2 := start_http2 fs bufs general l.1 l.2 r.2 in
    if g_https_redirect general then
      let! redirect := start_redirect general r.2 in
      emit! server_info "press ctrl+c to shut down the servers" in
      lret (r.1, [http2; redirect])
    else
      emit! server_info "press ctrl+c to shut down the server" in
      lret (r.1, [http2])
  else
    let! http1 := start_http1 l.1 l.2 r.2 in
    emit! server_info "press ctrl+c to shut down the server" in
    lret (r.1, [http1]).

(** The answer of a service to a request. *)
Definition service_answer (fs : FileSystem) (w : World) (s : Listening) (req : Request)
    : Result Response Error :=
  match s with
  | TlsService _ router | PlainService _ router => Handler.handle w (rb_handler (ro_builder router)) req
  | RedirectService _ opts p404 p50x => redirect_service fs opts p404 p50x req
  end.

(** ** Lemmas *)

(** What a redirect server can answer: a redirect to the configured host, or the
    generic page of a bad request. *)
Lemma redirect_service_spec fs opts p404 p50x req :
  let location := concat_str ["https://"; https_hostname opts; ":"; dec (https_port opts);
                              uri_to_string (req_uri req)] in
  let allowed := ∃ host, typed_get decode_host H_HOST (req_headers req) = Some host ∧ host ∈ allowed_hosts opts in
  match redirect_service fs opts p404 p50x req with
  | Ok resp =>
      allowed ∧ resp_status resp = SC_MOVED_PERMANENTLY ∧ resp_body resp = BodyEmpty
        ∧ get_header resp H_LOCATION = Some location
      ∨ ¬ allowed ∧ resp_status resp = SC_BAD_REQUEST
        ∧ resp_body resp = if is_head (req_method req) then BodyEmpty else BodyBytes (generic_page SC_BAD_REQUEST)
  | Err _ => False
  | Panic => allowed ∧ hv_from_str location = None
  end.
Proof.
  intros location allowed. pose proof (redirect_to_https_spec req opts) as Hs. cbv zeta in Hs.
  fold location allowed in Hs. unfold redirect_service.
  destruct (redirect_to_https req opts) as [resp|s|]; [by left|destruct Hs as [-> Hna]|done].
  destruct (error_response_spec fs (req_uri req) (req_method req) SC_BAD_REQUEST p404 p50x)
    as (resp & content & -> & Hst & _ & _ & Hb & _ & Hc). right. split_and!; [done..|].
  rewrite Hb. destruct Hc as [->|[[Hc _]|[Hc _]]]; [done|discriminate Hc|discriminate Hc].
Qed.

Lemma tls_config_Ok fs bufs cert key config :
  fs_total fs → tls_config fs bufs cert key = Ok config →
  ∃ certs k, identity fs (tls_builder cert key) certs k
    ∧ with_single_cert certs k = inl (sc_base config) ∧ alpn_protocols config = ["h2"; "http/1.1"].
Proof.
  intros Hfs Ht. unfold tls_config in Ht. cbv zeta in Ht. set (b := tls_builder cert key) in *.
  match type of Ht with context [build fs bufs ?f b] => set (fuel := f) in Ht end.
  destruct (build_outcome fs bufs fuel b Hfs) as (r & Hb & Hr).
  - split_and!; [..|unfold fuel; lia]; intros d Hd; unfold fuel; rewrite Hd; cbn; lia.
  - rewrite Hb in Ht. destruct r as [cfg|[]|]; simplify_eq. naive_solver.
Qed.

Lemma start_http2_Ok fs bufs general l addr opts svc :
  outcome (start_http2 fs bufs general l addr opts) = Ok svc →
  ∃ cert key tls incoming,
    g_http2_tls_cert general = Some cert ∧ g_http2_tls_key general = Some key
    ∧ tls_config fs bufs cert key = Ok tls ∧ from_std l ≫= from_listener = Some incoming
    ∧ svc = TlsService (acceptor_new tls incoming) (router_new opts).
Proof.
  unfold start_http2. intros Hs. run_steps_in Hs. apply lbind_Ok in Hs as (_ & _ & Hs).
  apply lbind_Ok in Hs as (listener & Hl & Hs). apply lbind_Ok in Hs as (incoming & Hi & Hs).
  apply lbind_Ok in Hs as (cert & Hc & Hs). apply lbind_Ok in Hs as (key & Hk & Hs).
  apply lbind_Ok in Hs as (tls & Ht & Hs). apply lbind_Ok in Hs as (_ & _ & Hs).
  run_steps_in Hs. injection Hs as <-. exists cert, key, tls, incoming.
  apply ok_or_Ok in Hl, Hi, Hc, Hk. rewrite Hl. by split_and!.
Qed.

Lemma start_redirect_Ok general opts svc :
  outcome (start_redirect general opts) = Ok svc →
  ∃ l ro, bind_host (g_host general) (g_https_redirect_from_port general) = Ok l
    ∧ redirect_opts general = Ok ro ∧ svc = RedirectService l ro (page404 opts) (page50x opts).
Proof.
  unfold start_redirect. intros (addr & Ha & Hs)%lbind_Ok. apply lbind_Ok in Hs as (l & Hl & Hs).
  run_steps_in Hs. apply lbind_Ok in Hs as (_ & _ & Hs). apply lbind_Ok in Hs as (_ & _ & Hs).
  apply lbind_Ok in Hs as (ro & Hro & Hs). apply lbind_Ok in Hs as (_ & _ & Hs). injection Hs as <-.
  exists l, ro. unfold bind_host. cbn in Ha, Hl. by rewrite Ha.
Qed.

Lemma start_http1_Ok l addr opts svc :
  outcome (start_http1 l addr opts) = Ok svc → svc = PlainService l (router_new opts).
Proof.
  unfold start_http1. intros (_ & _ & Hs)%lbind_Ok. apply lbind_Ok in Hs as (_ & _ & Hs).
  apply lbind_Ok in Hs as (_ & _ & Hs). by injection Hs as <-.
Qed.

(** Which services a start gives, and with which configuration. *)
Lemma start_server_Ok fs bufs gl threads settings gl' svcs :
  outcome (start_server fs bufs gl threads settings) = Ok (gl', svcs) →
  let general := s_general settings in
  ∃ opts l addr, outcome (handler_opts fs gl settings) = Ok (gl', opts)
    ∧ outcome (tcp_listener general) = Ok (l, addr)
    ∧ if g_http2 general then
        ∃ cert key tls incoming,
          g_http2_tls_cert general = Some cert ∧ g_http2_tls_key general = Some key
          ∧ tls_config fs bufs cert key = Ok tls ∧ from_std l ≫= from_listener = Some incoming
          ∧ if g_https_redirect general then
              ∃ rl ro, bind_host (g_host general) (g_https_redirect_from_port general) = Ok rl
                ∧ redirect_opts general = Ok ro
                ∧ svcs = [TlsService (acceptor_new tls incoming) (router_new opts);
                          RedirectService rl ro (page404 opts) (page50x opts)]
            else svcs = [TlsService (acceptor_new tls incoming) (router_new opts)]
      else svcs = [PlainService l (router_new opts)].
Proof.
  intros Hs general. unfold start_server in Hs. fold general in Hs. run_steps_in Hs.
  apply lbind_Ok in Hs as ([l addr] & Hl & Hs). run_steps_in Hs.
  apply lbind_Ok in Hs as ([gl1 opts] & Ho & Hs). cbn [fst snd] in Hs. destruct (g_http2 general).
  - apply lbind_Ok in Hs as (http2 & Ht & Hs).
    apply start_http2_Ok in Ht as (cert & key & tls & incoming & Hc & Hk & Hcfg & Hin & ->).
    destruct (g_https_redirect general).
    + apply lbind_Ok in Hs as (red & Hr & Hs). apply start_redirect_Ok in Hr as (rl & ro & Hrl & Hro & ->).
      injection Hs as <- <-. exists opts, l, addr. split_and!; [done..|].
      exists cert, key, tls, incoming. split_and!; [done..|]. by exists rl, ro.
    + injection Hs as <- <-. exists opts, l, addr. split_and!; [done..|]. by exists cert, key, tls, incoming.
  - apply lbind_Ok in Hs as (http1 & ->%start_http1_Ok & Hs). injection Hs as <- <-. by exists opts, l, addr.
Qed.

(** The services that a router serves. *)
Definition served_opts (s : Listening) : option RequestHandlerOpts :=
  match s with
  | TlsService _ router | PlainService _ router => Some (rb_handler (ro_builder router))
  | RedirectService _ _ _ _ => None
  end.

Definition encrypted (s : Listening) : bool :=
  match s with
  | TlsService _ _ => true
  | _ => false
  end.

(** Some service serves files, and every one that does answers with the handler. *)
Lemma started_file_services fs bufs gl threads settings gl' svcs :
  outcome (start_server fs bufs gl threads settings) = Ok (gl', svcs) →
  ∃ opts, outcome (handler_opts fs gl settings) = Ok (gl', opts)
    ∧ (∃ svc, svc ∈ svcs ∧ is_Some (served_opts svc))
    ∧ ∀ svc w req, svc ∈ svcs → is_Some (served_opts svc) →
        service_answer fs w svc req = Handler.handle w opts req.
Proof.
  intros Hs%start_server_Ok. destruct Hs as (opts & l & addr & Ho & _ & Hs). exists opts. split; [done|].
  assert (∃ svc rest, svcs = svc :: rest ∧ served_opts svc = Some opts
            ∧ Forall (λ svc, served_opts svc = None) rest) as (svc & rest & -> & Hsv & Hrest).
  { destruct (g_http2 _); [|subst svcs; eexists _, []; split_and!; by constructor].
    destruct Hs as (cert & key & tls & incoming & _ & _ & _ & _ & Hs).
    destruct (g_https_redirect _); [destruct Hs as (rl & ro & _ & _ & ->)|subst svcs];
      eexists _, _; split_and!; by repeat constructor. }
  split; [exists svc; split; [left|by rewrite Hsv]|].
  intros svc' w req [->|Hin]%elem_of_cons Hsome.
  - destruct svc; cbn in Hsv |- *; by simplify_eq.
  - rewrite Forall_forall in Hrest. rewrite (Hrest _ Hin) in Hsome. by destruct Hsome.
Qed.

(** ** Theorems *)

(** C12. With HTTP/2 no file is ever sent in clear: the only service of a started
    server that is not encrypted is the redirect server, and whatever is asked of it,
    it answers a request for one of the allowed hosts with an empty redirect to the
    configured HTTPS host and port, and any other one with the generic page of a bad
    request.  Where the location of the redirect is no header value it answers
    nothing: the code unwraps it. *)
Theorem http2_never_clear fs bufs gl threads settings gl' svcs w svc req :
  outcome (start_server fs bufs gl threads settings) = Ok (gl', svcs) → g_http2 (s_general settings) = true →
  svc ∈ svcs → encrypted svc = false →
  let location := concat_str ["https://"; g_https_redirect_host (s_general settings); ":";
                              dec (g_port (s_general settings)); uri_to_string (req_uri req)] in
  let allowed := ∃ host, typed_get decode_host H_HOST (req_headers req) = Some host
                   ∧ host ∈ comma_list (g_https_redirect_from_hosts (s_general settings)) in
  g_https_redirect (s_general settings) = true
  ∧ match service_answer fs w svc req with
    | Ok resp =>
        allowed ∧ resp_status resp = SC_MOVED_PERMANENTLY ∧ resp_body resp = BodyEmpty
          ∧ get_header resp H_LOCATION = Some location
        ∨ ¬ allowed ∧ resp_status resp = SC_BAD_REQUEST
          ∧ resp_body resp = if is_head (req_method req) then BodyEmpty
                             else BodyBytes (generic_page SC_BAD_REQUEST)
    | Err _ => False
    | Panic => allowed ∧ hv_from_str location = None
    end.
Proof.
  intros Hs%start_server_Ok Hh Hin Hclear location allowed. destruct Hs as (opts & l & addr & _ & _ & Hs).
  rewrite Hh in Hs. destruct Hs as (cert & key & tls & incoming & _ & _ & _ & _ & Hs).
  destruct (g_https_redirect (s_general settings)) eqn:Hr.
  - destruct Hs as (rl & ro & _ & Hro & ->).
    assert (svc = RedirectService rl ro (page404 opts) (page50x opts)) as ->.
    { apply elem_of_cons in Hin as [->|Hin]; [done|]. by apply list_elem_of_singleton in Hin. }
    unfold redirect_opts in Hro. rewrite bool_decide_false in Hro by apply comma_list_not_nil.
    injection Hro as <-. split; [done|]. apply (redirect_service_spec fs {| https_hostname := _ |}).
  - subst svcs. apply list_elem_of_singleton in Hin as ->. discriminate Hclear.
Qed.

(** C28. What is started, by the mode.  Without HTTP/2: one service in clear, on the
    inherited descriptor or the configured address.  With it: one service over
    TLS, whose identity is read from the configured certificate and key and which
    offers HTTP/2, and the redirect server exactly when it is asked for.  All of
    them that serve files do so with the options made from the settings. *)
Theorem start_server_services fs bufs gl threads settings gl' svcs :
  outcome (start_server fs bufs gl threads settings) = Ok (gl', svcs) → fs_total fs →
  let general := s_general settings in
  ∃ opts, outcome (handler_opts fs gl settings) = Ok (gl', opts)
    ∧ omap served_opts svcs = [opts]
    ∧ length svcs = (if g_http2 general && g_https_redirect general then 2 else 1)
    ∧ (∃ svc, head svcs = Some svc ∧ encrypted svc = g_http2 general)
    ∧ (∀ acceptor router, TlsService acceptor router ∈ svcs →
         ∃ cert key certs k, g_http2_tls_cert general = Some cert ∧ g_http2_tls_key general = Some key
           ∧ identity fs (tls_builder cert key) certs k
           ∧ with_single_cert certs k = inl (sc_base (ta_config acceptor))
           ∧ alpn_protocols (ta_config acceptor) = ["h2"; "http/1.1"]).
Proof.
  intros Hs%start_server_Ok Hfs general. fold general in Hs. destruct Hs as (opts & l & addr & Ho & _ & Hs).
  exists opts. split; [done|]. destruct (g_http2 general).
  - destruct Hs as (cert & key & tls & incoming & Hc & Hk & Hcfg & _ & Hs).
    assert (∀ acceptor router, TlsService acceptor router ∈ svcs → ta_config acceptor = tls) as Hacc.
    { intros acceptor router Hin. destruct (g_https_redirect general).
      - destruct Hs as (rl & ro & _ & _ & ->). apply elem_of_cons in Hin as [Hin|Hin]; [by injection Hin as -> _|].
        by apply list_elem_of_singleton in Hin.
      - subst svcs. apply list_elem_of_singleton in Hin. by injection Hin as -> _. }
    assert (∃ svc, head svcs = Some svc ∧ encrypted svc = true) as Hhd.
    { destruct (g_https_redirect general); [destruct Hs as (? & ? & _ & _ & ->)|subst svcs]; by eexists. }
    split_and!; try done.
    1,2: by destruct (g_https_redirect general); [destruct Hs as (? & ? & _ & _ & ->)|subst svcs].
    intros acceptor router Hin. rewrite (Hacc _ _ Hin).
    apply tls_config_Ok in Hcfg as (certs & k & Hid & Hw & Ha); [|done]. eauto 10.
  - subst svcs. split_and!; [done..|by eexists|]. intros ?? Hin. by apply list_elem_of_singleton in Hin.
Qed.

End StartServer.

(** ** Witnesses *)

#[export] Instance net_sample : NetC (H := tls_sample) := {|
  TcpListener := SocketAddr;
  take_tcp_listener := λ _, Ok None;
  tcp_bind := Some;
  set_nonblocking := λ _, true;
  TokioListener := SocketAddr;
  from_std := Some;
  from_listener := λ _, Some [];
  hyper_from_tcp := λ _, true;
  create_signals := true
|}.

Definition redirect_argv : list string :=
  ["static-web-server"; "--root=/srv"; "--port=443"; "--http2"; "--http2-tls-cert=/c.pem";
   "--http2-tls-key=/k.pem"; "--https-redirect"; "--https-redirect-host=example.com"].

(** The settings of a command line, without a configuration file. *)
Definition argv_settings (argv : list string) : Settings := {|
  s_general := match parse_general argv (λ _, None) with
               | Ok g => g
               | _ => sample_general "" ""
               end;
  s_advanced := None
|}.

Definition start_fs : FileSystem :=
  table_fs [dir_node "/srv"; file_node "/c.pem" "CERT" 0; file_node "/k.pem" "KEY first" 0].

Definition sample_start (argv : list string) : Logged (Globals * list Listening) :=
  start_server (Hnet := net_sample) start_fs (λ n, (n, 7)) sample_globals 4 (argv_settings argv).

Lemma http2_never_clear_witness :
  let req := get_request "/secret.txt" (hm_insert H_HOST "localhost" hm_new) in
  match outcome (sample_start redirect_argv) with
  | Ok (_, [_; svc]) =>
      ∃ resp, service_answer start_fs {| w_fs := start_fs; w_store := None; w_metrics := None |} svc req = Ok resp
        ∧ (resp_status resp = SC_MOVED_PERMANENTLY ∨ resp_status resp = SC_BAD_REQUEST)
  | _ => False
  end.
Proof.
  intros req.
  assert (match outcome (sample_start redirect_argv) with Ok (_, [_; svc]) => encrypted svc = false | _ => False end) as Hs
    by by vm_compute.
  destruct (outcome (sample_start redirect_argv)) as [[gl' [|s1 [|svc [|? ?]]]]|e|] eqn:E;
    [destruct Hs|destruct Hs| |destruct Hs|destruct Hs|destruct Hs].
  destruct (http2_never_clear (Hnet := net_sample) start_fs (λ n, (n, 7)) sample_globals 4 (argv_settings redirect_argv) gl' [s1; svc]
    {| w_fs := start_fs; w_store := None; w_metrics := None |} svc req E) as [_ Hc].
  - by vm_compute.
  - right. left.
  - exact Hs.
  - destruct (service_answer _ _ svc req) as [resp|e|]; [|destruct Hc|destruct Hc as [_ Hv]; by vm_compute in Hv].
    exists resp. split; [done|]. destruct Hc as [(_ & Hc & _)|(_ & Hc & _)]; auto.
Defined.

Lemma start_server_services_witness :
  match outcome (sample_start redirect_argv) with
  | Ok (_, svcs) => length svcs = 2
  | _ => False
  end.
Proof.
  assert (is_ok (outcome (sample_start redirect_argv)) = true) as Hs by by vm_compute.
  destruct (outcome (sample_start redirect_argv)) as [[gl' svcs]|e|] eqn:E; [|discriminate Hs|discriminate Hs].
  destruct (start_server_services (Hnet := net_sample) start_fs (λ n, (n, 7)) sample_globals 4
    (argv_settings redirect_argv) gl' svcs E) as (opts & _ & _ & Hl & _).
  - apply table_fs_total. by repeat constructor.
  - rewrite Hl. vm_compute. reflexivity.
Defined.
