(* ===== verification/Main.v ===== *)
(** * The program: [bin/server.rs], [settings/cli_output.rs], [run_server_on_rt]

    From a command line and an environment to what the process does: the version
    text, generated files, or the services of a running server.  The settings are
    read by [Cli] and [Settings], the server is started by [StartServer]. *)

From S2P Require Import Prelude RustStr Logger IpAddr RustPath Fs FsStream ContentCoding Http.
From S2P Require Import HttpInstances Opts Settings Cli FsPath FsMeta ErrorPage MemCache DirectoryListing StaticFiles.
From S2P Require Import Cors VirtualHosts BasicAuth HttpsRedirect LogAddr Handler Transport Tls.
From S2P Require Import Service Server StartServer.

Open Scope sws_scope.

(** The constants the build script generates. *)
Record BuildInfo : Type := {
  PKG_VERSION : string;
  COMMIT_DATE : string;
  COMMIT_HASH : string;
  BUILD_TARGET : string;
  RUST_VERSION : string;
  PKG_LICENSE : string;
  PKG_HOMEPAGE : string;
  PKG_AUTHORS : string
}.

(** [cli_output::display_version]: the lines it prints. *)
Definition display_version (b : BuildInfo) : list string := [
  "Version:      " +:+ PKG_VERSION b;
  "Built:        " +:+ COMMIT_DATE b;
  "Git commit:   " +:+ COMMIT_HASH b;
  "Build target: " +:+ BUILD_TARGET b;
  "Rust version: " +:+ RUST_VERSION b;
  "License:      " +:+ PKG_LICENSE b;
  "Homepage:     " +:+ PKG_HOMEPAGE b;
  "Author:       " +:+ PKG_AUTHORS b
].

(** The [clap_allgen] crate writes files into a directory. *)
Inductive Generated : Type := Completions (dir : string) | ManPages (dir : string).

Section Main.
Context `{!HttpC, !HeadersC, !MatchC, !PercentC, !ListingC, !OriginC, !BcryptC, !ConfigC, !TracingC, !ClapC}.
Context `{Htls : !TlsC, Hnet : !NetC}.
Context (build_info : BuildInfo) (render : Generated → Result unit Error) (cpus : option Z)
        (bufs : nat → nat * nat) (build_runtime : Z → Z → Result unit Error).

(** [Settings::read]; [Settings::get] parses the command line, [get_unparsed] the
    empty one. *)
Definition settings_read (fs : FileSystem) (log_init parse_args : bool) (argv : list string) (env : Env)
    : Logged Settings :=
  let! opts := lift (parse_general (if parse_args then argv else [""]) env) in
  read_settings fs log_init opts.

(** The [generate] subcommand. *)
Definition generate (completions man_pages : bool) (out_dir : string) : Logged (list Generated) :=
  let! c :=
    if completions || negb man_pages then
      let comp_dir := push out_dir "completions" in
      let! _ := lift (render (Completions comp_dir)) in
      emit! server_info (concat_str ["wrote completions to "; from_utf8_lossy comp_dir]) in
      lret [Completions comp_dir]
    else lret [] in
  let! m :=
    if man_pages || negb completions then
      let man_dir := push out_dir "man" in
      let! _ := lift (render (ManPages man_dir)) in
      emit! server_info (concat_str ["wrote man pages to "; from_utf8_lossy man_dir]) in
      lret [ManPages man_dir]
    else lret [] in
  lret (c ++ m).

(** What the process does. *)
Inductive Outcome : Type :=
| PrintedVersion (lines : list string)
| GeneratedFiles (files : list Generated)
| Serving (worker_threads : Z) (services : list Listening)
| ExitFailure.

(** [Server::run_server_on_rt]: the runtime is built with the numbers of threads; a
    server that fails to start ends the process with status 1, after a line with
    the error (its message; the chain of its causes is not modelled). *)
Definition run_server_on_rt (fs : FileSystem) (server : Server) : Logged Outcome :=
  emit! tracing DEBUG "server" "initializing tokio runtime with multi-threaded scheduler" in
  let! _ := lift (build_runtime (sv_worker_threads server) (sv_max_blocking_threads server)) in
  emit! tracing Logger.TRACE "server" "tokio runtime initialized" in
  let started := start_server fs bufs {| gl_store := None; gl_collector := false |}
                   (sv_worker_threads server) (sv_opts server) in
  match outcome started with
  | Ok (_, svcs) => (events started, Ok (Serving (sv_worker_threads server) svcs))
  | Err err => (events started ++ [tracing ERROR "server" (concat_str ["server failed to start up: "; err])],
                Ok ExitFailure)
  | Panic => (events started, Panic)
  end.

(** [main] *)
Definition main (fs : FileSystem) (argv : list string) (env : Env) : Logged Outcome :=
  let! opts := settings_read fs true true argv env in
  if g_version (s_general opts) then lret (PrintedVersion (display_version build_info))
  else
    match g_commands (s_general opts) with
    | Some (Generate completions man_pages out_dir) =>
        let! files := generate completions man_pages out_dir in
        lret (GeneratedFiles files)
    | None =>
        let! server := lift (server_new cpus opts) in
        run_server_on_rt fs server
    end.

(** ** Lemmas *)

Lemma run_server_serving fs server threads svcs :
  outcome (run_server_on_rt fs server) = Ok (Serving threads svcs) →
  ∃ gl', outcome (start_server fs bufs {| gl_store := None; gl_collector := false |}
                    (sv_worker_threads server) (sv_opts server)) = Ok (gl', svcs).
Proof.
  unfold run_server_on_rt. intros Hr. run_steps_in Hr. apply lbind_Ok in Hr as (_ & _ & Hr). run_steps_in Hr.
  cbv zeta in Hr. destruct (outcome (start_server _ _ _ _ _)) as [[gl' s]| |]; [|done..].
  injection Hr as _ <-. eauto.
Qed.

Lemma main_serving fs argv env threads svcs :
  outcome (main fs argv env) = Ok (Serving threads svcs) →
  ∃ settings workers gl', outcome (settings_read fs true true argv env) = Ok settings
    ∧ g_version (s_general settings) = false ∧ g_commands (s_general settings) = None
    ∧ outcome (start_server fs bufs {| gl_store := None; gl_collector := false |} workers settings)
      = Ok (gl', svcs).
Proof.
  unfold main. intros (settings & Hset & Hm)%lbind_Ok. exists settings.
  destruct (g_version (s_general settings)); [done|].
  destruct (g_commands (s_general settings)) as [[c m d]|].
  - by apply lbind_Ok in Hm as (? & _ & ?).
  - apply lbind_Ok in Hm as (server & Hn & Hr). cbn [outcome lift snd] in Hn.
    assert (sv_opts server = settings) as Hopts.
    { unfold server_new in Hn. apply rbind_Ok in Hn as (? & _ & Hn). by injection Hn as <-. }
    apply run_server_serving in Hr as [gl' Hr]. rewrite Hopts in Hr. eauto 6.
Qed.

(** Without a configuration file the settings are the command line's. *)
Lemma read_settings_no_file fs log_init cli settings :
  path_is_file fs (g_config_file cli) = false → outcome (read_settings fs log_init cli) = Ok settings →
  s_general settings = cli ∧ s_advanced settings = None.
Proof.
  intros Hf (file & lines & Hfile & Hr)%read_settings_Ok. unfold read_file_settings in Hfile.
  rewrite Hf in Hfile. injection Hfile as <- <-. by subst settings.
Qed.

(** ** Theorems *)

(** C11. From the command line to the wire: a server started with HTTP/2 by the command
    line or the environment, without a configuration file and with nothing said
    about the security headers, serves its files over TLS only and with the
    security headers; the only other service it can have serves no files. *)
Theorem http2_command_line_secure fs argv env threads svcs cli :
  outcome (main fs argv env) = Ok (Serving threads svcs) →
  parse_general argv env = Ok cli → path_is_file fs (g_config_file cli) = false →
  g_http2 cli = true → env "SERVER_SECURITY_HEADERS" = None →
  (∀ m, clap_matches general_args argv env = Ok m → m_cli m "security_headers" = None) →
  ∃ acceptor opts rest,
    svcs = TlsService acceptor (router_new opts) :: rest
    ∧ security_headers opts = true ∧ root_dir opts = g_root cli
    ∧ Forall (λ svc, served_opts svc = None) rest.
Proof.
  intros Hm Hcli Hfile Hh Henv Hno. apply main_serving in Hm as (settings & workers & gl' & Hset & _ & _ & Hst).
  assert (s_general settings = cli) as Hg.
  { unfold settings_read in Hset. rewrite Hcli in Hset. run_steps_in Hset.
    by apply (read_settings_no_file _ _ _ _ Hfile) in Hset as [? _]. }
  apply start_server_Ok in Hst as (opts & l & addr & Ho & _ & Hst). rewrite Hg, Hh in Hst.
  assert (security_headers opts = true) as Hsec.
  { rewrite (handler_opts_security _ _ _ _ _ Ho), Hg.
    destruct (cli_http2 argv env cli Hcli Hh) as [_ [?|[?|(m & Hm & Hc)]]]; [done|done|].
    by rewrite (Hno m Hm) in Hc. }
  apply handler_opts_Ok in Ho as (_ & Hroot & _). rewrite Hg in Hroot.
  destruct Hst as (cert & key & tls & incoming & _ & _ & _ & _ & Hst).
  destruct (g_https_redirect cli).
  - destruct Hst as (rl & ro & _ & _ & ->). eexists _, opts, _. split_and!; [done..|]. by repeat constructor.
  - subst svcs. eexists _, opts, []. by split_and!.
Qed.

(** What the process does, in the order of the checks: errors of the settings end
    it first; [--version] wins over a subcommand, a subcommand over serving; a
    bare [generate] writes both kinds of files; the process serves what
    [start_server] starts, or exits with a failure. *)
Theorem main_dispatch fs argv env settings :
  outcome (settings_read fs true true argv env) = Ok settings →
  let general := s_general settings in
  let start workers := start_server fs bufs {| gl_store := None; gl_collector := false |} workers settings in
  (g_version general = true →
     outcome (main fs argv env) = Ok (PrintedVersion (display_version build_info)))
  ∧ (∀ c m d, g_version general = false → g_commands general = Some (Generate c m d) →
       (∀ g, render g = Ok ()) →
       outcome (main fs argv env)
       = Ok (GeneratedFiles ((if c || negb m then [Completions (push d "completions")] else [])
                             ++ (if m || negb c then [ManPages (push d "man")] else []))))
  ∧ (∀ n, g_version general = false → g_commands general = None → cpus = Some n →
       (∀ a b, build_runtime a b = Ok ()) →
       ∃ workers, outcome (main fs argv env)
         = match outcome (start workers) with
           | Ok (_, svcs) => Ok (Serving workers svcs)
           | Err _ => Ok ExitFailure
           | Panic => Panic
           end).
Proof.
  intros Hset general start. unfold main.
  assert (∀ k : Settings → Logged Outcome,
            outcome (let! opts := settings_read fs true true argv env in k opts)
            = outcome (k settings)) as ->
    by (intros k; by apply outcome_step).
  fold general. split_and!.
  - by intros ->.
  - intros c m d -> -> Hr. unfold generate. destruct c, m; cbn; rewrite ?Hr; reflexivity.
  - intros n -> -> Hn Hrt.
    assert (∃ server, server_new cpus settings = Ok server ∧ sv_opts server = settings) as (server & Hs & Ho)
      by (unfold server_new; rewrite Hn; by eexists).
    exists (sv_worker_threads server). rewrite (outcome_step _ server) by exact Hs.
    unfold run_server_on_rt. run_steps. rewrite Hrt. run_steps. rewrite Ho. unfold start.
    by destruct (outcome (start_server _ _ _ _ _)) as [[gl' svcs]| |].
Qed.

End Main.

(** ** Witnesses *)

Definition sample_build : BuildInfo := {|
  PKG_VERSION := "2"; COMMIT_DATE := ""; COMMIT_HASH := ""; BUILD_TARGET := ""; RUST_VERSION := "";
  PKG_LICENSE := ""; PKG_HOMEPAGE := ""; PKG_AUTHORS := ""
|}.

Definition sample_main (argv : list string) : Logged (Outcome (Hnet := net_sample)) :=
  main sample_build (λ _, Ok ()) (Some 4%Z) (λ n, (n, 7)) (λ _ _, Ok ()) start_fs argv (λ _, None).

Lemma http2_command_line_witness :
  match outcome (sample_main redirect_argv) with
  | Ok (Serving _ svcs) => ∃ acceptor opts rest,
      svcs = TlsService acceptor (router_new opts) :: rest ∧ security_headers opts = true
  | _ => False
  end.
Proof.
  assert (match outcome (sample_main redirect_argv) with Ok (Serving _ _) => True | _ => False end) as Hs by by vm_compute.
  assert (match parse_general redirect_argv (λ _, None) with
          | Ok g => g_http2 g = true ∧ path_is_file start_fs (g_config_file g) = false
          | _ => False end) as Hg by (vm_compute; split; reflexivity).
  destruct (outcome (sample_main redirect_argv)) as [[l|l|threads svcs|]|e|] eqn:E;
    [destruct Hs|destruct Hs| |destruct Hs|destruct Hs|destruct Hs].
  destruct (parse_general redirect_argv (λ _, None)) as [cli|e|] eqn:Ecli; [|destruct Hg|destruct Hg].
  destruct (http2_command_line_secure (Hnet := net_sample) sample_build (λ _, Ok ()) (Some 4%Z) (λ n, (n, 7)) (λ _ _, Ok ()) start_fs redirect_argv
    (λ _, None) threads svcs cli E Ecli) as (acceptor & opts & rest & Hv & Hsec & _).
  - apply Hg.
  - apply Hg.
  - reflexivity.
  - intros m Hm. vm_compute in Hm. injection Hm as <-. reflexivity.
  - exists acceptor, opts, rest. auto.
Defined.

Lemma main_dispatch_witness :
  outcome (sample_main ["static-web-server"; "--version"; "--root=/srv"]) = Ok (PrintedVersion (display_version sample_build)).
Proof.
  assert (match outcome (settings_read start_fs true true ["static-web-server"; "--version"; "--root=/srv"] (λ _, None)) with
          | Ok s => g_version (s_general s) = true | _ => False end) as Hs by by vm_compute.
  destruct (outcome (settings_read start_fs true true ["static-web-server"; "--version"; "--root=/srv"] (λ _, None)))
    as [settings|e|] eqn:E; [|destruct Hs|destruct Hs].
  destruct (main_dispatch (Hnet := net_sample) sample_build (λ _, Ok ()) (Some 4%Z) (λ n, (n, 7)) (λ _ _, Ok ())
    start_fs _ _ settings E) as [Hv _].
  exact (Hv Hs).
Defined.
