(* ===== verification/Testing.v ===== *)
(** * Test fixtures: [testing.rs]

    The settings and the request handler that the integration tests use: the
    settings of a configuration file, read with an empty command line, and the
    options of a handler built from them field by field.  The theorem says when
    this handler is the one a server would start with the same settings, so that
    what the integration tests exercise is what is served. *)

From S2P Require Import Prelude RustStr Logger IpAddr RustPath Fs Helpers FsStream ContentCoding Http.
From S2P Require Import HttpInstances Opts Settings Cli FsPath FsMeta ErrorPage MemCache DirectoryListing.
From S2P Require Import StaticFiles Cors VirtualHosts BasicAuth HttpsRedirect LogAddr Handler Transport Tls.
From S2P Require Import Service Server StartServer Main.

Open Scope sws_scope.

Definition REMOTE_ADDR : string := "127.0.0.1:1234".

Section Fixtures.
Context `{!HttpC, !HeadersC, !MatchC, !PercentC, !ListingC, !OriginC, !BcryptC, !ConfigC, !TracingC, !ClapC}.

(** [std::env::set_var] *)
Definition set_var (key value : string) (env : Env) : Env :=
  λ k, if str_eqb k key then Some value else env k.

(** [fixture_settings]: the environment it leaves and the settings. *)
Definition fixture_settings (fs : FileSystem) (env : Env) (fixture_toml : string) : Env * Result Settings Error :=
  let f := path_join "tests/fixtures" fixture_toml in
  let env := set_var "SERVER_CONFIG_FILE" f env in
  (env, match outcome (settings_read fs false false [] env) with
        | Ok settings => Ok settings
        | _ => Panic
        end).

(** [fixture_req_handler] *)
Definition fixture_req_handler (general : General) (advanced : option Advanced) : RequestHandlerOpts := {|
  root_dir := g_root general;
  compression := g_compression general;
  compression_static := g_compression_static general;
  compression_level := g_compression_level general;
  dir_listing := g_directory_listing general;
  dir_listing_order := g_directory_listing_order general;
  dir_listing_format := g_directory_listing_format general;
  opt_cors := None;
  security_headers := g_security_headers general;
  cache_control_headers := g_cache_control_headers general;
  page404 := g_page404 general;
  page50x := g_page50x general;
  page_fallback := "";
  basic_auth := g_basic_auth general;
  log_remote_address := g_log_remote_address general;
  log_forwarded_for := g_log_forwarded_for general;
  trusted_proxies := g_trusted_proxies general;
  redirect_trailing_slash := g_redirect_trailing_slash general;
  ignore_hidden_files := g_ignore_hidden_files general;
  disable_symlinks := g_disable_symlinks general;
  index_files := [g_index_files general];
  health := g_health general;
  experimental_metrics := g_experimental_metrics general;
  maintenance_mode := g_maintenance_mode general;
  maintenance_mode_status := g_maintenance_mode_status general;
  maintenance_mode_file := g_maintenance_mode_file general;
  memory_cache := None;
  advanced_opts := advanced
|}.

(** Settings that the fixture supports: no CORS, no fallback page, no cache, one
    index file, credentials without surrounding blanks, error pages that are not
    looked up in the root. *)
Record fixture_supports (fs : FileSystem) (settings : Settings) : Prop := {
  fx_cors : trim (g_cors_allow_origins (s_general settings)) = "";
  fx_fallback : read_bytes_default fs (g_page_fallback (s_general settings)) = "";
  fx_cache : s_advanced settings ≫= adv_memory_cache = None;
  fx_index : comma_list (g_index_files (s_general settings)) = [g_index_files (s_general settings)];
  fx_auth : trim (g_basic_auth (s_general settings)) = g_basic_auth (s_general settings);
  fx_page404 : page_path (g_root (s_general settings)) (g_page404 (s_general settings)) = g_page404 (s_general settings);
  fx_page50x : page_path (g_root (s_general settings)) (g_page50x (s_general settings)) = g_page50x (s_general settings)
}.

(** The handler of the integration tests is the handler of the server: for settings
    the fixture supports, a server starts exactly when the root is a directory and
    the metrics are not already collected, and the options of its handler are those
    of the fixture. *)
Theorem fixture_is_server fs gl settings :
  fixture_supports fs settings →
  let general := s_general settings in
  outcome (handler_opts fs gl settings)
  = if negb (path_is_dir fs (g_root general)) then Err "root directory was not found or inaccessible"
    else if g_experimental_metrics general && gl_collector gl then Panic
    else Ok ({| gl_store := gl_store gl; gl_collector := g_experimental_metrics general || gl_collector gl |},
             fixture_req_handler general (s_advanced settings)).
Proof.
  intros [Hc Hf Hm Hi Ha H4' H5'] general. rewrite handler_opts_outcome. cbv zeta. fold general.
  destruct (negb _); [done|]. destruct (_ && _); [done|].
  unfold general. rewrite Hc. unfold Cors.new at 1. cbn [is_empty rbind].
  unfold MemCache.init, features_opts. cbn [advanced_opts]. rewrite Hm. run_steps. cbn [outcome lret snd rbind fst].
  unfold fixture_req_handler. by rewrite Hf, Hi, Ha, H4', H5'.
Qed.

End Fixtures.

(** ** Witness *)

Definition fixture_argv : list string :=
  ["static-web-server"; "--root=/srv"; "--page404=/srv/404.html"; "--page50x=/srv/50x.html"].

Lemma fixture_is_server_witness :
  let fs := table_fs [dir_node "/srv"; file_node "/srv/a.txt" "hello" 5000000000] in
  match parse_general fixture_argv (λ _, None) with
  | Ok general =>
      outcome (handler_opts fs sample_globals {| s_general := general; s_advanced := None |})
      = Ok (sample_globals, fixture_req_handler general None)
  | _ => False
  end.
Proof.
  intros fs.
  assert (match parse_general fixture_argv (λ _, None) with
          | Ok g => fixture_supports fs {| s_general := g; s_advanced := None |}
                    ∧ path_is_dir fs (g_root g) = true ∧ g_experimental_metrics g = false
          | _ => False end) as Hg.
  { vm_compute. split; [split; reflexivity|split; reflexivity]. }
  destruct (parse_general fixture_argv (λ _, None)) as [g|e|]; [|destruct Hg|destruct Hg].
  destruct Hg as (Hs & Hd & Hx). rewrite (fixture_is_server fs sample_globals _ Hs). cbn [s_general s_advanced].
  by rewrite Hd, Hx.
Defined.
