(* ===== verification/Delivery.v ===== *)
(** * From the command line to the bytes of a file

    The composition of the parts: a server started by [main] from the command line,
    the environment and a configuration file, without the cache, and what its
    services answer to a [GET] of a regular file.
    The steps after the static files are shown to add headers only
    ([decorates]), the checks before them to let such a request through. *)

From S2P Require Import Prelude RustStr Logger IpAddr RustPath Fs FsStream ContentCoding Http.
From S2P Require Import HttpInstances Opts Settings Cli FsPath FsMeta QualityValue ErrorPage Compression.
From S2P Require Import CompressionStatic ConditionalHeaders ResponseBody MemCache DirectoryListing.
From S2P Require Import StaticFiles Cors ControlHeaders SecurityHeaders Health Metrics MaintenanceMode.
From S2P Require Import FallbackPage VirtualHosts CustomHeaders BasicAuth Redirects Rewrites.
From S2P Require Import HttpsRedirect LogAddr Handler Transport Tls Service Server StartServer Main.

Open Scope sws_scope.

(** The headers that the last steps may set. *)
Definition decorations : list string :=
  [H_VARY; H_CACHE_CONTROL; H_STRICT_TRANSPORT_SECURITY; H_X_FRAME_OPTIONS; H_X_CONTENT_TYPE_OPTIONS;
   H_CONTENT_SECURITY_POLICY].

(** The headers that say how to read the body. *)
Definition entity_headers : list string :=
  [H_CONTENT_TYPE; H_CONTENT_LENGTH; H_CONTENT_RANGE; H_CONTENT_ENCODING].

Section Delivery.
Context `{!HttpC, !HeadersC, !MatchC, !PercentC, !ListingC, !OriginC, !BcryptC}.

(** A response that differs in decorations only. *)
Definition decorates (resp resp' : Response) : Prop :=
  resp_status resp' = resp_status resp ∧ resp_body resp' = resp_body resp
  ∧ ∀ k, k ∉ decorations → hm_get_all (resp_headers resp') k = hm_get_all (resp_headers resp) k.

#[local] Instance decorates_preorder : PreOrder decorates.
Proof.
  split; [by intros r; split_and!|]. intros r1 r2 r3 (S1 & B1 & G1) (S2 & B2 & G2).
  split_and!; [congruence..|]. intros k Hk. by rewrite G2, G1.
Qed.

Lemma decorates_put k v resp : k ∈ decorations → decorates resp (put_header k v resp).
Proof.
  intros Hk. split_and!; [done..|]. intros k' Hk'. cbn. rewrite hm_get_all_insert.
  by rewrite bool_decide_eq_false_2 by set_solver.
Qed.

Lemma decorates_header resp resp' k :
  decorates resp resp' → k ∉ decorations → get_header resp' k = get_header resp k.
Proof. intros (_ & _ & Hg) Hk. unfold get_header, hm_get. by rewrite Hg. Qed.

(** A response with the same status, body and headers about the body. *)
Definition keeps (resp resp' : Response) : Prop :=
  resp_status resp' = resp_status resp ∧ resp_body resp' = resp_body resp
  ∧ ∀ k, k ∈ entity_headers → get_header resp' k = get_header resp k.

Lemma decorates_keeps resp resp' : decorates resp resp' → keeps resp resp'.
Proof.
  intros Hd. pose proof Hd as (Hs & Hb & _). split_and!; [done..|]. intros k Hk.
  apply (decorates_header _ _ _ Hd). revert k Hk. apply Forall_forall. apply (bool_decide_unpack _). vm_compute. done.
Qed.

(** ** The steps after the static files *)

(** The response that on-the-fly compression makes, but for [Vary]. *)
Definition coded (opts : RequestHandlerOpts) (req : Request) (resp : Response) : Response :=
  match get_preferred_encoding (req_headers req), compressible opts req resp with
  | Some c, true => encode_response c (into_algorithm_level (compression_level opts) (default_level c)) resp
  | _, _ => resp
  end.

Lemma encode_decorates c l resp resp' :
  decorates resp resp' → decorates (encode_response c l resp) (encode_response c l resp').
Proof.
  intros Hd. pose proof (decorates_header resp resp' H_CONTENT_ENCODING Hd) as Hce. destruct Hd as (Hs & Hb & Hg).
  split_and!; [done|by cbn; rewrite Hb|]. intros k Hk. cbn. rewrite !hm_get_all_insert, !hm_get_all_remove.
  rewrite Hce by (apply (bool_decide_unpack _); vm_compute; done). by repeat case_bool_decide; auto.
Qed.

Lemma coded_decorates opts req resp resp' :
  decorates resp resp' → decorates (coded opts req resp) (coded opts req resp').
Proof.
  intros Hd. unfold coded.
  assert (compressible opts req resp' = compressible opts req resp) as ->.
  { unfold compressible, typed_get.
    rewrite (decorates_header resp resp' H_CONTENT_ENCODING Hd) by (apply (bool_decide_unpack _); vm_compute; done).
    destruct Hd as (_ & _ & ->); [done|]. apply (bool_decide_unpack _); vm_compute; done. }
  destruct (get_preferred_encoding _); [|done]. destruct (compressible _ _ _); [|done]. by apply encode_decorates.
Qed.

Lemma compression_decorates fs opts req resp :
  ∃ resp', Compression.post_process fs opts req resp = Ok resp' ∧ decorates (coded opts req resp) resp'.
Proof.
  unfold Compression.post_process.
  destruct (compression opts) eqn:Hc; cbn [negb].
  2: { exists resp. split; [done|]. unfold coded, compressible. rewrite Hc. by destruct (get_preferred_encoding _). }
  destruct (get_header resp H_CONTENT_ENCODING) as [v|] eqn:Hce.
  { exists resp. split; [done|]. unfold coded, compressible. rewrite Hce, andb_false_r.
    by destruct (get_preferred_encoding _). }
  set (r1 := put_header H_VARY H_ACCEPT_ENCODING resp).
  destruct (auto_compress_spec (req_method req) (req_headers req) (compression_level opts) r1) as (r & -> & Hr).
  exists r. split; [done|]. etrans; [apply coded_decorates, (decorates_put H_VARY H_ACCEPT_ENCODING); left|].
  fold r1. assert (r = coded opts req r1) as ->; [|done]. unfold coded, compressible.
  assert (get_header r1 H_CONTENT_ENCODING = None) as -> by (unfold r1; rewrite get_header_put; by eval_names).
  rewrite Hc. cbn [andb]. rewrite andb_true_r. destruct (get_preferred_encoding _); [|done].
  by destruct (_ && _).
Qed.

Lemma cache_control_decorates opts req resp :
  ∃ resp', ControlHeaders.post_process opts req resp = Ok resp' ∧ decorates resp resp'.
Proof.
  unfold ControlHeaders.post_process. destruct (cache_control_headers opts); [|by eexists].
  rewrite cache_control_append_Ok. eexists. split; [done|]. apply decorates_put. right. left.
Qed.

Lemma security_decorates opts req resp :
  ∃ resp', SecurityHeaders.post_process opts req resp = Ok resp' ∧ decorates resp resp'.
Proof.
  unfold SecurityHeaders.post_process. destruct (security_headers opts); [|by eexists].
  rewrite security_append_Ok. eexists. split; [done|].
  repeat (etrans; [|apply decorates_put; unfold decorations; set_solver]). done.
Qed.

(** The rules of the configuration file leave a request to the static files, which
    get it as [req']: the custom headers do not replace those about the body, no
    redirect matches, and the rewrites make [req'] of the request (which may be the
    request itself).  Apart from error pages the rewrites depend on no other option. *)
Record rules_pass (fs : FileSystem) (adv : option Advanced) (req req' : Request) : Prop := {
  rp_headers : ∀ hs, adv ≫= adv_headers = Some hs →
    Forall (λ e, Forall (λ k, hm_get_all (hdr_headers e) k = []) entity_headers) hs;
  rp_redirects : ∀ rs, adv ≫= adv_redirects = Some rs →
    Forall (λ r, redirect_matches (request_host req) (uri_path (req_uri req)) r = false) rs;
  rp_rewrites : Rewrites.pre_process fs (set_advanced_opts adv opts_default) req = (None, req')
}.

Lemma rewrites_other_opts fs opts req req' :
  Rewrites.pre_process fs (set_advanced_opts (advanced_opts opts) opts_default) req = (None, req') →
  Rewrites.pre_process fs opts req = (None, req').
Proof.
  unfold Rewrites.pre_process. cbn [advanced_opts set_advanced_opts].
  destruct (advanced_opts opts ≫= adv_rewrites) as [rs|]; [|done].
  destruct (rewrite_uri_path _ _) as [e|]; [|done]. destruct (replace_placeholders _ _ _); [|done..].
  destruct (rw_redirect e); [by destruct (hv_from_str _)|]. by destruct (merge_uris _ _).
Qed.

(** A rewritten request keeps its method and its headers, but for [Host]. *)
Lemma rewritten_keeps fs opts req req' :
  rules_pass fs (advanced_opts opts) req req' →
  Rewrites.pre_process fs opts req = (None, req') ∧ req_method req' = req_method req
  ∧ ∀ k, k ≠ H_HOST → hm_get (req_headers req') k = hm_get (req_headers req) k.
Proof.
  intros [_ _ Hrw]. apply rewrites_other_opts in Hrw. split; [done|].
  pose proof (rewrites_pre_cases fs opts req) as Hc. by rewrite Hrw in Hc.
Qed.

(** The root a request is served from: that of its virtual host, or the main one. *)
Definition host_root (root : string) (adv : option Advanced) (req : Request) : string :=
  match adv with
  | Some a => default root (get_real_root req (adv_virtual_hosts a))
  | None => root
  end.

(** What the handler needs to leave the answer to the static files. *)
Record plain_request (opts : RequestHandlerOpts) (req : Request) : Prop := {
  pr_get : req_method req = GET;
  pr_origin : hm_get (req_headers req) H_ORIGIN = None;
  pr_health : health opts = true → uri_path (req_uri req) ≠ "/health";
  pr_metrics : experimental_metrics opts = true → uri_path (req_uri req) ≠ "/metrics";
  pr_auth : basic_auth opts ≠ "" → authenticated (basic_auth opts) (req_headers req)
}.

Lemma custom_headers_keep fs opts req0 req resp file_path :
  rules_pass fs (advanced_opts opts) req0 req →
  ∃ resp', CustomHeaders.post_process opts req resp file_path = Ok resp' ∧ keeps resp resp'.
Proof.
  intros [Hh _ _]. unfold CustomHeaders.post_process. eexists. split; [done|].
  destruct (advanced_opts opts) as [adv|]; [|done]. destruct (adv_headers adv) as [vec|] eqn:Hv; [|done].
  rewrite append_headers_pairs. destruct (insert_pairs_fold
    (inserted_pairs (match_path (uri_path (req_uri req)) file_path) vec) resp) as [Hs Hb].
  split_and!; [done..|]. intros k Hk. rewrite insert_pairs_get.
  destruct (List.filter _ _) as [|kv l] eqn:E; [done|]. exfalso.
  assert (In kv (List.filter (λ kv, bool_decide (kv.1 = k))
            (inserted_pairs (match_path (uri_path (req_uri req)) file_path) vec))) as Hin by (rewrite E; by left).
  apply filter_In in Hin as [Hin Hkv%bool_decide_eq_true]. apply list_elem_of_In in Hin.
  unfold inserted_pairs in Hin. apply list_elem_of_bind in Hin as (e & Hin & He).
  destruct (glob_is_match _ _); [|by apply not_elem_of_nil in Hin]. destruct kv as [k' v]. cbn in Hkv. subst k'.
  apply hm_iter_spec in Hin. specialize (Hh vec Hv). rewrite Forall_forall in Hh.
  specialize (Hh e He). rewrite Forall_forall in Hh. rewrite (Hh k Hk) in Hin. by apply not_elem_of_nil in Hin.
Qed.

(** The last steps code every answer that is not a 404 and keep what it says about
    its body. *)
Lemma post_process_keeps fs opts req0 req resp file_path :
  plain_request opts req0 → rules_pass fs (advanced_opts opts) req0 req → resp_status resp ≠ SC_NOT_FOUND →
  ∃ resp', Handler.post_process fs opts req resp file_path = Ok resp' ∧ keeps (coded opts req resp) resp'.
Proof.
  intros [Hg Ho0 _ _ _] Hru Hs. unfold Handler.post_process.
  destruct (rewritten_keeps _ _ _ _ Hru) as (_ & _ & Hhm).
  assert (hm_get (req_headers req) H_ORIGIN = None) as Ho by by rewrite Hhm.
  destruct (fallback_spec opts req resp) as (r1 & -> & _ & [->|(_ & ? & _)]); [|done]. cbn [rbind].
  destruct (cors_post_cases opts req resp) as (r2 & -> & _ & _ & Hr2). cbn [rbind].
  rewrite Ho in Hr2. assert (r2 = resp) as -> by by destruct (opt_cors opts).
  assert (∃ r, CompressionStatic.post_process opts req resp = Ok r ∧ decorates resp r) as (r2 & -> & Hd2).
  { unfold CompressionStatic.post_process. destruct (compression_static opts); cbn [negb]; [|by eexists].
    eexists. split; [done|]. apply decorates_put. left. }
  cbn [rbind]. destruct (compression_decorates fs opts req r2) as (r3 & -> & Hd3). cbn [rbind].
  destruct (cache_control_decorates opts req r3) as (r4 & -> & Hd4). cbn [rbind].
  destruct (security_decorates opts req r4) as (r5 & -> & Hd5). cbn [rbind].
  destruct (custom_headers_keep fs opts req0 req r5 file_path Hru) as (r6 & -> & Hs6 & Hb6 & Hh6).
  exists r6. split; [done|].
  assert (decorates (coded opts req resp) r5) as (Hs5 & Hb5 & Hh5)%decorates_keeps
    by (rewrite (coded_decorates opts req _ _ Hd2), Hd3, Hd4; done).
  split_and!; [congruence..|]. intros k Hk. by rewrite Hh6, Hh5.
Qed.

(** ** The checks before the static files *)

Lemma checks_pass w opts req req' :
  plain_request opts req → rules_pass (w_fs w) (advanced_opts opts) req req' → maintenance_mode opts = false →
  Handler.handle w opts req = serve w opts req'.
Proof.
  intros [Hg Ho Hh Hm Ha] Hru Hmm. pose proof Hru as [_ Hrd _].
  destruct (rewritten_keeps _ _ _ _ Hru) as (Hrw & _). unfold Handler.handle. rewrite Hg. simpl negb. cbv iota.
  assert (Health.pre_process opts req = None) as ->.
  { unfold Health.pre_process, is_health_endpoint. destruct (health opts); [|done]. cbn [negb].
    by rewrite (proj2 (str_eqb_ne _ _) (Hh eq_refl)). }
  assert (Metrics.pre_process (w_metrics w) opts req = None) as ->.
  { unfold Metrics.pre_process. destruct (experimental_metrics opts); [|done]. cbn [negb].
    by rewrite (proj2 (str_eqb_ne _ _) (Hm eq_refl)). }
  assert (Cors.pre_process (w_fs w) opts req = None) as ->.
  { unfold Cors.pre_process, Cors.check_request. rewrite Ho. by destruct (opt_cors opts). }
  assert (BasicAuth.pre_process (w_fs w) opts req = None) as ->.
  { pose proof (auth_pre_cases (w_fs w) opts req) as Hc. destruct (BasicAuth.pre_process _ _ _) eqn:E; [|done].
    destruct Hc as (? & _ & Hne & _ & Hna & _). destruct Hna. by apply Ha. }
  unfold MaintenanceMode.pre_process. rewrite Hmm.
  assert (Redirects.pre_process (w_fs w) opts req = None) as ->.
  { unfold Redirects.pre_process. destruct (advanced_opts opts ≫= adv_redirects) as [rs|]; [|done].
    cbn [get_redirection]. by rewrite (proj2 (find_first_None _ _) (Hrd rs eq_refl)). }
  by rewrite Hrw.
Qed.

(** ** A file through the whole handler *)

(** The answer with the bytes [a..b) of a file of contents [data]. *)
Definition delivers (resp : Response) (path data : string) (a b : Z) : Prop :=
  resp_status resp = (if decide ((b - a)%Z = str_len data) then SC_OK else SC_PARTIAL_CONTENT)
  ∧ get_header resp H_CONTENT_LENGTH = Some (content_length_value (b - a))
  ∧ get_header resp H_CONTENT_RANGE
    = (if decide ((b - a)%Z = str_len data) then None else content_range_bytes a b (str_len data))
  ∧ get_header resp H_CONTENT_TYPE = Some (content_type_value (mime_guess_from_path path))
  ∧ ∃ st, body_stream (resp_body resp) = Some st
    ∧ ∀ wants fuel, (String.length data < fuel)%nat →
      ∃ cs, drain wants fuel st = Some (cs, true)
        ∧ concat_str cs = str_take (Z.to_nat (b - a)) (str_drop (Z.to_nat a) data).

Lemma delivers_kept resp resp' path data a b :
  keeps resp resp' → delivers resp path data a b → delivers resp' path data a b.
Proof.
  intros (Hs & Hb & Hh). unfold delivers. rewrite Hs, Hb, !Hh by (unfold entity_headers; set_solver). done.
Qed.

(** A regular file that can be read. *)
Record readable (fs : FileSystem) (p : string) (meta : Metadata) (data : string) : Prop := {
  rd_meta : fs_metadata fs p = Ok meta;
  rd_kind : meta_kind meta = KFile;
  rd_open : ∃ file, fs_open fs p = Ok file ∧ of_data file = Some data ∧ ∀ n, of_seek file n = true;
  rd_len : str_len data = meta_len meta;
  rd_u64 : is_u64 (meta_len meta)
}.

Lemma handler_delivers w opts req req' p meta data rng a b :
  plain_request opts req → (compression opts = true → get_preferred_encoding (req_headers req') = None) →
  rules_pass (w_fs w) (advanced_opts opts) req req' → maintenance_mode opts = false →
  compression_static opts = false → memory_cache opts = None →
  sanitize_path (host_root (root_dir opts) (advanced_opts opts) req') (uri_path (req_uri req')) = Ok p →
  readable (w_fs w) p meta data →
  (disable_symlinks opts = true → path_is_symlink (w_fs w) p = false) →
  (ignore_hidden_files opts = true → is_hidden p = false) →
  check (conditionals_new (req_headers req')) (last_modified_of meta) = WithBody rng →
  bytes_range rng (str_len data) = Ok (a, b) →
  ((b - a)%Z = str_len data ∨ is_Some (content_range_bytes a b (str_len data))) →
  ∃ resp, Handler.handle w opts req = Ok resp ∧ delivers resp p data a b.
Proof.
  intros Hpl Hid Ha Hm Hc Hmc Hp [Hmeta Hk (file & Hf & Hd & Hsk) Hlen Hu] Hds Hih Hck Hr Hcr.
  pose proof (checked_range _ _ _ _ Hu Hck) as Hb. rewrite <- Hlen, Hr in Hb. destruct Hb as [Hab Hb].
  rewrite (checks_pass _ _ _ req') by done.
  assert (req_method req' = GET) as Hg'.
  { destruct (rewritten_keeps _ _ _ _ Ha) as (_ & -> & _). by destruct Hpl. } unfold serve, static_response.
  rewrite (handle_regular_file _ _ _ p meta file)
    by (cbn; rewrite ?Hc; first [done|by destruct Hpl]).
  cbn [ho_headers handle_opts_of]. unfold response_body. rewrite Hck, <- Hlen, Hr, Hsk, Hlen.
  cbn [negb rbind fst snd sf_resp sf_file_path].
  destruct (range_delivers file p meta None data a b Hd Hlen Hab ltac:(lia))
    as [(_ & Hne & Hno)|(H1' & H2' & H3' & H4' & st & H5' & H6')].
  { rewrite Hlen, Hno in Hcr. by destruct Hcr as [?|[]]. }
  match goal with |- context [Handler.post_process _ _ _ ?r _] => set (resp := r) in * end.
  destruct (post_process_keeps (w_fs w) opts req req' resp (Some p)) as (resp' & -> & Hdec); try done.
  { rewrite H1'. by case_decide. }
  assert (coded opts req' resp = resp) as Hco.
  { unfold coded, compressible. destruct (compression opts); [by rewrite Hid|].
    by destruct (get_preferred_encoding _). }
  rewrite Hco in Hdec.
  exists resp'. split; [done|]. eapply delivers_kept; [done|]. rewrite <- Hlen in *.
  split_and!; try done. exists st. split; [done|]. intros wants fuel Hfuel.
  destruct (H6' wants fuel Hfuel) as (cs & ? & ? & _). eauto.
Qed.

End Delivery.

(** ** From the command line *)

Section Started.
Context `{!HttpC, !HeadersC, !MatchC, !PercentC, !ListingC, !OriginC, !BcryptC, !ConfigC, !TracingC, !ClapC}.
Context `{Htls : !TlsC, Hnet : !NetC}.
Context (build_info : BuildInfo) (render : Generated → Result unit Error) (cpus : option Z)
        (bufs : nat → nat * nat) (build_runtime : Z → Z → Result unit Error).

(** A [GET] that asks for a file: not one of the endpoints that are switched on, not
    from another origin, with the credentials when there are any. *)
Record asks_file (general : General) (req : Request) : Prop := {
  af_get : req_method req = GET;
  af_origin : hm_get (req_headers req) H_ORIGIN = None;
  af_health : g_health general = true → uri_path (req_uri req) ≠ "/health";
  af_metrics : g_experimental_metrics general = true → uri_path (req_uri req) ≠ "/metrics";
  af_auth : trim (g_basic_auth general) ≠ "" → authenticated (trim (g_basic_auth general)) (req_headers req)
}.

(** The options of every service of a server started without a cache. *)
Lemma started_options fs argv env threads svcs general adv req :
  outcome (main build_info render cpus bufs build_runtime fs argv env) = Ok (Serving threads svcs) →
  outcome (settings_read fs true true argv env) = Ok {| s_general := general; s_advanced := adv |} →
  adv ≫= adv_memory_cache = None → asks_file general req →
  ∃ cors, let opts := features_opts fs {| s_general := general; s_advanced := adv |} cors in
    plain_request opts req
    ∧ (∃ svc, svc ∈ svcs ∧ is_Some (served_opts svc))
    ∧ ∀ svc w, svc ∈ svcs → is_Some (served_opts svc) →
        service_answer fs w svc req = Handler.handle w opts req.
Proof.
  intros Hm Hset' Hmc [Hg Ho Hh Hmt Hau].
  apply main_serving in Hm as (settings & workers & gl' & Hset & _ & _ & Hst).
  rewrite Hset' in Hset. injection Hset as <-.
  destruct (started_file_services _ _ _ _ _ _ _ Hst) as (opts & Hopts & Hex & Hall).
  apply handler_opts_uncached in Hopts as [cors ->]; [|done]. exists cors. cbv zeta.
  split; [by split|]. split; [done|]. intros svc w Hin Hs. by apply Hall.
Qed.

(** C18. From the command line to the bytes: a server that [main] starts, with
    settings from the command line, the environment and any configuration file,
    delivers the files of its root or of the root of the virtual host that is asked
    for, the path being that of the rewritten request.  One of its services serves
    files, and each one that does answers a [GET] of a readable regular file with 200
    and the whole file or, when the conditional and range headers select a
    satisfiable range, with 206 and exactly that range, announced by [Content-Length]
    and [Content-Range]; the last steps of the pipeline change none of this.  The
    conditions: no cache, no maintenance, no pre-compressed files, no coding to apply
    when compression is on, no redirect that matches and no custom header about the
    body ([rules_pass]), no [Origin], the credentials when there are any, none of the
    enabled endpoints ([asks_file]), and a path that the links and hidden-files
    options do not exclude. *)
Theorem started_server_delivers fs argv env threads svcs general adv metrics req req' p meta data rng a b :
  outcome (main build_info render cpus bufs build_runtime fs argv env) = Ok (Serving threads svcs) →
  outcome (settings_read fs true true argv env) = Ok {| s_general := general; s_advanced := adv |} →
  adv ≫= adv_memory_cache = None → rules_pass fs adv req req' →
  g_maintenance_mode general = false → g_compression_static general = false → asks_file general req →
  (g_compression general = true → get_preferred_encoding (req_headers req') = None) →
  sanitize_path (host_root (g_root general) adv req') (uri_path (req_uri req')) = Ok p → readable fs p meta data →
  (g_disable_symlinks general = true → path_is_symlink fs p = false) →
  (g_ignore_hidden_files general = true → is_hidden p = false) →
  check (conditionals_new (req_headers req')) (last_modified_of meta) = WithBody rng →
  bytes_range rng (str_len data) = Ok (a, b) →
  ((b - a)%Z = str_len data ∨ is_Some (content_range_bytes a b (str_len data))) →
  (∃ svc, svc ∈ svcs ∧ is_Some (served_opts svc))
  ∧ ∀ svc, svc ∈ svcs → is_Some (served_opts svc) →
      ∃ resp, service_answer fs {| w_fs := fs; w_store := None; w_metrics := metrics |} svc req = Ok resp
        ∧ delivers resp p data a b.
Proof.
  intros Hm Hset Hmc Hru Hmm Hcs Hask Hid Hp Hrd Hds Hih Hck Hr Hcr.
  destruct (started_options _ _ _ _ _ _ _ _ Hm Hset Hmc Hask) as (cors & Hpl & Hex & Hall).
  split; [done|]. intros svc Hin Hs. rewrite (Hall svc _ Hin Hs).
  by apply (handler_delivers _ _ _ req' _ meta _ rng).
Qed.

End Started.

(** ** Witnesses *)

Definition delivery_fs : FileSystem :=
  table_fs [dir_node "/srv"; file_node "/srv/a.txt" "0123456789" 5000000000].

Definition delivery_main : Logged (Outcome (Hnet := net_sample)) :=
  main sample_build (λ _, Ok ()) (Some 4%Z) (λ n, (n, 7)) (λ _ _, Ok ()) delivery_fs
    ["static-web-server"; "--root=/srv"] (λ _, None).

Lemma started_server_delivers_witness :
  let headers := hm_insert H_RANGE "bytes=2-4" hm_new in
  match outcome delivery_main with
  | Ok (Serving _ svcs) =>
      ∃ svc resp, svc ∈ svcs
        ∧ service_answer delivery_fs {| w_fs := delivery_fs; w_store := None; w_metrics := None |} svc
            (get_request "/a.txt" headers) = Ok resp
        ∧ delivers resp "/srv/a.txt" "0123456789" 2 5
  | _ => False
  end.
Proof.
  intros headers.
  assert (match outcome delivery_main with Ok (Serving _ _) => True | _ => False end) as Hs by by vm_compute.
  assert (outcome (settings_read delivery_fs true true ["static-web-server"; "--root=/srv"] (λ _, None))
          = Ok {| s_general := sample_general "./config.toml" "/srv"; s_advanced := None |}) as Hset
    by (vm_compute; reflexivity).
  set (meta := node_meta (file_node "/srv/a.txt" "0123456789" 5000000000)).
  assert (check (conditionals_new headers) (last_modified_of meta)
          = WithBody (Some [(Included 2, Included 4)])) as Hck.
  { assert (match check (conditionals_new headers) (last_modified_of meta) with
            | WithBody r => Some r
            | NoBody _ => None
            end = Some (Some [(Included 2, Included 4)])) as Hc by (vm_compute; reflexivity).
    destruct (check _ _) as [|rng]; [discriminate Hc|]. by injection Hc as ->. }
  destruct (outcome delivery_main) as [[l|l|threads svcs|]|e|] eqn:E;
    [destruct Hs|destruct Hs| |destruct Hs|destruct Hs|destruct Hs].
  destruct (started_server_delivers (Hnet := net_sample) sample_build (λ _, Ok ()) (Some 4%Z)
    (λ n, (n, 7)) (λ _ _, Ok ()) delivery_fs _ _ threads svcs _ None None
    (get_request "/a.txt" headers) (get_request "/a.txt" headers)
    "/srv/a.txt" meta "0123456789"
    (Some [(Included 2, Included 4)]) 2 5 E Hset eq_refl) as [(svc & Hin & Hsv) Hall];
    [split; [discriminate..|reflexivity]|vm_compute; reflexivity..| | | | | | | | | |].
  - split; [vm_compute; reflexivity..|discriminate|discriminate|].
    intros Hne. destruct Hne. vm_compute. reflexivity.
  - intros _. vm_compute. reflexivity.
  - vm_compute; reflexivity.
  - split; [vm_compute; reflexivity..| |vm_compute; reflexivity|vm_compute; by split].
    eexists. split; [vm_compute; reflexivity|]. by split.
  - discriminate.
  - discriminate.
  - exact Hck.
  - vm_compute; reflexivity.
  - right. vm_compute. eexists. reflexivity.
  - destruct (Hall svc Hin Hsv) as (resp & Hr & Hd). exists svc, resp. auto.
Defined.
