(* ===== verification/Client.v ===== *)
(** * What a client receives

    The bytes of a body on the wire and what is left of them when the client has
    undone the content coding; the encoders of the server and the decoder of the
    client are the class [CodecC].  A body that fails to be read has no bytes, and
    then neither has its encoding: an encoder reads the body through
    [CompressableBody] of [compression.rs], which passes errors on.  With it the
    composition of [Delivery] is stated for any [Accept-Encoding] and any
    compression settings. *)

From S2P Require Import Prelude RustStr Logger IpAddr RustPath Fs FsStream ContentCoding Http.
From S2P Require Import HttpInstances Opts Settings Cli FsPath FsMeta QualityValue ErrorPage Compression.
From S2P Require Import CompressionStatic ConditionalHeaders ResponseBody MemCache DirectoryListing.
From S2P Require Import StaticFiles Cors BasicAuth Handler Transport Tls Service Server StartServer Main.
From S2P Require Import Delivery.

Open Scope sws_scope.

(** The [async-compression] crate, and decoders for its formats. *)
Class CodecC : Type := {
  encode : ContentCoding → AlgorithmLevel → string → string;
  decode : ContentCoding → string → option string;
  decode_encode : ∀ c l s, available c = true → decode c (encode c l s) = Some s
}.

Section Client.
Context `{!HttpC, !HeadersC, !MatchC, !PercentC, !ListingC, !OriginC, !BcryptC, !CodecC}.

(** What the stream of the body yields, when it ends well. *)
Fixpoint body_bytes (wants : nat → nat) (fuel : nat) (b : Body) : option string :=
  match b with
  | BodyEmpty => Some ""
  | BodyBytes s => Some s
  | BodyFile _ | BodyMemFile _ =>
      match body_stream b with
      | Some st => match drain wants fuel st with
                   | Some (cs, true) => Some (concat_str cs)
                   | _ => None
                   end
      | None => None
      end
  | BodyEncoded c l b => encode c l <$> body_bytes wants fuel b
  end.

(** The content of a response for a client that knows the codings. *)
Definition received (wants : nat → nat) (fuel : nat) (resp : Response) : option string :=
  match body_bytes wants fuel (resp_body resp), get_header resp H_CONTENT_ENCODING with
  | Some bytes, None => Some bytes
  | Some bytes, Some value => from_str value ≫= (λ c, decode c bytes)
  | None, _ => None
  end.

Lemma received_kept wants fuel resp resp' :
  keeps resp resp' → received wants fuel resp' = received wants fuel resp.
Proof.
  intros (_ & Hb & Hh). unfold received. by rewrite Hb, Hh by (unfold entity_headers; set_solver).
Qed.

(** Compression on the fly does not change what the client gets. *)
Lemma received_coded wants fuel opts req resp :
  is_Some (body_bytes wants fuel (resp_body resp)) →
  received wants fuel (coded opts req resp) = received wants fuel resp.
Proof.
  intros [bytes Hb]. unfold coded. destruct (get_preferred_encoding (req_headers req)) as [c|] eqn:Hc; [|done].
  destruct (compressible opts req resp) eqn:Hcomp; [|done].
  assert (get_header resp H_CONTENT_ENCODING = None) as Hce.
  { unfold compressible in Hcomp. destruct (get_header resp H_CONTENT_ENCODING); [|done].
    by rewrite andb_false_r in Hcomp. }
  unfold received. rewrite Hce, Hb. rewrite encode_response_headers. eval_names. cbv iota.
  rewrite Hce. cbn [create_encoding_header resp_body encode_response put_header del_header set_body body_bytes].
  rewrite Hb. cbn. rewrite from_str_as_str. cbn. by apply decode_encode, (preferred_available (req_headers req)).
Qed.

(** A body that is streamed from a file. *)
Lemma body_bytes_stream wants fuel b st cs :
  body_stream b = Some st → drain wants fuel st = Some (cs, true) → body_bytes wants fuel b = Some (concat_str cs).
Proof. intros Hs Hd. destruct b; simplify_eq/=; by rewrite Hd. Qed.

(** The response to an unconditional request of a readable file: all of it. *)
Lemma whole_file fs p' path meta data headers :
  readable fs p' meta data → unconditional headers →
  ∃ file resp, fs_open fs p' = Ok file
    ∧ response_body file path meta (conditionals_new headers) None = Ok resp
    ∧ resp_status resp = SC_OK
    ∧ get_header resp H_CONTENT_TYPE = Some (content_type_value (mime_guess_from_path path))
    ∧ get_header resp H_CONTENT_ENCODING = None
    ∧ ∀ wants fuel, (String.length data < fuel)%nat → body_bytes wants fuel (resp_body resp) = Some data.
Proof.
  intros [_ _ (file & Hf & Hd & Hsk) Hlen Hu] Hun. exists file. unfold response_body.
  rewrite unconditional_check by done. cbn [bytes_range]. rewrite Hsk. cbn [negb]. cbv iota.
  eexists. split; [done|]. split; [done|]. unfold is_u64 in Hu.
  destruct (range_delivers file path meta None data 0 (meta_len meta) Hd Hlen)
    as [(_ & Hne & _)|(-> & _ & _ & -> & st & Hst & Hdr)]; [lia..|].
  rewrite decide_True by lia. split_and!; [done|done| |].
  - unfold range_response. rewrite Z.sub_0_r, Z.eqb_refl. cbn [negb]. rewrite get_insert_file_headers.
    eval_names. cbv iota. apply get_header_new.
  - intros wants fuel Hfuel. destruct (Hdr wants fuel Hfuel) as (cs & Hcs & Hc & _).
    rewrite (body_bytes_stream wants fuel _ _ _ Hst Hcs), Hc, Z.sub_0_r. f_equal.
    change (str_drop (Z.to_nat 0) data) with data. apply str_take_all. unfold str_len in Hlen. lia.
Qed.

(** Every pre-compressed variant that would be served is an encoding of [data]. *)
Definition variants_ok (fs : FileSystem) (p : string) (headers : HeaderMap) (data : string) : Prop :=
  ∀ v, precompressed_variant fs p headers = Some v →
    ∃ vdata, readable fs (cv_file_path v) (cv_metadata v) vdata ∧ decode (cv_encoding v) vdata = Some data.

(** What the static files answer, for the client. *)
Lemma static_files_received fs store opts p meta data :
  ho_method opts = GET → ho_memory_cache opts = None →
  sanitize_path (ho_base_path opts) (ho_uri_path opts) = Ok p → readable fs p meta data →
  (ho_disable_symlinks opts = true → path_is_symlink fs p = false) →
  (ho_ignore_hidden_files opts = true → is_hidden p = false) → unconditional (ho_headers opts) →
  (ho_compression_static opts = true → variants_ok fs p (ho_headers opts) data) →
  ∃ r n, StaticFiles.handle fs store opts = Ok r ∧ sf_file_path r = p ∧ resp_status (sf_resp r) = SC_OK
    ∧ get_header (sf_resp r) H_CONTENT_TYPE = Some (content_type_value (mime_guess_from_path p))
    ∧ ∀ wants fuel, (n < fuel)%nat →
        is_Some (body_bytes wants fuel (resp_body (sf_resp r))) ∧ received wants fuel (sf_resp r) = Some data.
Proof.
  intros Hg Hmc Hp Hrd Hds Hih Hun Hv. pose proof Hrd as [Hm Hk _ _ _].
  destruct (static_variant fs (ho_compression_static opts) p (ho_headers opts)) as [fm|] eqn:Hsv.
  - assert (∃ v, ho_compression_static opts = true ∧ precompressed_variant fs p (ho_headers opts) = Some v)
      as (v & Hcs & Hvar).
    { unfold static_variant in Hsv. destruct (ho_compression_static opts); [|done].
      destruct (precompressed_variant fs p _) as [v|]; [eauto|done]. }
    destruct (Hv Hcs v Hvar) as (vdata & Hvr & Hdec).
    destruct (whole_file fs _ p _ _ (ho_headers opts) Hvr Hun) as (file & resp & Hf & Hr & Hst & Hct & _ & Hb).
    rewrite (handle_file_variant _ _ _ p meta v file) by done. rewrite Hr. cbn [rbind].
    eexists _, (String.length vdata). split; [done|]. cbn [sf_resp sf_file_path]. split_and!; [done|done|..].
    + rewrite get_header_put, get_header_del. by eval_names.
    + intros wants fuel Hfuel. unfold received. rewrite get_header_put. eval_names. cbv iota.
      cbn [resp_body put_header del_header]. rewrite Hb by done. split; [done|].
      by rewrite from_str_as_str.
  - destruct (whole_file fs p p meta data (ho_headers opts) Hrd Hun) as (file & resp & Hf & Hr & Hst & Hct & Hce & Hb).
    rewrite (handle_regular_file _ _ _ p meta file) by done. rewrite Hr. cbn [rbind].
    eexists _, (String.length data). split; [done|]. cbn [sf_resp sf_file_path]. split_and!; [done..|].
    intros wants fuel Hfuel. unfold received. rewrite Hb, Hce by done. done.
Qed.

(** And the whole handler. *)
Lemma handler_received w opts req req' p meta data :
  plain_request opts req → rules_pass (w_fs w) (advanced_opts opts) req req' →
  maintenance_mode opts = false → memory_cache opts = None →
  sanitize_path (host_root (root_dir opts) (advanced_opts opts) req') (uri_path (req_uri req')) = Ok p →
  readable (w_fs w) p meta data →
  (disable_symlinks opts = true → path_is_symlink (w_fs w) p = false) →
  (ignore_hidden_files opts = true → is_hidden p = false) → unconditional (req_headers req') →
  (compression_static opts = true → variants_ok (w_fs w) p (req_headers req') data) →
  ∃ resp n, Handler.handle w opts req = Ok resp ∧ resp_status resp = SC_OK
    ∧ get_header resp H_CONTENT_TYPE = Some (content_type_value (mime_guess_from_path p))
    ∧ ∀ wants fuel, (n < fuel)%nat → received wants fuel resp = Some data.
Proof.
  intros Hpl Ha Hm Hmc Hp Hrd Hds Hih Hun Hv. rewrite (checks_pass _ _ _ req') by done. unfold serve, static_response.
  destruct (static_files_received (w_fs w) (w_store w) (handle_opts_of opts req') p meta data)
    as (r & n & -> & _ & Hst & Hct & Hb);
    [cbn; destruct (rewritten_keeps _ _ _ _ Ha) as (_ & -> & _); by destruct Hpl|done..|]. cbn [rbind fst snd].
  destruct (post_process_keeps (w_fs w) opts req req' (sf_resp r) (Some (sf_file_path r))) as (resp & -> & Hd);
    [done|done|by rewrite Hst|].
  exists resp, n. split; [done|]. rewrite (proj2 (proj2 Hd)) by left.
  assert (resp_status (coded opts req' (sf_resp r)) = SC_OK
          ∧ get_header (coded opts req' (sf_resp r)) H_CONTENT_TYPE
            = Some (content_type_value (mime_guess_from_path p))) as [Hst' Hct'].
  { unfold coded. destruct (get_preferred_encoding _); [|done]. destruct (compressible _ _ _); [|done].
    split; [done|]. rewrite encode_response_headers. by eval_names. }
  pose proof Hd as (-> & _ & _). split_and!; [done..|]. intros wants fuel Hfuel.
  destruct (Hb wants fuel Hfuel) as [Hsome Hrec]. rewrite (received_kept _ _ _ _ Hd).
  by rewrite received_coded.
Qed.

End Client.

(** ** From the command line to the client *)

Section Started.
Context `{!HttpC, !HeadersC, !MatchC, !PercentC, !ListingC, !OriginC, !BcryptC, !ConfigC, !TracingC, !ClapC}.
Context `{Htls : !TlsC, Hnet : !NetC, !CodecC}.
Context (build_info : BuildInfo) (render : Generated → Result unit Error) (cpus : option Z)
        (bufs : nat → nat * nat) (build_runtime : Z → Z → Result unit Error).

(** C8. The client gets the file: whatever codings a client accepts and whatever the
    compression settings of a server that [main] starts are (none, on the fly at any
    level, pre-compressed files), the answer to an unconditional [GET] that, after the
    rewrites, leads to a readable regular file of the root of its virtual host or of
    the main root, is 200 with the type of the file, and undoing the
    [Content-Encoding] it announces gives the bytes of the file, for any sequence of
    read sizes.  The conditions: no cache, no maintenance, no redirect that matches
    and no custom header about the body ([rules_pass]), no [Origin], the credentials
    when there are any, none of the enabled endpoints ([asks_file]), a path that the
    links and hidden-files options do not exclude, and pre-compressed files that are
    encodings of the file by the coding they are announced with ([variants_ok]). *)
Theorem client_gets_file fs argv env threads svcs general adv metrics req req' p meta data :
  outcome (main build_info render cpus bufs build_runtime fs argv env) = Ok (Serving threads svcs) →
  outcome (settings_read fs true true argv env) = Ok {| s_general := general; s_advanced := adv |} →
  adv ≫= adv_memory_cache = None → rules_pass fs adv req req' →
  g_maintenance_mode general = false → asks_file general req → unconditional (req_headers req') →
  sanitize_path (host_root (g_root general) adv req') (uri_path (req_uri req')) = Ok p → readable fs p meta data →
  (g_disable_symlinks general = true → path_is_symlink fs p = false) →
  (g_ignore_hidden_files general = true → is_hidden p = false) →
  (g_compression_static general = true → variants_ok fs p (req_headers req') data) →
  (∃ svc, svc ∈ svcs ∧ is_Some (served_opts svc))
  ∧ ∀ svc, svc ∈ svcs → is_Some (served_opts svc) →
      ∃ resp n, service_answer fs {| w_fs := fs; w_store := None; w_metrics := metrics |} svc req = Ok resp
        ∧ resp_status resp = SC_OK
        ∧ get_header resp H_CONTENT_TYPE = Some (content_type_value (mime_guess_from_path p))
        ∧ ∀ wants fuel, (n < fuel)%nat → received wants fuel resp = Some data.
Proof.
  intros Hm Hset Hmc Hru Hmm Hask Hun Hp Hrd Hds Hih Hv.
  destruct (started_options _ _ _ _ _ _ _ _ _ _ _ _ _ Hm Hset Hmc Hask) as (cors & Hpl & Hex & Hall).
  split; [done|]. intros svc Hin Hs. rewrite (Hall svc _ Hin Hs). by apply (handler_received _ _ _ req' p meta).
Qed.

End Started.

(** ** Witnesses *)

(** A toy codec: the name of the coding in front. *)
#[export] Instance codec_sample : CodecC.
Proof.
  refine {| encode := λ c _ s, as_str c +:+ (":" +:+ s); decode := λ c s, strip_prefix (as_str c +:+ ":") s |}.
  intros c l s _. by rewrite strip_prefix_Some, append_assoc.
Defined.

Definition client_fs : FileSystem :=
  table_fs [dir_node "/srv"; dir_node "/a"; file_node "/a/a.txt" "hello" 5000000000;
            file_node "/a/a.txt.gz" "gzip:hello" 5000000000; file_node "/etc/sws.toml" "vhosts" 5000000000].

Definition client_argv : list string := ["static-web-server"; "--root=/srv"; "--compression-static"; "--config-file=/etc/sws.toml"].

Definition client_main : Logged (Outcome (Hnet := net_sample)) :=
  main sample_build (λ _, Ok ()) (Some 4%Z) (λ n, (n, 7)) (λ _ _, Ok ()) client_fs client_argv (λ _, None).

Definition client_advanced : Advanced := {|
  adv_headers := None; adv_redirects := None;
  adv_rewrites := Some [{| rw_source := "/old"; rw_destination := "/a.txt"; rw_redirect := None |}];
  adv_virtual_hosts := Some [{| vh_host := "a.com"; vh_root := "/a" |}]; adv_memory_cache := None
|}.

Lemma client_gets_file_witness :
  let headers := hm_insert H_HOST "a.com" (hm_insert H_ACCEPT_ENCODING "gzip, br" hm_new) in
  match outcome client_main with
  | Ok (Serving _ svcs) =>
      ∃ svc resp n, svc ∈ svcs
        ∧ service_answer client_fs {| w_fs := client_fs; w_store := None; w_metrics := None |} svc
            (get_request "/old" headers) = Ok resp
        ∧ ∀ wants fuel, (n < fuel)%nat → received wants fuel resp = Some "hello"
  | _ => False
  end.
Proof.
  intros headers.
  assert (match outcome client_main with Ok (Serving _ _) => True | _ => False end) as Hs by by vm_compute.
  assert (match outcome (settings_read client_fs true true client_argv (λ _, None)) with
          | Ok {| s_general := g; s_advanced := adv |} =>
              adv = Some client_advanced ∧ g_root g = "/srv" ∧ g_maintenance_mode g = false
              ∧ g_health g = false ∧ g_experimental_metrics g = false ∧ g_basic_auth g = ""
              ∧ g_disable_symlinks g = false ∧ g_ignore_hidden_files g = false
          | _ => False end) as Hg by (vm_compute; repeat split; reflexivity).
  destruct (outcome client_main) as [[l|l|threads svcs|]|e|] eqn:E;
    [destruct Hs|destruct Hs| |destruct Hs|destruct Hs|destruct Hs].
  destruct (outcome (settings_read client_fs true true client_argv (λ _, None))) as [[g adv]|e|] eqn:Hset;
    [|destruct Hg|destruct Hg].
  destruct Hg as (-> & Hr & Hm & Hh & Hme & Hb & Hd & Hi).
  destruct (client_gets_file (Hnet := net_sample) sample_build (λ _, Ok ()) (Some 4%Z)
    (λ n, (n, 7)) (λ _ _, Ok ()) client_fs _ _ threads svcs g (Some client_advanced) None
    (get_request "/old" headers) (get_request "/a.txt" headers)
    "/a/a.txt" (node_meta (file_node "/a/a.txt" "hello" 5000000000)) "hello" E Hset eq_refl)
    as [(svc & Hin & Hsv) Hall].
  - split; [discriminate..|reflexivity].
  - exact Hm.
  - split; [vm_compute; reflexivity..|rewrite Hh; discriminate|rewrite Hme; discriminate|].
    rewrite Hb. intros Hne. destruct Hne. vm_compute. reflexivity.
  - repeat split; vm_compute; reflexivity.
  - rewrite Hr. vm_compute. reflexivity.
  - split; [vm_compute; reflexivity..| |vm_compute; reflexivity|vm_compute; by split].
    eexists. split; [vm_compute; reflexivity|]. by split.
  - rewrite Hd. discriminate.
  - rewrite Hi. discriminate.
  - intros _ v Hv. vm_compute in Hv. injection Hv as <-. exists "gzip:hello".
    split; [|vm_compute; reflexivity].
    split; [vm_compute; reflexivity..| |vm_compute; reflexivity|vm_compute; by split].
    eexists. split; [vm_compute; reflexivity|]. by split.
  - destruct (Hall svc Hin Hsv) as (resp & n & Hresp & _ & _ & Hrec). exists svc, resp, n. auto.
Defined.
