(* ===== verification/Secrets.v ===== *)
(** * Credentials and the start-up log

    Two runs of the program whose settings differ in the credentials of the basic
    authentication only (both set or both empty): they write the same lines, from the
    reading of the settings to the services, and fail alike; the line of [log_addr]
    for a request does not depend on them either, nor on the request's
    [Authorization] header.  The proof is relational: [same_log] of
    [Logger] with the relation "equal but for the credentials" on the values. *)

From S2P Require Import Prelude RustStr Logger IpAddr RustPath Fs FsStream ContentCoding Http.
From S2P Require Import HttpInstances Opts Settings Cli FsPath FsMeta ErrorPage Compression.
From S2P Require Import CompressionStatic MemCache DirectoryListing StaticFiles Cors ControlHeaders.
From S2P Require Import SecurityHeaders Health Metrics MaintenanceMode FallbackPage VirtualHosts.
From S2P Require Import BasicAuth HttpsRedirect LogAddr Handler Transport Tls Service Server StartServer.
From S2P Require Import Main.

Open Scope sws_scope.

(** The settings with other credentials. *)
Definition with_basic_auth (auth : string) (g : General) : General :=
  ltac:(let eta := eval unfold with_config_file in (λ g, with_config_file (g_config_file g) g) in
        match eval pattern g_basic_auth in eta with
        | ?f _ => let set := eval cbv beta in (f (λ _, auth) g) in exact set
        end).

Section Secrets.
Context `{!HttpC, !HeadersC, !MatchC, !PercentC, !ListingC, !OriginC, !BcryptC, !ConfigC, !TracingC}.
Context `{Htls : !TlsC, Hnet : !NetC}.
Context (bufs : nat → nat * nat) (build_runtime : Z → Z → Result unit Error).
Context (a1 a2 : string).

(** Options that are equal but for the credentials [a1] and [a2]. *)
Definition but_auth (o1 o2 : RequestHandlerOpts) : Prop :=
  ∃ o, o1 = set_basic_auth (trim a1) o ∧ o2 = set_basic_auth (trim a2) o.

Definition same_service (s1 s2 : Listening) : Prop :=
  match s1, s2 with
  | TlsService acc1 r1, TlsService acc2 r2 =>
      acc1 = acc2 ∧ but_auth (rb_handler (ro_builder r1)) (rb_handler (ro_builder r2))
  | PlainService l1 r1, PlainService l2 r2 =>
      l1 = l2 ∧ but_auth (rb_handler (ro_builder r1)) (rb_handler (ro_builder r2))
  | RedirectService _ _ _ _, RedirectService _ _ _ _ => s1 = s2
  | _, _ => False
  end.

(** An [init] that only sets options other than the credentials, after logging what
    does not depend on them. *)
Ltac init_same := intros ? ? (o & -> & ->); repeat (apply same_log_same; intros _); apply same_log_ret.

Lemma maintenance_same b s f o1 o2 :
  but_auth o1 o2 → same_log but_auth (MaintenanceMode.init b s f o1) (MaintenanceMode.init b s f o2).
Proof.
  revert o1 o2. init_same.
  by exists (set_maintenance_mode_file f (set_maintenance_mode_status s (set_maintenance_mode b o))).
Qed.

Lemma compression_static_same b o1 o2 :
  but_auth o1 o2 → same_log but_auth (CompressionStatic.init b o1) (CompressionStatic.init b o2).
Proof. revert o1 o2. init_same. by exists (set_compression_static b o). Qed.

Lemma compression_same b l o1 o2 :
  but_auth o1 o2 → same_log but_auth (Compression.init b l o1) (Compression.init b l o2).
Proof. revert o1 o2. init_same. by exists (set_compression_level l (set_compression b o)). Qed.

Lemma control_headers_same b o1 o2 :
  but_auth o1 o2 → same_log but_auth (ControlHeaders.init b o1) (ControlHeaders.init b o2).
Proof. revert o1 o2. init_same. by exists (set_cache_control_headers b o). Qed.

Lemma security_headers_same b o1 o2 :
  but_auth o1 o2 → same_log but_auth (SecurityHeaders.init b o1) (SecurityHeaders.init b o2).
Proof. revert o1 o2. init_same. by exists (set_security_headers b o). Qed.

Lemma mem_cache_same store o1 o2 :
  but_auth o1 o2 →
  same_log (λ r1 r2, r1.1 = r2.1 ∧ but_auth r1.2 r2.2) (MemCache.init store o1) (MemCache.init store o2).
Proof.
  intros (o & -> & ->). unfold MemCache.init. cbn [advanced_opts set_basic_auth].
  destruct (advanced_opts o ≫= adv_memory_cache) as [mc|]; apply same_log_same; intros _.
  - destruct store; [split; [done|constructor]|]. apply same_log_ret. split; [done|].
    by exists (set_memory_cache (Some (mem_cache_opts_new (default 8192%Z (mc_max_file_size mc)))) o).
  - apply same_log_ret. split; [done|]. by exists o.
Qed.

Context (Hempty : is_empty (trim a1) = is_empty (trim a2)).

Lemma basic_auth_same o : same_log but_auth (BasicAuth.init a1 o) (BasicAuth.init a2 o).
Proof.
  unfold BasicAuth.init. cbn [basic_auth set_basic_auth]. rewrite Hempty.
  apply same_log_same. intros _. apply same_log_ret. by exists o.
Qed.

Lemma handler_opts_same fs gl g adv :
  same_log (λ r1 r2, r1.1 = r2.1 ∧ but_auth r1.2 r2.2)
    (handler_opts fs gl {| s_general := with_basic_auth a1 g; s_advanced := adv |})
    (handler_opts fs gl {| s_general := with_basic_auth a2 g; s_advanced := adv |}).
Proof.
  unfold handler_opts. cbv zeta. apply same_log_same; intros root. do 6 (apply same_log_same; intros _).
  cbn [s_general with_basic_auth g_index_files].
  destruct (bool_decide _); [split; [done|constructor]|]. apply same_log_same; intros _.
  do 4 (apply same_log_same; intros ?). apply same_log_same; intros r. apply same_log_same; intros o.
  eapply same_log_bind; [apply basic_auth_same|intros o1 o2 Ho; clear o].
  eapply same_log_bind; [by apply maintenance_same|clear o1 o2 Ho; intros o1 o2 Ho].
  eapply same_log_bind; [by apply compression_static_same|clear o1 o2 Ho; intros o1 o2 Ho].
  eapply same_log_bind; [by apply compression_same|clear o1 o2 Ho; intros o1 o2 Ho].
  eapply same_log_bind; [by apply control_headers_same|clear o1 o2 Ho; intros o1 o2 Ho].
  eapply same_log_bind; [by apply security_headers_same|clear o1 o2 Ho; intros o1 o2 Ho].
  eapply same_log_bind; [by apply mem_cache_same|]. intros [s1 o1'] [s2 o2'] [Hs Ho']. cbn in Hs, Ho' |- *.
  apply same_log_ret. by rewrite Hs.
Qed.

(** Services built from options that are equal but for the credentials. *)
Lemma start_http2_same fs g l addr o1 o2 :
  but_auth o1 o2 →
  same_log same_service (start_http2 fs bufs (with_basic_auth a1 g) l addr o1)
    (start_http2 fs bufs (with_basic_auth a2 g) l addr o2).
Proof.
  intros Ho. unfold start_http2. do 12 (apply same_log_same; intros ?). by apply same_log_ret.
Qed.

Lemma start_redirect_same g o1 o2 :
  but_auth o1 o2 →
  same_log same_service (start_redirect (with_basic_auth a1 g) o1) (start_redirect (with_basic_auth a2 g) o2).
Proof.
  intros (o & -> & ->). unfold start_redirect. do 7 (apply same_log_same; intros ?). by apply same_log_ret.
Qed.

Lemma start_http1_same l addr o1 o2 :
  but_auth o1 o2 → same_log same_service (start_http1 l addr o1) (start_http1 l addr o2).
Proof.
  intros Ho. unfold start_http1. do 4 (apply same_log_same; intros ?). by apply same_log_ret.
Qed.

Lemma start_server_same fs gl threads g adv :
  same_log (λ r1 r2, r1.1 = r2.1 ∧ Forall2 same_service r1.2 r2.2)
    (start_server fs bufs gl threads {| s_general := with_basic_auth a1 g; s_advanced := adv |})
    (start_server fs bufs gl threads {| s_general := with_basic_auth a2 g; s_advanced := adv |}).
Proof.
  unfold start_server. cbv zeta. do 4 (apply same_log_same; intros _).
  apply same_log_same; intros [l addr]. do 2 (apply same_log_same; intros _).
  eapply same_log_bind; [apply handler_opts_same|].
  intros [gl1 o1] [gl2 o2] [Hgl Ho]. cbn [fst snd] in Hgl, Ho |- *. subst gl2.
  cbn [s_general with_basic_auth g_http2 g_https_redirect].
  destruct (g_http2 g); [destruct (g_https_redirect g)|].
  - eapply same_log_bind; [by apply start_http2_same|]. intros h1 h2 Hh.
    eapply same_log_bind; [by apply start_redirect_same|]. intros r1 r2 Hr. apply same_log_same; intros _.
    apply same_log_ret. split; [done|]. by repeat constructor.
  - eapply same_log_bind; [by apply start_http2_same|]. intros h1 h2 Hh. apply same_log_same; intros _.
    apply same_log_ret. split; [done|]. by repeat constructor.
  - eapply same_log_bind; [by apply start_http1_same|]. intros h1 h2 Hh. apply same_log_same; intros _.
    apply same_log_ret. split; [done|]. by repeat constructor.
Qed.

(** What a run of the server ends in. *)
Definition same_outcome (o1 o2 : Outcome) : Prop :=
  match o1, o2 with
  | Serving n1 svcs1, Serving n2 svcs2 => n1 = n2 ∧ Forall2 same_service svcs1 svcs2
  | ExitFailure, ExitFailure => True
  | _, _ => False
  end.

Lemma run_server_same fs threads blocking g adv :
  same_log same_outcome
    (run_server_on_rt bufs build_runtime fs {| sv_opts := {| s_general := with_basic_auth a1 g; s_advanced := adv |};
       sv_worker_threads := threads; sv_max_blocking_threads := blocking |})
    (run_server_on_rt bufs build_runtime fs {| sv_opts := {| s_general := with_basic_auth a2 g; s_advanced := adv |};
       sv_worker_threads := threads; sv_max_blocking_threads := blocking |}).
Proof.
  unfold run_server_on_rt. do 3 (apply same_log_same; intros ?). cbv zeta. cbn [sv_opts sv_worker_threads].
  pose proof (start_server_same fs {| gl_store := None; gl_collector := false |} threads g adv) as Hs.
  revert Hs. generalize (start_server fs bufs {| gl_store := None; gl_collector := false |} threads
    {| s_general := with_basic_auth a1 g; s_advanced := adv |}).
  generalize (start_server fs bufs {| gl_store := None; gl_collector := false |} threads
    {| s_general := with_basic_auth a2 g; s_advanced := adv |}).
  intros [es2 r2] [es1 r1] [He Hr]. cbn in He, Hr. subst es2.
  destruct Hr as [[gl1 s1] [gl2 s2] [_ Hs]|e|]; (split; [done|by constructor]).
Qed.

(** The line of a request does not depend on the credentials, the configured ones or
    those of the request: of the headers it depends on [X-Forwarded-For] only. *)
Lemma request_line_same method_display uri_display o1 o2 req1 req2 addr :
  but_auth o1 o2 → req_method req1 = req_method req2 → req_uri req1 = req_uri req2 →
  hm_get (req_headers req1) H_X_FORWARDED_FOR = hm_get (req_headers req2) H_X_FORWARDED_FOR →
  LogAddr.pre_process method_display uri_display o1 req1 addr
  = LogAddr.pre_process method_display uri_display o2 req2 addr.
Proof.
  intros (o & -> & ->) Hm Hu Hf. unfold LogAddr.pre_process, remote_addrs, real_remote_ip, is_health_endpoint.
  by rewrite Hm, Hu, Hf.
Qed.

End Secrets.

(** ** From the command line *)

Section FromMain.
Context `{!HttpC, !HeadersC, !MatchC, !PercentC, !ListingC, !OriginC, !BcryptC, !ConfigC, !TracingC, !ClapC}.
Context `{Htls : !TlsC, Hnet : !NetC}.
Context (build_info : BuildInfo) (render : Generated → Result unit Error) (cpus : option Z)
        (bufs : nat → nat * nat) (build_runtime : Z → Z → Result unit Error).

(** Settings that are equal but for the credentials, both set or both empty. *)
Definition same_settings (s1 s2 : Settings) : Prop :=
  ∃ a1 a2 g adv, is_empty (trim a1) = is_empty (trim a2)
    ∧ s1 = {| s_general := with_basic_auth a1 g; s_advanced := adv |}
    ∧ s2 = {| s_general := with_basic_auth a2 g; s_advanced := adv |}.

(** The credentials of the file replace those of the command line; they take part
    in no other option. *)
Lemma file_general_basic_auth settings cf g a :
  file_general_options settings cf (with_basic_auth a g)
  = let? m := file_general_options settings cf g in
    Ok (with_basic_auth (default a (file_general settings ≫= f_basic_auth)) m).
Proof.
  unfold file_general_options. destruct (file_general settings) as [f|]; [|done].
  unfold merge_general. cbn [g_maintenance_mode_status with_basic_auth].
  by destruct (match f_maintenance_mode_status f with Some _ => _ | None => _ end).
Qed.

Lemma read_settings_same fs log_init g a1 a2 :
  is_empty (trim a1) = is_empty (trim a2) →
  same_log same_settings (read_settings fs log_init (with_basic_auth a1 g))
    (read_settings fs log_init (with_basic_auth a2 g)).
Proof.
  intros He. unfold read_settings. cbn [g_config_file g_log_level with_basic_auth].
  apply same_log_same; intros [[[settings cf]|] lines]; cbn [fst].
  - rewrite !file_general_basic_auth. destruct (file_general_options settings cf g) as [m|e|];
      [|split; [done|constructor]..]. cbn [rbind].
    eapply (same_log_bind (λ g1 g2, ∃ b1 b2, is_empty (trim b1) = is_empty (trim b2)
              ∧ g1 = with_basic_auth b1 m ∧ g2 = with_basic_auth b2 m)).
    { split; [done|]. constructor. eexists _, _. split; [|done]. by destruct (_ ≫= _). }
    intros ? ? (b1 & b2 & Hb & -> & ->). cbn [g_log_level with_basic_auth].
    do 2 (apply same_log_same; intros _). apply same_log_same; intros adv. apply same_log_ret.
    by exists b1, b2, m, adv.
  - apply same_log_same; intros _. apply same_log_ret. by exists a1, a2, g, None.
Qed.

(** What two processes with such settings do. *)
Definition same_process (o1 o2 : Outcome) : Prop :=
  match o1, o2 with
  | Serving _ _, Serving _ _ | ExitFailure, ExitFailure => ∃ a1 a2, same_outcome a1 a2 o1 o2
  | _, _ => o1 = o2
  end.

Lemma main_same fs argv1 env1 argv2 env2 g a1 a2 :
  is_empty (trim a1) = is_empty (trim a2) →
  parse_general argv1 env1 = Ok (with_basic_auth a1 g) →
  parse_general argv2 env2 = Ok (with_basic_auth a2 g) →
  same_log same_process (main build_info render cpus bufs build_runtime fs argv1 env1)
    (main build_info render cpus bufs build_runtime fs argv2 env2).
Proof.
  intros He Hp1 Hp2. unfold main. eapply (same_log_bind same_settings).
  { unfold settings_read. rewrite Hp1, Hp2.
    eapply (same_log_bind (λ g1 g2, g1 = with_basic_auth a1 g ∧ g2 = with_basic_auth a2 g));
      [by split; [|constructor]|]. intros ? ? [-> ->]. by apply read_settings_same. }
  intros ? ? (b1 & b2 & m & adv & Hb & -> & ->). cbn [s_general g_version g_commands with_basic_auth].
  destruct (g_version m); [by apply same_log_ret|]. destruct (g_commands m) as [[c mp d]|].
  { apply same_log_same; intros files. by apply same_log_ret. }
  eapply (same_log_bind (λ v1 v2, ∃ t k,
    v1 = {| sv_opts := {| s_general := with_basic_auth b1 m; s_advanced := adv |};
            sv_worker_threads := t; sv_max_blocking_threads := k |}
    ∧ v2 = {| sv_opts := {| s_general := with_basic_auth b2 m; s_advanced := adv |};
              sv_worker_threads := t; sv_max_blocking_threads := k |})).
  { unfold server_new, lift. destruct cpus as [n|]; (split; [done|]); cbn; constructor.
    by eexists _, _. }
  intros ? ? (t & k & -> & ->).
  eapply same_log_mono; [by apply (run_server_same bufs build_runtime b1 b2 Hb)|].
  intros [| | |] [| | |] Ho; try done; by exists b1, b2.
Qed.

End FromMain.

Section Theorems.
Context `{!HttpC, !HeadersC, !MatchC, !PercentC, !ListingC, !OriginC, !BcryptC, !ConfigC, !TracingC, !ClapC}.
Context `{Htls : !TlsC, Hnet : !NetC}.
Context (build_info : BuildInfo) (render : Generated → Result unit Error) (cpus : option Z)
        (bufs : nat → nat * nat) (build_runtime : Z → Z → Result unit Error).
Context (method_display : Method → string) (uri_display : Uri → string).

(** C17. The start-up log does not depend on the credentials.  Two runs of the program
    whose command lines and environments differ in the basic-auth credentials only,
    both set or both empty (the log says which), with any configuration file, write
    the same lines from the reading of the settings until they serve, at every log
    level, and start the same number of services.  The line that [log_addr] then
    writes when a request arrives is the same in both runs, service by service, for
    two requests that may differ in every header but [X-Forwarded-For], so in
    particular in [Authorization].  The lines that report a failed authentication
    are not part of the claim. *)
Theorem startup_log_hides_credentials fs argv1 env1 argv2 env2 general auth1 auth2 :
  is_empty (trim auth1) = is_empty (trim auth2) →
  parse_general argv1 env1 = Ok (with_basic_auth auth1 general) →
  parse_general argv2 env2 = Ok (with_basic_auth auth2 general) →
  let run argv env := main build_info render cpus bufs build_runtime fs argv env in
  (∀ targets, shown targets (events (run argv1 env1)) = shown targets (events (run argv2 env2)))
  ∧ ∀ n svcs1, outcome (run argv1 env1) = Ok (Serving n svcs1) →
      ∃ svcs2, outcome (run argv2 env2) = Ok (Serving n svcs2) ∧ length svcs1 = length svcs2
        ∧ ∀ i svc1 svc2 o1 o2 req1 req2 addr,
            svcs1 !! i = Some svc1 → svcs2 !! i = Some svc2 →
            served_opts svc1 = Some o1 → served_opts svc2 = Some o2 →
            req_method req1 = req_method req2 → req_uri req1 = req_uri req2 →
            hm_get (req_headers req1) H_X_FORWARDED_FOR = hm_get (req_headers req2) H_X_FORWARDED_FOR →
            LogAddr.pre_process method_display uri_display o1 req1 addr
            = LogAddr.pre_process method_display uri_display o2 req2 addr.
Proof.
  intros Hempty Hp1 Hp2 run.
  assert (same_log same_process (run argv1 env1) (run argv2 env2)) as Hsame
    by exact (main_same build_info render cpus bufs build_runtime fs _ _ _ _ _ _ _ Hempty Hp1 Hp2).
  revert Hsame. generalize (run argv1 env1) (run argv2 env2). intros [es1 r1] [es2 r2] [He Hr]. cbn in He, Hr |- *.
  subst es2. split; [done|]. intros n svcs1 ->.
  inversion Hr as [x y Hab Hx Hy| |]; subst. destruct y as [| |n2 svcs2|]; [done..| |done].
  destruct Hab as (a1 & a2 & <- & Hs). exists svcs2. split; [done|]. split; [by eapply Forall2_length|].
  intros i svc1 svc2 o1 o2 req1 req2 addr Hi1 Hi2 Ho1 Ho2 Hm Hu Hf.
  pose proof (Forall2_lookup_lr _ _ _ _ _ _ Hs Hi1 Hi2) as Hsv.
  apply (request_line_same a1 a2); try done.
  destruct svc1, svc2; simplify_eq/=; try done; by destruct Hsv.
Qed.

End Theorems.

(** ** Witnesses *)

Definition secret_argv (auth : string) : list string :=
  ["static-web-server"; "--root=/srv"; "--basic-auth=" +:+ auth].

Definition secret_main (auth : string) : Logged (Outcome (Hnet := net_sample)) :=
  main sample_build (λ _, Ok ()) (Some 4%Z) (λ n, (n, 7)) (λ _ _, Ok ()) start_fs (secret_argv auth) (λ _, None).

Lemma credentials_witness :
  shown (server_targets ERROR) (events (secret_main "admin:h$secret"))
  = shown (server_targets ERROR) (events (secret_main "root:h$toor")).
Proof.
  assert (parse_general (secret_argv "admin:h$secret") (λ _, None)
          = Ok (with_basic_auth "admin:h$secret" (sample_general "./config.toml" "/srv"))) as Hp1
    by (vm_compute; reflexivity).
  assert (parse_general (secret_argv "root:h$toor") (λ _, None)
          = Ok (with_basic_auth "root:h$toor" (sample_general "./config.toml" "/srv"))) as Hp2
    by (vm_compute; reflexivity).
  exact (proj1 (startup_log_hides_credentials (Hnet := net_sample) sample_build (λ _, Ok ()) (Some 4%Z) (λ n, (n, 7))
    (λ _ _, Ok ()) (λ _, "GET") (λ _, "/") start_fs (secret_argv "admin:h$secret") (λ _, None)
    (secret_argv "root:h$toor") (λ _, None) (sample_general "./config.toml" "/srv") "admin:h$secret" "root:h$toor"
    eq_refl Hp1 Hp2) (server_targets ERROR)).
Defined.
